(** * Sheets-to-MySQL synchronisation engine: a shallow embedding

    The development follows the TypeScript sources of the backend:
    the change detector, the conflict resolver, the retry wrapper, the
    dead-letter queue, the circuit breaker, the MySQL adapter, the two
    directional workers and the orchestrator, then the rate limiter and the
    guards of the sheet adapter, the in-memory job queue and the sync that
    creating a configuration runs.  Every definition names the source
    function it embeds.

    Conventions.
    - A JavaScript value is a term of [value].  Numbers are the
      integer-valued ones ([Z]), written by [String] in decimal notation as
      JavaScript writes them below [1e21].
    - A string is a string of ASCII characters; [trim] and [toLowerCase]
      are defined on these.
    - The token bucket of the rate limiter counts in exact rationals ([Q])
      where the source rounds to doubles.
    - A [Date] is its time value in milliseconds, [None] for an invalid date
      (whose time value is NaN).
    - A row ([RowData], [Record<string, unknown>]) is an association list in
      insertion order, as [Object.keys] enumerates it.
    - A [Map] object is a [gmap].
    - Asynchronous code is run to completion: every [await] is a call.
      The time a timer of [retry] takes is charged to the clock of the
      world by [sleep].
    - A name that a file uses without importing or declaring it is looked
      up on the global object ([Worker.Globals]); the program itself binds
      none ([Worker.programGlobals]).
    - The spreadsheet service is no code of the repository: how it reads an
      A1 range over the grid is carried by the sheet ([Sheets.Ranges]). *)

From Stdlib Require Import ZArith List String Ascii Bool Lia QArith Qminmax Lqa.
From Stdlib Require Import Sorted Permutation.
From stdpp Require Import base option list sorting gmap strings pretty.
Import ListNotations.

Local Open Scope string_scope.
Local Open Scope Z_scope.
Local Open Scope list_scope.
Local Set Warnings "-register-all".

(* ===================================================================== *)
(** * JavaScript values *)
(* ===================================================================== *)

Module Js.

Definition Date := option Z.

Inductive value : Type :=
| VUndefined
| VNull
| VBool (b : bool)
| VNum (n : Z)
| VStr (s : string)
| VDate (t : Date)
| VObj (fields : list (string * value)).

Definition RowData := list (string * value).

(** [a > b] on two dates compares the time values; every comparison with
    NaN is false. *)
Definition date_gt (a b : Date) : bool :=
  match a, b with
  | Some x, Some y => y <? x
  | _, _ => false
  end.

(** [a.getTime() === b.getTime()]; NaN is not equal to itself. *)
Definition date_time_eq (a b : Date) : bool :=
  match a, b with
  | Some x, Some y => x =? y
  | _, _ => false
  end.

(** [obj[k]]: the own property [k], [undefined] when absent. *)
Fixpoint prop_get (obj : RowData) (k : string) : value :=
  match obj with
  | [] => VUndefined
  | (k', v) :: rest => if String.eqb k' k then v else prop_get rest k
  end.

Definition prop_has (obj : RowData) (k : string) : bool :=
  existsb (String.eqb k) (map fst obj).

(** [obj[k] = v]: an existing property keeps its place, a new one goes
    last. *)
Fixpoint prop_set (obj : RowData) (k : string) (v : value) : RowData :=
  match obj with
  | [] => [(k, v)]
  | (k', v') :: rest =>
      if String.eqb k' k then (k, v) :: rest else (k', v') :: prop_set rest k v
  end.

Definition keys (obj : RowData) : list string := map fst obj.

Definition is_nullish (v : value) : bool :=
  match v with
  | VUndefined | VNull => true
  | _ => false
  end.

(** [typeof v === 'object'] for a value that is not [null]. *)
Definition is_object (v : value) : bool :=
  match v with
  | VDate _ | VObj _ => true
  | _ => false
  end.

(** Truthiness, as [if (v)] and [!v] test it. *)
Definition truthy (v : value) : bool :=
  match v with
  | VUndefined | VNull => false
  | VBool b => b
  | VNum n => negb (n =? 0)
  | VStr s => negb (String.eqb s "")
  | VDate _ | VObj _ => true
  end.

(** White space that [String.prototype.trim] removes, among the ASCII
    characters: TAB, LF, VT, FF, CR and SPACE. *)
Definition is_space (c : ascii) : bool :=
  let n := nat_of_ascii c in
  ((9 <=? n)%nat && (n <=? 13)%nat) || (n =? 32)%nat.

Fixpoint trim_start (s : string) : string :=
  match s with
  | String c rest => if is_space c then trim_start rest else s
  | EmptyString => EmptyString
  end.

(** Drops the trailing white space: a character is kept when it is not
    white space or when something is kept after it. *)
Fixpoint trim_end (s : string) : string :=
  match s with
  | EmptyString => EmptyString
  | String c rest =>
      match trim_end rest with
      | EmptyString => if is_space c then EmptyString else String c EmptyString
      | kept => String c kept
      end
  end.

Definition trim (s : string) : string := trim_end (trim_start s).

Section ToString.

(** [String(d)] for a [Date] depends on the time zone of the host. *)
Variable dateToString : Date -> string.

(** [String(v)].  A number is written in decimal notation, as JavaScript
    writes the integers below [1e21]. *)
Definition toString (v : value) : string :=
  match v with
  | VUndefined => "undefined"
  | VNull => "null"
  | VBool true => "true"
  | VBool false => "false"
  | VNum n => pretty n
  | VStr s => s
  | VDate t => dateToString t
  | VObj _ => "[object Object]"
  end.

End ToString.

(** A value that [valuesEqual] compares by its string form with itself:
    neither a plain object nor an invalid date. *)
Definition scalar (v : value) : bool :=
  match v with
  | VObj _ | VDate None => false
  | _ => true
  end.

End Js.

Export Js.

(* ===================================================================== *)
(** * Change detector (sync/change-detector.ts) *)
(* ===================================================================== *)

Module ChangeDetector.

(** A primary-key value, [string | number].  A [Map] compares its keys with
    SameValueZero, so the string ["1"] and the number [1] are two keys. *)
Inductive RowId : Type :=
| IdStr (s : string)
| IdNum (n : Z).

#[global] Instance RowId_eq_dec : EqDecision RowId.
Proof. solve_decision. Defined.

Definition RowId_to_sum (k : RowId) : string + Z :=
  match k with IdStr s => inl s | IdNum n => inr n end.

Definition RowId_of_sum (x : string + Z) : RowId :=
  match x with inl s => IdStr s | inr n => IdNum n end.

#[global] Instance RowId_countable : Countable RowId :=
  inj_countable' RowId_to_sum RowId_of_sum
    (fun k => match k with IdStr _ => eq_refl | IdNum _ => eq_refl end).

Record ChangeDetectorOptions : Type := {
  primaryKey : string;
  ignoreColumns : option (list string)
}.

Record Update : Type := { identifier : RowId; data : RowData }.

Record ChangeDetectionResult : Type := {
  inserts : list RowData;
  updates : list Update;
  deletes : list RowId
}.

Section Detector.

Variable dateToString : Date -> string.
Variable options : ChangeDetectorOptions.

(** [getPrimaryKeyValue]. *)
Definition getPrimaryKeyValue (row : RowData) : option RowId :=
  match prop_get row (primaryKey options) with
  | VUndefined | VNull => None
  | VStr s => if String.eqb s "" then None else Some (IdStr s)
  | VNum n => Some (IdNum n)
  | v => Some (IdStr (toString dateToString v))
  end.

(** [valuesEqual].  The recursion goes through the own properties of [a].
    A [Date] has no own enumerable property, so next to a plain object it
    compares as an object without keys. *)
Fixpoint valuesEqual (a b : value) {struct a} : bool :=
  let primitives :=
    String.eqb (trim (toString dateToString a)) (trim (toString dateToString b)) in
  match a with
  | VUndefined | VNull => is_nullish b
  | VBool _ | VNum _ | VStr _ =>
      if is_nullish b then false else primitives
  | VDate ta =>
      match b with
      | VUndefined | VNull => false
      | VDate tb => date_time_eq ta tb
      | VObj fb => (0 =? length fb)%nat
      | _ => primitives
      end
  | VObj fa =>
      match b with
      | VUndefined | VNull => false
      | VDate _ => (length fa =? 0)%nat
      | VObj fb =>
          if (length fa =? length fb)%nat
          then (fix each (fs : list (string * value)) : bool :=
                  match fs with
                  | [] => true
                  | (key, v) :: fs' =>
                      if valuesEqual v (prop_get fb key) then each fs' else false
                  end) fa
          else false
      | _ => primitives
      end
  end.

Definition ignoreSet : list string :=
  primaryKey options :: default [] (ignoreColumns options).

Definition ignored (column : string) : bool :=
  existsb (String.eqb column) ignoreSet.

(** [hasChanged]: the loop returns [true] at the first column, among the
    columns of both rows, that is not ignored and whose values differ. *)
Definition hasChanged (current baseline : RowData) : bool :=
  let allColumns := keys current ++ keys baseline in
  existsb
    (fun column =>
       negb (ignored column)
       && negb (valuesEqual (prop_get current column) (prop_get baseline column)))
    allColumns.

(** The two loops that fill [baselineMap] and [currentMap]. *)
Definition buildMap (rows : list RowData) : gmap RowId RowData :=
  fold_left
    (fun m row =>
       match getPrimaryKeyValue row with
       | Some key => <[key := row]> m
       | None => m
       end)
    rows ∅.

(** The body of the loop over [current]: an insert or an update is
    pushed. *)
Definition currentStep (baselineMap : gmap RowId RowData)
    (result : ChangeDetectionResult) (row : RowData) : ChangeDetectionResult :=
  match getPrimaryKeyValue row with
  | None => result
  | Some key =>
      match baselineMap !! key with
      | None =>
          {| inserts := inserts result ++ [row];
             updates := updates result;
             deletes := deletes result |}
      | Some baselineRow =>
          if hasChanged row baselineRow
          then {| inserts := inserts result;
                  updates := updates result
                               ++ [{| identifier := key; data := row |}];
                  deletes := deletes result |}
          else result
      end
  end.

(** The loop over [current]. *)
Definition detectCurrent (baselineMap : gmap RowId RowData)
    (current : list RowData) (result : ChangeDetectionResult)
    : ChangeDetectionResult :=
  fold_left (currentStep baselineMap) current result.

(** The body of the loop over [baseline]: a delete is pushed. *)
Definition baselineStep (currentMap : gmap RowId RowData)
    (result : ChangeDetectionResult) (row : RowData) : ChangeDetectionResult :=
  match getPrimaryKeyValue row with
  | None => result
  | Some key =>
      match currentMap !! key with
      | Some _ => result
      | None =>
          {| inserts := inserts result;
             updates := updates result;
             deletes := deletes result ++ [key] |}
      end
  end.

(** The loop over [baseline]. *)
Definition detectBaseline (currentMap : gmap RowId RowData)
    (baseline : list RowData) (result : ChangeDetectionResult)
    : ChangeDetectionResult :=
  fold_left (baselineStep currentMap) baseline result.

(** [detect]. *)
Definition detect (current baseline : list RowData) : ChangeDetectionResult :=
  let result := {| inserts := []; updates := []; deletes := [] |} in
  let baselineMap := buildMap baseline in
  let currentMap := buildMap current in
  let result := detectCurrent baselineMap current result in
  detectBaseline currentMap baseline result.

(** ** What the laws speak about, said on the row sequences themselves *)

(** The row carries a primary-key value that is not missing, not null and
    not empty. *)
Definition hasPrimaryKey (row : RowData) : Prop :=
  let v := prop_get row (primaryKey options) in
  v <> VUndefined /\ v <> VNull /\ v <> VStr "".

(** No row of [rows] carries the key [key]. *)
Definition keyAbsent (key : RowId) (rows : list RowData) : bool :=
  forallb (fun row => negb (bool_decide (getPrimaryKeyValue row = Some key))) rows.

(** The row that a keyed map built from [rows] holds for [key]: the last
    one. *)
Definition lastWithKey (key : RowId) (rows : list RowData) : option RowData :=
  fold_left
    (fun found row =>
       if bool_decide (getPrimaryKeyValue row = Some key) then Some row else found)
    rows None.

Definition rowAbsentFrom (rows : list RowData) (row : RowData) : bool :=
  match getPrimaryKeyValue row with
  | Some key => keyAbsent key rows
  | None => false
  end.

Definition updateOf (baseline : list RowData) (row : RowData) : option Update :=
  match getPrimaryKeyValue row with
  | Some key =>
      match lastWithKey key baseline with
      | Some baselineRow =>
          if hasChanged row baselineRow
          then Some {| identifier := key; data := row |}
          else None
      | None => None
      end
  | None => None
  end.

End Detector.

End ChangeDetector.

Export ChangeDetector.

(* ===================================================================== *)
(** * Conflict resolver (sync/conflict-resolver.ts) *)
(* ===================================================================== *)

Module ConflictResolver.

Inductive ConflictStrategy : Type :=
| LAST_WRITE_WINS
| SHEET_WINS
| DB_WINS
| MANUAL.

Inductive Winner : Type :=
| WinnerSheet
| WinnerDb
| WinnerManual.

Record DetectedConflict : Type := {
  rowId : RowId;
  sheetValue : RowData;
  dbValue : RowData;
  sheetTimestamp : Date;
  dbTimestamp : Date;
  conflictingColumns : list string
}.

Record ResolvedConflict : Type := {
  resolvedRowId : RowId;
  winner : Winner;
  resolvedValue : option RowData;
  strategy : ConflictStrategy
}.

(** [resolveLWW]. *)
Definition resolveLWW (conflict : DetectedConflict) : ResolvedConflict :=
  let winner :=
    if date_gt (sheetTimestamp conflict) (dbTimestamp conflict)
    then WinnerSheet else WinnerDb in
  let resolvedValue :=
    match winner with
    | WinnerSheet => sheetValue conflict
    | _ => dbValue conflict
    end in
  {| resolvedRowId := rowId conflict;
     winner := winner;
     resolvedValue := Some resolvedValue;
     strategy := LAST_WRITE_WINS |}.

(** [resolveSheetWins]. *)
Definition resolveSheetWins (conflict : DetectedConflict) : ResolvedConflict :=
  {| resolvedRowId := rowId conflict;
     winner := WinnerSheet;
     resolvedValue := Some (sheetValue conflict);
     strategy := SHEET_WINS |}.

(** [resolveDbWins]. *)
Definition resolveDbWins (conflict : DetectedConflict) : ResolvedConflict :=
  {| resolvedRowId := rowId conflict;
     winner := WinnerDb;
     resolvedValue := Some (dbValue conflict);
     strategy := DB_WINS |}.

(** [resolveManual]. *)
Definition resolveManual (conflict : DetectedConflict) : ResolvedConflict :=
  {| resolvedRowId := rowId conflict;
     winner := WinnerManual;
     resolvedValue := None;
     strategy := MANUAL |}.

(** [resolveConflict]. *)
Definition resolveConflict (conflict : DetectedConflict)
    (strategy : ConflictStrategy) : ResolvedConflict :=
  match strategy with
  | LAST_WRITE_WINS => resolveLWW conflict
  | SHEET_WINS => resolveSheetWins conflict
  | DB_WINS => resolveDbWins conflict
  | MANUAL => resolveManual conflict
  end.

End ConflictResolver.

Export ConflictResolver.

(* ===================================================================== *)
(** * Dead-letter queue (sync/dead-letter-queue.ts) *)
(* ===================================================================== *)

Module DeadLetterQueue.

Inductive FailureReason : Type :=
| max_retries
| non_retryable_error
| timeout.

(** A dead letter.  Its [stackTrace], the text an engine gives the [stack]
    of an error, is left out. *)
Record DeadLetterEntry : Type := {
  jobId : string;
  payload : value;
  error : string;
  attemptsMade : Z;
  firstAttemptAt : Date;
  lastAttemptAt : Date;
  failureReason : FailureReason
}.

(** The object state: the [entries] array. *)
Record DeadLetterQueue : Type := { entries : list DeadLetterEntry }.

Definition maxSize : nat := 1000.

Definition empty : DeadLetterQueue := {| entries := [] |}.

(** [add]: [push], then [shift] when the array has outgrown [maxSize]. *)
Definition add (entry : DeadLetterEntry) (q : DeadLetterQueue) : DeadLetterQueue :=
  let pushed := entries q ++ [entry] in
  if (maxSize <? length pushed)%nat
  then {| entries := tl pushed |}
  else {| entries := pushed |}.

(** [getAll]. *)
Definition getAll (q : DeadLetterQueue) : list DeadLetterEntry := entries q.

(** [getDepth]. *)
Definition getDepth (q : DeadLetterQueue) : nat := length (entries q).

(** [clear]. *)
Definition clear (q : DeadLetterQueue) : DeadLetterQueue := {| entries := [] |}.

(** A run of [add] calls, oldest first. *)
Definition addAll (es : list DeadLetterEntry) (q : DeadLetterQueue)
    : DeadLetterQueue :=
  fold_left (fun q entry => add entry q) es q.

End DeadLetterQueue.

(* ===================================================================== *)
(** * Promises, run to completion *)
(* ===================================================================== *)

Module Promise.

(** What a [throw] carries: an [Error] object with its message, or any
    other value ([undefined] included). *)
Inductive thrown : Type :=
| ThrownError (message : string)
| ThrownValue (v : value).

(** A settled promise. *)
Inductive outcome (A : Type) : Type :=
| Returned (a : A)
| Thrown (e : thrown).

Arguments Returned {A} a.
Arguments Thrown {A} e.

(** An asynchronous function over a world [W]: it runs, changes the world
    and settles. *)
Definition async (W A : Type) : Type := W -> W * outcome A.

(** The outcome of the invocation number [k] (from 0) when the function is
    invoked again and again, each time in the world the previous invocation
    left. *)
Fixpoint invocation {W A : Type} (fn : async W A) (w : W) (k : nat)
    : W * outcome A :=
  match k with
  | O => fn w
  | S k' => fn (fst (invocation fn w k'))
  end.

(** The world after [n] invocations in a row. *)
Definition worldAfter {W A : Type} (fn : async W A) (w : W) (n : nat) : W :=
  match n with
  | O => w
  | S k => fst (invocation fn w k)
  end.

(** Sequencing: [return], [await m; k], [throw]. *)
Definition ret {W A : Type} (a : A) : async W A := fun w => (w, Returned a).

Definition bind {W A B : Type} (m : async W A) (k : A -> async W B) : async W B :=
  fun w =>
    match m w with
    | (w1, Returned a) => k a w1
    | (w1, Thrown e) => (w1, Thrown e)
    end.

Definition throw {W A : Type} (e : thrown) : async W A := fun w => (w, Thrown e).

(** [try { body } catch (error) { handler }]. *)
Definition tryCatch {W A : Type} (body : async W A) (handler : thrown -> async W A)
    : async W A :=
  fun w =>
    match body w with
    | (w1, Returned a) => (w1, Returned a)
    | (w1, Thrown e) => handler e w1
    end.

(** [try { body } finally { cleanup }]: the cleanup runs on both exits, and
    what it throws replaces the outcome of the body. *)
Definition tryFinally {W A : Type} (body : async W A) (cleanup : async W unit)
    : async W A :=
  fun w =>
    match body w with
    | (w1, settled) =>
        match cleanup w1 with
        | (w2, Returned _) => (w2, settled)
        | (w2, Thrown e) => (w2, Thrown e)
        end
    end.

Definition read {W A : Type} (f : W -> A) : async W A := fun w => (w, Returned (f w)).

Definition modify {W : Type} (f : W -> W) : async W unit := fun w => (f w, Returned tt).

(** A function over a part [V] of the world, run in the whole world. *)
Definition zoom {W V A : Type} (getV : W -> V) (setV : V -> W -> W)
    (m : async V A) : async W A :=
  fun w => let '(v1, settled) := m (getV w) in (setV v1 w, settled).

(** [for (const x of xs) { await body(x) }]. *)
Fixpoint forEach {W X : Type} (xs : list X) (body : X -> async W unit)
    : async W unit :=
  match xs with
  | [] => ret tt
  | x :: rest => bind (body x) (fun _ => forEach rest body)
  end.

(** A [for] loop whose body ends with [rowsAffected++]. *)
Fixpoint forEachCounting {W X : Type} (xs : list X) (body : X -> async W unit)
    (rowsAffected : Z) : async W Z :=
  match xs with
  | [] => ret rowsAffected
  | x :: rest =>
      bind (body x) (fun _ => forEachCounting rest body (rowsAffected + 1))
  end.

(** Every run of [m] from a world where [P] holds ends in a world where
    [P] holds again and that [R] relates to the first, whatever the
    outcome. *)
Definition Run {W A : Type} (P : W -> Prop) (R : W -> W -> Prop)
    (m : async W A) : Prop :=
  forall w, P w -> P (fst (m w)) /\ R w (fst (m w)).

End Promise.

Export Promise.

Declare Scope async_scope.
Delimit Scope async_scope with async.
Notation "x <- m ;; k" := (bind m (fun x => k))
  (at level 100, m at next level, right associativity) : async_scope.
Notation "m ;; k" := (bind m (fun _ => k))
  (at level 100, right associativity) : async_scope.

(* ===================================================================== *)
(** * Retry wrapper (utils/retry.ts) *)
(* ===================================================================== *)

Module Retry.

Local Open Scope Q_scope.

Record RetryOptions : Type := {
  maxAttempts : nat;
  baseDelay : Q;
  maxDelay : Q;
  jitter : bool;
  retryableErrors : option (thrown -> bool)
}.

Definition DEFAULT_RETRY_OPTIONS : RetryOptions :=
  {| maxAttempts := 5;
     baseDelay := 1000;
     maxDelay := 60000;
     jitter := true;
     retryableErrors := None |}.

(** [calculateDelay].  [random] is the value [Math.random()] returns, read
    only when the jitter is on.  Delays are rationals: the rounding of the
    floating-point operations is not modelled. *)
Definition calculateDelay (attempt : nat) (options : RetryOptions) (random : Q) : Q :=
  let exponentialDelay := baseDelay options * 2 ^ Z.of_nat attempt in
  let delay := Qmin exponentialDelay (maxDelay options) in
  if jitter options
  then
    let jitterAmount := delay * (2 # 10) in
    delay + (random * 2 - 1) * jitterAmount
  else delay.

(** What a run of [retry] does, in order: it invokes [fn] for an attempt,
    or it sleeps. *)
Inductive event : Type :=
| Invoked (attempt : nat)
| Slept (ms : Q).

Section Loop.

Context {W A : Type}.
Variable fn : async W A.
Variable opts : RetryOptions.

(** [random k] is what [Math.random()] returns for the delay that follows
    attempt [k]. *)
Variable random : nat -> Q.

(** The [for] loop of [retry]; [remaining] counts the iterations left,
    [attempt] is the loop variable. *)
Fixpoint retryLoop (remaining attempt : nat) (lastError : thrown)
    (w : W) (trace : list event) : W * list event * outcome A :=
  match remaining with
  | O => (w, trace, Thrown lastError)
  | S remaining' =>
      let '(w1, settled) := fn w in
      let trace1 := trace ++ [Invoked attempt] in
      match settled with
      | Returned a => (w1, trace1, Returned a)
      | Thrown error =>
          let nonRetryable :=
            match retryableErrors opts with
            | Some classify => negb (classify error)
            | None => false
            end in
          if nonRetryable then (w1, trace1, Thrown error)
          else
            let trace2 :=
              if (Z.of_nat attempt <? Z.of_nat (maxAttempts opts) - 1)%Z
              then trace1 ++ [Slept (calculateDelay attempt opts (random attempt))]
              else trace1 in
            retryLoop remaining' (S attempt) error w1 trace2
      end
  end.

(** [retry], with [opts] the options merged over the defaults.  Before the
    first attempt [lastError] is [undefined]. *)
Definition retry (w : W) : W * list event * outcome A :=
  retryLoop (maxAttempts opts) 0 (ThrownValue VUndefined) w [].

End Loop.

Section Timers.

Context {W A : Type}.

(** [sleep(ms)]: the world when the timer has fired. *)
Variable sleep : Q -> W -> W.
Variable fn : async W A.
Variable opts : RetryOptions.
Variable random : nat -> Q.

(** [retry] sleeps between two attempts only: every [await sleep(delay)] is
    followed by the next call of [fn].  So the attempt number [k + 1] starts
    in the world that sleeping [calculateDelay k] leaves; the number of the
    attempt is counted next to the world. *)
Definition afterSleep : async (W * nat) A :=
  fun '(w, attempt) =>
    let w0 :=
      match attempt with
      | O => w
      | S k => sleep (calculateDelay k opts (random k)) w
      end in
    let '(w1, settled) := fn w0 in
    ((w1, S attempt), settled).

(** [retry] in a world where time passes during the sleeps. *)
Definition retrySleeping (w : W) : W * list event * outcome A :=
  let '(w1, _, trace, settled) := retry afterSleep opts random (w, 0%nat) in
  (w1, trace, settled).

End Timers.

(** Whether [retry] goes on after [error]: without a classifier every
    error is retryable. *)
Definition retryable (opts : RetryOptions) (error : thrown) : bool :=
  match retryableErrors opts with
  | Some classify => classify error
  | None => true
  end.

(** [min(baseDelay * 2^k, maxDelay)]. *)
Definition cappedDelay (opts : RetryOptions) (k : nat) : Q :=
  Qmin (baseDelay opts * 2 ^ Z.of_nat k) (maxDelay opts).

(** The number of times a run invoked [fn]. *)
Definition invocations (trace : list event) : nat :=
  length (List.filter (fun ev => match ev with Invoked _ => true | _ => false end) trace).

(** The sleeps of a run, in order. *)
Definition sleeps (trace : list event) : list Q :=
  omap (fun ev => match ev with Slept ms => Some ms | _ => None end) trace.

(** The sleep that comes right before the invocation for [attempt], if
    any. *)
Fixpoint delayBefore (attempt : nat) (trace : list event) : option Q :=
  match trace with
  | Slept ms :: ((Invoked k :: _) as rest) =>
      if (k =? attempt)%nat then Some ms else delayBefore attempt rest
  | _ :: rest => delayBefore attempt rest
  | [] => None
  end.

(** The sleep that comes right after the invocation for [attempt], if
    any. *)
Fixpoint delayAfter (attempt : nat) (trace : list event) : option Q :=
  match trace with
  | Invoked k :: rest =>
      if (k =? attempt)%nat
      then match rest with Slept ms :: _ => Some ms | _ => None end
      else delayAfter attempt rest
  | _ :: rest => delayAfter attempt rest
  | [] => None
  end.

(** The trace of [n] attempts with a sleep between any two of them and none
    after the last. *)
Fixpoint schedule (opts : RetryOptions) (random : nat -> Q) (first n : nat)
    : list event :=
  match n with
  | O => []
  | S n' =>
      Invoked first ::
      match n' with
      | O => []
      | S _ =>
          Slept (calculateDelay first opts (random first))
          :: schedule opts random (S first) n'
      end
  end.

(** The time a run slept in all, in milliseconds. *)
Definition totalSleep (trace : list event) : Q :=
  fold_right Qplus 0 (sleeps trace).

End Retry.

(* ===================================================================== *)
(** * Circuit breaker (utils/circuit-breaker.ts) *)
(* ===================================================================== *)

Module CircuitBreaker.

Inductive CircuitBreakerState : Type :=
| CLOSED
| OPEN
| HALF_OPEN.

Record CircuitBreakerOptions : Type := {
  failureThreshold : Z;
  successThreshold : Z;
  timeout : Z;
  windowDuration : Z
}.

(** The fields of a [CircuitBreaker] object. *)
Record CircuitBreaker : Type := {
  state : CircuitBreakerState;
  failures : Z;
  successes : Z;
  lastFailureTime : Z;
  failureTimestamps : list Z;
  options : CircuitBreakerOptions;
  name : string
}.

(** The constructor, with the defaults of the options filled in. *)
Definition new (name : string) (failureThreshold successThreshold timeout
    windowDuration : option Z) : CircuitBreaker :=
  {| state := CLOSED;
     failures := 0;
     successes := 0;
     lastFailureTime := 0;
     failureTimestamps := [];
     options :=
       {| failureThreshold := default 5 failureThreshold;
          successThreshold := default 2 successThreshold;
          timeout := default 300000 timeout;
          windowDuration := default 60000 windowDuration |};
     name := name |}.

(** [onSuccess]. *)
Definition onSuccess (cb : CircuitBreaker) : CircuitBreaker :=
  let cb1 :=
    {| state := state cb; failures := failures cb; successes := successes cb;
       lastFailureTime := lastFailureTime cb; failureTimestamps := [];
       options := options cb; name := name cb |} in
  match state cb1 with
  | HALF_OPEN =>
      let successes' := successes cb1 + 1 in
      if successThreshold (options cb1) <=? successes'
      then
        {| state := CLOSED; failures := 0; successes := successes';
           lastFailureTime := lastFailureTime cb1;
           failureTimestamps := failureTimestamps cb1;
           options := options cb1; name := name cb1 |}
      else
        {| state := state cb1; failures := failures cb1; successes := successes';
           lastFailureTime := lastFailureTime cb1;
           failureTimestamps := failureTimestamps cb1;
           options := options cb1; name := name cb1 |}
  | _ => cb1
  end.

(** [onFailure]; [now] is what [Date.now()] returns there. *)
Definition onFailure (now : Z) (cb : CircuitBreaker) : CircuitBreaker :=
  let stamps :=
    List.filter (fun timestamp => now - timestamp <? windowDuration (options cb))
      (failureTimestamps cb ++ [now]) in
  let state' :=
    match state cb with
    | HALF_OPEN => OPEN
    | s => if failureThreshold (options cb) <=? Z.of_nat (length stamps)
           then OPEN else s
    end in
  {| state := state'; failures := failures cb; successes := successes cb;
     lastFailureTime := now; failureTimestamps := stamps;
     options := options cb; name := name cb |}.

Section Execute.

Context {W A : Type}.

(** [Date.now()] reads the clock of the world. *)
Variable clock : W -> Z.

Definition openError (cb : CircuitBreaker) : thrown :=
  ThrownError ("Circuit breaker " ++ name cb ++ " is OPEN")%string.

(** The guarded call at the end of [execute]. *)
Definition attempt (fn : async W A) (cb : CircuitBreaker) (w : W)
    : CircuitBreaker * W * outcome A :=
  let '(w1, settled) := fn w in
  match settled with
  | Returned result => (onSuccess cb, w1, Returned result)
  | Thrown error => (onFailure (clock w1) cb, w1, Thrown error)
  end.

(** [execute]. *)
Definition execute (fn : async W A) (cb : CircuitBreaker) (w : W)
    : CircuitBreaker * W * outcome A :=
  match state cb with
  | OPEN =>
      let now := clock w in
      if timeout (options cb) <? now - lastFailureTime cb
      then
        attempt fn
          {| state := HALF_OPEN; failures := failures cb; successes := 0;
             lastFailureTime := lastFailureTime cb;
             failureTimestamps := failureTimestamps cb;
             options := options cb; name := name cb |}
          w
      else (cb, w, Thrown (openError cb))
  | _ => attempt fn cb w
  end.

(** A wrapped function that counts its own invocations in the world. *)
Definition counting (fn : async W A) : async (W * nat) A :=
  fun '(w, n) => let '(w1, settled) := fn w in ((w1, S n), settled).

(** [n] calls of [execute] in a row, each in the world the previous one
    left. *)
Fixpoint executeAll (fn : async W A) (n : nat) (cb : CircuitBreaker) (w : W)
    : CircuitBreaker * W :=
  match n with
  | O => (cb, w)
  | S n' =>
      let '(cb1, w1) := executeAll fn n' cb w in
      let '(cb2, w2, _) := execute fn cb1 w1 in
      (cb2, w2)
  end.

End Execute.

End CircuitBreaker.

(* ===================================================================== *)
(** * The target database and its adapter (adapters/mysql.adapter.ts) *)
(* ===================================================================== *)

Module MySQL.

Inductive Operation : Type :=
| INSERT
| UPDATE
| DELETE.

(** A row of [__sync_change_log] ([MySQLChangeLogEntry]); [source_tag] is
    [None] for SQL NULL. *)
Record MySQLChangeLogEntry : Type := {
  id : Z;
  table_name : string;
  operation : Operation;
  row_data : RowData;
  changed_at : Z;
  processed : bool;
  source_tag : option string
}.

(** The statements the adapter builds in [insert], [update] and [delete]. *)
Inductive Dml : Type :=
| InsertOnDuplicateKeyUpdate (table : string) (data : RowData)
| UpdateWhere (table : string) (data : RowData) (whereClause : RowData)
| DeleteWhere (table : string) (whereClause : RowData).

(** The server side: one synced table with the triggers of
    [createTriggers] installed on it, and the change log. *)
Record Database : Type := {
  tableName : string;
  primaryKeyColumn : string;
  columns : list string;
  rows : list RowData;
  changeLog : list MySQLChangeLogEntry;
  nextChangeId : Z;
  currentTimestamp : Z
}.

(** Equality of two values, as the server compares a column with a
    parameter: the same value on both sides. *)
Fixpoint value_eqb (a b : value) {struct a} : bool :=
  match a, b with
  | VUndefined, VUndefined => true
  | VNull, VNull => true
  | VBool x, VBool y => Bool.eqb x y
  | VNum x, VNum y => x =? y
  | VStr x, VStr y => String.eqb x y
  | VDate (Some x), VDate (Some y) => x =? y
  | VDate None, VDate None => true
  | VObj fa, VObj fb =>
      (fix each (fa fb : list (string * value)) : bool :=
         match fa, fb with
         | [], [] => true
         | (ka, va) :: fa', (kb, vb) :: fb' =>
             String.eqb ka kb && value_eqb va vb && each fa' fb'
         | _, _ => false
         end) fa fb
  | _, _ => false
  end.

(** [column = ?]: never true when a side is NULL. *)
Definition sql_eq (a b : value) : bool :=
  negb (is_nullish a) && negb (is_nullish b) && value_eqb a b.

(** [c1 = ? AND c2 = ? ...] on a row. *)
Definition matches (whereClause row : RowData) : bool :=
  forallb (fun '(column, v) => sql_eq (prop_get row column) v) whereClause.

Definition knownColumns (db : Database) (data : RowData) : bool :=
  forallb (fun column => existsb (String.eqb column) (columns db)) (keys data).

(** [SET c1 = ?, c2 = ? ...] on a row. *)
Definition assign (data row : RowData) : RowData :=
  fold_left (fun row '(column, v) => prop_set row column v) data row.

(** A full row of the table: every column, NULL where none is given. *)
Definition fullRow (db : Database) (data : RowData) : RowData :=
  map (fun column =>
         (column, if prop_has data column then prop_get data column else VNull))
      (columns db).

(** What a trigger of [createTriggers] appends: the tag of the session,
    ['external'] when the session variable is NULL. *)
Definition logChange (op : Operation) (snapshot : RowData)
    (sessionTag : option string) (db : Database) : Database :=
  {| tableName := tableName db;
     primaryKeyColumn := primaryKeyColumn db;
     columns := columns db;
     rows := rows db;
     changeLog :=
       changeLog db ++
       [{| id := nextChangeId db;
           table_name := tableName db;
           operation := op;
           row_data := snapshot;
           changed_at := currentTimestamp db;
           processed := false;
           source_tag := Some (default "external" sessionTag) |}];
     nextChangeId := nextChangeId db + 1;
     currentTimestamp := currentTimestamp db |}.

Definition withRows (rows' : list RowData) (db : Database) : Database :=
  {| tableName := tableName db;
     primaryKeyColumn := primaryKeyColumn db;
     columns := columns db;
     rows := rows';
     changeLog := changeLog db;
     nextChangeId := nextChangeId db;
     currentTimestamp := currentTimestamp db |}.

Definition withChangeLog (log : list MySQLChangeLogEntry) (db : Database)
    : Database :=
  {| tableName := tableName db;
     primaryKeyColumn := primaryKeyColumn db;
     columns := columns db;
     rows := rows db;
     changeLog := log;
     nextChangeId := nextChangeId db;
     currentTimestamp := currentTimestamp db |}.

(** The AFTER UPDATE trigger, once per row the statement touches. *)
Definition logUpdates (touched : list RowData) (sessionTag : option string)
    (db : Database) : Database :=
  fold_left (fun db row => logChange UPDATE row sessionTag db) touched db.

(** The AFTER DELETE trigger: the snapshot holds the primary key only. *)
Definition logDeletes (removed : list RowData) (sessionTag : option string)
    (db : Database) : Database :=
  fold_left
    (fun db row =>
       logChange DELETE
         [(primaryKeyColumn db, prop_get row (primaryKeyColumn db))]
         sessionTag db)
    removed db.

(** One statement on the server, run with the session variable
    [@sync_source_tag] at [sessionTag].  [None]: the server refuses the
    statement (no such table, unknown column, nothing to set or to
    match). *)
Definition applyDml (sessionTag : option string) (stmt : Dml) (db : Database)
    : option Database :=
  match stmt with
  | UpdateWhere table data whereClause =>
      if String.eqb table (tableName db)
         && knownColumns db data && knownColumns db whereClause
         && negb (bool_decide (data = [])) && negb (bool_decide (whereClause = []))
      then
        let rows' :=
          map (fun row => if matches whereClause row then assign data row else row)
              (rows db) in
        let touched :=
          map (assign data) (List.filter (matches whereClause) (rows db)) in
        Some (logUpdates touched sessionTag (withRows rows' db))
      else None
  | DeleteWhere table whereClause =>
      if String.eqb table (tableName db)
         && knownColumns db whereClause
         && negb (bool_decide (whereClause = []))
      then
        let removed := List.filter (matches whereClause) (rows db) in
        let rows' := List.filter (fun row => negb (matches whereClause row)) (rows db) in
        Some (logDeletes removed sessionTag (withRows rows' db))
      else None
  | InsertOnDuplicateKeyUpdate table data =>
      if String.eqb table (tableName db)
         && knownColumns db data && negb (bool_decide (data = []))
      then
        let pk := primaryKeyColumn db in
        let duplicate row := sql_eq (prop_get row pk) (prop_get data pk) in
        if existsb duplicate (rows db)
        then
          let rows' :=
            map (fun row => if duplicate row then assign data row else row)
                (rows db) in
          let touched := map (assign data) (List.filter duplicate (rows db)) in
          Some (logUpdates touched sessionTag (withRows rows' db))
        else
          let row := fullRow db data in
          Some (logChange INSERT row sessionTag (withRows (rows db ++ [row]) db))
      else None
  end.

(** ** Sessions and the connection pool *)

(** A pooled connection: its session variable [@sync_source_tag], the
    statements of its open transaction ([None] outside a transaction, when
    every statement commits at once), and whether it is handed out. *)
Record Connection : Type := {
  sync_source_tag : option string;
  openTransaction : option (list (option string * Dml));
  leased : bool
}.

(** The fields of a [MySQLAdapter] object; [pool] is [None] for [null]. *)
Record MySQLAdapter : Type := {
  adapterTableName : string;
  pool : option (list Connection)
}.

(** What the methods of the adapter act on. *)
Record Db : Type := {
  database : Database;
  adapter : MySQLAdapter
}.

Definition withDatabase (d : Database) (s : Db) : Db :=
  {| database := d; adapter := adapter s |}.

Definition withPool (p : option (list Connection)) (s : Db) : Db :=
  {| database := database s;
     adapter := {| adapterTableName := adapterTableName (adapter s); pool := p |} |}.

Definition freshConnection : Connection :=
  {| sync_source_tag := None; openTransaction := None; leased := true |}.

Definition lease (c : Connection) : Connection :=
  {| sync_source_tag := sync_source_tag c;
     openTransaction := openTransaction c;
     leased := true |}.

Definition unlease (c : Connection) : Connection :=
  {| sync_source_tag := sync_source_tag c;
     openTransaction := openTransaction c;
     leased := false |}.

Definition withTag (tag : option string) (c : Connection) : Connection :=
  {| sync_source_tag := tag;
     openTransaction := openTransaction c;
     leased := leased c |}.

Definition withTransaction (t : option (list (option string * Dml)))
    (c : Connection) : Connection :=
  {| sync_source_tag := sync_source_tag c;
     openTransaction := t;
     leased := leased c |}.

(** The index of the first connection of the pool that is not handed
    out. *)
Fixpoint firstIdle (conns : list Connection) : option nat :=
  match conns with
  | [] => None
  | c :: rest => if leased c then S <$> firstIdle rest else Some O
  end.

Local Open Scope async_scope.

Definition nullPool {A : Type} : async Db A :=
  throw (ThrownError "Cannot read properties of null").

(** [this.pool!.getConnection()]: an idle connection, or a new one while
    all are handed out (the limit of ten is never reached by one run). *)
Definition getConnection : async Db nat :=
  fun s =>
    match pool (adapter s) with
    | None => nullPool s
    | Some conns =>
        match firstIdle conns with
        | Some i => (withPool (Some (alter lease i conns)) s, Returned i)
        | None =>
            (withPool (Some (conns ++ [freshConnection])) s,
             Returned (length conns))
        end
    end.

(** [connection.release()]. *)
Definition release (connection : nat) : async Db unit :=
  fun s =>
    match pool (adapter s) with
    | None => nullPool s
    | Some conns => (withPool (Some (alter unlease connection conns)) s, Returned tt)
    end.

Definition onConnection (connection : nat) (f : Connection -> Connection)
    : async Db unit :=
  fun s =>
    match pool (adapter s) with
    | None => nullPool s
    | Some conns => (withPool (Some (alter f connection conns)) s, Returned tt)
    end.

(** [connection.query('SET @sync_source_tag = ?', [tag])]. *)
Definition setSourceTag (connection : nat) (tag : option string) : async Db unit :=
  onConnection connection (withTag tag).

(** [connection.beginTransaction()]. *)
Definition beginTransaction (connection : nat) : async Db unit :=
  onConnection connection (withTransaction (Some [])).

(** [connection.rollback()]: the statements of the transaction of this
    connection are dropped. *)
Definition rollback (connection : nat) : async Db unit :=
  onConnection connection (withTransaction None).

Definition applyAll (stmts : list (option string * Dml)) (db : Database) : Database :=
  fold_left
    (fun db '(tag, stmt) => default db (applyDml tag stmt db))
    stmts db.

(** [connection.commit()]: the statements of the transaction of this
    connection take effect. *)
Definition commit (connection : nat) : async Db unit :=
  fun s =>
    match pool (adapter s) with
    | None => nullPool s
    | Some conns =>
        match conns !! connection with
        | Some c =>
            (withPool (Some (alter (withTransaction None) connection conns))
               (withDatabase
                  (applyAll (default [] (openTransaction c)) (database s)) s),
             Returned tt)
        | None => (s, Returned tt)
        end
    end.

(** [connection.execute(sql, params)] for a statement of the adapter: it
    runs in the session of [connection], so with the tag and inside the
    transaction of that connection, if it has one. *)
Definition execute (connection : nat) (stmt : Dml) : async Db unit :=
  fun s =>
    match pool (adapter s) with
    | None => nullPool s
    | Some conns =>
        match conns !! connection with
        | None => (s, Thrown (ThrownError "connection is closed"))
        | Some c =>
            match applyDml (sync_source_tag c) stmt (database s) with
            | None => (s, Thrown (ThrownError "statement refused by the server"))
            | Some db' =>
                match openTransaction c with
                | None => (withDatabase db' s, Returned tt)
                | Some pending =>
                    (withPool
                       (Some (alter
                                (withTransaction
                                   (Some (pending ++ [(sync_source_tag c, stmt)])))
                                connection conns)) s,
                     Returned tt)
                end
            end
        end
    end.

(** ** The methods of [MySQLAdapter] *)

(** The optional [metadata] argument of the write methods. *)
Record WriteMetadata : Type := {
  sourceTag : option string;
  operationId : option string
}.

(** [metadata?.sourceTag], when truthy. *)
Definition truthySourceTag (metadata : option WriteMetadata) : option string :=
  match metadata with
  | Some {| sourceTag := Some tag |} => if String.eqb tag "" then None else Some tag
  | _ => None
  end.

(** [connect]. *)
Definition connect : async Db unit :=
  fun s =>
    match pool (adapter s) with
    | Some _ => (s, Returned tt)
    | None => (withPool (Some []) s, Returned tt)
    end.

(** [ensureConnected]. *)
Definition ensureConnected : async Db unit :=
  fun s =>
    match pool (adapter s) with
    | Some _ => (s, Returned tt)
    | None =>
        (s, Thrown (ThrownError "MySQL pool not initialized. Call connect() first."))
    end.

(** [close]. *)
Definition close : async Db unit :=
  modify (withPool None).

(** [transaction]. *)
Definition transaction {A : Type} (callback : nat -> async Db A) : async Db A :=
  ensureConnected ;;
  connection <- getConnection ;;
  beginTransaction connection ;;
  tryFinally
    (tryCatch
       (result <- callback connection ;;
        commit connection ;;
        ret result)
       (fun error => rollback connection ;; throw error))
    (release connection).

(** [escapeId]: [identifier.replace] is not a function unless the
    identifier is a string.  The result stands for the identifier the
    escaped text names. *)
Definition escapeId {W : Type} (identifier : value) : async W string :=
  match identifier with
  | VStr text => ret text
  | _ => throw (ThrownError "identifier.replace is not a function")
  end.

(** [select]. *)
Definition select (whereClause : option RowData) : async Db (list RowData) :=
  ensureConnected ;;
  fun s =>
    let db := database s in
    let clause := default [] whereClause in
    if String.eqb (adapterTableName (adapter s)) (tableName db)
       && knownColumns db clause
    then (s, Returned (List.filter (matches clause) (rows db)))
    else (s, Thrown (ThrownError "statement refused by the server")).

(** [insert]: the table name comes first, then the row, then the
    metadata. *)
Definition insert (tableName : value) (data : RowData)
    (metadata : option WriteMetadata) : async Db unit :=
  connection <- getConnection ;;
  tryFinally
    (match truthySourceTag metadata with
     | Some tag => setSourceTag connection (Some tag)
     | None => ret tt
     end ;;
     table <- escapeId tableName ;;
     execute connection (InsertOnDuplicateKeyUpdate table data))
    (setSourceTag connection None ;;
     release connection).

(** [update]. *)
Definition update (data whereClause : RowData)
    (metadata : option WriteMetadata) : async Db unit :=
  connection <- getConnection ;;
  tryFinally
    (match truthySourceTag metadata with
     | Some tag => setSourceTag connection (Some tag)
     | None => ret tt
     end ;;
     table <- read (fun s => adapterTableName (adapter s)) ;;
     execute connection (UpdateWhere table data whereClause))
    (setSourceTag connection None ;;
     release connection).

(** [delete]. *)
Definition delete (whereClause : RowData)
    (metadata : option WriteMetadata) : async Db unit :=
  connection <- getConnection ;;
  tryFinally
    (match truthySourceTag metadata with
     | Some tag => setSourceTag connection (Some tag)
     | None => ret tt
     end ;;
     table <- read (fun s => adapterTableName (adapter s)) ;;
     execute connection (DeleteWhere table whereClause))
    (setSourceTag connection None ;;
     release connection).

(** The [options] of [getChangeLog]. *)
Record ChangeLogOptions : Type := {
  optProcessed : option bool;
  excludeSourceTag : option string;
  limit : option nat
}.

(** [ORDER BY changed_at ASC]: rows with the same [changed_at] keep the
    order of the table, an order the server does not promise. *)
Fixpoint insertByChangedAt (entry : MySQLChangeLogEntry)
    (sorted : list MySQLChangeLogEntry) : list MySQLChangeLogEntry :=
  match sorted with
  | [] => [entry]
  | other :: rest =>
      if changed_at other <=? changed_at entry
      then other :: insertByChangedAt entry rest
      else entry :: other :: rest
  end.

Definition orderByChangedAt (entries : list MySQLChangeLogEntry)
    : list MySQLChangeLogEntry :=
  fold_left (fun sorted entry => insertByChangedAt entry sorted) entries [].

(** The order of [ORDER BY changed_at ASC]. *)
Definition notLater (a b : MySQLChangeLogEntry) : Prop :=
  changed_at a <= changed_at b.

(** The WHERE clause that [getChangeLog] builds. *)
Definition changeLogWhere (table : string) (options : ChangeLogOptions)
    (entry : MySQLChangeLogEntry) : bool :=
  String.eqb (table_name entry) table
  && match optProcessed options with
     | Some wanted => Bool.eqb (processed entry) wanted
     | None => true
     end
  && match excludeSourceTag options with
     | Some exclude =>
         if String.eqb exclude "" then true
         else match source_tag entry with
              | None => true
              | Some tag => negb (String.eqb tag exclude)
              end
     | None => true
     end.

(** The rows that the query of [getChangeLog] selects. *)
Definition selectChangeLog (table : string) (options : ChangeLogOptions)
    (log : list MySQLChangeLogEntry) : list MySQLChangeLogEntry :=
  let selected := orderByChangedAt (List.filter (changeLogWhere table options) log) in
  match limit options with
  | Some (S n) => firstn (S n) selected
  | _ => selected
  end.

(** The specification of the change-log query, in its own words: the rows
    of the table of the adapter with [processed = false] and a tag that is
    NULL or differs from [exclude], by ascending change id, at most [limit]
    of them, 1000 when no limit is given. *)
Fixpoint insertById (entry : MySQLChangeLogEntry)
    (sorted : list MySQLChangeLogEntry) : list MySQLChangeLogEntry :=
  match sorted with
  | [] => [entry]
  | other :: rest =>
      if id other <=? id entry
      then other :: insertById entry rest
      else entry :: other :: rest
  end.

Definition specifiedChangeLog (table exclude : string) (givenLimit : option nat)
    (log : list MySQLChangeLogEntry) : list MySQLChangeLogEntry :=
  let wanted entry :=
    String.eqb (table_name entry) table
    && negb (processed entry)
    && match source_tag entry with
       | None => true
       | Some tag => negb (String.eqb tag exclude)
       end in
  firstn (default 1000%nat givenLimit)
    (fold_left (fun sorted entry => insertById entry sorted)
       (List.filter wanted log) []).

(** The tag of the loop prevention. *)
Definition fromSheetTag : string := "from_sheet".

Definition taggedFromSheet (entry : MySQLChangeLogEntry) : Prop :=
  source_tag entry = Some fromSheetTag.

(** The change log of [after] is the one of [before] followed by rows that
    all carry the tag [from_sheet]. *)
Definition extendsTagged (before after : Database) : Prop :=
  exists added,
    changeLog after = changeLog before ++ added
    /\ Forall taggedFromSheet added.

(** Every statement that waits in an open transaction of the pool was
    issued with the tag [from_sheet]. *)
Definition pendingTagged (s : Db) : Prop :=
  forall conns c pending tag stmt,
    pool (adapter s) = Some conns ->
    In c conns ->
    openTransaction c = Some pending ->
    In (tag, stmt) pending ->
    tag = Some fromSheetTag.

(** A connection whose waiting statements all carry the tag. *)
Definition connectionTagged (c : Connection) : Prop :=
  forall pending tag stmt,
    openTransaction c = Some pending -> In (tag, stmt) pending ->
    tag = Some fromSheetTag.

(** The relation [extendsTagged] between two states of the adapter. *)
Definition dbR (s s' : Db) : Prop := extendsTagged (database s) (database s').

(** [getChangeLog]. *)
Definition getChangeLog (options : ChangeLogOptions)
    : async Db (list MySQLChangeLogEntry) :=
  ensureConnected ;;
  read (fun s =>
          selectChangeLog (adapterTableName (adapter s)) options
            (changeLog (database s))).

Definition markProcessed (ids : list Z) (entry : MySQLChangeLogEntry)
    : MySQLChangeLogEntry :=
  if existsb (Z.eqb (id entry)) ids
  then {| id := id entry; table_name := table_name entry;
          operation := operation entry; row_data := row_data entry;
          changed_at := changed_at entry; processed := true;
          source_tag := source_tag entry |}
  else entry.

(** [markChangesProcessed]. *)
Definition markChangesProcessed (ids : list Z) : async Db unit :=
  match ids with
  | [] => ret tt
  | _ =>
      ensureConnected ;;
      modify (fun s =>
                withDatabase
                  (withChangeLog (map (markProcessed ids) (changeLog (database s)))
                     (database s)) s)
  end.

(** The connections of the pool are all at rest: none is handed out, none
    carries a session tag, none has a transaction open. *)
Definition quiescent (s : Db) : Prop :=
  forall conns c,
    pool (adapter s) = Some conns -> In c conns ->
    leased c = false /\ sync_source_tag c = None /\ openTransaction c = None.

(** What a write method does, [stmt] being the statement it builds. *)
Definition wrote (tag : option string) (stmt : Dml) (s : Db) (result : Db * outcome unit)
    : Prop :=
  quiescent (fst result)
  /\ is_Some (pool (adapter (fst result)))
  /\ match applyDml tag stmt (database s) with
     | Some db' => snd result = Returned tt /\ database (fst result) = db'
     | None =>
         snd result = Thrown (ThrownError "statement refused by the server")
         /\ database (fst result) = database s
     end.

End MySQL.

(* ===================================================================== *)
(** * The spreadsheet service (adapters/google-sheets.adapter.ts) *)
(* ===================================================================== *)

Module Sheets.

(** How the service reads a range over a grid: the rows it answers with
    when asked for [range], and the grid after rows are appended to the
    table it finds in [range].  The service is no code of the repository;
    its reading of a range is carried by the sheet and left open. *)
Record Ranges : Type := {
  valuesIn : string -> list (list value) -> list (list value);
  appendedTo : string -> list (list value) -> list (list value) -> list (list value)
}.

(** The remote sheet: its grid of cells, its reading of ranges, the version
    behind the ETag header ([None] for a service that sends no ETag), and
    whether the service answers at all. *)
Record Spreadsheet : Type := {
  cells : list (list value);
  ranges : Ranges;
  version : option nat;
  online : bool
}.

(** [response.data.values || []] for [range]. *)
Definition valuesOf (range : string) (sheet : Spreadsheet) : list (list value) :=
  valuesIn (ranges sheet) range (cells sheet).

(** What [getRange] resolves to. *)
Record RangeData : Type := {
  values : list (list value);
  etag : string;
  notModified : bool
}.

(** An element of the [updates] of [batchUpdate]: the range
    [`${sheetName}!A${row}`] and the rows written from there. *)
Record ValueRange : Type := {
  rangeSheet : string;
  rangeRow : nat;
  rangeValues : list (list value)
}.

(** [response.headers.etag || '']. *)
Definition currentEtag (sheet : Spreadsheet) : string :=
  match version sheet with
  | Some v => "v" ++ pretty v
  | None => ""
  end%string.

Definition unavailable {A : Type} : async Spreadsheet A :=
  throw (ThrownError "503 Service Unavailable").

(** [getRange]: the service answers 304 when the [If-None-Match] header
    carries its current ETag; the header is sent for a truthy
    [ifNoneMatch] only. *)
Definition getRange (range : string) (ifNoneMatch : option string)
    : async Spreadsheet RangeData :=
  fun sheet =>
    if negb (online sheet) then unavailable sheet
    else
      let header :=
        match ifNoneMatch with
        | Some tag => if String.eqb tag "" then None else Some tag
        | None => None
        end in
      match header with
      | Some tag =>
          if String.eqb tag (currentEtag sheet)
          then (sheet, Returned {| values := []; etag := tag; notModified := true |})
          else (sheet, Returned {| values := valuesOf range sheet;
                                   etag := currentEtag sheet;
                                   notModified := false |})
      | None =>
          (sheet, Returned {| values := valuesOf range sheet;
                              etag := currentEtag sheet;
                              notModified := false |})
      end.

Definition written (cells' : list (list value)) (sheet : Spreadsheet) : Spreadsheet :=
  {| cells := cells'; ranges := ranges sheet; version := S <$> version sheet;
     online := online sheet |}.

(** A row of values written from column A over the row [row] (counted from
    1) of the grid: the cells further right keep their content. *)
Definition writeRow (row : nat) (newCells : list value) (grid : list (list value))
    : list (list value) :=
  alter (fun old => newCells ++ skipn (length newCells) old) (row - 1)%nat grid.

Definition writeRange (grid : list (list value)) (update : ValueRange)
    : list (list value) :=
  fst (fold_left
         (fun '(grid, row) newCells => (writeRow row newCells grid, S row))
         (rangeValues update) (grid, rangeRow update)).

(** [batchUpdate]. *)
Definition batchUpdate (updates : list ValueRange) : async Spreadsheet unit :=
  match updates with
  | [] => ret tt
  | _ =>
      fun sheet =>
        if negb (online sheet) then unavailable sheet
        else (written (fold_left writeRange updates (cells sheet)) sheet, Returned tt)
  end.

(** [appendRows]. *)
Definition appendRows (range : string) (rows : list (list value))
    : async Spreadsheet unit :=
  match rows with
  | [] => ret tt
  | _ =>
      fun sheet =>
        if negb (online sheet) then unavailable sheet
        else (written (appendedTo (ranges sheet) range (cells sheet) rows) sheet,
              Returned tt)
  end.

End Sheets.

(* ===================================================================== *)
(** * Metadata store, deduplicator and the world of a run *)
(* ===================================================================== *)

Module Metadata.

Record SyncConfig : Type := {
  config_id : string;
  sheet_id : string;
  sheet_range : option string;
  db_table_name : string;
  column_mapping : list (string * string);
  conflict_strategy : ConflictStrategy;
  sync_interval_seconds : Z;
  is_active : bool
}.

Record SyncState : Type := {
  last_sheet_sync_at : option Z;
  last_db_sync_at : option Z;
  sheet_etag : option string;
  db_last_change_id : option Z
}.

Inductive SyncDirection : Type :=
| sheet_to_db
| db_to_sheet.

Inductive SyncStatus : Type :=
| running
| success
| failed
| partial.

Record SyncHistory : Type := {
  direction : SyncDirection;
  rows_affected : Z;
  conflicts_detected : Z;
  status : SyncStatus;
  error_message : option string;
  history_note : option string
}.

Record Conflict : Type := {
  sync_history_id : nat;
  row_identifier : string;
  sheet_value : RowData;
  db_value : RowData;
  sheet_timestamp : Date;
  db_timestamp : Date;
  resolution_strategy : ConflictStrategy;
  resolved_at : option Z;
  resolved_value : option RowData
}.

(** The tables of the metadata store for one configuration; a history row
    is named by its position. *)
Record MetadataDB : Type := {
  syncState : option SyncState;
  history : list SyncHistory;
  conflicts : list Conflict
}.

(** Everything a run of a worker reads and writes. *)
Record World : Type := {
  db : MySQL.Db;
  spreadsheet : Sheets.Spreadsheet;
  metadata : MetadataDB;
  processedOperations : list string;
  uuids : nat;
  now : Z
}.

Definition withDb (d : MySQL.Db) (w : World) : World :=
  {| db := d; spreadsheet := spreadsheet w; metadata := metadata w;
     processedOperations := processedOperations w; uuids := uuids w; now := now w |}.

Definition withSpreadsheet (s : Sheets.Spreadsheet) (w : World) : World :=
  {| db := db w; spreadsheet := s; metadata := metadata w;
     processedOperations := processedOperations w; uuids := uuids w; now := now w |}.

Definition withMetadata (m : MetadataDB) (w : World) : World :=
  {| db := db w; spreadsheet := spreadsheet w; metadata := m;
     processedOperations := processedOperations w; uuids := uuids w; now := now w |}.

(** The invariant and the relation of the loop prevention, on worlds. *)
Definition worldP (w : World) : Prop := MySQL.pendingTagged (db w).

Definition worldR (w w' : World) : Prop := MySQL.dbR (db w) (db w').

(** No conflict record was added or removed between two worlds. *)
Definition sameConflicts (w w' : World) : Prop :=
  conflicts (metadata w') = conflicts (metadata w).

Definition onDb {A : Type} (m : async MySQL.Db A) : async World A :=
  zoom db withDb m.

Definition onSheet {A : Type} (m : async Sheets.Spreadsheet A) : async World A :=
  zoom spreadsheet withSpreadsheet m.

(** [uuidv4()]: a fresh identifier at every call. *)
Definition uuidv4 : async World string :=
  fun w =>
    ({| db := db w; spreadsheet := spreadsheet w; metadata := metadata w;
        processedOperations := processedOperations w; uuids := S (uuids w);
        now := now w |},
     Returned ("uuid-" ++ pretty (uuids w))%string).

(** [new MySQLAdapter(config.db_connection_string, config.db_table_name)]:
    the adapter of a worker starts without a pool. *)
Definition newAdapter (config : SyncConfig) : async World unit :=
  modify (fun w =>
            withDb {| MySQL.database := MySQL.database (db w);
                      MySQL.adapter :=
                        {| MySQL.adapterTableName := db_table_name config;
                           MySQL.pool := None |} |} w).

(** [metadataDB.getSyncState]. *)
Definition getSyncState : async World (option SyncState) :=
  read (fun w => syncState (metadata w)).

(** [metadataDB.upsertSyncState]: a field that is not given, or falsy,
    keeps its stored value. *)
Definition upsertSyncState (given : SyncState) : async World unit :=
  modify (fun w =>
    let m := metadata w in
    let old := default {| last_sheet_sync_at := None; last_db_sync_at := None;
                          sheet_etag := None; db_last_change_id := None |}
                       (syncState m) in
    let pick {A : Type} (new old : option A) : option A :=
      match new with Some x => Some x | None => old end in
    withMetadata
      {| syncState :=
           Some {| last_sheet_sync_at :=
                     pick (last_sheet_sync_at given) (last_sheet_sync_at old);
                   last_db_sync_at :=
                     pick (last_db_sync_at given) (last_db_sync_at old);
                   sheet_etag := pick (sheet_etag given) (sheet_etag old);
                   db_last_change_id :=
                     pick (db_last_change_id given) (db_last_change_id old) |};
         history := history m;
         conflicts := conflicts m |} w).

(** [metadataDB.createSyncHistory]; the result names the new row. *)
Definition createSyncHistory (entry : SyncHistory) : async World nat :=
  fun w =>
    let m := metadata w in
    (withMetadata {| syncState := syncState m;
                     history := history m ++ [entry];
                     conflicts := conflicts m |} w,
     Returned (length (history m))).

(** [metadataDB.updateSyncHistory]. *)
Definition updateSyncHistory (historyId : nat) (updates : SyncHistory -> SyncHistory)
    : async World unit :=
  modify (fun w =>
    let m := metadata w in
    withMetadata {| syncState := syncState m;
                    history := alter updates historyId (history m);
                    conflicts := conflicts m |} w).

(** [metadataDB.createConflict]. *)
Definition createConflict (conflict : Conflict) : async World unit :=
  modify (fun w =>
    let m := metadata w in
    withMetadata {| syncState := syncState m;
                    history := history m;
                    conflicts := conflicts m ++ [conflict] |} w).

(** [deduplicator.isProcessed]. *)
Definition isProcessed (operationId : string) : async World bool :=
  read (fun w => existsb (String.eqb operationId) (processedOperations w)).

(** [deduplicator.markProcessed]. *)
Definition markProcessed (operationId : string) : async World unit :=
  modify (fun w =>
    {| db := db w; spreadsheet := spreadsheet w; metadata := metadata w;
       processedOperations := processedOperations w ++ [operationId];
       uuids := uuids w; now := now w |}).

(** The updates a worker sends to [updateSyncHistory]. *)
Definition finished (st : SyncStatus) (note : option string) (h : SyncHistory)
    : SyncHistory :=
  {| direction := direction h; rows_affected := rows_affected h;
     conflicts_detected := conflicts_detected h; status := st;
     error_message := error_message h; history_note := note |}.

Definition succeeded (rows conflictCount : Z) (h : SyncHistory) : SyncHistory :=
  {| direction := direction h; rows_affected := rows;
     conflicts_detected := conflictCount; status := success;
     error_message := error_message h; history_note := history_note h |}.

Definition failedWith (message : string) (h : SyncHistory) : SyncHistory :=
  {| direction := direction h; rows_affected := rows_affected h;
     conflicts_detected := conflicts_detected h; status := failed;
     error_message := Some message; history_note := history_note h |}.

(** The table side of the sync state is the same in two worlds. *)
Definition tableSideKept (w w' : World) : Prop :=
  syncState (metadata w') ≫= last_db_sync_at
  = syncState (metadata w) ≫= last_db_sync_at
  /\ syncState (metadata w') ≫= db_last_change_id
     = syncState (metadata w) ≫= db_last_change_id.

(** The sheet side of the sync state is the same in two worlds. *)
Definition sheetSideKept (w w' : World) : Prop :=
  syncState (metadata w') ≫= last_sheet_sync_at
  = syncState (metadata w) ≫= last_sheet_sync_at
  /\ syncState (metadata w') ≫= sheet_etag
     = syncState (metadata w) ≫= sheet_etag.

End Metadata.

(* ===================================================================== *)
(** * What the two workers share (sync/workers/) *)
(* ===================================================================== *)

Module Worker.

Import Metadata.

(** The worker files use two names that they neither import nor declare:
    [createChildLogger] (only [logger] is imported from [utils/logger]) and
    [googleSheetsAdapter] (only the class [GoogleSheetsAdapter] is imported
    from the adapter).  Such a name is looked up on the global object when
    its line runs: it is there, or the line throws a [ReferenceError].
    [Bound] stands for the export of that name by the module the file
    imports from. *)
Inductive Binding : Type :=
| Unbound
| Bound.

Record Globals : Type := {
  createChildLogger : Binding;
  googleSheetsAdapter : Binding
}.

(** The global object of the program: no file of the repository puts either
    name on it. *)
Definition programGlobals : Globals :=
  {| createChildLogger := Unbound; googleSheetsAdapter := Unbound |}.

Definition referenceError (name : string) : thrown :=
  ThrownError (name ++ " is not defined").

(** The evaluation of an expression that starts with the free name
    [name]. *)
Definition referTo {A : Type} (binding : Binding) (name : string)
    (m : async World A) : async World A :=
  match binding with
  | Bound => m
  | Unbound => throw (referenceError name)
  end.

(** [x || fallback] on an optional string: the empty string is falsy. *)
Definition orElse (x : option string) (fallback : string) : string :=
  match x with
  | Some s => if String.eqb s "" then fallback else s
  | None => fallback
  end.

(** [this.config.sheet_range || 'Sheet1']. *)
Definition sheetRange (config : SyncConfig) : string :=
  orElse (sheet_range config) "Sheet1".

(** [config.column_mapping[letter]]. *)
Fixpoint mappingGet (mapping : list (string * string)) (letter : string)
    : option string :=
  match mapping with
  | [] => None
  | (k, columnName) :: rest =>
      if String.eqb k letter then Some columnName else mappingGet rest letter
  end.

(** The [while] loop of [indexToColumnLetter]; the index goes down at every
    turn, so [fuel] turns are enough when [fuel] exceeds the index. *)
Fixpoint indexToColumnLetterLoop (fuel : nat) (index : Z) (letter : string)
    : string :=
  match fuel with
  | O => letter
  | S fuel' =>
      if 0 <=? index
      then
        indexToColumnLetterLoop fuel' (index / 26 - 1)
          (String (ascii_of_nat (Z.to_nat (index mod 26) + 65)) letter)
      else letter
  end.

(** [indexToColumnLetter]. *)
Definition indexToColumnLetter (index : nat) : string :=
  indexToColumnLetterLoop (S index) (Z.of_nat index) "".

(** [getPrimaryKeyColumn]. *)
Definition getPrimaryKeyColumn (config : SyncConfig) : string :=
  orElse (mappingGet (column_mapping config) "A") "id".

(** The [columnNames] of [convertSheetDataToRows]. *)
Definition columnNames (config : SyncConfig) (headers : list value) : list string :=
  imap
    (fun index _ =>
       let columnLetter := indexToColumnLetter index in
       orElse (mappingGet (column_mapping config) columnLetter) columnLetter)
    headers.

(** The inner loop of [convertSheetDataToRows]: [row[columnNames[j]] =
    values[i][j]]; past the header the name is [undefined]. *)
Definition convertRow (names : list string) (cellsOfRow : list value) : RowData :=
  fold_left
    (fun row '(j, cell) => prop_set row (default "undefined" (names !! j)) cell)
    (imap (fun j cell => (j, cell)) cellsOfRow) [].

(** [convertSheetDataToRows]. *)
Definition convertSheetDataToRows (config : SyncConfig) (values : list (list value))
    : list RowData :=
  match values with
  | [] => []
  | headers :: body => map (convertRow (columnNames config headers)) body
  end.

(** [range.split('!')[0]]. *)
Fixpoint beforeBang (s : string) : string :=
  match s with
  | EmptyString => EmptyString
  | String c rest =>
      if Ascii.eqb c "!"%char then EmptyString else String c (beforeBang rest)
  end.

(** [getSheetName]. *)
Definition getSheetName (config : SyncConfig) : string :=
  let range := orElse (sheet_range config) "Sheet1" in
  orElse (Some (beforeBang range)) "Sheet1".

(** [Array.prototype.sort] on strings. *)
Fixpoint insertSorted (s : string) (sorted : list string) : list string :=
  match sorted with
  | [] => [s]
  | t :: rest => if String.leb s t then s :: t :: rest else t :: insertSorted s rest
  end.

Definition sortStrings (l : list string) : list string :=
  fold_right insertSorted [] l.

(** The order [sort] puts strings in: that of their code units. *)
Definition precedes (s t : string) : Prop := String.leb s t = true.

(** [convertRowToSheetFormat]. *)
Definition convertRowToSheetFormat (config : SyncConfig) (row : RowData)
    : list value :=
  map
    (fun letter =>
       let cell :=
         match mappingGet (column_mapping config) letter with
         | Some columnName => prop_get row columnName
         | None => VUndefined
         end in
       if is_nullish cell then VStr "" else cell)
    (sortStrings (map fst (column_mapping config))).

End Worker.

(* ===================================================================== *)
(** * Sheet to DB worker (sync/workers/sheet-to-db.worker.ts) *)
(* ===================================================================== *)

Module SheetToDbWorker.

Import Metadata Worker.
Local Open Scope async_scope.

Section Worker.

Variable dateToString : Date -> string.
Variable globals : Globals.
Variable config : SyncConfig.

(** The constructor, called with a configuration only: the adapter and the
    change detector are built and the correlation id is drawn before the
    call of [createChildLogger].  The result is the correlation id. *)
Definition new : async World string :=
  newAdapter config ;;
  correlationId <- uuidv4 ;;
  referTo (createChildLogger globals) "createChildLogger" (ret correlationId).

(** [this.changeDetector], built by the constructor. *)
Definition changeDetectorOptions : ChangeDetectorOptions :=
  {| primaryKey := getPrimaryKeyColumn config; ignoreColumns := None |}.

(** [getRowId]. *)
Definition getRowId (row : RowData) : RowId :=
  match prop_get row (getPrimaryKeyColumn config) with
  | VStr s => IdStr s
  | VNum n => IdNum n
  | v => IdStr (toString dateToString v)
  end.

Definition rowIdValue (rowId : RowId) : value :=
  match rowId with
  | IdStr s => VStr s
  | IdNum n => VNum n
  end.

(** [String(rowId)]. *)
Definition rowIdString (rowId : RowId) : string :=
  toString dateToString (rowIdValue rowId).

(** [detectConflicts]: the change set and the time of the last sync are
    not read. *)
Definition detectConflicts (changes : ChangeDetectionResult)
    (lastDbSyncAt : option Z) : async World (list DetectedConflict) :=
  ret [].

(** The metadata object that goes with every write of the worker. *)
Definition fromSheet (operationId : string) : MySQL.WriteMetadata :=
  {| MySQL.sourceTag := Some "from_sheet"; MySQL.operationId := Some operationId |}.

(** The same object where a row is expected: its two properties. *)
Definition fromSheetObject (operationId : string) : RowData :=
  [("sourceTag", VStr "from_sheet"); ("operationId", VStr operationId)].

(** The callback handed to [transaction]: the three loops.  The call of
    [insert] has two arguments, the row and the metadata object; they
    arrive as [tableName] and [data], and [metadata] is left
    [undefined].  The result is [rowsAffected]. *)
Definition applyChanges (changesToApply : ChangeDetectionResult)
    (operationId : string) (connection : nat) : async MySQL.Db Z :=
  let primaryKey := getPrimaryKeyColumn config in
  rowsAffected <-
    forEachCounting (inserts changesToApply)
      (fun row => MySQL.insert (VObj row) (fromSheetObject operationId) None) 0 ;;
  rowsAffected <-
    forEachCounting (updates changesToApply)
      (fun update =>
         MySQL.update (data update)
           [(primaryKey, rowIdValue (identifier update))]
           (Some (fromSheet operationId)))
      rowsAffected ;;
  forEachCounting (deletes changesToApply)
    (fun deleteId =>
       MySQL.delete [(primaryKey, rowIdValue deleteId)]
         (Some (fromSheet operationId)))
    rowsAffected.

(** Steps 9 and 10 of [execute]: the rows of the resolved conflicts are
    taken out of the change set, and the sheet-side winners are pushed to
    the updates. *)
Definition changesAfterConflicts (changes : ChangeDetectionResult)
    (resolvedConflicts : list ResolvedConflict) : ChangeDetectionResult :=
  let conflictedRowIds := map resolvedRowId resolvedConflicts in
  let conflicted (rowId : RowId) : bool :=
    existsb (fun other => bool_decide (other = rowId)) conflictedRowIds in
  {| inserts :=
       List.filter (fun row => negb (conflicted (getRowId row))) (inserts changes);
     updates :=
       List.filter (fun u => negb (conflicted (identifier u))) (updates changes)
       ++ omap
            (fun resolved =>
               match winner resolved, resolvedValue resolved with
               | WinnerSheet, Some resolvedValue =>
                   Some {| identifier := resolvedRowId resolved;
                           data := resolvedValue |}
               | _, _ => None
               end)
            resolvedConflicts;
     deletes :=
       List.filter (fun rowId => negb (conflicted rowId)) (deletes changes) |}.

(** The loop that logs the conflicts to the metadata store. *)
Definition logConflicts (historyId : nat) (conflicts : list DetectedConflict)
    (resolvedConflicts : list ResolvedConflict) : async World unit :=
  forEach resolvedConflicts
    (fun resolved =>
       match List.find
               (fun c => bool_decide (rowId c = resolvedRowId resolved))
               conflicts with
       | None => throw (ThrownError "Cannot read properties of undefined")
       | Some conflict =>
           timestamp <- read now ;;
           createConflict
             {| sync_history_id := historyId;
                row_identifier := rowIdString (resolvedRowId resolved);
                sheet_value := sheetValue conflict;
                db_value := dbValue conflict;
                sheet_timestamp := sheetTimestamp conflict;
                db_timestamp := dbTimestamp conflict;
                resolution_strategy := conflict_strategy config;
                resolved_at :=
                  match winner resolved with
                  | WinnerManual => None
                  | _ => Some timestamp
                  end;
                resolved_value := resolvedValue resolved |}
       end).

(** [error instanceof Error ? error.message : String(error)]. *)
Definition errorMessage (error : thrown) : string :=
  match error with
  | ThrownError message => message
  | ThrownValue v => toString dateToString v
  end.

(** Steps 8 to 13 of [execute]: what follows the detection of the
    conflicts. *)
Definition resolveAndApply (historyId : nat) (sheetData : Sheets.RangeData)
    (changes : ChangeDetectionResult) (conflicts : list DetectedConflict)
    : async World unit :=
  let resolvedConflicts :=
    map (fun conflict => resolveConflict conflict (conflict_strategy config))
        conflicts in
  logConflicts historyId conflicts resolvedConflicts ;;
  let changesToApply := changesAfterConflicts changes resolvedConflicts in
  operationId <- uuidv4 ;;
  alreadyProcessed <- isProcessed operationId ;;
  if (alreadyProcessed : bool) then ret tt
  else
    rowsAffected <-
      onDb (MySQL.transaction (applyChanges changesToApply operationId)) ;;
    markProcessed operationId ;;
    timestamp <- read now ;;
    upsertSyncState
      {| last_sheet_sync_at := Some timestamp;
         last_db_sync_at := None;
         sheet_etag :=
           if String.eqb (Sheets.etag sheetData) "" then None
           else Some (Sheets.etag sheetData);
         db_last_change_id := None |} ;;
    updateSyncHistory historyId
      (succeeded rowsAffected (Z.of_nat (length resolvedConflicts))).

(** The body of the [try] block of [execute]. *)
Definition sync (historyId : nat) : async World unit :=
  onDb MySQL.connect ;;
  syncState <- getSyncState ;;
  sheetData <-
    referTo (googleSheetsAdapter globals) "googleSheetsAdapter"
      (onSheet (Sheets.getRange (sheetRange config) (syncState ≫= sheet_etag))) ;;
  if Sheets.notModified sheetData
  then
    updateSyncHistory historyId
      (finished success (Some "No changes detected (ETag match)"))
  else
    let sheetRows := convertSheetDataToRows config (Sheets.values sheetData) in
    dbRows <- onDb (MySQL.select None) ;;
    let changes :=
      detect dateToString changeDetectorOptions sheetRows dbRows in
    match inserts changes, updates changes, deletes changes with
    | [], [], [] =>
        updateSyncHistory historyId (finished success (Some "No changes detected"))
    | _, _, _ =>
        conflicts <- detectConflicts changes (syncState ≫= last_db_sync_at) ;;
        resolveAndApply historyId sheetData changes conflicts
    end.

(** [execute]. *)
Definition execute : async World unit :=
  syncId <- uuidv4 ;;
  historyId <-
    createSyncHistory
      {| direction := sheet_to_db; rows_affected := 0; conflicts_detected := 0;
         status := running; error_message := None; history_note := None |} ;;
  tryFinally
    (tryCatch
       (sync historyId)
       (fun error =>
          updateSyncHistory historyId (failedWith (errorMessage error)) ;;
          throw error))
    (onDb MySQL.close).

(** A run of the worker, as the orchestrator makes it:
    [const worker = new SheetToDbWorker(config); await worker.execute()]. *)
Definition run : async World unit :=
  new ;;
  execute.

End Worker.

End SheetToDbWorker.

(* ===================================================================== *)
(** * DB to Sheet worker (sync/workers/db-to-sheet.worker.ts) *)
(* ===================================================================== *)

Module DbToSheetWorker.

Import Metadata Worker.
Local Open Scope async_scope.

Section Worker.

Variable dateToString : Date -> string.
Variable globals : Globals.
Variable config : SyncConfig.

(** The constructor, called with a configuration only; the result is the
    correlation id. *)
Definition new : async World string :=
  newAdapter config ;;
  correlationId <- uuidv4 ;;
  referTo (createChildLogger globals) "createChildLogger" (ret correlationId).

(** The options of the poll of the change log. *)
Definition pollOptions : MySQL.ChangeLogOptions :=
  {| MySQL.optProcessed := Some false;
     MySQL.excludeSourceTag := Some "from_sheet";
     MySQL.limit := Some 1000%nat |}.

(** The loop that fills [sheetRowMap]: the key is [String(rowId)], the
    index counts the header row. *)
Definition buildSheetRowMap (sheetRows : list RowData)
    : gmap string (nat * RowData) :=
  let primaryKey := getPrimaryKeyColumn config in
  fold_left
    (fun m '(i, row) =>
       let rowId := prop_get row primaryKey in
       if is_nullish rowId then m
       else <[toString dateToString rowId := ((i + 1)%nat, row)]> m)
    (imap (fun i row => (i, row)) sheetRows) ∅.

(** The two arrays the loop over the entries fills. *)
Record Batches : Type := {
  batchUpdates : list Sheets.ValueRange;
  rowsToAppend : list (list value)
}.

Definition pushUpdate (u : Sheets.ValueRange) (b : Batches) : Batches :=
  {| batchUpdates := batchUpdates b ++ [u]; rowsToAppend := rowsToAppend b |}.

Definition pushAppend (row : list value) (b : Batches) : Batches :=
  {| batchUpdates := batchUpdates b; rowsToAppend := rowsToAppend b ++ [row] |}.

(** The range [`${getSheetName()}!A${index + 1}`] with one row of
    values. *)
Definition rowRange (index : nat) (sheetRow : list value) : Sheets.ValueRange :=
  {| Sheets.rangeSheet := getSheetName config;
     Sheets.rangeRow := (index + 1)%nat;
     Sheets.rangeValues := [sheetRow] |}.

(** The body of the loop over [changeLogEntries]. *)
Definition processEntry (sheetRowMap : gmap string (nat * RowData))
    (b : Batches) (entry : MySQL.MySQLChangeLogEntry) : Batches :=
  let rowData := MySQL.row_data entry in
  let rowId := prop_get rowData (getPrimaryKeyColumn config) in
  if negb (truthy rowId) then b
  else
    match MySQL.operation entry with
    | MySQL.INSERT => pushAppend (convertRowToSheetFormat config rowData) b
    | MySQL.UPDATE =>
        match sheetRowMap !! toString dateToString rowId with
        | Some (index, _) =>
            pushUpdate (rowRange index (convertRowToSheetFormat config rowData)) b
        | None => pushAppend (convertRowToSheetFormat config rowData) b
        end
    | MySQL.DELETE =>
        match sheetRowMap !! toString dateToString rowId with
        | Some (index, _) =>
            let emptyRow :=
              repeat (VStr "") (length (column_mapping config)) in
            pushUpdate (rowRange index emptyRow) b
        | None => b
        end
    end.

Definition processEntries (sheetRowMap : gmap string (nat * RowData))
    (changeLogEntries : list MySQL.MySQLChangeLogEntry) : Batches :=
  fold_left (processEntry sheetRowMap) changeLogEntries
    {| batchUpdates := []; rowsToAppend := [] |}.

(** An entry the loop skips: its snapshot has no truthy primary key. *)
Definition skipped (entry : MySQL.MySQLChangeLogEntry) : bool :=
  negb (truthy (prop_get (MySQL.row_data entry) (getPrimaryKeyColumn config))).

(** The sheet after the two calls that send the batches. *)
Definition sendBatches (b : Batches) (sheet : Sheets.Spreadsheet)
    : Sheets.Spreadsheet :=
  fst (Sheets.appendRows (sheetRange config) (rowsToAppend b)
         (fst (Sheets.batchUpdate (batchUpdates b) sheet))).

(** The operation id of a run: the third identifier it draws, after the
    correlation id and the sync id. *)
Definition operationIdOf (w : World) : string :=
  ("uuid-" ++ pretty (S (S (uuids w))))%string.

(** A call of a method of [googleSheetsAdapter]. *)
Definition onAdapter {A : Type} (m : async Sheets.Spreadsheet A) : async World A :=
  referTo (googleSheetsAdapter globals) "googleSheetsAdapter" (onSheet m).

(** The history row of a run that found nothing to do. *)
Definition noChangesRow : SyncHistory :=
  {| direction := db_to_sheet; rows_affected := 0; conflicts_detected := 0;
     status := success; error_message := None;
     history_note := Some "No changes detected" |}.

(** [changeLogEntries[changeLogEntries.length - 1]?.id || null]. *)
Definition lastChangeId (changeLogEntries : list MySQL.MySQLChangeLogEntry)
    : option Z :=
  match last (map MySQL.id changeLogEntries) with
  | Some i => if i =? 0 then None else Some i
  | None => None
  end.

(** [error instanceof Error ? error.message : String(error)]. *)
Definition errorMessage (error : thrown) : string :=
  match error with
  | ThrownError message => message
  | ThrownValue v => toString dateToString v
  end.

(** The body of the [try] block of [execute]. *)
Definition sync (historyId : nat) : async World unit :=
  onDb MySQL.connect ;;
  changeLogEntries <- onDb (MySQL.getChangeLog pollOptions) ;;
  match changeLogEntries with
  | [] =>
      updateSyncHistory historyId (finished success (Some "No changes detected"))
  | _ =>
      sheetData <- onAdapter (Sheets.getRange (sheetRange config) None) ;;
      let sheetRows := convertSheetDataToRows config (Sheets.values sheetData) in
      let sheetRowMap := buildSheetRowMap sheetRows in
      operationId <- uuidv4 ;;
      alreadyProcessed <- isProcessed operationId ;;
      if (alreadyProcessed : bool) then ret tt
      else
        let batches := processEntries sheetRowMap changeLogEntries in
        match batchUpdates batches with
        | [] => ret tt
        | _ => onAdapter (Sheets.batchUpdate (batchUpdates batches))
        end ;;
        match rowsToAppend batches with
        | [] => ret tt
        | _ =>
            onAdapter (Sheets.appendRows (sheetRange config) (rowsToAppend batches))
        end ;;
        let rowsAffected :=
          Z.of_nat (length (batchUpdates batches))
          + Z.of_nat (length (rowsToAppend batches)) in
        let changeLogIds := map MySQL.id changeLogEntries in
        onDb (MySQL.markChangesProcessed changeLogIds) ;;
        markProcessed operationId ;;
        timestamp <- read now ;;
        upsertSyncState
          {| last_sheet_sync_at := None;
             last_db_sync_at := Some timestamp;
             sheet_etag := None;
             db_last_change_id := lastChangeId changeLogEntries |} ;;
        updateSyncHistory historyId (succeeded rowsAffected 0)
  end.

(** [execute]. *)
Definition execute : async World unit :=
  syncId <- uuidv4 ;;
  historyId <-
    createSyncHistory
      {| direction := db_to_sheet; rows_affected := 0; conflicts_detected := 0;
         status := running; error_message := None; history_note := None |} ;;
  tryFinally
    (tryCatch
       (sync historyId)
       (fun error =>
          updateSyncHistory historyId (failedWith (errorMessage error)) ;;
          throw error))
    (onDb MySQL.close).

(** A run of the worker, as the orchestrator makes it:
    [const worker = new DbToSheetWorker(config); await worker.execute()]. *)
Definition run : async World unit :=
  new ;;
  execute.

(** The entries the loop turns into an appended row: an INSERT, or an
    UPDATE of a row the sheet does not hold. *)
Definition appends (sheetRowMap : gmap string (nat * RowData))
    (entry : MySQL.MySQLChangeLogEntry) : bool :=
  let rowId := prop_get (MySQL.row_data entry) (getPrimaryKeyColumn config) in
  truthy rowId
  && match MySQL.operation entry with
     | MySQL.INSERT => true
     | MySQL.UPDATE => bool_decide (sheetRowMap !! toString dateToString rowId = None)
     | MySQL.DELETE => false
     end.

(** The entries the loop turns into a batch update: an UPDATE or a DELETE
    of a row the sheet holds. *)
Definition overwrites (sheetRowMap : gmap string (nat * RowData))
    (entry : MySQL.MySQLChangeLogEntry) : bool :=
  let rowId := prop_get (MySQL.row_data entry) (getPrimaryKeyColumn config) in
  truthy rowId
  && match MySQL.operation entry with
     | MySQL.INSERT => false
     | _ => bool_decide (is_Some (sheetRowMap !! toString dateToString rowId))
     end.

End Worker.

End DbToSheetWorker.

(* ===================================================================== *)
(** * Orchestrator (sync/orchestrator.ts) *)
(* ===================================================================== *)

Module Orchestrator.

Import Metadata.
Local Open Scope async_scope.

(** [String.prototype.toLowerCase], on the ASCII letters. *)
Definition lowerChar (c : ascii) : ascii :=
  let n := nat_of_ascii c in
  if ((65 <=? n) && (n <=? 90))%nat then ascii_of_nat (n + 32) else c.

Fixpoint toLowerCase (s : string) : string :=
  match s with
  | EmptyString => EmptyString
  | String c rest => String (lowerChar c) (toLowerCase rest)
  end.

(** [String.prototype.includes]. *)
Fixpoint includes (s needle : string) : bool :=
  if String.prefix needle s then true
  else match s with
       | EmptyString => false
       | String _ rest => includes rest needle
       end.

(** [isRetryableError] (utils/retry.ts). *)
Definition isRetryableError (error : thrown) : bool :=
  match error with
  | ThrownError text =>
      let message := toLowerCase text in
      includes message "econnrefused" || includes message "etimedout"
      || includes message "enotfound" || includes message "network"
      || includes message "rate limit" || includes message "too many requests"
      || includes message "503" || includes message "429"
  | ThrownValue _ => false
  end.

(** The orchestrator runs in the world of the workers, with the global
    dead-letter queue next to it. *)
Definition System : Type := World * DeadLetterQueue.DeadLetterQueue.

Definition directionName (direction : SyncDirection) : string :=
  match direction with
  | sheet_to_db => "sheet_to_db"
  | db_to_sheet => "db_to_sheet"
  end.

(** The dead letter of a job that started at [timestamp] and whose worker
    threw, at its first attempt and with the clock still at [timestamp],
    the [ReferenceError] of [createChildLogger]. *)
Definition unconstructed (direction : SyncDirection) (config : SyncConfig)
    (timestamp : Z) : DeadLetterQueue.DeadLetterEntry :=
  {| DeadLetterQueue.jobId :=
       (config_id config ++ "-" ++ directionName direction ++ "-"
        ++ pretty timestamp)%string;
     DeadLetterQueue.payload :=
       VObj [("configId", VStr (config_id config));
             ("direction", VStr (directionName direction))];
     DeadLetterQueue.error := "createChildLogger is not defined";
     DeadLetterQueue.attemptsMade := 5;
     DeadLetterQueue.firstAttemptAt := Some timestamp;
     DeadLetterQueue.lastAttemptAt := Some timestamp;
     DeadLetterQueue.failureReason := DeadLetterQueue.non_retryable_error |}.

Definition onWorld {A : Type} (m : async World A) : async System A :=
  zoom fst (fun w s => (w, snd s)) m.

Section Cycle.

Variable dateToString : Date -> string.

(** What [Math.random()] returns for the jitter of the delays, and the
    world when a timer of [retry] has fired. *)
Variable random : nat -> Q.
Variable sleep : Q -> World -> World.

(** The global object the workers look their free names up on. *)
Variable globals : Worker.Globals.

(** The options [executeWithRetry] passes to [retry]. *)
Definition retryOptions : Retry.RetryOptions :=
  {| Retry.maxAttempts := 5;
     Retry.baseDelay := 1000;
     Retry.maxDelay := 30000;
     Retry.jitter := true;
     Retry.retryableErrors := Some isRetryableError |}.

(** [executeWithRetry]. *)
Definition executeWithRetry (direction : SyncDirection) (config : SyncConfig)
    (worker : async World unit) : async System unit :=
  timestamp <- onWorld (read now) ;;
  let jobId :=
    (config_id config ++ "-" ++ directionName direction ++ "-" ++ pretty timestamp)%string in
  tryCatch
    (onWorld (fun w =>
                let '(w1, _, settled) :=
                  Retry.retrySleeping sleep worker retryOptions random w in
                (w1, settled)))
    (fun error =>
       lastAttemptAt <- onWorld (read now) ;;
       modify (fun s : System =>
                 (fst s,
                  DeadLetterQueue.add
                    {| DeadLetterQueue.jobId := jobId;
                       DeadLetterQueue.payload :=
                         VObj [("configId", VStr (config_id config));
                               ("direction", VStr (directionName direction))];
                       DeadLetterQueue.error :=
                         SheetToDbWorker.errorMessage dateToString error;
                       DeadLetterQueue.attemptsMade := 5;
                       DeadLetterQueue.firstAttemptAt := Some timestamp;
                       DeadLetterQueue.lastAttemptAt := Some lastAttemptAt;
                       DeadLetterQueue.failureReason :=
                         if isRetryableError error
                         then DeadLetterQueue.max_retries
                         else DeadLetterQueue.non_retryable_error |}
                    (snd s))) ;;
       throw error).

(** [!last || now - last >= interval * 1000]. *)
Definition syncNeeded (config : SyncConfig) (timestamp : Z) (last : option Z) : bool :=
  match last with
  | None => true
  | Some t => sync_interval_seconds config * 1000 <=? timestamp - t
  end.

(** [syncConfigWithRetry]: one cycle for one configuration. *)
Definition syncConfigWithRetry (config : SyncConfig) : async System unit :=
  tryCatch
    (syncState <- onWorld getSyncState ;;
     timestamp <- onWorld (read now) ;;
     let sheetSyncNeeded :=
       syncNeeded config timestamp (syncState ≫= last_sheet_sync_at) in
     let dbSyncNeeded :=
       syncNeeded config timestamp (syncState ≫= last_db_sync_at) in
     if negb sheetSyncNeeded && negb dbSyncNeeded then ret tt
     else
       (if sheetSyncNeeded
        then executeWithRetry sheet_to_db config
               (SheetToDbWorker.run dateToString globals config)
        else ret tt) ;;
       (if dbSyncNeeded
        then executeWithRetry db_to_sheet config
               (DbToSheetWorker.run dateToString globals config)
        else ret tt))
    (fun _ => ret tt).

(** Time passes between two cycles; nothing else changes. *)
Definition tick (ms : Z) (s : System) : System :=
  let w := fst s in
  ({| db := db w; spreadsheet := spreadsheet w; metadata := metadata w;
      processedOperations := processedOperations w; uuids := uuids w;
      now := now w + ms |}, snd s).

(** The system after [n] cycles of [config], one every [interval]
    milliseconds, with no write from outside in between. *)
Fixpoint afterCycles (config : SyncConfig) (interval : Z) (n : nat) (s : System)
    : System :=
  match n with
  | O => s
  | S n' =>
      tick interval (fst (syncConfigWithRetry config (afterCycles config interval n' s)))
  end.

(** The rows the cycle number [n] (from 1) affected: the sum of
    [rows_affected] over the history rows that cycle created. *)
Definition rowsAffected (config : SyncConfig) (interval : Z) (s : System) (n : nat)
    : Z :=
  let before := afterCycles config interval (n - 1) s in
  let after := afterCycles config interval n s in
  fold_right Z.add 0
    (map rows_affected
       (skipn (length (history (metadata (fst before))))
              (history (metadata (fst after))))).

End Cycle.

End Orchestrator.

(* ===================================================================== *)
(** * Conflict detection (sync/conflict-resolver.ts) *)
(* ===================================================================== *)

Module ConflictDetection.

(** An element of [sheetChanges] or of [dbChanges]. *)
Record Change : Type := {
  rowId : RowId;
  data : RowData;
  timestamp : Date;
  columns : list string
}.

Record ConflictDetectionInput : Type := {
  sheetChanges : list Change;
  dbChanges : list Change;
  lastSyncTime : Date
}.

(** [findOverlappingColumns]: the columns of [cols2] that [cols1] holds, in
    the order of [cols2]. *)
Definition findOverlappingColumns (cols1 cols2 : list string) : list string :=
  List.filter (fun col => existsb (String.eqb col) cols1) cols2.

(** The [Map] built by the first loop of [detectConflicts]: a later change
    of a row replaces an earlier one. *)
Definition buildDbChangeMap (changes : list Change) : gmap RowId Change :=
  fold_left (fun m dbChange => <[rowId dbChange := dbChange]> m) changes ∅.

(** The body of the second loop of [detectConflicts]. *)
Definition checkSheetChange (dbChangeMap : gmap RowId Change) (lastSync : Date)
    (conflicts : list DetectedConflict) (sheetChange : Change)
    : list DetectedConflict :=
  match dbChangeMap !! rowId sheetChange with
  | None => conflicts
  | Some dbChange =>
      let sheetAfterSync := date_gt (timestamp sheetChange) lastSync in
      let dbAfterSync := date_gt (timestamp dbChange) lastSync in
      if negb sheetAfterSync || negb dbAfterSync then conflicts
      else
        let overlappingColumns :=
          findOverlappingColumns (columns sheetChange) (columns dbChange) in
        if (0 <? length overlappingColumns)%nat
        then
          conflicts ++
          [{| ConflictResolver.rowId := rowId sheetChange;
              sheetValue := data sheetChange;
              dbValue := data dbChange;
              sheetTimestamp := timestamp sheetChange;
              dbTimestamp := timestamp dbChange;
              conflictingColumns := overlappingColumns |}]
        else conflicts
  end.

(** [detectConflicts]. *)
Definition detectConflicts (input : ConflictDetectionInput) : list DetectedConflict :=
  let dbChangeMap := buildDbChangeMap (dbChanges input) in
  fold_left (checkSheetChange dbChangeMap (lastSyncTime input)) (sheetChanges input) [].

(** [extractModifiedColumns]. *)
Definition extractModifiedColumns (row : RowData) : list string := keys row.

(** The last change of a row in a list of changes. *)
Definition lastChangeOf (key : RowId) (changes : list Change) : option Change :=
  fold_left
    (fun found change => if bool_decide (rowId change = key) then Some change else found)
    changes None.

(** The conflict a sheet change makes with the table change it meets, if
    any. *)
Definition conflictOf (lastSync : Date) (changesOfTable : list Change)
    (sheetChange : Change) : option DetectedConflict :=
  match lastChangeOf (rowId sheetChange) changesOfTable with
  | None => None
  | Some dbChange =>
      if date_gt (timestamp sheetChange) lastSync
         && date_gt (timestamp dbChange) lastSync
         && negb (bool_decide
                    (findOverlappingColumns (columns sheetChange) (columns dbChange)
                     = []))
      then
        Some {| ConflictResolver.rowId := rowId sheetChange;
                sheetValue := data sheetChange;
                dbValue := data dbChange;
                sheetTimestamp := timestamp sheetChange;
                dbTimestamp := timestamp dbChange;
                conflictingColumns :=
                  findOverlappingColumns (columns sheetChange) (columns dbChange) |}
      else None
  end.

End ConflictDetection.

(* ===================================================================== *)
(** * Rate limiter (adapters/rate-limiter.ts) *)
(* ===================================================================== *)

Module RateLimiter.

Local Open Scope Q_scope.

(** The fields of a [RateLimiter] object.  Token counts are rationals: the
    rounding of the floating-point operations is not modelled.
    [lastRefill] is a value of [Date.now()], in milliseconds. *)
Record RateLimiter : Type := {
  tokens : Q;
  maxTokens : Q;
  refillRate : Q;
  lastRefill : Z;
  name : string
}.

(** The constructor; [now] is what [Date.now()] returns there. *)
Definition new (name : string) (maxTokens refillRate : Q) (now : Z) : RateLimiter :=
  {| tokens := maxTokens; maxTokens := maxTokens; refillRate := refillRate;
     lastRefill := now; name := name |}.

Definition withTokens (tokens' : Q) (rl : RateLimiter) : RateLimiter :=
  {| tokens := tokens'; maxTokens := maxTokens rl; refillRate := refillRate rl;
     lastRefill := lastRefill rl; name := name rl |}.

(** [refill]; [now] is what [Date.now()] returns there.  The products and
    sums are exact, where the source rounds each to a double. *)
Definition refill (now : Z) (rl : RateLimiter) : RateLimiter :=
  let elapsedMs := (now - lastRefill rl)%Z in
  let elapsedSeconds := inject_Z elapsedMs / 1000 in
  let tokensToAdd := elapsedSeconds * refillRate rl in
  if Qlt_le_dec 0 tokensToAdd
  then
    {| tokens := Qmin (maxTokens rl) (tokens rl + tokensToAdd);
       maxTokens := maxTokens rl; refillRate := refillRate rl;
       lastRefill := now; name := name rl |}
  else rl.

(** [tryAcquire]. *)
Definition tryAcquire (now : Z) (tokensNeeded : Q) (rl : RateLimiter)
    : RateLimiter * bool :=
  let rl1 := refill now rl in
  if Qle_bool tokensNeeded (tokens rl1)
  then (withTokens (tokens rl1 - tokensNeeded) rl1, true)
  else (rl1, false).

(** [getTokens]. *)
Definition getTokens (now : Z) (rl : RateLimiter) : RateLimiter * Q :=
  let rl1 := refill now rl in (rl1, tokens rl1).

Section Acquire.

Context {W : Type}.

(** [Date.now()] reads the clock of the world; [sleep ms] is the world
    after the timer of [ms] milliseconds has fired. *)
Variable clock : W -> Z.
Variable sleep : Q -> W -> W.

(** The [while (true)] loop of [acquire], cut after [fuel] turns: [None]
    when the loop is still waiting then. *)
Fixpoint acquireLoop (fuel : nat) (tokensNeeded : Q) (rl : RateLimiter) (w : W)
    : RateLimiter * W * option unit :=
  match fuel with
  | O => (rl, w, None)
  | S fuel' =>
      let rl1 := refill (clock w) rl in
      if Qle_bool tokensNeeded (tokens rl1)
      then (withTokens (tokens rl1 - tokensNeeded) rl1, w, Some tt)
      else
        let tokensShort := tokensNeeded - tokens rl1 in
        let waitMs := tokensShort / refillRate rl1 * 1000 in
        acquireLoop fuel' tokensNeeded rl1 (sleep waitMs w)
  end.

End Acquire.

(** A run of [tryAcquire] calls, each with the time it is made at and the
    tokens it asks for; the result counts the tokens handed out. *)
Fixpoint tryAcquireAll (calls : list (Z * Q)) (rl : RateLimiter) : RateLimiter * Q :=
  match calls with
  | [] => (rl, 0)
  | (now, tokensNeeded) :: rest =>
      let '(rl1, granted) := tryAcquire now tokensNeeded rl in
      let '(rl2, total) := tryAcquireAll rest rl1 in
      (rl2, (if granted then tokensNeeded else 0) + total)
  end.

(** The bucket holds between no token and [maxTokens]. *)
Definition inBounds (rl : RateLimiter) : Prop :=
  0 <= tokens rl /\ tokens rl <= maxTokens rl.

End RateLimiter.

(* ===================================================================== *)
(** * The guards of the sheet adapter (adapters/google-sheets.adapter.ts) *)
(* ===================================================================== *)

Module GoogleSheetsAdapter.

(** The fields of a [GoogleSheetsAdapter] object that guard its calls. *)
Record GoogleSheetsAdapter : Type := {
  rateLimiter : RateLimiter.RateLimiter;
  circuitBreaker : CircuitBreaker.CircuitBreaker
}.

Section Guarded.

Context {W A : Type}.

(** [Date.now()], the timers, [Math.random()] for the jitter of the
    retries, and [config.MAX_RETRY_ATTEMPTS]. *)
Variable clock : W -> Z.
Variable sleep : Q -> W -> W.
Variable random : nat -> Q.
Variable maxRetryAttempts : nat.

(** The options the adapter passes to [retry], merged over the defaults. *)
Definition retryOptions : Retry.RetryOptions :=
  {| Retry.maxAttempts := maxRetryAttempts;
     Retry.baseDelay := 1000;
     Retry.maxDelay := 60000;
     Retry.jitter := true;
     Retry.retryableErrors := Some Orchestrator.isRetryableError |}.

(** The request under [retry], as the breaker sees it. *)
Definition retried (request : async W A) : async W A :=
  fun w =>
    let '(w1, _, settled) :=
      Retry.retrySleeping sleep request retryOptions random w in
    (w1, settled).

(** What every method of the adapter does around its request to the API:
    [await this.rateLimiter.acquire()], then
    [this.circuitBreaker.execute(() => retry(request, ...))].  [None] when
    [acquire] is still waiting after [fuel] turns. *)
Definition guarded (fuel : nat) (request : async W A)
    (s : GoogleSheetsAdapter * W) : option (GoogleSheetsAdapter * W * outcome A) :=
  let '(adapter, w) := s in
  match RateLimiter.acquireLoop clock sleep fuel 1 (rateLimiter adapter) w with
  | (_, _, None) => None
  | (limiter, w1, Some _) =>
      let '(breaker, w2, settled) :=
        CircuitBreaker.execute clock (retried request) (circuitBreaker adapter) w1 in
      Some ({| rateLimiter := limiter; circuitBreaker := breaker |}, w2, settled)
  end.

End Guarded.

End GoogleSheetsAdapter.

(* ===================================================================== *)
(** * In-memory job queue (sync/queue-adapter.ts) *)
(* ===================================================================== *)

Module InMemoryQueue.

Record JobPayload : Type := {
  configId : string;
  syncId : string;
  correlationId : string;
  direction : Metadata.SyncDirection
}.

(** [JobOptions]; [enqueue] takes them and reads none. *)
Record JobOptions : Type := {
  priority : option Z;
  delay : option Z;
  attempts : option Z
}.

Record Job : Type := {
  id : string;
  data : JobPayload;
  attemptsMade : Z;
  timestamp : Date
}.

(** The fields of an [InMemoryQueue] object. *)
Record InMemoryQueue : Type := {
  queue : list Job;
  processing : gset string;
  deadLetterQueue : list (Job * thrown);
  isProcessing : bool
}.

Definition empty : InMemoryQueue :=
  {| queue := []; processing := ∅; deadLetterQueue := []; isProcessing := false |}.

Definition withQueue (jobs : list Job) (q : InMemoryQueue) : InMemoryQueue :=
  {| queue := jobs; processing := processing q;
     deadLetterQueue := deadLetterQueue q; isProcessing := isProcessing q |}.

Definition withProcessing (ids : gset string) (q : InMemoryQueue) : InMemoryQueue :=
  {| queue := queue q; processing := ids;
     deadLetterQueue := deadLetterQueue q; isProcessing := isProcessing q |}.

Definition withIsProcessing (flag : bool) (q : InMemoryQueue) : InMemoryQueue :=
  {| queue := queue q; processing := processing q;
     deadLetterQueue := deadLetterQueue q; isProcessing := flag |}.

(** The health report of [getHealth]. *)
Record Health : Type := {
  isHealthy : bool;
  depth : nat;
  inProcess : nat;
  failed : nat
}.

(** [getHealth]. *)
Definition getHealth (q : InMemoryQueue) : Health :=
  {| isHealthy := (length (queue q) <? 1000)%nat;
     depth := length (queue q);
     inProcess := size (processing q);
     failed := length (deadLetterQueue q) |}.

(** [moveToDeadLetter]: the job is looked up in the queue. *)
Definition moveToDeadLetter (jobId : string) (error : thrown) (q : InMemoryQueue)
    : InMemoryQueue :=
  match List.find (fun j => String.eqb (id j) jobId) (queue q) with
  | Some job =>
      {| queue := queue q; processing := processing q;
         deadLetterQueue := deadLetterQueue q ++ [(job, error)];
         isProcessing := isProcessing q |}
  | None => q
  end.

(** [close]. *)
Definition close (q : InMemoryQueue) : InMemoryQueue := withIsProcessing false q.

Section Queue.

Context {W : Type}.

(** [Date.now()], the nine characters [Math.random()] leaves in an id, and
    the world after a timer has fired. *)
Variable clock : W -> Z.
Variable randomSuffix : W -> string.
Variable sleep : Z -> W -> W.

(** [enqueue]; the result is the id of the job. *)
Definition enqueue (payload : JobPayload) (options : option JobOptions)
    (s : InMemoryQueue * W) : InMemoryQueue * W * string :=
  let '(q, w) := s in
  let job :=
    {| id := "job-" ++ pretty (clock w) ++ "-" ++ randomSuffix w;
       data := payload;
       attemptsMade := 0;
       timestamp := Some (clock w) |} in
  (withQueue (queue q ++ [job]) q, w, id job).

(** What runs while the loop awaits [handler(job)]: the handler, and
    whatever else gets its turn meanwhile; so it acts on the queue object as
    well as on the rest of the world. *)
Variable handler : Job -> async (InMemoryQueue * W) unit.

(** One turn of the [while] loop of [processLoop], entered with
    [isProcessing] set. *)
Definition turn (s : InMemoryQueue * W) : InMemoryQueue * W :=
  let '(q, w) := s in
  match queue q with
  | [] => (q, sleep 1000 w)
  | job :: rest =>
      let q1 := withProcessing ({[id job]} ∪ processing q) (withQueue rest q) in
      let '((q2, w2), settled) := handler job (q1, w) in
      let q3 := withProcessing (processing q2 ∖ {[id job]}) q2 in
      match settled with
      | Returned _ => (q3, w2)
      | Thrown error => (moveToDeadLetter (id job) error q3, w2)
      end
  end.

(** The loop, cut after [fuel] turns. *)
Fixpoint processLoop (fuel : nat) (s : InMemoryQueue * W) : InMemoryQueue * W :=
  match fuel with
  | O => s
  | S fuel' => if isProcessing (fst s) then processLoop fuel' (turn s) else s
  end.

(** [process]: nothing when the loop runs already. *)
Definition process (fuel : nat) (s : InMemoryQueue * W) : InMemoryQueue * W :=
  if isProcessing (fst s) then s
  else processLoop fuel (withIsProcessing true (fst s), snd s).

End Queue.

(** A handler that leaves the queue object alone. *)
Definition aside {W : Type} (handle : Job -> async W unit)
    : Job -> async (InMemoryQueue * W) unit :=
  fun job => zoom snd (fun w s => (fst s, w)) (handle job).

(** The world after the jobs were handled one after the other, whether
    they failed or not. *)
Definition handled {W : Type} (handle : Job -> async W unit) (jobs : list Job) (w : W)
    : W :=
  fold_left (fun w job => fst (handle job w)) jobs w.

End InMemoryQueue.

(* ===================================================================== *)
(** * The sync that creating a configuration runs (api/routes/config.routes.ts) *)
(* ===================================================================== *)

Module ConfigRoutes.

Import Metadata.
Local Open Scope async_scope.

(** [String.fromCharCode(65 + index)], for a sheet of fewer than 191
    columns. *)
Definition letterOfIndex (index : nat) : string :=
  String (ascii_of_nat (65 + index)) "".

(** [config.column_mapping[letter] || header.toLowerCase()]: a header cell
    that is not a string has no such method. *)
Definition dbColumnOf (config : SyncConfig) (header : value) (index : nat)
    : async World string :=
  match Worker.mappingGet (column_mapping config) (letterOfIndex index) with
  | Some columnName =>
      if String.eqb columnName ""
      then
        match header with
        | VStr text => ret (Orchestrator.toLowerCase text)
        | _ => throw (ThrownError "header.toLowerCase is not a function")
        end
      else ret columnName
  | None =>
      match header with
      | VStr text => ret (Orchestrator.toLowerCase text)
      | _ => throw (ThrownError "header.toLowerCase is not a function")
      end
  end.

(** The [headers.forEach] that fills [rowData], from the column [index]
    on: [rowData[dbColumn] = row[index] || null]. *)
Fixpoint mapColumns (config : SyncConfig) (headers : list value) (index : nat)
    (row : list value) (rowData : RowData) : async World RowData :=
  match headers with
  | [] => ret rowData
  | header :: rest =>
      dbColumn <- dbColumnOf config header index ;;
      let cell := default VUndefined (row !! index) in
      mapColumns config rest (S index) row
        (prop_set rowData dbColumn (if truthy cell then cell else VNull))
  end.

(** [new MySQLAdapter(config.db_connection_string)]: an adapter without a
    table name nor a pool. *)
Definition newAdapter : async World unit :=
  modify (fun w =>
            withDb {| MySQL.database := MySQL.database (db w);
                      MySQL.adapter :=
                        {| MySQL.adapterTableName := ""; MySQL.pool := None |} |} w).

(** The inline sync of [POST /], [config] holding what the request gives:
    the configuration is created with [sheet_range || 'Sheet1'], and every
    row the service answers with for that range, below the header, is
    inserted in the table; the result is the number of rows inserted. *)
Definition inlineSync (config : SyncConfig) : async World Z :=
  sheetData <- onSheet (Sheets.getRange (Worker.sheetRange config) None) ;;
  match Sheets.values sheetData with
  | [] => throw (ThrownError "Sheet is empty or has no data")
  | headers :: dataRows =>
      newAdapter ;;
      onDb MySQL.connect ;;
      inserted <-
        forEachCounting dataRows
          (fun row =>
             rowData <- mapColumns config headers 0 row [] ;;
             onDb (MySQL.insert (VStr (db_table_name config)) rowData None))
          0 ;;
      onDb MySQL.close ;;
      ret inserted
  end.

(** A change-log row as a writer from outside leaves it: tagged
    ['external'], not processed. *)
Definition external (table : string) (entry : MySQL.MySQLChangeLogEntry) : Prop :=
  MySQL.source_tag entry = Some "external"
  /\ MySQL.processed entry = false
  /\ MySQL.table_name entry = table.

(** Between two worlds nothing changed but the table and its change log,
    and the change log grew by rows that look written from outside. *)
Definition wroteAsExternal (w w' : World) : Prop :=
  metadata w' = metadata w
  /\ spreadsheet w' = spreadsheet w
  /\ processedOperations w' = processedOperations w
  /\ MySQL.tableName (MySQL.database (db w')) = MySQL.tableName (MySQL.database (db w))
  /\ exists added,
       MySQL.changeLog (MySQL.database (db w'))
       = MySQL.changeLog (MySQL.database (db w)) ++ added
       /\ Forall (external (MySQL.tableName (MySQL.database (db w)))) added.

End ConfigRoutes.

(* ===================================================================== *)
(** * Scenarios: the concrete inputs the properties are tried on *)
(* ===================================================================== *)

Module Scenarios.

(** The conflict of the scenario "row 2 edited on both sides", with the two
    edits at the same instant. *)
Definition tiedConflict : DetectedConflict :=
  {| rowId := IdStr "2";
     sheetValue := [("id", VStr "2"); ("name", VStr "Robert")];
     dbValue := [("id", VStr "2"); ("name", VStr "Bobby")];
     sheetTimestamp := Some 1700000000000;
     dbTimestamp := Some 1700000000000;
     conflictingColumns := ["name"] |}.

(** A breaker that opened at time 1000 with the default timeout of five
    minutes, asked again four minutes later. *)
Definition openedBreaker : CircuitBreaker.CircuitBreaker :=
  {| CircuitBreaker.state := CircuitBreaker.OPEN;
     CircuitBreaker.failures := 0;
     CircuitBreaker.successes := 0;
     CircuitBreaker.lastFailureTime := 1000;
     CircuitBreaker.failureTimestamps := [1000];
     CircuitBreaker.options :=
       CircuitBreaker.options (CircuitBreaker.new "google-sheets" None None None None);
     CircuitBreaker.name := "google-sheets" |}.

(** A function that fails at every call with a retryable error, and the
    options of a run of three attempts without jitter. *)
Definition alwaysFails : async unit unit :=
  fun w => (w, Thrown (ThrownError "503 Service Unavailable")).

Definition threeAttempts : Retry.RetryOptions :=
  {| Retry.maxAttempts := 3;
     Retry.baseDelay := 1000;
     Retry.maxDelay := 60000;
     Retry.jitter := false;
     Retry.retryableErrors := None |}.

(** Two row sets keyed by ["id"]: row 1 renamed, row 2 gone, row 3 new. *)
Definition byId : ChangeDetectorOptions :=
  {| primaryKey := "id"; ignoreColumns := None |}.

Definition sheetSide : list RowData :=
  [[("id", VStr "1"); ("name", VStr "Alice")];
   [("id", VStr "3"); ("name", VStr "Carol")]].

Definition tableSide : list RowData :=
  [[("id", VStr "1"); ("name", VStr "Al")];
   [("id", VStr "2"); ("name", VStr "Bob")]].

(** A rendering of dates, for the runs that meet none. *)
Definition isoDate (d : Date) : string :=
  match d with
  | Some t => pretty t
  | None => "Invalid Date"
  end.

(** Change-log rows of the table ["users"], written from outside. *)
Definition externalChange (changeId changedAt : Z) (done : bool)
    : MySQL.MySQLChangeLogEntry :=
  {| MySQL.id := changeId;
     MySQL.table_name := "users";
     MySQL.operation := MySQL.UPDATE;
     MySQL.row_data := [("id", VStr "1"); ("name", VStr "A")];
     MySQL.changed_at := changedAt;
     MySQL.processed := done;
     MySQL.source_tag := Some "external" |}.

(** A connected adapter of the table ["users"] over a given change log. *)
Definition usersWithLog (log : list MySQL.MySQLChangeLogEntry) : MySQL.Db :=
  {| MySQL.database :=
       {| MySQL.tableName := "users";
          MySQL.primaryKeyColumn := "id";
          MySQL.columns := ["id"; "name"];
          MySQL.rows := [[("id", VStr "1"); ("name", VStr "A")]];
          MySQL.changeLog := log;
          MySQL.nextChangeId := 1 + Z.of_nat (length log);
          MySQL.currentTimestamp := 100 |};
     MySQL.adapter :=
       {| MySQL.adapterTableName := "users"; MySQL.pool := Some [] |} |}.

(** The second change was stamped before the first. *)
Definition outOfOrderLog : list MySQL.MySQLChangeLogEntry :=
  [externalChange 1 20 false; externalChange 2 10 false].

(** A change that is already processed. *)
Definition processedLog : list MySQL.MySQLChangeLogEntry :=
  [externalChange 1 10 true].

(** 1001 pending changes, stamped in the order of their ids. *)
Definition backlog : list MySQL.MySQLChangeLogEntry :=
  map (fun i => externalChange (Z.of_nat i) (Z.of_nat i) false) (seq 1 1001).

(** The configuration of the scenarios: column A is ["id"], column B is
    ["name"], last-write-wins, a cycle every 30 seconds. *)
Definition usersConfig : Metadata.SyncConfig :=
  {| Metadata.config_id := "config-1";
     Metadata.sheet_id := "sheet-1";
     Metadata.sheet_range := None;
     Metadata.db_table_name := "users";
     Metadata.column_mapping := [("A", "id"); ("B", "name")];
     Metadata.conflict_strategy := LAST_WRITE_WINS;
     Metadata.sync_interval_seconds := 30;
     Metadata.is_active := true |}.

(** A range that names the whole sheet, as the default ['Sheet1'] does:
    the service answers with the grid, and appends below it. *)
Definition wholeSheet : Sheets.Ranges :=
  {| Sheets.valuesIn := fun _ grid => grid;
     Sheets.appendedTo := fun _ grid rows => grid ++ rows |}.

(** A global object that binds the two free names of the workers to the
    exports of the logger and of the adapter. *)
Definition suppliedGlobals : Worker.Globals :=
  {| Worker.createChildLogger := Worker.Bound;
     Worker.googleSheetsAdapter := Worker.Bound |}.

(** A world at time [100000] with nothing synced yet: the table ["users"]
    with columns ["id"] and ["name"], a sheet that sends ETags, an empty
    metadata store. *)
Definition worldOf (grid : list (list value)) (tableRows : list RowData)
    (log : list MySQL.MySQLChangeLogEntry) : Metadata.World :=
  {| Metadata.db :=
       {| MySQL.database :=
            {| MySQL.tableName := "users";
               MySQL.primaryKeyColumn := "id";
               MySQL.columns := ["id"; "name"];
               MySQL.rows := tableRows;
               MySQL.changeLog := log;
               MySQL.nextChangeId := 1 + Z.of_nat (length log);
               MySQL.currentTimestamp := 2000 |};
          MySQL.adapter :=
            {| MySQL.adapterTableName := "users"; MySQL.pool := None |} |};
     Metadata.spreadsheet :=
       {| Sheets.cells := grid; Sheets.ranges := wholeSheet;
          Sheets.version := Some 0%nat; Sheets.online := true |};
     Metadata.metadata :=
       {| Metadata.syncState := None;
          Metadata.history := [];
          Metadata.conflicts := [] |};
     Metadata.processedOperations := [];
     Metadata.uuids := 0;
     Metadata.now := 100000 |}.

(** Rows 1 and 2 renamed in the sheet; the sheet has a third column that no
    mapping covers, filled in for row 2 only. *)
Definition unmappedColumnWorld : Metadata.World :=
  worldOf [[VStr "id"; VStr "name"; VStr "note"];
           [VStr "1"; VStr "Alice"];
           [VStr "2"; VStr "Bob"; VStr "x"]]
          [[("id", VStr "1"); ("name", VStr "Al")];
           [("id", VStr "2"); ("name", VStr "Bo")]]
          [].

(** Row 1 renamed in the sheet, nothing pending in the change log. *)
Definition renamedRowWorld : Metadata.World :=
  worldOf [[VStr "id"; VStr "name"]; [VStr "1"; VStr "Alice"]]
          [[("id", VStr "1"); ("name", VStr "Al")]]
          [].

(** Row 2 was renamed on both sides after the last table-to-sheet sync (at
    [1000]): to Robert in the sheet, to Bobby in the table, by a writer from
    outside at [1500]. *)
Definition bothSidesWorld : Metadata.World :=
  let w :=
    worldOf [[VStr "id"; VStr "name"]; [VStr "2"; VStr "Robert"]]
            [[("id", VStr "2"); ("name", VStr "Bobby")]]
            [{| MySQL.id := 1;
                MySQL.table_name := "users";
                MySQL.operation := MySQL.UPDATE;
                MySQL.row_data := [("id", VStr "2"); ("name", VStr "Bobby")];
                MySQL.changed_at := 1500;
                MySQL.processed := false;
                MySQL.source_tag := Some "external" |}] in
  Metadata.withMetadata
    {| Metadata.syncState :=
         Some {| Metadata.last_sheet_sync_at := Some 1000;
                 Metadata.last_db_sync_at := Some 1000;
                 Metadata.sheet_etag := None;
                 Metadata.db_last_change_id := None |};
       Metadata.history := [];
       Metadata.conflicts := [] |} w.

(** Two changes from outside are pending: a rename of row 1, and a change
    whose snapshot has no primary key. *)
Definition keylessEntryWorld : Metadata.World :=
  worldOf [[VStr "id"; VStr "name"]; [VStr "1"; VStr "Alice"]]
          [[("id", VStr "1"); ("name", VStr "Alicia")]]
          [{| MySQL.id := 1;
              MySQL.table_name := "users";
              MySQL.operation := MySQL.UPDATE;
              MySQL.row_data := [("id", VStr "1"); ("name", VStr "Alicia")];
              MySQL.changed_at := 1500;
              MySQL.processed := false;
              MySQL.source_tag := Some "external" |};
           {| MySQL.id := 2;
              MySQL.table_name := "users";
              MySQL.operation := MySQL.UPDATE;
              MySQL.row_data := [("name", VStr "Ghost")];
              MySQL.changed_at := 1600;
              MySQL.processed := false;
              MySQL.source_tag := Some "external" |}].

(** A breaker with the default options before any call: closed, five
    failures within a minute open it. *)
Definition closedBreaker : CircuitBreaker.CircuitBreaker :=
  CircuitBreaker.new "google-sheets" None None None None.

(** Sheet and table agree on their only row, nothing is pending. *)
Definition agreeingWorld : Metadata.World :=
  worldOf [[VStr "id"; VStr "name"]; [VStr "1"; VStr "Alice"]]
          [[("id", VStr "1"); ("name", VStr "Alice")]]
          [].

(** The limiter of the sheet service with its default settings, 100 tokens
    refilled at one token a second, built at time 0; and the same limiter
    with its bucket empty. *)
Definition sheetsLimiter : RateLimiter.RateLimiter :=
  RateLimiter.new "google-sheets" 100 1 0.

Definition drainedLimiter : RateLimiter.RateLimiter :=
  RateLimiter.withTokens 0 sheetsLimiter.

(** A bucket of two tokens that refills at one token a second, and four
    calls for one token each: three at time 0, one a second later. *)
Definition smallLimiter : RateLimiter.RateLimiter :=
  RateLimiter.new "small" 2 1 0.

Definition fourCalls : list (Z * Q) :=
  [(0, 1%Q); (0, 1%Q); (0, 1%Q); (1000, 1%Q)].

(** A timer that fires at the first whole millisecond after the time asked
    for, in a world that is its clock. *)
Definition roundedUp (ms : Q) : Z := Qnum ms / Zpos (Qden ms) + 1.

Definition timer (ms : Q) (now : Z) : Z := now + roundedUp ms.

(** A timer that fires on time: at the first whole millisecond that is not
    before the time asked for. *)
Definition punctualTimer (ms : Q) (now : Z) : Z :=
  now - (- Qnum ms) / Zpos (Qden ms).

(** Two jobs waiting in a queue whose loop is not started; the handler
    logs the id of the job and fails on the first job. *)
Definition sheetJob (jobId : string) : InMemoryQueue.Job :=
  {| InMemoryQueue.id := jobId;
     InMemoryQueue.data :=
       {| InMemoryQueue.configId := "config-1"; InMemoryQueue.syncId := "sync-1";
          InMemoryQueue.correlationId := "c-1";
          InMemoryQueue.direction := Metadata.sheet_to_db |};
     InMemoryQueue.attemptsMade := 0;
     InMemoryQueue.timestamp := Some 0 |}.

Definition twoJobs : InMemoryQueue.InMemoryQueue :=
  InMemoryQueue.withQueue [sheetJob "job-1"; sheetJob "job-2"] InMemoryQueue.empty.

Definition logAndFailFirst (job : InMemoryQueue.Job) : async (list string) unit :=
  fun log =>
    (log ++ [InMemoryQueue.id job],
     if String.eqb (InMemoryQueue.id job) "job-1"
     then Thrown (ThrownError "503 Service Unavailable")
     else Returned tt).
(** A mapping of 27 columns, [A] to [Z] and [AA], column number [i] (from
    0) mapped to the name ["c" ++ i]. *)
Definition wideConfig : Metadata.SyncConfig :=
  {| Metadata.config_id := "config-27";
     Metadata.sheet_id := "sheet-27";
     Metadata.sheet_range := None;
     Metadata.db_table_name := "wide";
     Metadata.column_mapping :=
       map (fun i => (Worker.indexToColumnLetter i, ("c" ++ pretty i)%string))
           (seq 0 27);
     Metadata.conflict_strategy := LAST_WRITE_WINS;
     Metadata.sync_interval_seconds := 30;
     Metadata.is_active := true |}.

(** The sheet holds a row that the table does not hold yet. *)
Definition sheetOnlyWorld : Metadata.World :=
  worldOf [[VStr "id"; VStr "name"]; [VStr "1"; VStr "Alice"]] [] [].

(** The adapter of the sheet service before any call, and a request that
    takes a millisecond and fails with a retryable error. *)
Definition freshAdapter : GoogleSheetsAdapter.GoogleSheetsAdapter :=
  {| GoogleSheetsAdapter.rateLimiter := sheetsLimiter;
     GoogleSheetsAdapter.circuitBreaker := closedBreaker |}.

Definition failingRequest : async Z unit :=
  fun now => (now + 1, Thrown (ThrownError "503 Service Unavailable")).
End Scenarios.

Import Scenarios.

(* ===================================================================== *)
(** * Properties *)
(* ===================================================================== *)

(* --------------------------------------------------------------------- *)
(** ** Last-write-wins arbitration *)
(* --------------------------------------------------------------------- *)

Section LastWriteWins.

(** C2, as stated, fails on a tie: with equal timestamps the resolver
    names the table the winner and resolves to the table value, not the
    spreadsheet value. *)
Lemma lww_tie_resolves_to_db :
  sheetTimestamp tiedConflict = dbTimestamp tiedConflict
  /\ winner (resolveConflict tiedConflict LAST_WRITE_WINS) = WinnerDb
  /\ resolvedValue (resolveConflict tiedConflict LAST_WRITE_WINS)
     = Some (dbValue tiedConflict)
  /\ winner (resolveConflict tiedConflict LAST_WRITE_WINS) <> WinnerSheet.
Proof. repeat split; discriminate. Qed.

(** C2, amended: under last-write-wins the spreadsheet wins exactly when its
    timestamp is strictly later; the table wins when its timestamp is
    strictly later and also on a tie.  The resolved value is the value of
    the winning side. *)
Theorem lww_later_side_wins (conflict : DetectedConflict) (ts td : Z) :
  sheetTimestamp conflict = Some ts ->
  dbTimestamp conflict = Some td ->
  let resolved := resolveConflict conflict LAST_WRITE_WINS in
  resolvedRowId resolved = rowId conflict
  /\ (td < ts ->
      winner resolved = WinnerSheet
      /\ resolvedValue resolved = Some (sheetValue conflict))
  /\ (ts < td ->
      winner resolved = WinnerDb
      /\ resolvedValue resolved = Some (dbValue conflict))
  /\ (ts = td ->
      winner resolved = WinnerDb
      /\ resolvedValue resolved = Some (dbValue conflict)).
Proof.
  intros Hs Hd. cbn. unfold resolveLWW. rewrite Hs, Hd. cbn.
  split; [reflexivity|].
  destruct (Z.ltb_spec td ts) as [Hlt | Hge]; cbn; repeat split; intros; try lia;
    reflexivity.
Qed.

Lemma lww_later_side_wins_witness :
  let resolved := resolveConflict tiedConflict LAST_WRITE_WINS in
  resolvedRowId resolved = rowId tiedConflict
  /\ (1700000000000 < 1700000000000 ->
      winner resolved = WinnerSheet
      /\ resolvedValue resolved = Some (sheetValue tiedConflict))
  /\ (1700000000000 < 1700000000000 ->
      winner resolved = WinnerDb
      /\ resolvedValue resolved = Some (dbValue tiedConflict))
  /\ (1700000000000 = 1700000000000 ->
      winner resolved = WinnerDb
      /\ resolvedValue resolved = Some (dbValue tiedConflict)).
Proof.
  apply (lww_later_side_wins tiedConflict 1700000000000 1700000000000);
    reflexivity.
Defined.

End LastWriteWins.

(* --------------------------------------------------------------------- *)
(** ** The dead-letter queue is a bounded FIFO *)
(* --------------------------------------------------------------------- *)

Section DeadLetters.

Import DeadLetterQueue.

Lemma add_entries (entry : DeadLetterEntry) (q : DeadLetterQueue) :
  (length (entries q) <= maxSize)%nat ->
  entries (add entry q)
  = skipn (length (entries q ++ [entry]) - maxSize) (entries q ++ [entry]).
Proof.
  intros Hlen. unfold add.
  assert (Hpushed : length (entries q ++ [entry]) = S (length (entries q)))
    by (rewrite length_app; cbn; lia).
  destruct (Nat.ltb_spec maxSize (length (entries q ++ [entry]))) as [Hgt | Hle];
    cbn [entries].
  - replace (length (entries q ++ [entry]) - maxSize)%nat with 1%nat by lia.
    destruct (entries q ++ [entry]); reflexivity.
  - replace (length (entries q ++ [entry]) - maxSize)%nat with 0%nat by lia.
    reflexivity.
Qed.

Lemma addAll_entries (es : list DeadLetterEntry) :
  entries (addAll es empty) = skipn (length es - maxSize) es.
Proof.
  induction es as [| entry es IH] using rev_ind.
  - reflexivity.
  - unfold addAll in *. rewrite fold_left_app. cbn [fold_left].
    set (q := fold_left (fun q e => add e q) es empty) in *.
    assert (Hq : (length (entries q) <= maxSize)%nat).
    { rewrite IH, length_skipn. lia. }
    rewrite add_entries by exact Hq.
    rewrite IH. rewrite !length_app, length_skipn. cbn [length].
    destruct (Nat.le_gt_cases (length es) maxSize) as [Hle | Hgt].
    + replace (length es - maxSize)%nat with 0%nat by lia.
      rewrite Nat.sub_0_r. reflexivity.
    + assert (Hpos : (0 < maxSize)%nat) by (unfold maxSize; lia).
      replace (length es - (length es - maxSize) + 1 - maxSize)%nat
        with 1%nat by lia.
      replace (length es + 1 - maxSize)%nat
        with (S (length es - maxSize)) by lia.
      rewrite (skipn_app (S _) es).
      replace (S (length es - maxSize) - length es)%nat with 0%nat by lia.
      assert (Hsplit : exists e0 rest, skipn (length es - maxSize) es = e0 :: rest).
      { destruct (skipn (length es - maxSize) es) as [| e0 rest] eqn:Hs.
        - apply (f_equal (@length _)) in Hs. rewrite length_skipn in Hs.
          cbn in Hs. lia.
        - eauto. }
      destruct Hsplit as (e0 & rest & Hs).
      rewrite Hs. cbn [app skipn].
      replace (S (length es - maxSize)) with (1 + (length es - maxSize))%nat
        by lia.
      rewrite <- skipn_skipn, Hs. reflexivity.
Qed.

(** C8: starting from the empty queue, after every [add] the depth is at
    most 1000; an [add] on a full queue evicts exactly the oldest entry and
    an [add] on a queue that is not full evicts nothing; the queue holds the
    last 1000 entries added, in insertion order, so after 1001 adds the
    depth is 1000, the first entry is gone and the 1000 later ones remain
    in order. *)
Theorem dlq_bounded_fifo (es : list DeadLetterEntry) (entry : DeadLetterEntry) :
  let q := addAll es empty in
  (getDepth q <= 1000)%nat
  /\ (getDepth (add entry q) <= 1000)%nat
  /\ (getDepth q = 1000%nat -> getAll (add entry q) = tl (getAll q) ++ [entry])
  /\ ((getDepth q < 1000)%nat -> getAll (add entry q) = getAll q ++ [entry])
  /\ getAll q = skipn (length es - 1000) es
  /\ (length es = 1001%nat ->
      getDepth q = 1000%nat /\ getAll q = tl es /\ getAll q = skipn 1 es).
Proof.
  intros q. unfold getDepth, getAll.
  assert (Hq : entries q = skipn (length es - maxSize) es) by apply addAll_entries.
  assert (Hlen : (length (entries q) <= maxSize)%nat).
  { rewrite Hq, length_skipn. lia. }
  assert (Hadd := add_entries entry q Hlen).
  assert (Hpushed : length (entries q ++ [entry]) = S (length (entries q)))
    by (rewrite length_app; cbn; lia).
  change 1000%nat with maxSize.
  repeat split.
  - exact Hlen.
  - rewrite Hadd, length_skipn. lia.
  - intros Hfull. rewrite Hadd, Hpushed, Hfull.
    replace (S maxSize - maxSize)%nat with 1%nat by lia.
    destruct (entries q) as [| e0 rest]; [discriminate Hfull | reflexivity].
  - intros Hroom. rewrite Hadd, Hpushed.
    replace (S (length (entries q)) - maxSize)%nat with 0%nat by lia.
    reflexivity.
  - exact Hq.
  - rewrite Hq, length_skipn. lia.
  - rewrite Hq. replace (length es - maxSize)%nat with 1%nat by lia.
    destruct es; reflexivity.
  - rewrite Hq. f_equal. lia.
Qed.

End DeadLetters.

(* --------------------------------------------------------------------- *)
(** ** The circuit breaker during its cool-down *)
(* --------------------------------------------------------------------- *)

Section CoolDown.

Import CircuitBreaker.

Context {W A : Type}.
Variable clock : W -> Z.

(** C10: while the breaker is OPEN and the time since the last recorded
    failure is at most the timeout, [execute] throws, the breaker and the
    world are as before, so the state is still OPEN, and the wrapped
    function has not run: a function that counts its invocations has
    counted none. *)
Theorem open_breaker_rejects_without_invoking
    (fn : async W A) (cb : CircuitBreaker) (w : W) :
  state cb = OPEN ->
  clock w - lastFailureTime cb <= timeout (options cb) ->
  execute clock fn cb w = (cb, w, Thrown (openError cb))
  /\ state (fst (fst (execute clock fn cb w))) = OPEN
  /\ forall n : nat,
       execute (fun wn => clock (fst wn)) (counting fn) cb (w, n)
       = (cb, (w, n), Thrown (openError cb)).
Proof.
  intros Hopen Hcool.
  assert (Hguard : (timeout (options cb) <? clock w - lastFailureTime cb) = false)
    by (apply Z.ltb_ge; exact Hcool).
  assert (Hexec : forall (V : Type) (clk : V -> Z) (f : async V A) (v : V),
             clk v = clock w ->
             execute clk f cb v = (cb, v, Thrown (openError cb))).
  { intros V clk f v Hclk. unfold execute. rewrite Hopen, Hclk, Hguard.
    reflexivity. }
  repeat split.
  - apply Hexec. reflexivity.
  - rewrite Hexec by reflexivity. exact Hopen.
  - intros n. apply Hexec. reflexivity.
Qed.

End CoolDown.

Lemma open_breaker_rejects_without_invoking_witness :
  let fn : async Z unit := fun t => (t + 1, Returned tt) in
  CircuitBreaker.execute (fun t : Z => t) fn openedBreaker 241000
  = (openedBreaker, 241000, Thrown (CircuitBreaker.openError openedBreaker))
  /\ CircuitBreaker.state
       (fst (fst (CircuitBreaker.execute (fun t : Z => t) fn openedBreaker 241000)))
     = CircuitBreaker.OPEN
  /\ forall n : nat,
       CircuitBreaker.execute (fun wn : Z * nat => fst wn)
         (CircuitBreaker.counting fn) openedBreaker (241000, n)
       = (openedBreaker, (241000, n),
          Thrown (CircuitBreaker.openError openedBreaker)).
Proof.
  apply (open_breaker_rejects_without_invoking (fun t : Z => t)
           (fun t => (t + 1, Returned tt)) openedBreaker 241000).
  - reflexivity.
  - cbn. lia.
Defined.

(* --------------------------------------------------------------------- *)
(** ** The retry wrapper *)
(* --------------------------------------------------------------------- *)

Section RetryContract.

Import Retry.

Context {W A : Type}.
Variable fn : async W A.
Variable opts : RetryOptions.
Variable random : nat -> Q.

Lemma invocation_shift (w : W) (k : nat) :
  invocation fn w (S k) = invocation fn (fst (fn w)) k.
Proof.
  induction k as [| k IH]; [reflexivity |].
  change (invocation fn w (S (S k))) with (fn (fst (invocation fn w (S k)))).
  rewrite IH. reflexivity.
Qed.

Lemma worldAfter_shift (w : W) (n : nat) :
  worldAfter fn w (S n) = worldAfter fn (fst (fn w)) n.
Proof.
  destruct n as [| n]; [reflexivity |].
  unfold worldAfter. rewrite invocation_shift. reflexivity.
Qed.

Lemma retryLoop_trace (remaining attempt : nat) (lastError : thrown) (w : W)
    (trace : list event) :
  retryLoop fn opts random remaining attempt lastError w trace
  = let '(w', tr, res) := retryLoop fn opts random remaining attempt lastError w [] in
    (w', trace ++ tr, res).
Proof.
  revert attempt lastError w trace.
  induction remaining as [| r IH]; intros a le w trace; cbn [retryLoop].
  - rewrite app_nil_r. reflexivity.
  - destruct (fn w) as [w1 [v | e]].
    + reflexivity.
    + destruct (match retryableErrors opts with
                | Some classify => negb (classify e)
                | None => false
                end).
      * reflexivity.
      * destruct (Z.of_nat a <? Z.of_nat (maxAttempts opts) - 1);
          cbn [app]; rewrite IH; rewrite (IH _ _ _ (_ :: _));
          destruct (retryLoop fn opts random r (S a) e w1 []) as [[w' tr] res];
          cbn [app]; rewrite <- ?app_assoc; reflexivity.
Qed.

Lemma retryLoop_spec (remaining attempt : nat) (lastError : thrown) (w : W) :
  (attempt + remaining = maxAttempts opts)%nat ->
  let '(w', trace, result) :=
    retryLoop fn opts random remaining attempt lastError w [] in
  exists m : nat,
    (m <= remaining)%nat
    /\ ((0 < remaining)%nat -> (0 < m)%nat)
    /\ trace = schedule opts random attempt m
    /\ w' = worldAfter fn w m
    /\ (forall j, (S j < m)%nat ->
          exists e, snd (invocation fn w j) = Thrown e /\ retryable opts e = true)
    /\ match result with
       | Returned a => exists j, m = S j /\ snd (invocation fn w j) = Returned a
       | Thrown e =>
           (m = 0%nat /\ remaining = 0%nat /\ e = lastError)
           \/ exists j, m = S j /\ snd (invocation fn w j) = Thrown e
                /\ (retryable opts e = false \/ m = remaining)
       end.
Proof.
  revert attempt lastError w.
  induction remaining as [| r IH]; intros a le w Hsum; cbn [retryLoop].
  - exists 0%nat. split_and!; [lia | lia | reflexivity | reflexivity | |].
    + intros j Hj. lia.
    + left. split_and!; reflexivity.
  - destruct (fn w) as [w1 [v | e]] eqn:Hfn.
    + exists 1%nat. split_and!; [lia | lia | reflexivity | | |].
      * cbn. rewrite Hfn. reflexivity.
      * intros j Hj. lia.
      * exists 0%nat. cbn. rewrite Hfn. split; reflexivity.
    + assert (Hcls : match retryableErrors opts with
                     | Some classify => negb (classify e)
                     | None => false
                     end = negb (retryable opts e)).
      { unfold retryable. destruct (retryableErrors opts); reflexivity. }
      rewrite Hcls.
      destruct (retryable opts e) eqn:Hretry; cbn [negb].
      * rewrite retryLoop_trace.
        specialize (IH (S a) e w1 ltac:(lia)).
        destruct (retryLoop fn opts random r (S a) e w1 []) as [[w' tr] res].
        destruct IH as (m & Hm & Hpos & Htr & Hw & Hprev & Hres).
        exists (S m). split_and!; [lia | lia | | | |].
        -- subst tr. cbn [schedule app].
           destruct m as [| m'].
           ++ assert (r = 0%nat) by lia. subst r.
              assert (Hlast : (Z.of_nat a <? Z.of_nat (maxAttempts opts) - 1) = false)
                by (apply Z.ltb_ge; lia).
              rewrite Hlast. reflexivity.
           ++ assert (Hmore : (Z.of_nat a <? Z.of_nat (maxAttempts opts) - 1) = true)
                by (apply Z.ltb_lt; lia).
              rewrite Hmore. reflexivity.
        -- rewrite worldAfter_shift, Hfn. exact Hw.
        -- intros [| j] Hj.
           ++ exists e. cbn. rewrite Hfn. split; [reflexivity | exact Hretry].
           ++ rewrite invocation_shift, Hfn. apply Hprev. lia.
        -- destruct res as [v | e'].
           ++ destruct Hres as (j & -> & Hj). exists (S j).
              rewrite invocation_shift, Hfn. split; [reflexivity | exact Hj].
           ++ destruct Hres as [(-> & -> & ->) | (j & -> & Hj & Hwhy)].
              ** right. exists 0%nat. cbn. rewrite Hfn.
                 split_and!; [reflexivity | reflexivity | right; reflexivity].
              ** right. exists (S j). rewrite invocation_shift, Hfn.
                 split_and!; [reflexivity | exact Hj |].
                 destruct Hwhy as [Hnr | Hall]; [left; exact Hnr | right; lia].
      * exists 1%nat. split_and!; [lia | lia | reflexivity | | |].
        -- cbn. rewrite Hfn. reflexivity.
        -- intros j Hj. lia.
        -- right. exists 0%nat. cbn. rewrite Hfn.
           split_and!; [reflexivity | reflexivity | left; exact Hretry].
Qed.

Lemma invocations_schedule (first n : nat) :
  invocations (schedule opts random first n) = n.
Proof.
  revert first. induction n as [| n IH]; intros first; [reflexivity |].
  cbn [schedule]. destruct n as [| n'].
  - reflexivity.
  - specialize (IH (S first)). unfold invocations in *. cbn [List.filter length].
    rewrite IH. reflexivity.
Qed.

Ltac nat_cases :=
  repeat match goal with
    | |- context [(?a <=? ?b)%nat] => destruct (Nat.leb_spec a b)
    | |- context [(?a <? ?b)%nat] => destruct (Nat.ltb_spec a b)
    | |- context [(?a =? ?b)%nat] => destruct (Nat.eqb_spec a b)
    end;
  cbn [andb]; try lia; try reflexivity.

Lemma delayAfter_schedule (first n k : nat) :
  delayAfter k (schedule opts random first n)
  = if ((first <=? k) && (S k <? first + n))%nat
    then Some (calculateDelay k opts (random k)) else None.
Proof.
  revert first. induction n as [| n IH]; intros first.
  - cbn [schedule delayAfter]. nat_cases.
  - cbn [schedule delayAfter]. destruct n as [| n'].
    + nat_cases.
    + cbn [delayAfter]. rewrite IH. nat_cases; subst; reflexivity.
Qed.

Lemma delayBefore_schedule (first n k : nat) :
  delayBefore k (schedule opts random first n)
  = if ((first <? k) && (k <? first + n))%nat
    then Some (calculateDelay (k - 1) opts (random (k - 1))) else None.
Proof.
  revert first. induction n as [| n IH]; intros first.
  - cbn [schedule delayBefore]. nat_cases.
  - cbn [schedule]. destruct n as [| n'].
    + cbn [delayBefore]. nat_cases.
    + specialize (IH (S first)). cbn [schedule] in IH.
      cbn [delayBefore]. cbn [schedule]. rewrite IH.
      nat_cases; subst; try lia.
      replace (S first - 1)%nat with first by lia. reflexivity.
Qed.

Lemma calculateDelay_no_jitter (k : nat) (r : Q) :
  jitter opts = false -> calculateDelay k opts r = cappedDelay opts k.
Proof. intros Hj. unfold calculateDelay. rewrite Hj. reflexivity. Qed.

Lemma calculateDelay_jitter (k : nat) (r : Q) :
  jitter opts = true ->
  (0 <= r)%Q -> (r < 1)%Q -> (0 <= cappedDelay opts k)%Q ->
  ((8 # 10) * cappedDelay opts k <= calculateDelay k opts r)%Q
  /\ (calculateDelay k opts r <= (12 # 10) * cappedDelay opts k)%Q.
Proof.
  intros Hj Hr0 Hr1 Hd. unfold calculateDelay. rewrite Hj.
  fold (cappedDelay opts k). set (d := cappedDelay opts k) in *.
  split; nra.
Qed.

(** C7, amended: [retry] invokes [fn] at most [maxAttempts] times, each
    time in the world the previous attempt left.  While the earlier attempts
    threw retryable errors: an attempt that returns ends the run with its
    value; an attempt that throws an error the classifier rejects ends the
    run at once with that error; the attempt number [maxAttempts - 1] that
    throws ends the run with that last error.  The delay slept after the
    failed attempt [k] (from 0), that is before attempt [k + 1], is
    [calculateDelay k]: it equals [min(baseDelay * 2^k, maxDelay)] without
    jitter and lies within 20 percent of it with jitter.  Nothing is slept
    before attempt 0 nor after the final attempt. *)
Theorem retry_contract (w : W) :
  let '(w', trace, result) := retry fn opts random w in
  let n := invocations trace in
  (n <= maxAttempts opts)%nat
  /\ w' = worldAfter fn w n
  /\ (forall (k : nat) (settled : outcome A),
        (k < maxAttempts opts)%nat ->
        (forall j, (j < k)%nat ->
           exists e, snd (invocation fn w j) = Thrown e /\ retryable opts e = true) ->
        snd (invocation fn w k) = settled ->
        match settled with
        | Returned a => result = Returned a /\ n = S k
        | Thrown e =>
            (retryable opts e = false -> result = Thrown e /\ n = S k)
            /\ (S k = maxAttempts opts -> result = Thrown e /\ n = maxAttempts opts)
        end)
  /\ (forall k : nat,
        delayAfter k trace
        = (if (S k <? n)%nat then Some (calculateDelay k opts (random k)) else None)
        /\ delayBefore (S k) trace = delayAfter k trace)
  /\ delayBefore 0 trace = None
  /\ (forall k : nat, (n <= S k)%nat -> delayAfter k trace = None)
  /\ (forall (k : nat) (r : Q),
        (jitter opts = false -> calculateDelay k opts r = cappedDelay opts k)
        /\ (jitter opts = true ->
            (0 <= r)%Q -> (r < 1)%Q -> (0 <= cappedDelay opts k)%Q ->
            ((8 # 10) * cappedDelay opts k <= calculateDelay k opts r)%Q
            /\ (calculateDelay k opts r <= (12 # 10) * cappedDelay opts k)%Q)).
Proof.
  unfold retry.
  pose proof (retryLoop_spec (maxAttempts opts) 0 (ThrownValue VUndefined) w
                ltac:(lia)) as Hspec.
  destruct (retryLoop fn opts random (maxAttempts opts) 0 (ThrownValue VUndefined) w [])
    as [[w' trace] result].
  destruct Hspec as (m & Hm & Hpos & Htr & Hw & Hprev & Hres).
  subst trace. cbn zeta. rewrite invocations_schedule.
  assert (Hfinal : forall (k : nat),
             (k < maxAttempts opts)%nat ->
             (forall j, (j < k)%nat ->
                exists e, snd (invocation fn w j) = Thrown e
                          /\ retryable opts e = true) ->
             ((exists a, snd (invocation fn w k) = Returned a)
              \/ (exists e, snd (invocation fn w k) = Thrown e
                            /\ retryable opts e = false)
              \/ S k = maxAttempts opts) ->
             m = S k).
  { intros k Hk Hearlier Hlast.
    destruct (Nat.lt_trichotomy m (S k)) as [Hlt | [Heq | Hgt]]; [| exact Heq |].
    - exfalso. destruct m as [| j]; [lia |].
      destruct (Hearlier j ltac:(lia)) as (e' & He' & Hr').
      destruct result as [a | e].
      + destruct Hres as (j' & Hj' & Hout). injection Hj' as <-. congruence.
      + destruct Hres as [(? & _) | (j' & Hj' & Hout & Hwhy)]; [lia |].
        injection Hj' as <-. rewrite He' in Hout. injection Hout as <-.
        destruct Hwhy; [congruence | lia].
    - exfalso. destruct (Hprev k Hgt) as (e' & He' & Hr').
      destruct Hlast as [(a & Ha) | [(e & He & Hnr) | Hmax]];
        [congruence | | lia].
      rewrite He' in He. injection He as <-. congruence. }
  split_and!.
  - exact Hm.
  - exact Hw.
  - intros k settled Hk Hearlier Hout.
    destruct settled as [a | e].
    + assert (m = S k) as -> by (apply Hfinal; eauto).
      split; [| reflexivity].
      destruct result as [a' | e'].
      * destruct Hres as (j' & Hj' & Hout'). injection Hj' as <-. congruence.
      * destruct Hres as [(? & _) | (j' & Hj' & Hout' & _)]; [lia |].
        injection Hj' as <-. congruence.
    + assert (Hend : m = S k -> result = Thrown e).
      { intros ->. destruct result as [a' | e'].
        - destruct Hres as (j' & Hj' & Hout'). injection Hj' as <-. congruence.
        - destruct Hres as [(? & _) | (j' & Hj' & Hout' & _)]; [lia |].
          injection Hj' as <-. congruence. }
      split.
      * intros Hnr. assert (m = S k) by (apply Hfinal; eauto). auto.
      * intros Hmax. assert (m = S k) by (apply Hfinal; eauto).
        split; [auto | lia].
  - intros k. rewrite delayAfter_schedule, delayBefore_schedule.
    replace (S k - 1)%nat with k by lia. split; nat_cases.
  - rewrite delayBefore_schedule. nat_cases.
  - intros k Hk. rewrite delayAfter_schedule. nat_cases.
  - intros k r. split.
    + apply calculateDelay_no_jitter.
    + apply calculateDelay_jitter.
Qed.

End RetryContract.

(** C7, as stated, fails on the index of the delays: in a run of three
    failing attempts with [baseDelay = 1000] and no jitter, the delay slept
    before attempt 1 is 1000, not [min(1000 * 2^1, 60000) = 2000], and
    nothing is slept before attempt 0. *)
Lemma retry_delay_before_attempt_is_shifted :
  let trace := snd (fst (Retry.retry alwaysFails threeAttempts (fun _ => 0%Q) tt)) in
  trace = [Retry.Invoked 0; Retry.Slept 1000; Retry.Invoked 1;
           Retry.Slept 2000; Retry.Invoked 2]
  /\ Retry.delayBefore 1 trace = Some 1000%Q
  /\ Retry.cappedDelay threeAttempts 1 = 2000%Q
  /\ ~ (1000 == Retry.cappedDelay threeAttempts 1)%Q
  /\ Retry.delayBefore 0 trace = None.
Proof.
  split_and!; try (vm_compute; reflexivity).
  vm_compute. discriminate.
Qed.

(* --------------------------------------------------------------------- *)
(** ** The laws of the change detector *)
(* --------------------------------------------------------------------- *)

Section DetectorLaws.

Variable dateToString : Date -> string.
Variable options : ChangeDetectorOptions.

Abbreviation keyOf := (getPrimaryKeyValue dateToString options).

Lemma hasPrimaryKey_keyOf (row : RowData) :
  hasPrimaryKey options row -> is_Some (keyOf row).
Proof.
  unfold hasPrimaryKey, getPrimaryKeyValue.
  destruct (prop_get row (primaryKey options)) as [| | b | n | s | t | fs];
    intros (Hu & Hn & He); try congruence; try (eexists; reflexivity).
  destruct (String.eqb_spec s ""); [congruence | eexists; reflexivity].
Qed.

Lemma buildMap_fold (rows : list RowData) (key : RowId)
    (m : gmap RowId RowData) :
  fold_left
    (fun m row => match keyOf row with Some k => <[k:=row]> m | None => m end)
    rows m !! key
  = fold_left
      (fun found row => if bool_decide (keyOf row = Some key) then Some row else found)
      rows (m !! key).
Proof.
  revert m. induction rows as [| row rows IH]; intros m; cbn [fold_left].
  - reflexivity.
  - rewrite IH. f_equal. destruct (keyOf row) as [k |] eqn:Hk.
    + case_bool_decide as Hd.
      * injection Hd as ->. apply lookup_insert_eq.
      * rewrite lookup_insert_ne by congruence. reflexivity.
    + rewrite bool_decide_eq_false_2 by congruence. reflexivity.
Qed.

Lemma buildMap_lookup (rows : list RowData) (key : RowId) :
  buildMap dateToString options rows !! key
  = lastWithKey dateToString options key rows.
Proof. unfold buildMap, lastWithKey. rewrite buildMap_fold. reflexivity. Qed.

Lemma lastWithKey_fold (key : RowId) (rows : list RowData) (found : option RowData) :
  fold_left
    (fun found row => if bool_decide (keyOf row = Some key) then Some row else found)
    rows found
  = match lastWithKey dateToString options key rows with
    | Some row => Some row
    | None => found
    end.
Proof.
  unfold lastWithKey. revert found.
  induction rows as [| row rows IH]; intros found; cbn [fold_left].
  - reflexivity.
  - rewrite (IH (if bool_decide (keyOf row = Some key) then Some row else found)).
    rewrite (IH (if bool_decide (keyOf row = Some key) then Some row else None)).
    destruct (fold_left _ rows None); [reflexivity |].
    case_bool_decide; reflexivity.
Qed.

Lemma lastWithKey_absent (key : RowId) (rows : list RowData) :
  lastWithKey dateToString options key rows = None
  <-> keyAbsent dateToString options key rows = true.
Proof.
  induction rows as [| row rows IH].
  - cbn. tauto.
  - unfold lastWithKey in *. cbn [fold_left keyAbsent forallb].
    rewrite lastWithKey_fold. unfold lastWithKey.
    rewrite andb_true_iff, <- IH.
    destruct (fold_left _ rows None) eqn:Hrest.
    + split; [discriminate | intros [_ ?]; discriminate].
    + case_bool_decide; cbn; split; try discriminate; try tauto.
      intros [? _]. discriminate.
Qed.

Lemma lastWithKey_present (key : RowId) (rows : list RowData) (row : RowData) :
  lastWithKey dateToString options key rows = Some row ->
  In row rows /\ keyOf row = Some key.
Proof.
  induction rows as [| r rows IH].
  - discriminate.
  - unfold lastWithKey in *. cbn [fold_left]. rewrite lastWithKey_fold.
    unfold lastWithKey.
    destruct (fold_left _ rows None) eqn:Hrest.
    + intros [= ->]. destruct (IH eq_refl). split; [right |]; assumption.
    + case_bool_decide as Hd; [| discriminate].
      intros [= ->]. split; [left; reflexivity | exact Hd].
Qed.

Lemma currentStep_spec (baseline : list RowData) (result : ChangeDetectionResult)
    (row : RowData) :
  let result' :=
    currentStep dateToString options (buildMap dateToString options baseline)
      result row in
  inserts result'
  = inserts result ++ List.filter (rowAbsentFrom dateToString options baseline) [row]
  /\ updates result'
     = updates result ++ omap (updateOf dateToString options baseline) [row]
  /\ deletes result' = deletes result.
Proof.
  unfold currentStep, rowAbsentFrom, updateOf. cbn [List.filter omap].
  destruct (keyOf row) as [key |] eqn:Hkey.
  - rewrite buildMap_lookup.
    destruct (lastWithKey dateToString options key baseline) as [baselineRow |]
      eqn:Hlast.
    + assert (Habs : keyAbsent dateToString options key baseline = false).
      { destruct (keyAbsent dateToString options key baseline) eqn:Ha;
          [| reflexivity].
        apply lastWithKey_absent in Ha. congruence. }
      rewrite Habs.
      destruct (hasChanged dateToString options row baselineRow) eqn:Hchanged;
        cbn; rewrite ?Hkey, ?Hlast, ?Hchanged, ?app_nil_r; auto.
    + assert (Habs : keyAbsent dateToString options key baseline = true)
        by (apply lastWithKey_absent; exact Hlast).
      rewrite Habs. cbn. rewrite ?Hkey, ?Hlast, ?app_nil_r; auto.
  - cbn. rewrite ?Hkey, ?app_nil_r. auto.
Qed.

Lemma detectCurrent_spec (baseline current : list RowData)
    (result : ChangeDetectionResult) :
  let result' :=
    detectCurrent dateToString options (buildMap dateToString options baseline)
      current result in
  inserts result'
  = inserts result ++ List.filter (rowAbsentFrom dateToString options baseline) current
  /\ updates result'
     = updates result ++ omap (updateOf dateToString options baseline) current
  /\ deletes result' = deletes result.
Proof.
  unfold detectCurrent. revert result.
  induction current as [| row current IH]; intros result; cbn [fold_left].
  - cbn. rewrite !app_nil_r. auto.
  - destruct (IH (currentStep dateToString options
                    (buildMap dateToString options baseline) result row))
      as (Hi & Hu & Hd).
    destruct (currentStep_spec baseline result row) as (Hi1 & Hu1 & Hd1).
    cbn zeta. rewrite Hi, Hu, Hd, Hi1, Hu1, Hd1.
    rewrite <- !app_assoc.
    change (row :: current) with ([row] ++ current).
    rewrite List.filter_app, omap_app. auto.
Qed.

Lemma baselineStep_spec (current : list RowData) (result : ChangeDetectionResult)
    (row : RowData) :
  let result' :=
    baselineStep dateToString options (buildMap dateToString options current)
      result row in
  inserts result' = inserts result
  /\ updates result' = updates result
  /\ deletes result'
     = deletes result
       ++ omap keyOf (List.filter (rowAbsentFrom dateToString options current) [row]).
Proof.
  unfold baselineStep, rowAbsentFrom. cbn [List.filter].
  destruct (keyOf row) as [key |] eqn:Hkey.
  - rewrite buildMap_lookup.
    destruct (lastWithKey dateToString options key current) as [currentRow |]
      eqn:Hlast.
    + assert (Habs : keyAbsent dateToString options key current = false).
      { destruct (keyAbsent dateToString options key current) eqn:Ha;
          [| reflexivity].
        apply lastWithKey_absent in Ha. congruence. }
      rewrite Habs. cbn. rewrite ?app_nil_r. auto.
    + assert (Habs : keyAbsent dateToString options key current = true)
        by (apply lastWithKey_absent; exact Hlast).
      rewrite Habs. cbn. rewrite ?Hkey. cbn. auto.
  - cbn. rewrite ?Hkey, ?app_nil_r. auto.
Qed.

Lemma detectBaseline_spec (current baseline : list RowData)
    (result : ChangeDetectionResult) :
  let result' :=
    detectBaseline dateToString options (buildMap dateToString options current)
      baseline result in
  inserts result' = inserts result
  /\ updates result' = updates result
  /\ deletes result'
     = deletes result
       ++ omap keyOf (List.filter (rowAbsentFrom dateToString options current) baseline).
Proof.
  unfold detectBaseline. revert result.
  induction baseline as [| row baseline IH]; intros result; cbn [fold_left].
  - cbn. rewrite !app_nil_r. auto.
  - destruct (IH (baselineStep dateToString options
                    (buildMap dateToString options current) result row))
      as (Hi & Hu & Hd).
    destruct (baselineStep_spec current result row) as (Hi1 & Hu1 & Hd1).
    cbn zeta. rewrite Hi, Hu, Hd, Hi1, Hu1, Hd1.
    rewrite <- !app_assoc.
    change (row :: baseline) with ([row] ++ baseline).
    rewrite List.filter_app, omap_app. auto.
Qed.

Lemma hasChanged_column (current baseline : RowData) :
  hasChanged dateToString options current baseline = true ->
  exists column,
    ignored options column = false
    /\ valuesEqual dateToString (prop_get current column) (prop_get baseline column)
       = false.
Proof.
  unfold hasChanged. rewrite existsb_exists.
  intros (column & _ & Hcol). apply andb_true_iff in Hcol as [Hi Hv].
  exists column. split; [apply negb_true_iff, Hi | apply negb_true_iff, Hv].
Qed.

Lemma keyAbsent_spec (key : RowId) (rows : list RowData) :
  keyAbsent dateToString options key rows = true
  <-> forall other, In other rows -> keyOf other <> Some key.
Proof.
  unfold keyAbsent. rewrite forallb_forall.
  split; intros H other Hin; specialize (H other Hin).
  - apply negb_true_iff, bool_decide_eq_false in H. exact H.
  - apply negb_true_iff, bool_decide_eq_false. exact H.
Qed.

Lemma rowAbsentFrom_spec (rows : list RowData) (row : RowData) :
  rowAbsentFrom dateToString options rows row = true
  <-> exists key, keyOf row = Some key
        /\ forall other, In other rows -> keyOf other <> Some key.
Proof.
  unfold rowAbsentFrom. destruct (keyOf row) as [key |].
  - rewrite keyAbsent_spec. split.
    + intros H. exists key. auto.
    + intros (key' & [= <-] & H). exact H.
  - split; [discriminate | intros (key & Hk & _); discriminate].
Qed.

Lemma updateOf_spec (baseline : list RowData) (row : RowData) (u : Update) :
  updateOf dateToString options baseline row = Some u ->
  exists baselineRow column,
    data u = row /\ keyOf row = Some (identifier u)
    /\ In baselineRow baseline /\ keyOf baselineRow = Some (identifier u)
    /\ ignored options column = false
    /\ valuesEqual dateToString (prop_get row column) (prop_get baselineRow column)
       = false.
Proof.
  unfold updateOf. destruct (keyOf row) as [key |] eqn:Hkey; [| discriminate].
  destruct (lastWithKey dateToString options key baseline) as [baselineRow |]
    eqn:Hlast; [| discriminate].
  destruct (hasChanged dateToString options row baselineRow) eqn:Hchanged;
    [| discriminate].
  intros [= <-]. cbn.
  destruct (lastWithKey_present _ _ _ Hlast) as (Hin & Hk).
  destruct (hasChanged_column _ _ Hchanged) as (column & Hi & Hv).
  exists baselineRow, column. auto 10.
Qed.

Lemma keyAbsent_false (key : RowId) (rows : list RowData) :
  keyAbsent dateToString options key rows = false ->
  exists other, In other rows /\ keyOf other = Some key.
Proof.
  unfold keyAbsent. induction rows as [| row rows IH]; cbn [forallb].
  - discriminate.
  - intros H. apply andb_false_iff in H as [H | H].
    + apply negb_false_iff, bool_decide_eq_true in H.
      exists row. split; [left; reflexivity | exact H].
    + destruct (IH H) as (other & Hin & Hk).
      exists other. split; [right; exact Hin | exact Hk].
Qed.

Lemma absent_or_present (rows : list RowData) (row : RowData) :
  hasPrimaryKey options row ->
  rowAbsentFrom dateToString options rows row = true
  \/ exists other, In other rows /\ keyOf other = keyOf row.
Proof.
  intros Hpk. destruct (hasPrimaryKey_keyOf row Hpk) as (key & Hkey).
  unfold rowAbsentFrom. rewrite Hkey.
  destruct (keyAbsent dateToString options key rows) eqn:Habs; [left; reflexivity |].
  right. exact (keyAbsent_false _ _ Habs).
Qed.

(** C5: when every row of [current] and of [baseline] carries a primary-key
    value that is not missing, not null and not empty, [detect] returns as
    inserts exactly the current rows whose key no baseline row carries, in
    the order of [current]; as deletes exactly the keys of the baseline rows
    whose key no current row carries, in the order of [baseline]; no row is
    skipped: a current row is inserted or its key is on both sides, a
    baseline row is deleted or its key is on both sides; the updates come in
    the order of [current], and an update is emitted for a key only when a
    current row and a baseline row carry that key and a column that is not
    ignored differs between them under [valuesEqual]. *)
Theorem detect_laws (current baseline : list RowData) :
  Forall (hasPrimaryKey options) current ->
  Forall (hasPrimaryKey options) baseline ->
  let result := detect dateToString options current baseline in
  inserts result = List.filter (rowAbsentFrom dateToString options baseline) current
  /\ (forall row, In row (inserts result) <->
        In row current
        /\ exists key, keyOf row = Some key
             /\ forall other, In other baseline -> keyOf other <> Some key)
  /\ deletes result
     = omap keyOf (List.filter (rowAbsentFrom dateToString options current) baseline)
  /\ (forall key, In key (deletes result) <->
        (exists row, In row baseline /\ keyOf row = Some key)
        /\ forall other, In other current -> keyOf other <> Some key)
  /\ (forall row, In row current ->
        In row (inserts result)
        \/ exists other, In other baseline /\ keyOf other = keyOf row)
  /\ (forall row, In row baseline ->
        (exists key, keyOf row = Some key /\ In key (deletes result))
        \/ exists other, In other current /\ keyOf other = keyOf row)
  /\ updates result = omap (updateOf dateToString options baseline) current
  /\ (forall u, In u (updates result) ->
        exists baselineRow column,
          In (data u) current /\ keyOf (data u) = Some (identifier u)
          /\ In baselineRow baseline /\ keyOf baselineRow = Some (identifier u)
          /\ ignored options column = false
          /\ valuesEqual dateToString
               (prop_get (data u) column) (prop_get baselineRow column) = false).
Proof.
  intros Hcurrent Hbaseline. unfold detect.
  destruct (detectCurrent_spec baseline current
              {| inserts := []; updates := []; deletes := [] |})
    as (Hi & Hu & Hd).
  destruct (detectBaseline_spec current baseline
              (detectCurrent dateToString options
                 (buildMap dateToString options baseline) current
                 {| inserts := []; updates := []; deletes := [] |}))
    as (Hi' & Hu' & Hd').
  cbn zeta in *. rewrite Hi', Hu', Hd', Hi, Hu, Hd. cbn [inserts updates deletes app].
  split_and!.
  - reflexivity.
  - intros row. rewrite filter_In, rowAbsentFrom_spec. reflexivity.
  - reflexivity.
  - intros key. rewrite <- list_elem_of_In, list_elem_of_omap. split.
    + intros (row & Hin & Hk).
      apply list_elem_of_In, filter_In in Hin as [Hin Habs].
      apply rowAbsentFrom_spec in Habs as (key' & Hk' & Habs).
      assert (key' = key) as -> by congruence.
      split; [exists row; auto | exact Habs].
    + intros ((row & Hin & Hk) & Habs). exists row. split; [| exact Hk].
      apply list_elem_of_In, filter_In. split; [exact Hin |].
      apply rowAbsentFrom_spec. exists key. auto.
  - intros row Hin.
    destruct (absent_or_present baseline row) as [Habs | Hpresent].
    + rewrite Forall_forall in Hcurrent. apply Hcurrent, list_elem_of_In, Hin.
    + left. apply filter_In. auto.
    + right. exact Hpresent.
  - intros row Hin.
    destruct (absent_or_present current row) as [Habs | Hpresent].
    + rewrite Forall_forall in Hbaseline. apply Hbaseline, list_elem_of_In, Hin.
    + left. pose proof Habs as Habs'.
      apply rowAbsentFrom_spec in Habs' as (key & Hk & _).
      exists key. split; [exact Hk |].
      apply list_elem_of_In, list_elem_of_omap. exists row.
      split; [| exact Hk]. apply list_elem_of_In, filter_In. auto.
    + right. exact Hpresent.
  - reflexivity.
  - intros u Hin. apply list_elem_of_In, list_elem_of_omap in Hin as (row & Hin & Hu0).
    apply list_elem_of_In in Hin.
    destruct (updateOf_spec _ _ _ Hu0) as (baselineRow & column & Hdata & Hrest).
    exists baselineRow, column. rewrite Hdata. tauto.
Qed.

End DetectorLaws.

Lemma detect_laws_witness :
  Forall (hasPrimaryKey byId) sheetSide
  /\ Forall (hasPrimaryKey byId) tableSide
  /\ inserts (detect isoDate byId sheetSide tableSide)
     = List.filter (rowAbsentFrom isoDate byId tableSide) sheetSide
  /\ inserts (detect isoDate byId sheetSide tableSide)
     = [[("id", VStr "3"); ("name", VStr "Carol")]]
  /\ deletes (detect isoDate byId sheetSide tableSide) = [IdStr "2"].
Proof.
  assert (H1 : Forall (hasPrimaryKey byId) sheetSide)
    by (repeat constructor; discriminate).
  assert (H2 : Forall (hasPrimaryKey byId) tableSide)
    by (repeat constructor; discriminate).
  split; [exact H1 |]. split; [exact H2 |].
  split; [exact (proj1 (detect_laws isoDate byId sheetSide tableSide H1 H2)) |].
  split; reflexivity.
Defined.

(* --------------------------------------------------------------------- *)
(** ** The change-log query of the adapter *)
(* --------------------------------------------------------------------- *)

Section ChangeLogQuery.

Import MySQL.

Lemma insertByChangedAt_perm (entry : MySQLChangeLogEntry)
    (sorted : list MySQLChangeLogEntry) :
  Permutation (insertByChangedAt entry sorted) (entry :: sorted).
Proof.
  induction sorted as [| other rest IH]; cbn [insertByChangedAt].
  - reflexivity.
  - destruct (changed_at other <=? changed_at entry).
    + rewrite IH. apply perm_swap.
    + reflexivity.
Qed.

Lemma insertByChangedAt_sorted (entry : MySQLChangeLogEntry)
    (sorted : list MySQLChangeLogEntry) :
  StronglySorted notLater sorted ->
  StronglySorted notLater (insertByChangedAt entry sorted).
Proof.
  induction 1 as [| other rest Hsorted IH Hall]; cbn [insertByChangedAt].
  - repeat constructor.
  - destruct (Z.leb_spec (changed_at other) (changed_at entry)) as [Hle | Hgt].
    + constructor; [exact IH |].
      rewrite insertByChangedAt_perm.
      constructor; [exact Hle | exact Hall].
    + constructor; [constructor; assumption |].
      constructor; [unfold notLater; lia |].
      eapply Forall_impl; [exact Hall |].
      unfold notLater. intros a Ha. lia.
Qed.

Lemma orderByChangedAt_spec (entries : list MySQLChangeLogEntry) :
  Permutation (orderByChangedAt entries) entries
  /\ StronglySorted notLater (orderByChangedAt entries).
Proof.
  unfold orderByChangedAt.
  assert (Hgen : forall acc,
             StronglySorted notLater acc ->
             Permutation
               (fold_left (fun sorted entry => insertByChangedAt entry sorted)
                  entries acc)
               (acc ++ entries)
             /\ StronglySorted notLater
                  (fold_left (fun sorted entry => insertByChangedAt entry sorted)
                     entries acc)).
  { induction entries as [| entry entries IH]; intros acc Hacc; cbn [fold_left].
    - rewrite app_nil_r. split; [reflexivity | exact Hacc].
    - destruct (IH (insertByChangedAt entry acc)
                  (insertByChangedAt_sorted entry acc Hacc)) as (Hp & Hs).
      split; [| exact Hs].
      rewrite Hp, insertByChangedAt_perm.
      change (entry :: acc) with ([entry] ++ acc).
      rewrite <- Permutation_middle. reflexivity. }
  exact (Hgen [] (SSorted_nil _)).
Qed.

Lemma changeLogWhere_spec (table : string) (options : ChangeLogOptions)
    (entry : MySQLChangeLogEntry) :
  changeLogWhere table options entry = true
  <-> table_name entry = table
      /\ (forall wanted, optProcessed options = Some wanted ->
            processed entry = wanted)
      /\ (forall exclude, excludeSourceTag options = Some exclude ->
            exclude <> "" -> source_tag entry <> Some exclude).
Proof.
  unfold changeLogWhere. rewrite !andb_true_iff.
  destruct (String.eqb_spec (table_name entry) table) as [Ht | Ht].
  2: { split; [intros [[? _] _]; discriminate | intros [? _]; contradiction]. }
  assert (Hp : match optProcessed options with
               | Some wanted => Bool.eqb (processed entry) wanted
               | None => true
               end = true
               <-> forall wanted, optProcessed options = Some wanted ->
                     processed entry = wanted).
  { destruct (optProcessed options) as [wanted |].
    - rewrite Bool.eqb_true_iff. split; [intros -> w [= <-]; reflexivity | auto].
    - split; [intros _ w; discriminate | reflexivity]. }
  assert (He : match excludeSourceTag options with
               | Some exclude =>
                   if String.eqb exclude "" then true
                   else match source_tag entry with
                        | None => true
                        | Some tag => negb (String.eqb tag exclude)
                        end
               | None => true
               end = true
               <-> forall exclude, excludeSourceTag options = Some exclude ->
                     exclude <> "" -> source_tag entry <> Some exclude).
  { destruct (excludeSourceTag options) as [exclude |].
    - destruct (String.eqb_spec exclude "") as [-> | Hne].
      + split; [intros _ x [= <-] Hx; contradiction | reflexivity].
      + destruct (source_tag entry) as [tag |].
        * rewrite negb_true_iff. destruct (String.eqb_spec tag exclude) as [-> | Hd].
          -- split; [discriminate | intros H; exfalso; exact (H exclude eq_refl Hne eq_refl)].
          -- split; [intros _ x [= <-] _; congruence | reflexivity].
        * split; [intros _ x _ _; discriminate | reflexivity].
    - split; [intros _ x; discriminate | reflexivity]. }
  rewrite Hp, He. tauto.
Qed.

(** C6, amended: on a connected adapter [getChangeLog] returns, and leaves
    the database as it is, rows of the change log that belong to the table
    of the adapter, that have [processed = options.processed] when that
    option is given, and whose tag is NULL or differs from the exclude tag
    when a non-empty one is given; the rows come by ascending [changed_at];
    with a non-zero limit the first [limit] of them are returned, and all of
    them otherwise: there is no default limit.  The poll of the
    table-to-sheet worker therefore returns at most 1000 rows, all
    unprocessed and none tagged [from_sheet]. *)
Theorem getChangeLog_contract (options : ChangeLogOptions) (s : Db) :
  is_Some (pool (adapter s)) ->
  let table := adapterTableName (adapter s) in
  let matching :=
    List.filter (changeLogWhere table options) (changeLog (database s)) in
  exists rows ordered,
    getChangeLog options s = (s, Returned rows)
    /\ (forall entry, In entry matching <->
          In entry (changeLog (database s))
          /\ table_name entry = table
          /\ (forall wanted, optProcessed options = Some wanted ->
                processed entry = wanted)
          /\ (forall exclude, excludeSourceTag options = Some exclude ->
                exclude <> "" -> source_tag entry <> Some exclude))
    /\ Permutation ordered matching
    /\ StronglySorted notLater ordered
    /\ rows = match limit options with
              | Some (S n) => firstn (S n) ordered
              | _ => ordered
              end
    /\ (forall entry, In entry rows -> In entry matching)
    /\ (forall n, limit options = Some n -> n <> 0%nat -> (length rows <= n)%nat)
    /\ (options = DbToSheetWorker.pollOptions ->
        (length rows <= 1000)%nat
        /\ forall entry, In entry rows ->
             processed entry = false /\ source_tag entry <> Some "from_sheet").
Proof.
  intros [conns Hpool] table matching.
  destruct (orderByChangedAt_spec matching) as (Hperm & Hsorted).
  set (ordered := orderByChangedAt matching) in *.
  set (rows := match limit options with
               | Some (S n) => firstn (S n) ordered
               | _ => ordered
               end).
  assert (Hrun : getChangeLog options s = (s, Returned rows)).
  { unfold getChangeLog, bind, ensureConnected, read. rewrite Hpool. reflexivity. }
  assert (Hmatching : forall entry, In entry matching <->
            In entry (changeLog (database s))
            /\ table_name entry = table
            /\ (forall wanted, optProcessed options = Some wanted ->
                  processed entry = wanted)
            /\ (forall exclude, excludeSourceTag options = Some exclude ->
                  exclude <> "" -> source_tag entry <> Some exclude)).
  { intros entry. unfold matching. rewrite filter_In, changeLogWhere_spec. tauto. }
  assert (Hsub : forall entry, In entry rows -> In entry matching).
  { intros entry Hin.
    assert (Hord : In entry ordered).
    { unfold rows in Hin. destruct (limit options) as [[| n] |]; try exact Hin.
      apply list_elem_of_In. apply list_elem_of_In in Hin.
      exact (subseteq_take _ _ _ Hin). }
    apply list_elem_of_In. rewrite <- Hperm. apply list_elem_of_In. exact Hord. }
  assert (Hlimit : forall n, limit options = Some n -> n <> 0%nat ->
                     (length rows <= n)%nat).
  { intros n Hn Hpos. unfold rows. rewrite Hn.
    destruct n as [| n]; [contradiction |]. rewrite length_take. lia. }
  exists rows, ordered. split_and!; auto.
  intros ->. split.
  - apply (Hlimit 1000%nat); [reflexivity | discriminate].
  - intros entry Hin. apply Hsub, Hmatching in Hin as (_ & _ & Hp & He).
    split; [apply Hp; reflexivity | apply (He "from_sheet"); [reflexivity | discriminate]].
Qed.

End ChangeLogQuery.

Lemma getChangeLog_contract_witness :
  is_Some (MySQL.pool (MySQL.adapter (usersWithLog outOfOrderLog)))
  /\ exists rows ordered,
       MySQL.getChangeLog DbToSheetWorker.pollOptions (usersWithLog outOfOrderLog)
       = (usersWithLog outOfOrderLog, Returned rows)
       /\ StronglySorted MySQL.notLater ordered
       /\ (length rows <= 1000)%nat.
Proof.
  assert (Hconnected :
            is_Some (MySQL.pool (MySQL.adapter (usersWithLog outOfOrderLog))))
    by (eexists; reflexivity).
  split; [exact Hconnected |].
  destruct (getChangeLog_contract DbToSheetWorker.pollOptions
              (usersWithLog outOfOrderLog) Hconnected)
    as (rows & ordered & Hrun & _ & _ & Hsorted & _ & _ & _ & Hpoll).
  exists rows, ordered.
  split; [exact Hrun |]. split; [exact Hsorted |].
  exact (proj1 (Hpoll eq_refl)).
Defined.

(** C6, as stated, fails on three points.  The rows come by [changed_at],
    not by change id: of two pending rows the one with the higher id comes
    first when it was stamped earlier.  The filter on [processed] is there
    only when the caller asks for it: a call with an exclude tag alone
    returns a processed row.  There is no default limit: a call without a
    limit returns 1001 pending rows. *)
Lemma getChangeLog_is_not_as_specified :
  (MySQL.getChangeLog DbToSheetWorker.pollOptions (usersWithLog outOfOrderLog)
   = (usersWithLog outOfOrderLog,
      Returned [externalChange 2 10 false; externalChange 1 20 false])
   /\ MySQL.specifiedChangeLog "users" "from_sheet" (Some 1000%nat) outOfOrderLog
      = [externalChange 1 20 false; externalChange 2 10 false])
  /\ (MySQL.getChangeLog
        {| MySQL.optProcessed := None;
           MySQL.excludeSourceTag := Some "from_sheet";
           MySQL.limit := Some 1000%nat |}
        (usersWithLog processedLog)
      = (usersWithLog processedLog, Returned [externalChange 1 10 true])
      /\ MySQL.specifiedChangeLog "users" "from_sheet" (Some 1000%nat) processedLog
         = [])
  /\ (MySQL.getChangeLog
        {| MySQL.optProcessed := Some false;
           MySQL.excludeSourceTag := Some "from_sheet";
           MySQL.limit := None |}
        (usersWithLog backlog)
      = (usersWithLog backlog, Returned backlog)
      /\ length backlog = 1001%nat
      /\ length (MySQL.specifiedChangeLog "users" "from_sheet" None backlog)
         = 1000%nat).
Proof.
  split_and!; vm_compute; reflexivity.
Qed.

(* --------------------------------------------------------------------- *)
(** ** Loop prevention: the writes of the sheet-to-table worker are tagged *)
(* --------------------------------------------------------------------- *)

Section RunRules.

Context {W : Type}.
Variable P : W -> Prop.
Variable R : W -> W -> Prop.
Hypothesis R_refl : forall w, R w w.
Hypothesis R_trans : forall w1 w2 w3, R w1 w2 -> R w2 w3 -> R w1 w3.

Lemma Run_ret {A : Type} (a : A) : Run P R (ret a).
Proof. intros w Hw. cbn. auto. Qed.

Lemma Run_throw {A : Type} (e : thrown) : Run P R (@throw W A e).
Proof. intros w Hw. cbn. auto. Qed.

Lemma Run_read {A : Type} (f : W -> A) : Run P R (read f).
Proof. intros w Hw. cbn. auto. Qed.

Lemma Run_bind {A B : Type} (m : async W A) (k : A -> async W B) :
  Run P R m -> (forall a, Run P R (k a)) -> Run P R (bind m k).
Proof.
  intros Hm Hk w Hw. unfold bind.
  destruct (Hm w Hw) as (HP & HR). destruct (m w) as [w1 [a | e]]; cbn in *.
  - destruct (Hk a w1 HP) as (HP' & HR'). split; [exact HP' | eauto].
  - auto.
Qed.

Lemma Run_tryCatch {A : Type} (body : async W A) (handler : thrown -> async W A) :
  Run P R body -> (forall e, Run P R (handler e)) -> Run P R (tryCatch body handler).
Proof.
  intros Hm Hk w Hw. unfold tryCatch.
  destruct (Hm w Hw) as (HP & HR). destruct (body w) as [w1 [a | e]]; cbn in *.
  - auto.
  - destruct (Hk e w1 HP) as (HP' & HR'). split; [exact HP' | eauto].
Qed.

Lemma Run_tryFinally {A : Type} (body : async W A) (cleanup : async W unit) :
  Run P R body -> Run P R cleanup -> Run P R (tryFinally body cleanup).
Proof.
  intros Hm Hk w Hw. unfold tryFinally.
  destruct (Hm w Hw) as (HP & HR). destruct (body w) as [w1 settled]; cbn in *.
  destruct (Hk w1 HP) as (HP' & HR').
  destruct (cleanup w1) as [w2 [[] | e]]; cbn in *; split; eauto.
Qed.

Lemma Run_forEach {X : Type} (xs : list X) (body : X -> async W unit) :
  (forall x, In x xs -> Run P R (body x)) -> Run P R (forEach xs body).
Proof.
  induction xs as [| x xs IH]; intros Hbody; cbn [forEach].
  - apply Run_ret.
  - apply Run_bind.
    + apply Hbody. left. reflexivity.
    + intros _. apply IH. intros y Hy. apply Hbody. right. exact Hy.
Qed.

Lemma Run_forEachCounting {X : Type} (xs : list X) (body : X -> async W unit)
    (rowsAffected : Z) :
  (forall x, In x xs -> Run P R (body x)) ->
  Run P R (forEachCounting xs body rowsAffected).
Proof.
  revert rowsAffected.
  induction xs as [| x xs IH]; intros rowsAffected Hbody; cbn [forEachCounting].
  - apply Run_ret.
  - apply Run_bind.
    + apply Hbody. left. reflexivity.
    + intros _. apply IH. intros y Hy. apply Hbody. right. exact Hy.
Qed.

Lemma Run_modify (f : W -> W) :
  (forall w, P w -> P (f w) /\ R w (f w)) -> Run P R (modify f).
Proof. intros Hf w Hw. cbn. auto. Qed.

(** The same rules at one world, for a continuation that relies on what
    the first part has just done. *)
Lemma Run_bind_at {A B : Type} (m : async W A) (k : A -> async W B) (w : W) :
  P w ->
  P (fst (m w)) /\ R w (fst (m w)) ->
  (forall a, snd (m w) = Returned a ->
     P (fst (k a (fst (m w)))) /\ R (fst (m w)) (fst (k a (fst (m w))))) ->
  P (fst (bind m k w)) /\ R w (fst (bind m k w)).
Proof.
  intros Hw (HP & HR) Hk. unfold bind.
  destruct (m w) as [w1 [a | e]]; cbn in *.
  - destruct (Hk a eq_refl) as (HP' & HR'). split; [exact HP' | eauto].
  - auto.
Qed.

Lemma Run_tryFinally_at {A : Type} (body : async W A) (cleanup : async W unit)
    (w : W) :
  P w ->
  P (fst (body w)) /\ R w (fst (body w)) ->
  Run P R cleanup ->
  P (fst (tryFinally body cleanup w)) /\ R w (fst (tryFinally body cleanup w)).
Proof.
  intros Hw (HP & HR) Hk. unfold tryFinally.
  destruct (body w) as [w1 settled]; cbn in *.
  destruct (Hk w1 HP) as (HP' & HR').
  destruct (cleanup w1) as [w2 [[] | e]]; cbn in *; split; eauto.
Qed.

End RunRules.

Lemma Run_zoom {W V A : Type} (getV : W -> V) (setV : V -> W -> W)
    (PV : V -> Prop) (RV : V -> V -> Prop) (m : async V A) :
  (forall v w, getV (setV v w) = v) ->
  Run PV RV m ->
  Run (fun w => PV (getV w)) (fun w w' => RV (getV w) (getV w')) (zoom getV setV m).
Proof.
  intros Hget Hm w Hw. unfold zoom.
  destruct (Hm (getV w) Hw) as (HP & HR).
  destruct (m (getV w)) as [v1 settled]; cbn in *.
  rewrite Hget. auto.
Qed.

Section TaggedWrites.

Import MySQL.

Lemma extendsTagged_refl (db : Database) : extendsTagged db db.
Proof. exists []. rewrite app_nil_r. split; [reflexivity | constructor]. Qed.

Lemma extendsTagged_trans (db1 db2 db3 : Database) :
  extendsTagged db1 db2 -> extendsTagged db2 db3 -> extendsTagged db1 db3.
Proof.
  intros (a1 & H1 & F1) (a2 & H2 & F2). exists (a1 ++ a2).
  rewrite H2, H1, app_assoc. split; [reflexivity |].
  apply Forall_app. auto.
Qed.

Lemma extendsTagged_same_log (db db' : Database) :
  changeLog db' = changeLog db -> extendsTagged db db'.
Proof.
  intros H. exists []. rewrite app_nil_r. split; [exact H | constructor].
Qed.

Lemma logChange_tagged (op : Operation) (snapshot : RowData) (db : Database) :
  extendsTagged db (logChange op snapshot (Some fromSheetTag) db).
Proof.
  eexists. split; [reflexivity |]. repeat constructor.
Qed.

Lemma logUpdates_tagged (touched : list RowData) (db : Database) :
  extendsTagged db (logUpdates touched (Some fromSheetTag) db).
Proof.
  unfold logUpdates. revert db.
  induction touched as [| row touched IH]; intros db; cbn [fold_left].
  - apply extendsTagged_refl.
  - eapply extendsTagged_trans; [apply logChange_tagged | apply IH].
Qed.

Lemma logDeletes_tagged (removed : list RowData) (db : Database) :
  extendsTagged db (logDeletes removed (Some fromSheetTag) db).
Proof.
  unfold logDeletes. revert db.
  induction removed as [| row removed IH]; intros db; cbn [fold_left].
  - apply extendsTagged_refl.
  - eapply extendsTagged_trans; [apply logChange_tagged | apply IH].
Qed.

Lemma applyDml_tagged (stmt : Dml) (db db' : Database) :
  applyDml (Some fromSheetTag) stmt db = Some db' -> extendsTagged db db'.
Proof.
  destruct stmt as [table data | table data whereClause | table whereClause];
    cbn [applyDml].
  - destruct (_ && _); [| discriminate].
    destruct (existsb _ _).
    + intros [= <-].
      eapply extendsTagged_trans; [| apply logUpdates_tagged].
      apply extendsTagged_same_log. reflexivity.
    + intros [= <-].
      eapply extendsTagged_trans; [| apply logChange_tagged].
      apply extendsTagged_same_log. reflexivity.
  - destruct (_ && _); [| discriminate]. intros [= <-].
    eapply extendsTagged_trans; [| apply logUpdates_tagged].
    apply extendsTagged_same_log. reflexivity.
  - destruct (_ && _); [| discriminate]. intros [= <-].
    eapply extendsTagged_trans; [| apply logDeletes_tagged].
    apply extendsTagged_same_log. reflexivity.
Qed.

Lemma pendingTagged_Forall (s : Db) :
  pendingTagged s
  <-> forall conns, pool (adapter s) = Some conns -> Forall connectionTagged conns.
Proof.
  unfold pendingTagged, connectionTagged. split.
  - intros H conns Hpool. apply Forall_forall. intros c Hc pending tag stmt.
    apply (H conns c pending tag stmt Hpool). apply list_elem_of_In. exact Hc.
  - intros H conns c pending tag stmt Hpool Hc.
    specialize (H conns Hpool). rewrite Forall_forall in H.
    apply H. apply list_elem_of_In. exact Hc.
Qed.

Lemma applyAll_tagged (pending : list (option string * Dml)) (db : Database) :
  (forall tag stmt, In (tag, stmt) pending -> tag = Some fromSheetTag) ->
  extendsTagged db (applyAll pending db).
Proof.
  unfold applyAll. revert db.
  induction pending as [| [tag stmt] pending IH]; intros db Hall; cbn [fold_left].
  - apply extendsTagged_refl.
  - assert (tag = Some fromSheetTag) as -> by (apply (Hall tag stmt); left; reflexivity).
    eapply extendsTagged_trans;
      [| apply IH; intros tag' stmt' Hin; apply (Hall tag' stmt'); right; exact Hin].
    destruct (applyDml (Some fromSheetTag) stmt db) as [db' |] eqn:Happly; cbn.
    + apply applyDml_tagged in Happly. exact Happly.
    + apply extendsTagged_refl.
Qed.

End TaggedWrites.

Section TaggedAdapter.

Import MySQL.

Lemma dbR_refl (s : Db) : dbR s s.
Proof. apply extendsTagged_refl. Qed.

Ltac same_db := unfold dbR; cbn; apply extendsTagged_refl.

Lemma dbR_trans (s1 s2 s3 : Db) : dbR s1 s2 -> dbR s2 s3 -> dbR s1 s3.
Proof. apply extendsTagged_trans. Qed.

Lemma pendingTagged_withPool (conns : list Connection) (s : Db) :
  Forall connectionTagged conns -> pendingTagged (withPool (Some conns) s).
Proof.
  intros H. apply pendingTagged_Forall. intros conns' [= <-]. exact H.
Qed.

Lemma pendingTagged_pool (conns : list Connection) (s : Db) :
  pendingTagged s -> pool (adapter s) = Some conns -> Forall connectionTagged conns.
Proof. intros H Hp. exact (proj1 (pendingTagged_Forall s) H conns Hp). Qed.

Lemma Run_onConnection (connection : nat) (f : Connection -> Connection) :
  (forall c, connectionTagged c -> connectionTagged (f c)) ->
  Run pendingTagged dbR (onConnection connection f).
Proof.
  intros Hf s Hs. unfold onConnection.
  destruct (pool (adapter s)) as [conns |] eqn:Hpool; cbn.
  - split; [| same_db].
    apply pendingTagged_withPool, Forall_alter.
    + eapply pendingTagged_pool; eassumption.
    + intros c _. apply Hf.
  - split; [exact Hs | same_db].
Qed.

Lemma Run_setSourceTag (connection : nat) (tag : option string) :
  Run pendingTagged dbR (setSourceTag connection tag).
Proof. apply Run_onConnection. intros c Hc. exact Hc. Qed.

Lemma Run_release (connection : nat) :
  Run pendingTagged dbR (release connection).
Proof.
  intros s Hs. unfold release.
  destruct (pool (adapter s)) as [conns |] eqn:Hpool; cbn.
  - split; [| same_db].
    apply pendingTagged_withPool, Forall_alter.
    + eapply pendingTagged_pool; eassumption.
    + intros c _ Hc. exact Hc.
  - split; [exact Hs | same_db].
Qed.

Lemma Run_beginTransaction (connection : nat) :
  Run pendingTagged dbR (beginTransaction connection).
Proof.
  apply Run_onConnection. intros c _ pending tag stmt [= <-] [].
Qed.

Lemma Run_rollback (connection : nat) :
  Run pendingTagged dbR (rollback connection).
Proof.
  apply Run_onConnection. intros c _ pending tag stmt Hopen. discriminate Hopen.
Qed.

Lemma Run_commit (connection : nat) :
  Run pendingTagged dbR (commit connection).
Proof.
  intros s Hs. unfold commit.
  destruct (pool (adapter s)) as [conns |] eqn:Hpool; cbn.
  2: { split; [exact Hs | same_db]. }
  pose proof (pendingTagged_pool conns s Hs Hpool) as Hall.
  destruct (conns !! connection) as [c |] eqn:Hc; cbn.
  2: { split; [exact Hs | same_db]. }
  split.
  - apply pendingTagged_withPool, Forall_alter; [exact Hall |].
    intros c' _ _ pending tag stmt Hopen. discriminate Hopen.
  - unfold dbR. cbn. apply applyAll_tagged.
    assert (Hct : connectionTagged c).
    { rewrite Forall_forall in Hall. apply Hall.
      eapply list_elem_of_lookup_2. exact Hc. }
    destruct (openTransaction c) as [pending |] eqn:Hopen; cbn.
    + intros tag stmt Hin. exact (Hct pending tag stmt Hopen Hin).
    + intros tag stmt [].
Qed.

Lemma Run_connect : Run pendingTagged dbR connect.
Proof.
  intros s Hs. unfold connect.
  destruct (pool (adapter s)) as [conns |] eqn:Hpool; cbn.
  - split; [exact Hs | same_db].
  - split; [| same_db]. apply pendingTagged_withPool. constructor.
Qed.

Lemma Run_ensureConnected : Run pendingTagged dbR ensureConnected.
Proof.
  intros s Hs. unfold ensureConnected.
  destruct (pool (adapter s)); cbn; split; try assumption; same_db.
Qed.

Lemma Run_close : Run pendingTagged dbR close.
Proof.
  intros s Hs. cbn. split; [| same_db].
  intros conns c pending tag stmt Hpool. discriminate Hpool.
Qed.

Lemma Run_select (whereClause : option RowData) :
  Run pendingTagged dbR (select whereClause).
Proof.
  unfold select.
  apply (Run_bind _ _ dbR_trans); [apply Run_ensureConnected |].
  intros _ s Hs. destruct (_ && _); cbn; split; try assumption; same_db.
Qed.

Lemma firstIdle_lookup (conns : list Connection) (i : nat) :
  firstIdle conns = Some i -> is_Some (conns !! i).
Proof.
  revert i. induction conns as [| c conns IH]; intros i; cbn [firstIdle].
  - discriminate.
  - destruct (leased c).
    + destruct (firstIdle conns) as [j |]; [| discriminate].
      intros [= <-]. cbn. apply IH. reflexivity.
    + intros [= <-]. cbn. eauto.
Qed.

Lemma getConnection_spec (s : Db) :
  pendingTagged s ->
  pendingTagged (fst (getConnection s))
  /\ database (fst (getConnection s)) = database s
  /\ forall connection, snd (getConnection s) = Returned connection ->
       exists conns c,
         pool (adapter (fst (getConnection s))) = Some conns
         /\ conns !! connection = Some c.
Proof.
  intros Hs. unfold getConnection.
  destruct (pool (adapter s)) as [conns |] eqn:Hpool; cbn.
  2: { split_and!; [exact Hs | reflexivity | discriminate]. }
  pose proof (pendingTagged_pool conns s Hs Hpool) as Hall.
  destruct (firstIdle conns) as [i |] eqn:Hidle; cbn.
  - split_and!.
    + apply pendingTagged_withPool, Forall_alter; [exact Hall |].
      intros c _ Hc. exact Hc.
    + reflexivity.
    + intros connection [= <-].
      destruct (firstIdle_lookup conns i Hidle) as (c & Hc).
      exists (alter lease i conns), (lease c). split; [reflexivity |].
      rewrite list_lookup_alter_eq, Hc. reflexivity.
  - split_and!.
    + apply pendingTagged_withPool, Forall_app. split; [exact Hall |].
      constructor; [| constructor]. intros pending tag stmt Hopen.
      discriminate Hopen.
    + reflexivity.
    + intros connection [= <-].
      exists (conns ++ [freshConnection]), freshConnection.
      split; [reflexivity |].
      rewrite lookup_app_r by lia. rewrite Nat.sub_diag. reflexivity.
Qed.

Lemma Run_getConnection : Run pendingTagged dbR getConnection.
Proof.
  intros s Hs. destruct (getConnection_spec s Hs) as (HP & Hdb & _).
  split; [exact HP |]. unfold dbR. rewrite Hdb. apply extendsTagged_refl.
Qed.

(** A statement run on a connection whose session tag is [from_sheet]. *)
Lemma execute_tagged (connection : nat) (stmt : Dml) (s : Db)
    (conns : list Connection) (c : Connection) :
  pendingTagged s ->
  pool (adapter s) = Some conns ->
  conns !! connection = Some c ->
  sync_source_tag c = Some fromSheetTag ->
  pendingTagged (fst (execute connection stmt s))
  /\ dbR s (fst (execute connection stmt s)).
Proof.
  intros Hs Hpool Hc Htag. unfold execute. rewrite Hpool, Hc, Htag.
  pose proof (pendingTagged_pool conns s Hs Hpool) as Hall.
  destruct (applyDml (Some fromSheetTag) stmt (database s)) as [db' |] eqn:Happly;
    cbn.
  2: { split; [exact Hs | same_db]. }
  destruct (openTransaction c) as [pending |] eqn:Hopen; cbn.
  - split; [| same_db].
    apply pendingTagged_withPool, Forall_alter; [exact Hall |].
    intros c' Hc' Hct pending' tag stmt' [= <-] Hin.
    assert (c' = c) as -> by congruence.
    apply in_app_or in Hin as [Hin | [[= <- <-] | []]].
    + exact (Hct pending tag stmt' Hopen Hin).
    + reflexivity.
  - split.
    + intros conns' c' pending tag stmt' Hpool'. cbn in Hpool'.
      apply (Hs conns' c' pending tag stmt'). exact Hpool'.
    + unfold dbR. cbn. apply applyDml_tagged in Happly. exact Happly.
Qed.

(** The shape [update] and [delete] share: a connection is taken, tagged,
    used for one statement, untagged and given back. *)
Lemma Run_taggedWrite (statement : string -> Dml) :
  Run pendingTagged dbR
    (bind getConnection (fun connection =>
       tryFinally
         (bind (setSourceTag connection (Some fromSheetTag)) (fun _ =>
          bind (read (fun s => adapterTableName (adapter s))) (fun table =>
          execute connection (statement table))))
         (bind (setSourceTag connection None) (fun _ => release connection)))).
Proof.
  intros s Hs.
  destruct (getConnection_spec s Hs) as (HP1 & Hdb1 & Hconn).
  apply (Run_bind_at _ _ dbR_trans); [exact Hs | |].
  { split; [exact HP1 |]. unfold dbR. rewrite Hdb1. apply extendsTagged_refl. }
  intros connection Hret. destruct (Hconn connection Hret) as (conns & c & Hpool & Hc).
  set (s1 := fst (getConnection s)) in *.
  apply (Run_tryFinally_at _ _ dbR_trans); [exact HP1 | |].
  2: { apply (Run_bind _ _ dbR_trans); [apply Run_setSourceTag |].
       intros _. apply Run_release. }
  set (s2 := withPool (Some (alter (withTag (Some fromSheetTag)) connection conns)) s1).
  assert (Hbody :
            bind (setSourceTag connection (Some fromSheetTag)) (fun _ =>
            bind (read (fun s => adapterTableName (adapter s))) (fun table =>
            execute connection (statement table))) s1
            = execute connection (statement (adapterTableName (adapter s2))) s2).
  { unfold bind, setSourceTag, onConnection, read. rewrite Hpool. reflexivity. }
  rewrite Hbody.
  assert (HP2 : pendingTagged s2).
  { apply pendingTagged_withPool, Forall_alter.
    - eapply pendingTagged_pool; eassumption.
    - intros c' _ Hct. exact Hct. }
  destruct (execute_tagged connection (statement (adapterTableName (adapter s2))) s2
              (alter (withTag (Some fromSheetTag)) connection conns)
              (withTag (Some fromSheetTag) c) HP2 eq_refl)
    as (HP3 & HR3).
  { rewrite list_lookup_alter_eq, Hc. reflexivity. }
  { reflexivity. }
  split; [exact HP3 |].
  eapply dbR_trans; [| exact HR3]. same_db.
Qed.

Lemma Run_update (data whereClause : RowData) (operation : string) :
  Run pendingTagged dbR
    (update data whereClause
       (Some {| sourceTag := Some fromSheetTag; operationId := Some operation |})).
Proof.
  exact (Run_taggedWrite (fun table => UpdateWhere table data whereClause)).
Qed.

Lemma Run_delete (whereClause : RowData) (operation : string) :
  Run pendingTagged dbR
    (delete whereClause
       (Some {| sourceTag := Some fromSheetTag; operationId := Some operation |})).
Proof.
  exact (Run_taggedWrite (fun table => DeleteWhere table whereClause)).
Qed.

(** [insert] with an object where the table name is expected: the
    statement is never sent. *)
Lemma Run_insert_object (row data : RowData) :
  Run pendingTagged dbR (insert (VObj row) data None).
Proof.
  unfold insert.
  apply (Run_bind _ _ dbR_trans); [apply Run_getConnection |].
  intros connection.
  apply (Run_tryFinally _ _ dbR_trans).
  - intros s Hs. cbn. split; [exact Hs | same_db].
  - apply (Run_bind _ _ dbR_trans); [apply Run_setSourceTag |].
    intros _. apply Run_release.
Qed.

Lemma Run_transaction {A : Type} (callback : nat -> async Db A) :
  (forall connection, Run pendingTagged dbR (callback connection)) ->
  Run pendingTagged dbR (transaction callback).
Proof.
  intros Hcallback. unfold transaction.
  apply (Run_bind _ _ dbR_trans); [apply Run_ensureConnected |]. intros _.
  apply (Run_bind _ _ dbR_trans); [apply Run_getConnection |]. intros connection.
  apply (Run_bind _ _ dbR_trans); [apply Run_beginTransaction |]. intros _.
  apply (Run_tryFinally _ _ dbR_trans); [| apply Run_release].
  apply (Run_tryCatch _ _ dbR_trans).
  - apply (Run_bind _ _ dbR_trans); [apply Hcallback |]. intros result.
    apply (Run_bind _ _ dbR_trans); [apply Run_commit |]. intros _.
    apply Run_ret, dbR_refl.
  - intros error.
    apply (Run_bind _ _ dbR_trans); [apply Run_rollback |]. intros _.
    apply Run_throw, dbR_refl.
Qed.

End TaggedAdapter.

Lemma Run_referTo {A : Type} (P : Metadata.World -> Prop)
    (R : Metadata.World -> Metadata.World -> Prop) (binding : Worker.Binding)
    (name : string) (m : async Metadata.World A) :
  (forall w, R w w) -> Run P R m -> Run P R (Worker.referTo binding name m).
Proof.
  intros R_refl Hm. destruct binding; [apply Run_throw, R_refl | exact Hm].
Qed.

Section TaggedWorker.

Import Metadata Worker.

Variable dateToString : Date -> string.
Variable globals : Globals.
Variable config : SyncConfig.

Lemma worldR_refl (w : World) : worldR w w.
Proof. apply dbR_refl. Qed.

Lemma worldR_trans (w1 w2 w3 : World) : worldR w1 w2 -> worldR w2 w3 -> worldR w1 w3.
Proof. apply dbR_trans. Qed.

Lemma Run_onDb {A : Type} (m : async MySQL.Db A) :
  Run MySQL.pendingTagged MySQL.dbR m -> Run worldP worldR (onDb m).
Proof.
  intros Hm. unfold onDb.
  apply (Run_zoom db withDb MySQL.pendingTagged MySQL.dbR m); [reflexivity | exact Hm].
Qed.

(** A step that leaves the database and the pool alone. *)
Lemma Run_db_same {A : Type} (m : async World A) :
  (forall w, db (fst (m w)) = db w) -> Run worldP worldR m.
Proof.
  intros Hm w Hw. unfold worldP, worldR. rewrite Hm.
  split; [exact Hw | apply dbR_refl].
Qed.

Ltac db_same := apply Run_db_same; intros ?; reflexivity.

Ltac run_world :=
  repeat first
    [ apply (Run_bind _ _ worldR_trans); [| intros ?]
    | apply Run_ret, worldR_refl
    | apply Run_throw, worldR_refl
    | match goal with
      | |- Run _ _ (if ?b then _ else _) => destruct b
      | |- Run _ _ (match ?x with _ => _ end) => destruct x
      end
    | db_same ].

Lemma Run_applyChanges (changesToApply : ChangeDetectionResult)
    (operationId : string) (connection : nat) :
  Run MySQL.pendingTagged MySQL.dbR
    (SheetToDbWorker.applyChanges config changesToApply operationId connection).
Proof.
  unfold SheetToDbWorker.applyChanges.
  apply (Run_bind _ _ dbR_trans).
  { apply (Run_forEachCounting _ _ dbR_refl dbR_trans).
    intros row _. apply Run_insert_object. }
  intros rowsAffected.
  apply (Run_bind _ _ dbR_trans).
  { apply (Run_forEachCounting _ _ dbR_refl dbR_trans).
    intros u _. apply Run_update. }
  intros rowsAffected'.
  apply (Run_forEachCounting _ _ dbR_refl dbR_trans).
  intros deleteId _. apply Run_delete.
Qed.

Lemma Run_resolveAndApply (historyId : nat) (sheetData : Sheets.RangeData)
    (changes : ChangeDetectionResult) (conflicts : list DetectedConflict) :
  Run worldP worldR
    (SheetToDbWorker.resolveAndApply dateToString config historyId sheetData
       changes conflicts).
Proof.
  unfold SheetToDbWorker.resolveAndApply. cbv zeta.
  apply (Run_bind _ _ worldR_trans).
  { unfold SheetToDbWorker.logConflicts.
    apply (Run_forEach _ _ worldR_refl worldR_trans). intros resolved _.
    destruct (List.find _ _); [| apply Run_throw, worldR_refl].
    apply (Run_bind _ _ worldR_trans); [db_same |]. intros timestamp. db_same. }
  intros _.
  apply (Run_bind _ _ worldR_trans); [db_same |]. intros operationId.
  apply (Run_bind _ _ worldR_trans); [db_same |]. intros alreadyProcessed.
  destruct alreadyProcessed; [apply Run_ret, worldR_refl |].
  apply (Run_bind _ _ worldR_trans).
  { apply Run_onDb, Run_transaction. intros connection. apply Run_applyChanges. }
  intros rowsAffected.
  apply (Run_bind _ _ worldR_trans); [db_same |]. intros _.
  apply (Run_bind _ _ worldR_trans); [db_same |]. intros timestamp.
  apply (Run_bind _ _ worldR_trans); [db_same |]. intros _. db_same.
Qed.

Lemma Run_sheetToDb_sync (historyId : nat) :
  Run worldP worldR (SheetToDbWorker.sync dateToString globals config historyId).
Proof.
  unfold SheetToDbWorker.sync.
  apply (Run_bind _ _ worldR_trans); [apply Run_onDb, Run_connect |]. intros _.
  apply (Run_bind _ _ worldR_trans); [db_same |]. intros syncState.
  apply (Run_bind _ _ worldR_trans).
  { apply Run_referTo; [apply worldR_refl |].
    apply Run_db_same. intros w. unfold onSheet, zoom.
    destruct (Sheets.getRange _ _ _). reflexivity. }
  intros sheetData.
  destruct (Sheets.notModified sheetData); [db_same |].
  cbv zeta.
  apply (Run_bind _ _ worldR_trans); [apply Run_onDb, Run_select |]. intros dbRows.
  set (changes := detect dateToString _ _ dbRows).
  assert (Hrest :
    Run worldP worldR
      (bind (SheetToDbWorker.detectConflicts changes (syncState ≫= last_db_sync_at))
         (SheetToDbWorker.resolveAndApply dateToString config historyId sheetData
            changes))).
  { apply (Run_bind _ _ worldR_trans); [db_same |]. intros conflicts.
    apply Run_resolveAndApply. }
  destruct (inserts changes), (updates changes), (deletes changes);
    first [exact Hrest | db_same].
Qed.

Lemma Run_sheetToDb_execute :
  Run worldP worldR (SheetToDbWorker.execute dateToString globals config).
Proof.
  unfold SheetToDbWorker.execute.
  apply (Run_bind _ _ worldR_trans); [db_same |]. intros syncId.
  apply (Run_bind _ _ worldR_trans); [db_same |]. intros historyId.
  apply (Run_tryFinally _ _ worldR_trans); [| apply Run_onDb, Run_close].
  apply (Run_tryCatch _ _ worldR_trans); [apply Run_sheetToDb_sync |].
  intros error.
  apply (Run_bind _ _ worldR_trans); [db_same |]. intros _.
  apply Run_throw, worldR_refl.
Qed.

(** A run starts with a new adapter, so with no statement waiting in a
    transaction, whatever the pool held before. *)
Lemma sheetToDb_run_tagged (w : World) :
  MySQL.extendsTagged (MySQL.database (db w))
    (MySQL.database (db (fst (SheetToDbWorker.run dateToString globals config w)))).
Proof.
  assert (Hrun : Run worldP worldR
            (_ <- (correlationId <- uuidv4 ;;
                   referTo (createChildLogger globals) "createChildLogger"
                     (ret correlationId)) ;;
             SheetToDbWorker.execute dateToString globals config)%async).
  { apply (Run_bind _ _ worldR_trans); [| intros _; apply Run_sheetToDb_execute].
    apply (Run_bind _ _ worldR_trans); [db_same |]. intros correlationId.
    apply Run_referTo; [apply worldR_refl | apply Run_ret, worldR_refl]. }
  destruct (Hrun (fst (newAdapter config w))) as (_ & HR).
  - intros conns c pending tag stmt Hpool. discriminate Hpool.
  - exact HR.
Qed.

End TaggedWorker.

(* --------------------------------------------------------------------- *)
(** ** The table-to-sheet worker: what it polls and what it marks *)
(* --------------------------------------------------------------------- *)

Section Poll.

Import MySQL.

Lemma selectChangeLog_In (table : string) (options : ChangeLogOptions)
    (log : list MySQLChangeLogEntry) (entry : MySQLChangeLogEntry) :
  In entry (selectChangeLog table options log) ->
  In entry log /\ changeLogWhere table options entry = true.
Proof.
  unfold selectChangeLog. intros Hin.
  assert (Hord : In entry (orderByChangedAt (List.filter (changeLogWhere table options) log))).
  { destruct (limit options) as [[| n] |]; try exact Hin.
    apply list_elem_of_In. apply list_elem_of_In in Hin.
    exact (subseteq_take _ _ _ Hin). }
  destruct (orderByChangedAt_spec (List.filter (changeLogWhere table options) log))
    as (Hperm & _).
  apply list_elem_of_In in Hord. rewrite Hperm in Hord.
  apply list_elem_of_In, filter_In in Hord. exact Hord.
Qed.

Lemma poll_excludes_from_sheet (table : string) (log : list MySQLChangeLogEntry)
    (entry : MySQLChangeLogEntry) :
  In entry (selectChangeLog table DbToSheetWorker.pollOptions log) ->
  In entry log /\ table_name entry = table
  /\ processed entry = false /\ ~ taggedFromSheet entry.
Proof.
  intros Hin. apply selectChangeLog_In in Hin as (Hlog & Hwhere).
  apply changeLogWhere_spec in Hwhere as (Ht & Hp & He).
  split_and!; [exact Hlog | exact Ht | apply Hp; reflexivity |].
  apply (He "from_sheet"); [reflexivity | discriminate].
Qed.

Lemma poll_nothing (table : string) (log : list MySQLChangeLogEntry) :
  (forall entry, In entry log -> table_name entry = table ->
     processed entry = false -> taggedFromSheet entry) ->
  selectChangeLog table DbToSheetWorker.pollOptions log = [].
Proof.
  intros Hall.
  destruct (selectChangeLog table DbToSheetWorker.pollOptions log)
    as [| entry rest] eqn:Hsel; [reflexivity |].
  exfalso.
  destruct (poll_excludes_from_sheet table log entry) as (Hin & Ht & Hp & Htag).
  { rewrite Hsel. left. reflexivity. }
  exact (Htag (Hall entry Hin Ht Hp)).
Qed.

End Poll.

Section QuietRun.

Import Metadata Worker.

Variable dateToString : Date -> string.
Variable globals : Globals.
Variable config : SyncConfig.

(** What the constructor leaves when it throws: a new adapter, and one
    identifier drawn. *)
Lemma sheetToDb_run_unbound (w : World) :
  createChildLogger globals = Unbound ->
  SheetToDbWorker.run dateToString globals config w
  = (fst (uuidv4 (fst (newAdapter config w))),
     Thrown (referenceError "createChildLogger")).
Proof.
  intros Hunbound.
  unfold SheetToDbWorker.run, SheetToDbWorker.new, bind, newAdapter, modify, uuidv4.
  cbn [fst snd]. rewrite Hunbound. reflexivity.
Qed.

Lemma dbToSheet_run_unbound (w : World) :
  createChildLogger globals = Unbound ->
  DbToSheetWorker.run dateToString globals config w
  = (fst (uuidv4 (fst (newAdapter config w))),
     Thrown (referenceError "createChildLogger")).
Proof.
  intros Hunbound.
  unfold DbToSheetWorker.run, DbToSheetWorker.new, bind, newAdapter, modify, uuidv4.
  cbn [fst snd]. rewrite Hunbound. reflexivity.
Qed.

Lemma dbToSheet_nothing_pending (w : World) :
  MySQL.selectChangeLog (db_table_name config) DbToSheetWorker.pollOptions
    (MySQL.changeLog (MySQL.database (db w))) = [] ->
  let '(w', settled) := DbToSheetWorker.run dateToString globals config w in
  spreadsheet w' = spreadsheet w
  /\ MySQL.database (db w') = MySQL.database (db w)
  /\ match createChildLogger globals with
     | Bound =>
         settled = Returned tt
         /\ history (metadata w')
            = history (metadata w) ++ [DbToSheetWorker.noChangesRow]
     | Unbound =>
         settled = Thrown (referenceError "createChildLogger")
         /\ metadata w' = metadata w
     end.
Proof.
  intros Hnone.
  destruct (createChildLogger globals) eqn:Hlogger.
  - rewrite dbToSheet_run_unbound by exact Hlogger.
    split_and!; reflexivity.
  - unfold DbToSheetWorker.run, DbToSheetWorker.new, DbToSheetWorker.execute,
      DbToSheetWorker.sync.
    rewrite Hlogger.
    unfold referTo, bind, tryFinally, tryCatch, newAdapter, uuidv4, createSyncHistory,
      onDb, zoom, modify, MySQL.connect, MySQL.getChangeLog, MySQL.ensureConnected,
      read, bind, ret.
    cbn -[MySQL.selectChangeLog DbToSheetWorker.pollOptions].
    rewrite Hnone. cbn.
    split_and!; try reflexivity.
    rewrite alter_app_r_alt by lia. rewrite Nat.sub_diag. reflexivity.
Qed.

End QuietRun.

Section Marking.

Import Metadata Worker.

Variable dateToString : Date -> string.
Variable config : SyncConfig.

Lemma processEntry_skipped (sheetRowMap : gmap string (nat * RowData))
    (b : DbToSheetWorker.Batches) (entry : MySQL.MySQLChangeLogEntry) :
  DbToSheetWorker.skipped config entry = true ->
  DbToSheetWorker.processEntry dateToString config sheetRowMap b entry = b.
Proof.
  unfold DbToSheetWorker.skipped, DbToSheetWorker.processEntry.
  intros ->. reflexivity.
Qed.

Lemma processEntries_kept (sheetRowMap : gmap string (nat * RowData))
    (entries : list MySQL.MySQLChangeLogEntry) :
  DbToSheetWorker.processEntries dateToString config sheetRowMap entries
  = DbToSheetWorker.processEntries dateToString config sheetRowMap
      (List.filter (fun entry => negb (DbToSheetWorker.skipped config entry)) entries).
Proof.
  unfold DbToSheetWorker.processEntries.
  generalize ({| DbToSheetWorker.batchUpdates := [];
                 DbToSheetWorker.rowsToAppend := [] |}).
  induction entries as [| entry entries IH]; intros b; cbn [fold_left List.filter].
  - reflexivity.
  - destruct (DbToSheetWorker.skipped config entry) eqn:Hskip; cbn [negb fold_left].
    + rewrite processEntry_skipped by exact Hskip. apply IH.
    + apply IH.
Qed.

Lemma markProcessed_spec (ids : list Z) (entry : MySQL.MySQLChangeLogEntry) :
  MySQL.id (MySQL.markProcessed ids entry) = MySQL.id entry
  /\ (In (MySQL.id entry) ids -> MySQL.processed (MySQL.markProcessed ids entry) = true)
  /\ (~ In (MySQL.id entry) ids -> MySQL.markProcessed ids entry = entry).
Proof.
  unfold MySQL.markProcessed.
  destruct (existsb (Z.eqb (MySQL.id entry)) ids) eqn:Hex.
  - split_and!; [reflexivity | reflexivity |].
    intros Hnot. exfalso. apply Hnot.
    apply existsb_exists in Hex as (i & Hin & Heq).
    apply Z.eqb_eq in Heq. rewrite Heq. exact Hin.
  - split_and!; [reflexivity | | reflexivity].
    intros Hin. exfalso.
    assert (existsb (Z.eqb (MySQL.id entry)) ids = true).
    { apply existsb_exists. exists (MySQL.id entry). split; [exact Hin | apply Z.eqb_refl]. }
    congruence.
Qed.

Lemma dbToSheet_run (globals : Globals) (w : World) :
  let table := db_table_name config in
  let log := MySQL.changeLog (MySQL.database (db w)) in
  let entries := MySQL.selectChangeLog table DbToSheetWorker.pollOptions log in
  let ids := map MySQL.id entries in
  let sheetRowMap :=
    DbToSheetWorker.buildSheetRowMap dateToString config
      (convertSheetDataToRows config
         (Sheets.valuesOf (sheetRange config) (spreadsheet w))) in
  let batches :=
    DbToSheetWorker.processEntries dateToString config sheetRowMap entries in
  createChildLogger globals = Bound ->
  googleSheetsAdapter globals = Bound ->
  entries <> [] ->
  Sheets.online (spreadsheet w) = true ->
  existsb (String.eqb (DbToSheetWorker.operationIdOf w)) (processedOperations w)
    = false ->
  let '(w', settled) := DbToSheetWorker.run dateToString globals config w in
  settled = Returned tt
  /\ MySQL.changeLog (MySQL.database (db w')) = map (MySQL.markProcessed ids) log
  /\ spreadsheet w' = DbToSheetWorker.sendBatches config batches (spreadsheet w)
  /\ history (metadata w')
     = history (metadata w)
       ++ [{| direction := db_to_sheet;
              rows_affected :=
                Z.of_nat (length (DbToSheetWorker.batchUpdates batches))
                + Z.of_nat (length (DbToSheetWorker.rowsToAppend batches));
              conflicts_detected := 0;
              status := success;
              error_message := None;
              history_note := None |}].
Proof.
  destruct w as [[database0 adapter0] [cells0 ranges0 version0 online0]
                 [state0 history0 conflicts0] operations0 uuids0 now0].
  cbn [db spreadsheet metadata processedOperations uuids now MySQL.database
       Sheets.cells Sheets.online history].
  intros Hlogger Hadapter Hentries Honline Hfresh.
  set (table := db_table_name config) in *.
  set (log := MySQL.changeLog database0) in *.
  set (entries := MySQL.selectChangeLog table DbToSheetWorker.pollOptions log) in *.
  subst online0.
  unfold DbToSheetWorker.operationIdOf in Hfresh. cbn [uuids] in Hfresh.
  unfold DbToSheetWorker.run, DbToSheetWorker.new, DbToSheetWorker.execute,
    DbToSheetWorker.sync, DbToSheetWorker.onAdapter.
  rewrite Hlogger, Hadapter.
  unfold referTo, bind, tryFinally, tryCatch, newAdapter, uuidv4, createSyncHistory,
    onDb, onSheet, zoom, modify, MySQL.connect, MySQL.getChangeLog,
    MySQL.ensureConnected, read, bind, ret, isProcessed, Sheets.getRange, withDb,
    withMetadata, withSpreadsheet, MySQL.withPool.
  cbn -[MySQL.selectChangeLog DbToSheetWorker.pollOptions
        DbToSheetWorker.processEntries DbToSheetWorker.buildSheetRowMap
        convertSheetDataToRows Sheets.batchUpdate Sheets.appendRows
        MySQL.markChangesProcessed pretty Sheets.valuesOf sheetRange].
  fold table. fold log. fold entries.
  destruct entries as [| entry rest] eqn:Hsel; [contradiction |].
  cbn -[MySQL.selectChangeLog DbToSheetWorker.pollOptions
        DbToSheetWorker.processEntries DbToSheetWorker.buildSheetRowMap
        convertSheetDataToRows Sheets.batchUpdate Sheets.appendRows
        MySQL.markChangesProcessed pretty existsb Sheets.valuesOf sheetRange].
  rewrite Hfresh.
  set (batches := DbToSheetWorker.processEntries _ _ _ _).
  unfold DbToSheetWorker.sendBatches.
  unfold Sheets.batchUpdate, Sheets.appendRows.
  destruct (DbToSheetWorker.batchUpdates batches) as [| u us];
    destruct (DbToSheetWorker.rowsToAppend batches) as [| r rs];
    cbn -[MySQL.selectChangeLog DbToSheetWorker.pollOptions pretty sheetRange];
    (split_and!; try reflexivity;
     rewrite alter_app_r_alt by lia; rewrite Nat.sub_diag; reflexivity).
Qed.

(** C9: no run of the table-to-sheet worker reaches the marking step in
    the program as it is: the constructor throws the [ReferenceError] of
    [createChildLogger] before the change log is polled, and the change log,
    the table and the sheet are as they were.  Under a global object that
    binds the two free names, a run that reaches the marking step (the poll
    returned entries, the operation id is new, the sheet service answers)
    returns, and the change log it leaves is the one it found with
    [processed] set on every entry whose id is among the fetched ones: every
    fetched entry is marked, an entry that was not fetched is as before.
    An entry whose snapshot has no truthy primary key is skipped by the
    loop: it adds nothing to the batches, and the sheet after the run is the
    sheet after the batches of the other entries alone.  It is marked all
    the same; the poll of the change log the run leaves selects none of the
    fetched entries, and a poll of any later change log selects unprocessed
    entries only. *)
Theorem dbToSheet_marks_every_fetched_entry :
  (forall w : World,
      let '(w', settled) := DbToSheetWorker.run dateToString programGlobals config w in
      settled = Thrown (ThrownError "createChildLogger is not defined")
      /\ MySQL.database (db w') = MySQL.database (db w)
      /\ spreadsheet w' = spreadsheet w
      /\ metadata w' = metadata w)
  /\ forall (globals : Globals) (w : World),
       let table := db_table_name config in
       let log := MySQL.changeLog (MySQL.database (db w)) in
       let entries := MySQL.selectChangeLog table DbToSheetWorker.pollOptions log in
       let ids := map MySQL.id entries in
       let sheetRowMap :=
         DbToSheetWorker.buildSheetRowMap dateToString config
           (convertSheetDataToRows config
              (Sheets.valuesOf (sheetRange config) (spreadsheet w))) in
       let kept :=
         List.filter (fun entry => negb (DbToSheetWorker.skipped config entry))
           entries in
       createChildLogger globals = Bound ->
       googleSheetsAdapter globals = Bound ->
       entries <> [] ->
       Sheets.online (spreadsheet w) = true ->
       existsb (String.eqb (DbToSheetWorker.operationIdOf w)) (processedOperations w)
         = false ->
       let '(w', settled) := DbToSheetWorker.run dateToString globals config w in
       let log' := MySQL.changeLog (MySQL.database (db w')) in
       settled = Returned tt
       /\ log' = map (MySQL.markProcessed ids) log
       /\ (forall entry, In entry entries ->
             In (MySQL.markProcessed ids entry) log'
             /\ MySQL.processed (MySQL.markProcessed ids entry) = true)
       /\ (forall entry', In entry' log' -> In (MySQL.id entry') ids ->
             MySQL.processed entry' = true)
       /\ (forall entry', In entry' log' -> ~ In (MySQL.id entry') ids ->
             In entry' log)
       /\ (forall entry m b, DbToSheetWorker.skipped config entry = true ->
             DbToSheetWorker.processEntry dateToString config m b entry = b)
       /\ spreadsheet w'
          = DbToSheetWorker.sendBatches config
              (DbToSheetWorker.processEntries dateToString config sheetRowMap kept)
              (spreadsheet w)
       /\ (forall entry',
             In entry' (MySQL.selectChangeLog table DbToSheetWorker.pollOptions log') ->
             ~ In (MySQL.id entry') ids)
       /\ (forall later entry',
             In entry' (MySQL.selectChangeLog table DbToSheetWorker.pollOptions later) ->
             MySQL.processed entry' = false).
Proof.
  split.
  { intros w.
    rewrite (dbToSheet_run_unbound dateToString programGlobals config w eq_refl).
    split_and!; reflexivity. }
  intros globals w table log entries ids sheetRowMap kept Hlogger Hadapter Hentries
    Honline Hfresh.
  pose proof (dbToSheet_run globals w Hlogger Hadapter Hentries Honline Hfresh) as Hrun.
  destruct (DbToSheetWorker.run dateToString globals config w) as [w' settled].
  destruct Hrun as (Hsettled & Hlog & Hsheet & _).
  cbn zeta. fold table log entries ids in Hlog. rewrite Hlog.
  assert (Hmarked : forall entry', In entry' (map (MySQL.markProcessed ids) log) ->
            In (MySQL.id entry') ids -> MySQL.processed entry' = true).
  { intros entry' Hin Hid. apply in_map_iff in Hin as (entry & <- & _).
    destruct (markProcessed_spec ids entry) as (Hsame & Hyes & _).
    apply Hyes. rewrite <- Hsame. exact Hid. }
  split_and!.
  - exact Hsettled.
  - reflexivity.
  - intros entry Hin.
    destruct (markProcessed_spec ids entry) as (_ & Hyes & _). split.
    + apply in_map. apply selectChangeLog_In in Hin as [Hin _]. exact Hin.
    + apply Hyes. apply in_map. exact Hin.
  - exact Hmarked.
  - intros entry' Hin Hnot. apply in_map_iff in Hin as (entry & Heq & Hin).
    destruct (markProcessed_spec ids entry) as (Hsame & _ & Hno).
    rewrite <- Heq, Hsame in Hnot. rewrite Hno in Heq by exact Hnot.
    subst entry'. exact Hin.
  - intros entry m b. apply processEntry_skipped.
  - rewrite Hsheet. fold sheetRowMap. unfold kept.
    rewrite <- processEntries_kept. reflexivity.
  - intros entry' Hin Hid.
    apply poll_excludes_from_sheet in Hin as (Hin & _ & Hunprocessed & _).
    rewrite (Hmarked entry' Hin Hid) in Hunprocessed. discriminate.
  - intros later entry' Hin.
    apply poll_excludes_from_sheet in Hin as (_ & _ & Hunprocessed & _).
    exact Hunprocessed.
Qed.

End Marking.

(** The keyless entry: as the program is, the run stops in the constructor;
    with the two names bound it reaches the marking step and returns. *)
Lemma dbToSheet_marks_every_fetched_entry_witness :
  snd (DbToSheetWorker.run isoDate Worker.programGlobals usersConfig keylessEntryWorld)
  = Thrown (ThrownError "createChildLogger is not defined")
  /\ MySQL.selectChangeLog (Metadata.db_table_name usersConfig)
       DbToSheetWorker.pollOptions
       (MySQL.changeLog (MySQL.database (Metadata.db keylessEntryWorld))) <> []
  /\ Sheets.online (Metadata.spreadsheet keylessEntryWorld) = true
  /\ existsb (String.eqb (DbToSheetWorker.operationIdOf keylessEntryWorld))
       (Metadata.processedOperations keylessEntryWorld) = false
  /\ snd (DbToSheetWorker.run isoDate suppliedGlobals usersConfig keylessEntryWorld)
     = Returned tt
  /\ map MySQL.processed
       (MySQL.changeLog
          (MySQL.database
             (Metadata.db
                (fst (DbToSheetWorker.run isoDate suppliedGlobals usersConfig
                        keylessEntryWorld)))))
     = [true; true].
Proof.
  assert (H1 : MySQL.selectChangeLog (Metadata.db_table_name usersConfig)
                 DbToSheetWorker.pollOptions
                 (MySQL.changeLog (MySQL.database (Metadata.db keylessEntryWorld)))
               <> [])
    by (vm_compute; discriminate).
  assert (H2 : Sheets.online (Metadata.spreadsheet keylessEntryWorld) = true)
    by reflexivity.
  assert (H3 : existsb (String.eqb (DbToSheetWorker.operationIdOf keylessEntryWorld))
                 (Metadata.processedOperations keylessEntryWorld) = false)
    by reflexivity.
  destruct (dbToSheet_marks_every_fetched_entry isoDate usersConfig) as (Hprogram & Hbound).
  specialize (Hprogram keylessEntryWorld).
  specialize (Hbound suppliedGlobals keylessEntryWorld eq_refl eq_refl H1 H2 H3).
  split.
  { destruct (DbToSheetWorker.run isoDate Worker.programGlobals usersConfig
                keylessEntryWorld) as [w0 settled0].
    exact (proj1 Hprogram). }
  split; [exact H1 |]. split; [exact H2 |]. split; [exact H3 |].
  destruct (DbToSheetWorker.run isoDate suppliedGlobals usersConfig keylessEntryWorld)
    as [w' settled].
  destruct Hbound as (Hsettled & Hlog & _).
  split; [exact Hsettled |].
  cbn [fst]. rewrite Hlog. vm_compute. reflexivity.
Defined.

(* --------------------------------------------------------------------- *)
(** ** The cycles of the program as it is *)
(* --------------------------------------------------------------------- *)

Section ProgramCycles.

Import Metadata Worker Orchestrator.

Variable dateToString : Date -> string.
Variable random : nat -> Q.
Variable sleep : Q -> World -> World.
Variable config : SyncConfig.

Lemma referenceError_not_retryable :
  isRetryableError (referenceError "createChildLogger") = false.
Proof. vm_compute. reflexivity. Qed.

Lemma executeWithRetry_unbound (direction : SyncDirection)
    (worker : async World unit) (w : World) (q : DeadLetterQueue.DeadLetterQueue) :
  worker w
  = (fst (uuidv4 (fst (newAdapter config w))),
     Thrown (referenceError "createChildLogger")) ->
  executeWithRetry dateToString random sleep direction config worker (w, q)
  = ((fst (uuidv4 (fst (newAdapter config w))),
      DeadLetterQueue.add (unconstructed direction config (now w)) q),
     Thrown (referenceError "createChildLogger")).
Proof.
  intros Hworker.
  unfold executeWithRetry, Retry.retrySleeping, Retry.retry.
  cbn [Retry.maxAttempts retryOptions Retry.retryLoop].
  unfold bind, onWorld, zoom, read, tryCatch. cbn [fst snd].
  unfold Retry.afterSleep at 1. rewrite Hworker.
  cbn [Retry.retryableErrors retryOptions]. rewrite referenceError_not_retryable.
  reflexivity.
Qed.

Lemma syncConfigWithRetry_unbound (w : World) (q : DeadLetterQueue.DeadLetterQueue) :
  let sheetSyncNeeded :=
    syncNeeded config (now w) (syncState (metadata w) ≫= last_sheet_sync_at) in
  let dbSyncNeeded :=
    syncNeeded config (now w) (syncState (metadata w) ≫= last_db_sync_at) in
  let w1 := fst (uuidv4 (fst (newAdapter config w))) in
  syncConfigWithRetry dateToString random sleep programGlobals config (w, q)
  = (if sheetSyncNeeded
     then (w1, DeadLetterQueue.add (unconstructed sheet_to_db config (now w)) q)
     else if dbSyncNeeded
          then (w1, DeadLetterQueue.add (unconstructed db_to_sheet config (now w)) q)
          else (w, q),
     Returned tt).
Proof.
  intros sheetSyncNeeded dbSyncNeeded w1.
  pose proof (executeWithRetry_unbound sheet_to_db
                (SheetToDbWorker.run dateToString programGlobals config) w q
                (sheetToDb_run_unbound dateToString programGlobals config w eq_refl))
    as Hsheet.
  pose proof (executeWithRetry_unbound db_to_sheet
                (DbToSheetWorker.run dateToString programGlobals config) w q
                (dbToSheet_run_unbound dateToString programGlobals config w eq_refl))
    as Hdb.
  unfold syncConfigWithRetry, tryCatch, bind, onWorld, zoom, getSyncState, read, ret.
  cbn [fst snd]. fold sheetSyncNeeded dbSyncNeeded.
  destruct sheetSyncNeeded, dbSyncNeeded; cbn [negb andb];
    rewrite ?Hsheet, ?Hdb; reflexivity.
Qed.

(** A cycle of the program leaves the table, the change log, the sheet and
    the metadata store as they are. *)
Lemma cycle_keeps_the_data (s : System) :
  let s' := fst (syncConfigWithRetry dateToString random sleep programGlobals config s) in
  MySQL.database (db (fst s')) = MySQL.database (db (fst s))
  /\ spreadsheet (fst s') = spreadsheet (fst s)
  /\ metadata (fst s') = metadata (fst s).
Proof.
  destruct s as [w q]. cbn zeta. rewrite syncConfigWithRetry_unbound.
  destruct (syncNeeded _ _ _); [split_and!; reflexivity |].
  destruct (syncNeeded _ _ _); split_and!; reflexivity.
Qed.

Lemma cycles_keep_the_data (interval : Z) (n : nat) (s : System) :
  let s' := afterCycles dateToString random sleep programGlobals config interval n s in
  MySQL.database (db (fst s')) = MySQL.database (db (fst s))
  /\ spreadsheet (fst s') = spreadsheet (fst s)
  /\ metadata (fst s') = metadata (fst s).
Proof.
  induction n as [| n IH]; cbn [afterCycles]; [split_and!; reflexivity |].
  cbn zeta in IH. destruct IH as (Hdb & Hsheet & Hmeta).
  destruct (cycle_keeps_the_data
              (afterCycles dateToString random sleep programGlobals config interval n s))
    as (Hdb' & Hsheet' & Hmeta').
  unfold tick. cbn [fst db spreadsheet metadata].
  split_and!; congruence.
Qed.

Lemma cycles_affect_no_row (interval : Z) (s : System) (n : nat) :
  rowsAffected dateToString random sleep programGlobals config interval s n = 0.
Proof.
  unfold rowsAffected.
  destruct (cycles_keep_the_data interval n s) as (_ & _ & Hafter).
  destruct (cycles_keep_the_data interval (n - 1) s) as (_ & _ & Hbefore).
  cbn zeta in Hafter, Hbefore. rewrite Hafter, Hbefore.
  rewrite skipn_all. reflexivity.
Qed.

End ProgramCycles.

(* --------------------------------------------------------------------- *)
(** ** Loop prevention between the two workers *)
(* --------------------------------------------------------------------- *)

Section LoopPrevention.

Import Metadata Worker.

Variable dateToString : Date -> string.
Variable config : SyncConfig.

(** C1: whatever the global object binds, every change-log row that a
    sheet-to-table run produces carries the tag [from_sheet]: the log after
    the run is the log before it followed by tagged rows, and none of these
    is selected by the poll of the table-to-sheet worker, over whatever
    change log it runs.  That poll selects unprocessed rows only and never a
    tagged one.  So what the poll that follows the sheet-to-table run
    selects was in the log before the run; and when every unprocessed row of
    the table in the log was tagged to begin with, the table-to-sheet run
    that follows the sheet-to-table run leaves the spreadsheet and the
    database as they are.  In the program as it is, no cycle affects a row,
    the first one included: each worker throws in its constructor, so any
    number of cycles leaves the table, the change log, the sheet and the
    sync history as they were. *)
Theorem sheet_writes_are_never_polled_back (globals : Globals) (w : World) :
  let afterSheetToDb := fst (SheetToDbWorker.run dateToString globals config w) in
  let table := db_table_name config in
  let logBefore := MySQL.changeLog (MySQL.database (db w)) in
  let logAfter := MySQL.changeLog (MySQL.database (db afterSheetToDb)) in
  (exists added,
     logAfter = logBefore ++ added
     /\ Forall MySQL.taggedFromSheet added
     /\ forall log entry,
          In entry added ->
          ~ In entry (MySQL.selectChangeLog table DbToSheetWorker.pollOptions log))
  /\ (forall log entry,
        In entry (MySQL.selectChangeLog table DbToSheetWorker.pollOptions log) ->
        MySQL.processed entry = false /\ ~ MySQL.taggedFromSheet entry)
  /\ (forall entry,
        In entry (MySQL.selectChangeLog table DbToSheetWorker.pollOptions logAfter) ->
        In entry logBefore)
  /\ ((forall entry, In entry logBefore -> MySQL.table_name entry = table ->
         MySQL.processed entry = false -> MySQL.taggedFromSheet entry) ->
      let w' := fst (DbToSheetWorker.run dateToString globals config afterSheetToDb) in
      spreadsheet w' = spreadsheet afterSheetToDb
      /\ MySQL.database (db w') = MySQL.database (db afterSheetToDb))
  /\ (forall (random : nat -> Q) (sleep : Q -> World -> World) (interval : Z)
             (s : Orchestrator.System) (n : nat),
        let s' :=
          Orchestrator.afterCycles dateToString random sleep programGlobals config
            interval n s in
        Orchestrator.rowsAffected dateToString random sleep programGlobals config
          interval s n = 0
        /\ MySQL.database (db (fst s')) = MySQL.database (db (fst s))
        /\ spreadsheet (fst s') = spreadsheet (fst s)
        /\ history (metadata (fst s')) = history (metadata (fst s))).
Proof.
  intros afterSheetToDb table logBefore logAfter.
  destruct (sheetToDb_run_tagged dateToString globals config w)
    as (added & Hlog & Htagged).
  fold afterSheetToDb logBefore logAfter in Hlog.
  assert (Hpoll : forall log entry,
            In entry (MySQL.selectChangeLog table DbToSheetWorker.pollOptions log) ->
            In entry log /\ MySQL.table_name entry = table
            /\ MySQL.processed entry = false /\ ~ MySQL.taggedFromSheet entry).
  { intros log entry. apply poll_excludes_from_sheet. }
  split_and!.
  - exists added. split_and!; auto.
    intros log entry Hnew Hin. destruct (Hpoll log entry Hin) as (_ & _ & _ & Ht).
    apply Ht. rewrite Forall_forall in Htagged.
    apply Htagged, list_elem_of_In, Hnew.
  - intros log entry Hin. destruct (Hpoll log entry Hin) as (_ & _ & Hp & Ht). auto.
  - intros entry Hin. destruct (Hpoll logAfter entry Hin) as (Hlogin & _ & _ & Ht).
    rewrite Hlog in Hlogin. apply in_app_or in Hlogin as [Hold | Hnew].
    + exact Hold.
    + exfalso. apply Ht. rewrite Forall_forall in Htagged.
      apply Htagged, list_elem_of_In, Hnew.
  - intros Hquiet.
    pose proof (dbToSheet_nothing_pending dateToString globals config afterSheetToDb)
      as Hrun.
    destruct (DbToSheetWorker.run dateToString globals config afterSheetToDb)
      as [w' settled].
    destruct Hrun as (H1 & H2 & _).
    { apply poll_nothing. fold logAfter. intros entry Hin Ht Hp.
      rewrite Hlog in Hin. apply in_app_or in Hin as [Hold | Hnew].
      - exact (Hquiet entry Hold Ht Hp).
      - rewrite Forall_forall in Htagged. apply Htagged, list_elem_of_In, Hnew. }
    split; assumption.
  - intros random sleep interval s n.
    destruct (cycles_keep_the_data dateToString random sleep config interval n s)
      as (Hdb & Hsheet & Hmeta).
    cbn zeta in *.
    split_and!; [apply cycles_affect_no_row | exact Hdb | exact Hsheet |].
    rewrite Hmeta. reflexivity.
Qed.

End LoopPrevention.

(** The renamed row.  With the two names bound, the sheet-to-table run
    writes one tagged change and the table-to-sheet run that follows it
    leaves the sheet as it is; in the program as it is, the run writes
    nothing. *)
Lemma sheet_writes_are_never_polled_back_witness :
  let afterSheetToDb :=
    fst (SheetToDbWorker.run isoDate suppliedGlobals usersConfig renamedRowWorld) in
  (forall entry,
      In entry (MySQL.changeLog (MySQL.database (Metadata.db renamedRowWorld))) ->
      MySQL.table_name entry = Metadata.db_table_name usersConfig ->
      MySQL.processed entry = false -> MySQL.taggedFromSheet entry)
  /\ map MySQL.source_tag
       (MySQL.changeLog (MySQL.database (Metadata.db afterSheetToDb)))
     = [Some "from_sheet"]
  /\ Metadata.spreadsheet
       (fst (DbToSheetWorker.run isoDate suppliedGlobals usersConfig afterSheetToDb))
     = Metadata.spreadsheet afterSheetToDb
  /\ MySQL.changeLog
       (MySQL.database
          (Metadata.db
             (fst (SheetToDbWorker.run isoDate Worker.programGlobals usersConfig
                     renamedRowWorld))))
     = [].
Proof.
  intros afterSheetToDb.
  assert (Hquiet : forall entry,
             In entry (MySQL.changeLog (MySQL.database (Metadata.db renamedRowWorld))) ->
             MySQL.table_name entry = Metadata.db_table_name usersConfig ->
             MySQL.processed entry = false -> MySQL.taggedFromSheet entry)
    by (intros entry []).
  split; [exact Hquiet |].
  split; [vm_compute; reflexivity |].
  pose proof (sheet_writes_are_never_polled_back isoDate usersConfig suppliedGlobals
                renamedRowWorld)
    as (_ & _ & _ & Hrun & _).
  specialize (Hrun Hquiet). fold afterSheetToDb in Hrun.
  split; [exact (proj1 Hrun) |].
  vm_compute. reflexivity.
Defined.

(* --------------------------------------------------------------------- *)
(** ** The writes of a sheet-to-table run and its transaction *)
(* --------------------------------------------------------------------- *)

(** C3 fails on the code.  No run of the sheet-to-table worker applies a
    write, in a transaction or outside: the constructor throws the
    [ReferenceError] of [createChildLogger] before the adapter connects, so
    the run ends with that error, the pool was never opened, and the table,
    its change log, the sheet and the metadata store are as before.  In the
    scenario the sheet renames rows 1 and 2: the detector finds the two
    updates between the rows of the sheet and the rows of the table, and
    after the run the table still holds the old names, the change log is
    empty and the history has no row. *)
Theorem sheetToDb_run_applies_no_write :
  (forall (dateToString : Date -> string) (config : Metadata.SyncConfig)
          (w : Metadata.World),
      let '(w', settled) :=
        SheetToDbWorker.run dateToString Worker.programGlobals config w in
      settled = Thrown (ThrownError "createChildLogger is not defined")
      /\ MySQL.pool (MySQL.adapter (Metadata.db w')) = None
      /\ MySQL.database (Metadata.db w') = MySQL.database (Metadata.db w)
      /\ Metadata.spreadsheet w' = Metadata.spreadsheet w
      /\ Metadata.metadata w' = Metadata.metadata w)
  /\ (let changes :=
        detect isoDate (SheetToDbWorker.changeDetectorOptions usersConfig)
          (Worker.convertSheetDataToRows usersConfig
             (Sheets.valuesOf (Worker.sheetRange usersConfig)
                (Metadata.spreadsheet unmappedColumnWorld)))
          (MySQL.rows (MySQL.database (Metadata.db unmappedColumnWorld))) in
      map identifier (updates changes) = [IdStr "1"; IdStr "2"])
  /\ let '(w', settled) :=
       SheetToDbWorker.run isoDate Worker.programGlobals usersConfig
         unmappedColumnWorld in
     settled = Thrown (ThrownError "createChildLogger is not defined")
     /\ MySQL.rows (MySQL.database (Metadata.db w'))
        = [[("id", VStr "1"); ("name", VStr "Al")];
           [("id", VStr "2"); ("name", VStr "Bo")]]
     /\ MySQL.changeLog (MySQL.database (Metadata.db w')) = []
     /\ Metadata.history (Metadata.metadata w') = [].
Proof.
  split_and!.
  - intros dateToString config w.
    rewrite (sheetToDb_run_unbound dateToString Worker.programGlobals config w eq_refl).
    split_and!; reflexivity.
  - vm_compute. reflexivity.
  - vm_compute. split_and!; reflexivity.
Qed.

(* --------------------------------------------------------------------- *)
(** ** Conflict detection in the sheet-to-table run *)
(* --------------------------------------------------------------------- *)

Section NoConflictRecord.

Import Metadata Worker.

Variable dateToString : Date -> string.
Variable globals : Globals.
Variable config : SyncConfig.

Lemma sameConflicts_refl (w : World) : sameConflicts w w.
Proof. reflexivity. Qed.

Lemma sameConflicts_trans (w1 w2 w3 : World) :
  sameConflicts w1 w2 -> sameConflicts w2 w3 -> sameConflicts w1 w3.
Proof. unfold sameConflicts. congruence. Qed.

Lemma Run_conflicts_same {A : Type} (m : async World A) :
  (forall w, conflicts (metadata (fst (m w))) = conflicts (metadata w)) ->
  Run (fun _ => True) sameConflicts m.
Proof. intros Hm w _. split; [exact I | apply Hm]. Qed.

Lemma Run_conflicts_onDb {A : Type} (m : async MySQL.Db A) :
  Run (fun _ => True) sameConflicts (onDb m).
Proof.
  apply Run_conflicts_same. intros w. unfold onDb, zoom.
  destruct (m (db w)). reflexivity.
Qed.

Lemma Run_conflicts_onSheet {A : Type} (m : async Sheets.Spreadsheet A) :
  Run (fun _ => True) sameConflicts (onSheet m).
Proof.
  apply Run_conflicts_same. intros w. unfold onSheet, zoom.
  destruct (m (spreadsheet w)). reflexivity.
Qed.

Ltac conflicts_same :=
  first [ apply Run_conflicts_onDb
        | apply Run_conflicts_onSheet
        | apply Run_referTo; [apply sameConflicts_refl | apply Run_conflicts_onSheet]
        | apply Run_conflicts_same; intros ?; reflexivity ].

Ltac conflicts_step :=
  first [ apply (Run_bind _ _ sameConflicts_trans); [conflicts_same | intros ?]
        | apply Run_ret, sameConflicts_refl
        | apply Run_throw, sameConflicts_refl
        | conflicts_same ].

Lemma Run_resolveAndApply_nothing (historyId : nat) (sheetData : Sheets.RangeData)
    (changes : ChangeDetectionResult) :
  Run (fun _ => True) sameConflicts
    (SheetToDbWorker.resolveAndApply dateToString config historyId sheetData
       changes []).
Proof.
  unfold SheetToDbWorker.resolveAndApply, SheetToDbWorker.logConflicts.
  cbn [map forEach length]. cbv zeta.
  do 3 conflicts_step.
  match goal with |- Run _ _ (if ?b then _ else _) => destruct b end;
    [apply Run_ret, sameConflicts_refl |].
  do 5 conflicts_step.
Qed.

Lemma Run_sheetToDb_sync_conflicts (historyId : nat) :
  Run (fun _ => True) sameConflicts
    (SheetToDbWorker.sync dateToString globals config historyId).
Proof.
  unfold SheetToDbWorker.sync.
  do 3 conflicts_step.
  match goal with |- Run _ _ (if ?b then _ else _) => destruct b end;
    [conflicts_same |].
  cbv zeta. conflicts_step.
  match goal with
  | |- Run _ _ (match inserts ?c with _ => _ end) => set (changes := c)
  end.
  match goal with
  | |- context [SheetToDbWorker.resolveAndApply _ _ _ ?sd _] =>
      pose proof (Run_resolveAndApply_nothing historyId sd changes) as Hrest
  end.
  destruct (inserts changes), (updates changes), (deletes changes);
    first [exact Hrest | conflicts_same].
Qed.

Lemma sheetToDb_run_conflicts (w : World) :
  conflicts (metadata (fst (SheetToDbWorker.run dateToString globals config w)))
  = conflicts (metadata w).
Proof.
  assert (Hrun : Run (fun _ => True) sameConflicts
                   (SheetToDbWorker.run dateToString globals config)).
  { unfold SheetToDbWorker.run, SheetToDbWorker.new, SheetToDbWorker.execute.
    apply (Run_bind _ _ sameConflicts_trans).
    { do 2 conflicts_step.
      apply Run_referTo; [apply sameConflicts_refl |].
      apply Run_ret, sameConflicts_refl. }
    intros _. do 2 conflicts_step.
    apply (Run_tryFinally _ _ sameConflicts_trans); [| conflicts_same].
    apply (Run_tryCatch _ _ sameConflicts_trans);
      [apply Run_sheetToDb_sync_conflicts |].
    intros error. do 2 conflicts_step. }
  exact (proj2 (Hrun w I)).
Qed.

End NoConflictRecord.

(** C4 fails on the code.  With row 2 renamed on both sides after the last
    sync, the run of the sheet-to-table worker throws the [ReferenceError]
    of [createChildLogger] in the constructor: it detects nothing, records
    no conflict and no history row, and leaves the table value as it is.
    Behind that, [detectConflicts] returns no conflict whatever its
    arguments, so that no run adds a conflict record whatever the global
    object binds. *)
Theorem conflict_detection_is_skipped :
  (forall (changes : ChangeDetectionResult) (lastDbSyncAt : option Z)
          (w : Metadata.World),
      SheetToDbWorker.detectConflicts changes lastDbSyncAt w = (w, Returned []))
  /\ (forall (dateToString : Date -> string) (globals : Worker.Globals)
             (config : Metadata.SyncConfig) (w : Metadata.World),
        Metadata.conflicts
          (Metadata.metadata (fst (SheetToDbWorker.run dateToString globals config w)))
        = Metadata.conflicts (Metadata.metadata w))
  /\ let '(w', settled) :=
       SheetToDbWorker.run isoDate Worker.programGlobals usersConfig bothSidesWorld in
     settled = Thrown (ThrownError "createChildLogger is not defined")
     /\ Metadata.conflicts (Metadata.metadata w') = []
     /\ Metadata.history (Metadata.metadata w') = []
     /\ MySQL.rows (MySQL.database (Metadata.db bothSidesWorld))
        = [[("id", VStr "2"); ("name", VStr "Bobby")]]
     /\ Sheets.cells (Metadata.spreadsheet bothSidesWorld)
        = [[VStr "id"; VStr "name"]; [VStr "2"; VStr "Robert"]]
     /\ MySQL.rows (MySQL.database (Metadata.db w'))
        = [[("id", VStr "2"); ("name", VStr "Bobby")]].
Proof.
  split; [reflexivity |]. split; [apply sheetToDb_run_conflicts |].
  vm_compute. split_and!; reflexivity.
Qed.

(* ===================================================================== *)
(** * Further properties *)
(* ===================================================================== *)

(* --------------------------------------------------------------------- *)
(** ** The workers of the program as it is *)
(* --------------------------------------------------------------------- *)

Section Unconstructed.

Import Metadata Worker Orchestrator.

Variable dateToString : Date -> string.
Variable random : nat -> Q.
Variable sleep : Q -> World -> World.
Variable config : SyncConfig.

(** X14: in the program as it is, no worker is ever constructed.  Neither
    worker file imports [createChildLogger], and no file of the program
    puts it on the global object, so [new SheetToDbWorker(config)] and
    [new DbToSheetWorker(config)] throw the [ReferenceError] of that name
    with the table, the change log, the sheet, the metadata store, the set
    of operations and the clock as they were.  The error is not a retryable
    one: for a configuration whose sheet side was never synced, each cycle
    of [syncConfigWithRetry] adds one dead letter, for [sheet_to_db], with
    the reason [non_retryable_error] and the time the cycle started at as
    its first and its last attempt, never tries [db_to_sheet], returns, and
    leaves the table, the change log, the sheet and the metadata store as
    they were before the first cycle. *)
Theorem no_worker_is_constructed :
  (forall w,
     let w1 := fst (SheetToDbWorker.run dateToString programGlobals config w) in
     SheetToDbWorker.run dateToString programGlobals config w
     = (w1, Thrown (ThrownError "createChildLogger is not defined"))
     /\ DbToSheetWorker.run dateToString programGlobals config w
        = (w1, Thrown (ThrownError "createChildLogger is not defined"))
     /\ MySQL.database (db w1) = MySQL.database (db w)
     /\ spreadsheet w1 = spreadsheet w
     /\ metadata w1 = metadata w
     /\ processedOperations w1 = processedOperations w
     /\ now w1 = now w)
  /\ (forall (interval : Z) (n : nat) (s : System),
        syncState (metadata (fst s)) ≫= last_sheet_sync_at = None ->
        let before :=
          afterCycles dateToString random sleep programGlobals config interval n s in
        let after :=
          syncConfigWithRetry dateToString random sleep programGlobals config before in
        snd after = Returned tt
        /\ snd (fst after)
           = DeadLetterQueue.add
               {| DeadLetterQueue.jobId :=
                    (config_id config ++ "-sheet_to_db-"
                     ++ pretty (now (fst before)))%string;
                  DeadLetterQueue.payload :=
                    VObj [("configId", VStr (config_id config));
                          ("direction", VStr "sheet_to_db")];
                  DeadLetterQueue.error := "createChildLogger is not defined";
                  DeadLetterQueue.attemptsMade := 5;
                  DeadLetterQueue.firstAttemptAt := Some (now (fst before));
                  DeadLetterQueue.lastAttemptAt := Some (now (fst before));
                  DeadLetterQueue.failureReason :=
                    DeadLetterQueue.non_retryable_error |}
               (snd before)
        /\ now (fst (fst after)) = now (fst before)
        /\ MySQL.database (db (fst (fst after))) = MySQL.database (db (fst s))
        /\ spreadsheet (fst (fst after)) = spreadsheet (fst s)
        /\ metadata (fst (fst after)) = metadata (fst s)).
Proof.
  split.
  - intros w w1. unfold w1.
    rewrite (sheetToDb_run_unbound dateToString programGlobals config w eq_refl),
      (dbToSheet_run_unbound dateToString programGlobals config w eq_refl).
    split_and!; reflexivity.
  - intros interval n s Hnever before after.
    destruct (cycles_keep_the_data dateToString random sleep config interval n s)
      as (Hdb & Hsheet & Hmeta).
    fold before in Hdb, Hsheet, Hmeta.
    assert (Hdue : syncNeeded config (now (fst before))
                     (syncState (metadata (fst before)) ≫= last_sheet_sync_at) = true)
      by (rewrite Hmeta, Hnever; reflexivity).
    unfold after. destruct before as [w q]. cbn [fst snd] in *.
    rewrite syncConfigWithRetry_unbound. cbv zeta. rewrite Hdue. cbn [fst snd].
    split_and!; try reflexivity; assumption.
Qed.

End Unconstructed.

Lemma no_worker_is_constructed_witness :
  let start := (renamedRowWorld, DeadLetterQueue.empty) in
  let after :=
    fst (Orchestrator.syncConfigWithRetry isoDate (fun _ => 0%Q) (fun _ w => w)
           Worker.programGlobals usersConfig
           (Orchestrator.afterCycles isoDate (fun _ => 0%Q) (fun _ w => w)
              Worker.programGlobals usersConfig 30000 2 start)) in
  map DeadLetterQueue.jobId (DeadLetterQueue.entries (snd after))
  = ["config-1-sheet_to_db-" ++ pretty (Metadata.now renamedRowWorld);
     "config-1-sheet_to_db-" ++ pretty (Metadata.now renamedRowWorld + 30000);
     "config-1-sheet_to_db-" ++ pretty (Metadata.now renamedRowWorld + 60000)]%string
  /\ Metadata.metadata (fst after) = Metadata.metadata renamedRowWorld.
Proof.
  intros start after.
  destruct (proj2 (no_worker_is_constructed isoDate (fun _ => 0%Q) (fun _ w => w)
                     usersConfig) 30000 2%nat start eq_refl)
    as (_ & Hqueue & _ & _ & _ & Hmeta).
  split; [| exact Hmeta].
  unfold after. rewrite Hqueue. vm_compute. reflexivity.
Defined.

(* --------------------------------------------------------------------- *)
(** ** Lists and strings *)
(* --------------------------------------------------------------------- *)

Section ListsAndStrings.

Lemma filter_none {X : Type} (f : X -> bool) (l : list X) :
  (forall x, In x l -> f x = false) -> List.filter f l = [].
Proof.
  induction l as [| x l IH]; intros H; [reflexivity |].
  cbn. rewrite (H x) by (left; reflexivity). apply IH. intros; apply H; right; assumption.
Qed.

Lemma omap_none {X Y : Type} (f : X -> option Y) (l : list X) :
  (forall x, In x l -> f x = None) -> omap f l = [].
Proof.
  induction l as [| x l IH]; intros H; [reflexivity |].
  cbn. rewrite (H x) by (left; reflexivity). apply IH. intros; apply H; right; assumption.
Qed.

Lemma filter_filter_implied {X : Type} (f g : X -> bool) (l : list X) :
  (forall x, f x = true -> g x = true) ->
  List.filter f (List.filter g l) = List.filter f l.
Proof.
  intros Himp. induction l as [| x l IH]; cbn [List.filter]; [reflexivity |].
  destruct (g x) eqn:Hg; cbn [List.filter].
  - rewrite IH. reflexivity.
  - destruct (f x) eqn:Hf; [| exact IH]. rewrite (Himp x Hf) in Hg. discriminate.
Qed.

Lemma omap_pointwise {X Y : Type} (f g : X -> option Y) (l : list X) :
  (forall x, f x = g x) -> omap f l = omap g l.
Proof.
  intros Hfg. induction l as [| x l IH]; [reflexivity |].
  cbn. rewrite Hfg. cbn in IH. rewrite IH. reflexivity.
Qed.

Lemma omap_filter_implied {X Y : Type} (f : X -> option Y) (g : X -> bool)
    (l : list X) :
  (forall x, is_Some (f x) -> g x = true) ->
  omap f (List.filter g l) = omap f l.
Proof.
  intros Himp. induction l as [| x l IH]; cbn [List.filter]; [reflexivity |].
  destruct (g x) eqn:Hg; cbn.
  - cbn in IH. rewrite IH. reflexivity.
  - destruct (f x) eqn:Hf; [| exact IH].
    rewrite Himp in Hg by (rewrite Hf; eexists; reflexivity). discriminate.
Qed.

Lemma omap_NoDup_inj {X Y : Type} (f : X -> option Y) (l : list X) (a b : X) (y : Y) :
  NoDup (omap f l) -> In a l -> In b l -> f a = Some y -> f b = Some y -> a = b.
Proof.
  induction l as [| x l IH]; [intros _ [] |].
  cbn. destruct (f x) as [fx |] eqn:Hfx; cbn.
  - intros Hnd. apply NoDup_cons in Hnd as (Hnot & Hnd).
    intros [-> | Ha] [-> | Hb] Hfa Hfb; [reflexivity | | | eauto].
    + exfalso. apply Hnot. apply list_elem_of_omap. exists b.
      split; [apply list_elem_of_In, Hb | congruence].
    + exfalso. apply Hnot. apply list_elem_of_omap. exists a.
      split; [apply list_elem_of_In, Ha | congruence].
  - intros Hnd [-> | Ha] [-> | Hb] Hfa Hfb; try congruence. eauto.
Qed.

Lemma filter_all {X : Type} (f : X -> bool) (l : list X) :
  (forall x, In x l -> f x = true) -> List.filter f l = l.
Proof.
  intros H. apply forallb_filter_id, forallb_forall, H.
Qed.

Lemma filter_disjoint_length {X : Type} (f g : X -> bool) (l : list X) :
  (forall x, f x && g x = false) ->
  (length (List.filter f l) + length (List.filter g l) <= length l)%nat.
Proof.
  intros Hfg. induction l as [| x l IH]; cbn; [lia |].
  specialize (Hfg x). destruct (f x), (g x); cbn in *; try discriminate; lia.
Qed.

Lemma imap_snoc {X Y : Type} (f : nat -> X -> Y) (l : list X) (x : X) :
  imap f (l ++ [x]) = imap f l ++ [f (length l) x].
Proof.
  rewrite imap_app. cbn. rewrite Nat.add_0_r. reflexivity.
Qed.

Lemma append_cons (c : ascii) (s t : string) :
  (String c s ++ t = String c (s ++ t))%string.
Proof. reflexivity. Qed.

Lemma append_nil (t : string) : ("" ++ t = t)%string.
Proof. reflexivity. Qed.

Lemma append_nil_r (s : string) : (s ++ "" = s)%string.
Proof.
  induction s as [| c s IH]; [reflexivity |]. rewrite append_cons, IH. reflexivity.
Qed.

Lemma append_assoc (a b c : string) : ((a ++ b) ++ c = a ++ b ++ c)%string.
Proof.
  induction a as [| x a IH]; [reflexivity |].
  rewrite !append_cons, IH. reflexivity.
Qed.

Lemma string_app_length (a b : string) :
  String.length (a ++ b) = (String.length a + String.length b)%nat.
Proof.
  induction a as [| x a IH]; [reflexivity |].
  rewrite append_cons. cbn. rewrite IH. reflexivity.
Qed.

Lemma string_snoc_inj (s s' : string) (c c' : ascii) :
  (s ++ String c "" = s' ++ String c' "")%string -> s = s' /\ c = c'.
Proof.
  revert s'. induction s as [| x s IH]; intros [| x' s'];
    rewrite ?append_cons, ?append_nil.
  - intros [= ->]. auto.
  - intros [= -> H]. destruct s'; discriminate.
  - intros [= -> H]. destruct s; discriminate.
  - intros [= -> H]. destruct (IH s' H) as (-> & ->). auto.
Qed.

End ListsAndStrings.

Section DetectorEdges.

Variable dateToString : Date -> string.
Variable options : ChangeDetectorOptions.

Abbreviation keyOf := (getPrimaryKeyValue dateToString options).

Lemma detect_shape (current baseline : list RowData) :
  detect dateToString options current baseline
  = {| inserts := List.filter (rowAbsentFrom dateToString options baseline) current;
       updates := omap (updateOf dateToString options baseline) current;
       deletes :=
         omap keyOf (List.filter (rowAbsentFrom dateToString options current) baseline) |}.
Proof.
  unfold detect.
  pose proof (detectCurrent_spec dateToString options baseline current
                {| inserts := []; updates := []; deletes := [] |}) as (Hi & Hu & Hd).
  pose proof (detectBaseline_spec dateToString options current baseline
                (detectCurrent dateToString options
                   (buildMap dateToString options baseline) current
                   {| inserts := []; updates := []; deletes := [] |}))
    as (Hi' & Hu' & Hd').
  cbn zeta in *.
  destruct (detectBaseline _ _ _ _ _) as [i u d]. cbn in *.
  rewrite Hi', Hu', Hd', Hi, Hu, Hd. reflexivity.
Qed.

Lemma keyAbsent_keyed (key : RowId) (rows : list RowData) :
  keyAbsent dateToString options key
    (List.filter (fun row => bool_decide (is_Some (keyOf row))) rows)
  = keyAbsent dateToString options key rows.
Proof.
  unfold keyAbsent.
  induction rows as [| row rows IH]; cbn [List.filter forallb]; [reflexivity |].
  case_bool_decide as Hk; cbn [forallb].
  - rewrite IH. reflexivity.
  - rewrite IH. rewrite bool_decide_eq_false_2; [reflexivity |].
    intros Heq. apply Hk. rewrite Heq. eexists; reflexivity.
Qed.

Lemma lastWithKey_keyed (key : RowId) (rows : list RowData) :
  lastWithKey dateToString options key
    (List.filter (fun row => bool_decide (is_Some (keyOf row))) rows)
  = lastWithKey dateToString options key rows.
Proof.
  unfold lastWithKey. generalize (@None RowData).
  induction rows as [| row rows IH]; intros found; cbn [List.filter fold_left];
    [reflexivity |].
  case_bool_decide as Hk; cbn [fold_left].
  - apply IH.
  - rewrite IH. rewrite bool_decide_eq_false_2; [reflexivity |].
    intros Heq. apply Hk. rewrite Heq. eexists; reflexivity.
Qed.

Lemma rowAbsentFrom_keyed (rows : list RowData) (row : RowData) :
  rowAbsentFrom dateToString options
    (List.filter (fun row => bool_decide (is_Some (keyOf row))) rows) row
  = rowAbsentFrom dateToString options rows row.
Proof.
  unfold rowAbsentFrom. destruct (keyOf row); [apply keyAbsent_keyed | reflexivity].
Qed.

Lemma updateOf_keyed (rows : list RowData) (row : RowData) :
  updateOf dateToString options
    (List.filter (fun row => bool_decide (is_Some (keyOf row))) rows) row
  = updateOf dateToString options rows row.
Proof.
  unfold updateOf. destruct (keyOf row); [| reflexivity].
  rewrite lastWithKey_keyed. reflexivity.
Qed.

(** X1: rows whose primary key is missing, null or empty are ignored on
    both sides: [detect] returns what it returns on the rows that carry a
    key, every inserted row carries a key, and every update carries the key
    of its row. *)
Theorem detect_skips_rows_without_key (current baseline : list RowData) :
  detect dateToString options current baseline
  = detect dateToString options
      (List.filter (fun row => bool_decide (is_Some (keyOf row))) current)
      (List.filter (fun row => bool_decide (is_Some (keyOf row))) baseline)
  /\ (forall row, In row (inserts (detect dateToString options current baseline)) ->
        is_Some (keyOf row))
  /\ (forall u, In u (updates (detect dateToString options current baseline)) ->
        keyOf (data u) = Some (identifier u))
  /\ (forall row, keyOf row = None ->
        detect dateToString options (current ++ [row]) baseline
        = detect dateToString options current baseline
        /\ detect dateToString options current (baseline ++ [row])
           = detect dateToString options current baseline).
Proof.
  rewrite !detect_shape. split_and!.
  - assert (Hkeyed : forall row,
              rowAbsentFrom dateToString options baseline row = true
              \/ rowAbsentFrom dateToString options current row = true
              \/ is_Some (updateOf dateToString options baseline row) ->
              bool_decide (is_Some (keyOf row)) = true).
    { intros row H. apply bool_decide_eq_true.
      destruct H as [Habs | [Habs | (u & Hu)]].
      - apply rowAbsentFrom_spec in Habs as (key & Hk & _). rewrite Hk. eexists; reflexivity.
      - apply rowAbsentFrom_spec in Habs as (key & Hk & _). rewrite Hk. eexists; reflexivity.
      - apply updateOf_spec in Hu as (b & c & _ & Hk & _). rewrite Hk. eexists; reflexivity. }
    symmetry. f_equal.
    + rewrite (List.filter_ext _ _ (rowAbsentFrom_keyed baseline)).
      apply filter_filter_implied. auto.
    + rewrite (omap_pointwise _ _ _ (updateOf_keyed baseline)).
      apply omap_filter_implied. auto.
    + f_equal. rewrite (List.filter_ext _ _ (rowAbsentFrom_keyed current)).
      apply filter_filter_implied. auto.
  - intros row Hin. cbn in Hin. apply filter_In in Hin as (_ & Habs).
    apply rowAbsentFrom_spec in Habs as (key & Hk & _). rewrite Hk. eexists; reflexivity.
  - intros u Hin. cbn in Hin. apply list_elem_of_In, list_elem_of_omap in Hin
      as (row & Hrow & Hu).
    apply updateOf_spec in Hu as (b & c & Hd & Hk & _). rewrite Hd. exact Hk.
  - intros row Hnone.
    assert (Hk : forall rows r, rowAbsentFrom dateToString options (rows ++ [row]) r
                          = rowAbsentFrom dateToString options rows r).
    { intros rows r. unfold rowAbsentFrom. destruct (keyOf r) as [key |]; [| reflexivity].
      unfold keyAbsent. rewrite forallb_app. cbn.
      rewrite bool_decide_eq_false_2 by congruence. cbn. rewrite andb_true_r. reflexivity. }
    assert (Hu : forall rows r, updateOf dateToString options (rows ++ [row]) r
                          = updateOf dateToString options rows r).
    { intros rows r. unfold updateOf. destruct (keyOf r) as [key |]; [| reflexivity].
      unfold lastWithKey. rewrite fold_left_app. cbn.
      rewrite bool_decide_eq_false_2 by congruence. reflexivity. }
    rewrite !detect_shape. split; f_equal.
    + rewrite List.filter_app. cbn. unfold rowAbsentFrom at 2. rewrite Hnone.
      apply app_nil_r.
    + rewrite omap_app. cbn. unfold updateOf at 2. rewrite Hnone. apply app_nil_r.
    + f_equal. apply List.filter_ext. intros r. apply Hk.
    + apply List.filter_ext. intros r. apply Hk.
    + apply omap_pointwise. intros r. apply Hu.
    + rewrite List.filter_app, omap_app. cbn. unfold rowAbsentFrom at 2. rewrite Hnone.
      apply app_nil_r.
Qed.

Lemma valuesEqual_scalar (v : value) :
  scalar v = true -> valuesEqual dateToString v v = true.
Proof.
  destruct v as [| | b | n | s | [t |] | fs]; cbn; try discriminate; intros _;
    try reflexivity; try apply String.eqb_refl.
  apply Z.eqb_refl.
Qed.

Lemma rowAbsentFrom_member (rows : list RowData) (row : RowData) :
  In row rows -> rowAbsentFrom dateToString options rows row = false.
Proof.
  intros Hin. destruct (rowAbsentFrom dateToString options rows row) eqn:Habs;
    [| reflexivity].
  apply rowAbsentFrom_spec in Habs as (key & Hk & Hnone).
  exfalso. exact (Hnone row Hin Hk).
Qed.

(** X2: comparing a data set with itself never reports an insert or a
    delete; it reports no update either when no two rows share a key and no
    cell is a plain object or an invalid date. *)
Theorem detect_same_rows (rows : list RowData) :
  let result := detect dateToString options rows rows in
  inserts result = []
  /\ deletes result = []
  /\ (NoDup (omap keyOf rows) ->
      (forall row column, In row rows -> scalar (prop_get row column) = true) ->
      updates result = []).
Proof.
  cbn zeta. rewrite detect_shape. cbn [inserts updates deletes].
  assert (Hnone : List.filter (rowAbsentFrom dateToString options rows) rows = []).
  { apply filter_none. intros row Hin. apply rowAbsentFrom_member, Hin. }
  rewrite Hnone. split_and!; [reflexivity | reflexivity |].
  intros Hnodup Hscalar. apply omap_none. intros row Hin.
  unfold updateOf. destruct (keyOf row) as [key |] eqn:Hkey; [| reflexivity].
  destruct (lastWithKey dateToString options key rows) as [other |] eqn:Hlast;
    [| reflexivity].
  apply lastWithKey_present in Hlast as (Hother & Hk).
  assert (other = row) as -> by exact (omap_NoDup_inj _ _ _ _ _ Hnodup Hother Hin Hk Hkey).
  assert (Hsame : hasChanged dateToString options row row = false);
    [| rewrite Hsame; reflexivity].
  unfold hasChanged. apply not_true_is_false. intros Hex.
  apply existsb_exists in Hex as (column & _ & Hcol).
  apply andb_true_iff in Hcol as (_ & Hne).
  rewrite valuesEqual_scalar in Hne by (apply Hscalar, Hin). discriminate.
Qed.

Lemma prop_get_absent (obj : RowData) (k : string) :
  ~ In k (keys obj) -> prop_get obj k = VUndefined.
Proof.
  induction obj as [| [k' v] obj IH]; [reflexivity |].
  cbn. intros Hnot. destruct (String.eqb_spec k' k) as [-> | Hne].
  - exfalso. apply Hnot. left. reflexivity.
  - apply IH. intros Hin. apply Hnot. right. exact Hin.
Qed.

Lemma prop_get_prop_set (obj : RowData) (k k' : string) (v : value) :
  prop_get (prop_set obj k v) k' = if String.eqb k k' then v else prop_get obj k'.
Proof.
  induction obj as [| [k0 v0] obj IH]; cbn.
  - destruct (String.eqb k k'); reflexivity.
  - destruct (String.eqb_spec k0 k) as [-> | Hne]; cbn.
    + destruct (String.eqb k k'); reflexivity.
    + destruct (String.eqb_spec k0 k') as [-> | Hne'].
      * destruct (String.eqb_spec k k'); [congruence | reflexivity].
      * exact IH.
Qed.

(** X3: two rows count as changed exactly when some column that is not
    ignored holds values that differ under [valuesEqual], a column missing
    from a row reading as [undefined]; so what the primary key and the
    ignored columns hold never matters. *)
Theorem hasChanged_iff (current baseline : RowData) :
  (hasChanged dateToString options current baseline = false
   <-> forall column,
         ignored options column = false ->
         valuesEqual dateToString (prop_get current column) (prop_get baseline column)
         = true)
  /\ (forall column v,
        ignored options column = true ->
        hasChanged dateToString options (prop_set current column v) baseline
        = hasChanged dateToString options current baseline
        /\ hasChanged dateToString options current (prop_set baseline column v)
           = hasChanged dateToString options current baseline).
Proof.
  assert (Hiff : forall c b,
             hasChanged dateToString options c b = false
             <-> forall column,
                   ignored options column = false ->
                   valuesEqual dateToString (prop_get c column) (prop_get b column) = true).
  { intros c b. unfold hasChanged. split.
    - intros Hnone column Hi.
      destruct (in_dec string_dec column (keys c ++ keys b)) as [Hin | Hout].
      + destruct (valuesEqual dateToString (prop_get c column) (prop_get b column))
          eqn:Heq; [reflexivity |].
        exfalso. apply not_true_iff_false in Hnone. apply Hnone.
        apply existsb_exists. exists column. split; [exact Hin |].
        rewrite Hi, Heq. reflexivity.
      + rewrite !prop_get_absent; [reflexivity | |];
          intros Hin; apply Hout, in_or_app; auto.
    - intros Hall. apply not_true_is_false. intros Hex.
      apply existsb_exists in Hex as (column & _ & Hcol).
      apply andb_true_iff in Hcol as (Hi & Hne).
      apply negb_true_iff in Hi. rewrite (Hall column Hi) in Hne. discriminate. }
  split; [apply Hiff |].
  assert (Hbool : forall x y : bool, (x = false <-> y = false) -> x = y).
  { intros [] [] [H1 H2]; try reflexivity;
      [exact (H2 eq_refl) | symmetry; exact (H1 eq_refl)]. }
  intros column v Hi. split; apply Hbool; rewrite !Hiff; split; intros Hall other Ho;
    specialize (Hall other Ho); rewrite prop_get_prop_set in *;
    (destruct (String.eqb_spec column other) as [-> | Hne]; [congruence | exact Hall]).
Qed.

End DetectorEdges.

Section ValueEquality.

Variable dateToString : Date -> string.

(** X4: [valuesEqual] treats [null] and [undefined] as one value that
    equals nothing else; two values of which one at least is not an object
    are compared by their trimmed string forms, so the number 1 equals the
    text [" 1 "]; the comparison is symmetric unless both values are plain
    objects, where it is not: an object with one key that holds [null]
    equals any object with one other key, but not the other way round. *)
Theorem valuesEqual_laws (a b : value) :
  (is_nullish a = true -> valuesEqual dateToString a b = is_nullish b)
  /\ (is_nullish b = true -> valuesEqual dateToString a b = is_nullish a)
  /\ (is_nullish a = false -> is_nullish b = false ->
      is_object a = false \/ is_object b = false ->
      valuesEqual dateToString a b
      = String.eqb (trim (toString dateToString a)) (trim (toString dateToString b)))
  /\ ((forall fa fb, a = VObj fa -> b = VObj fb -> False) ->
      valuesEqual dateToString a b = valuesEqual dateToString b a)
  /\ (forall k k' v, k <> k' -> is_nullish v = false ->
        valuesEqual dateToString (VObj [(k, VNull)]) (VObj [(k', v)]) = true
        /\ valuesEqual dateToString (VObj [(k', v)]) (VObj [(k, VNull)]) = false).
Proof.
  split_and!.
  - destruct a; cbn; try discriminate; reflexivity.
  - destruct a as [| | ? | ? | ? | ? | ?], b; cbn; try discriminate; reflexivity.
  - destruct a as [| | ? | ? | ? | ? | ?], b; cbn; try discriminate;
      intros _ _ [H | H]; try discriminate; reflexivity.
  - intros Hnot.
    destruct a as [| | ? | ? | ? | [?|] | fa], b as [| | ? | ? | ? | [?|] | fb]; cbn;
      try reflexivity; try apply String.eqb_sym; try apply Z.eqb_sym;
      try (destruct fb; reflexivity); try (destruct fa; reflexivity).
    exfalso. eapply Hnot; reflexivity.
  - intros k k' v Hne Hv. cbn.
    destruct (String.eqb_spec k' k) as [-> | _]; [congruence |].
    destruct (String.eqb_spec k k') as [-> | _]; [congruence |].
    split; [reflexivity |].
    destruct v; cbn in *; try discriminate; reflexivity.
Qed.

End ValueEquality.

Section BreakerWindow.

Import CircuitBreaker.

Context {W A : Type}.
Variable clock : W -> Z.
Variable fn : async W A.

Lemma onFailure_fields (now : Z) (cb : CircuitBreaker) :
  options (onFailure now cb) = options cb
  /\ lastFailureTime (onFailure now cb) = now
  /\ failures (onFailure now cb) = failures cb
  /\ successes (onFailure now cb) = successes cb.
Proof. split_and!; reflexivity. Qed.

Lemma failures_within_window (times : list Z) (cb : CircuitBreaker) :
  state cb = CLOSED ->
  failureTimestamps cb = [] ->
  (forall t t', In t times -> In t' times -> t' - t < windowDuration (options cb)) ->
  let cb' := fold_left (fun cb now => onFailure now cb) times cb in
  options cb' = options cb
  /\ failureTimestamps cb' = times
  /\ state cb' = (if bool_decide (times <> [])
                     && (failureThreshold (options cb) <=? Z.of_nat (length times))
                  then OPEN else CLOSED).
Proof.
  intros Hstate Hstamps.
  induction times as [| now times IH] using rev_ind; intros Hwin.
  - cbn. auto.
  - rewrite fold_left_app. cbn [fold_left].
    destruct IH as (Hopt & Hts & Hst).
    { intros t t' Ht Ht'. apply Hwin; apply in_or_app; left; assumption. }
    set (cb1 := fold_left (fun cb now => onFailure now cb) times cb) in *.
    assert (Hkeep : List.filter
                      (fun timestamp => now - timestamp <? windowDuration (options cb1))
                      (failureTimestamps cb1 ++ [now]) = times ++ [now]).
    { rewrite Hts, Hopt. apply filter_all. intros t Ht. apply Z.ltb_lt.
      apply Hwin; [exact Ht | apply in_or_app; right; left; reflexivity]. }
    split_and!.
    + rewrite <- Hopt. reflexivity.
    + unfold onFailure. cbn [failureTimestamps]. exact Hkeep.
    + unfold onFailure. cbn [state]. rewrite Hkeep, Hst, Hopt.
      assert (Hsome : bool_decide (times ++ [now] <> []) = true).
      { apply bool_decide_eq_true. intros H. apply app_eq_nil in H as [_ H]. discriminate. }
      rewrite Hsome.
      rewrite !length_app. cbn [length andb].
      destruct (bool_decide (times <> [])) eqn:Hne; cbn [andb].
      * destruct (Z.leb_spec (failureThreshold (options cb)) (Z.of_nat (length times)));
          destruct (Z.leb_spec (failureThreshold (options cb))
                      (Z.of_nat (length times + 1))); try reflexivity; lia.
      * reflexivity.
Qed.

Lemma failures_apart (times : list Z) (cb : CircuitBreaker) :
  state cb = CLOSED ->
  failureTimestamps cb = [] ->
  2 <= failureThreshold (options cb) ->
  (forall i j ti tj, times !! i = Some ti -> times !! j = Some tj -> (i < j)%nat ->
     windowDuration (options cb) <= tj - ti) ->
  let cb' := fold_left (fun cb now => onFailure now cb) times cb in
  options cb' = options cb
  /\ incl (failureTimestamps cb') times
  /\ (length (failureTimestamps cb') <= 1)%nat
  /\ state cb' = CLOSED.
Proof.
  intros Hstate Hstamps Hthr.
  induction times as [| now times IH] using rev_ind; intros Hgap.
  - cbn. rewrite Hstamps.
    split_and!; [reflexivity | apply incl_refl | cbn; lia | exact Hstate].
  - rewrite fold_left_app. cbn [fold_left].
    destruct IH as (Hopt & Hincl & Hlen & Hst).
    { intros i j ti tj Hi Hj Hij. apply (Hgap i j); [| | exact Hij];
        apply lookup_app_l_Some; assumption. }
    set (cb1 := fold_left (fun cb now => onFailure now cb) times cb) in *.
    assert (Hold : List.filter
                     (fun timestamp => now - timestamp <? windowDuration (options cb1))
                     (failureTimestamps cb1) = []).
    { apply filter_none. intros ts Hts. apply Z.ltb_ge. rewrite Hopt.
      apply Hincl in Hts. apply list_elem_of_In, list_elem_of_lookup in Hts as (i & Hi).
      apply (Hgap i (length times)).
      - apply lookup_app_l_Some. exact Hi.
      - rewrite lookup_app_r by lia. rewrite Nat.sub_diag. reflexivity.
      - apply lookup_lt_Some in Hi. exact Hi. }
    assert (Hnew : exists kept,
               List.filter
                 (fun timestamp => now - timestamp <? windowDuration (options cb1))
                 (failureTimestamps cb1 ++ [now]) = kept
               /\ incl kept [now] /\ (length kept <= 1)%nat).
    { rewrite List.filter_app, Hold. cbn.
      destruct (now - now <? windowDuration (options cb1)); eexists;
        (split; [reflexivity |]); split; cbn; try lia; try apply incl_refl.
      intros x []. }
    destruct Hnew as (kept & Hkept & Hin & Hk).
    unfold onFailure. cbn [options failureTimestamps state]. rewrite Hkept, Hst, Hopt.
    split_and!; [reflexivity | | exact Hk |].
    + intros x Hx. apply in_or_app. right. apply Hin, Hx.
    + destruct (Z.leb_spec (failureThreshold (options cb)) (Z.of_nat (length kept)));
        [lia | reflexivity].
Qed.

Abbreviation failureTimes w n :=
  (map (fun i => clock (worldAfter fn w (S i))) (seq 0 n)).

Lemma failing_calls (w : W) (cb : CircuitBreaker) (n : nat) :
  (forall w0, exists e, snd (fn w0) = Thrown e) ->
  (forall k, (k < n)%nat ->
     state (fold_left (fun cb now => onFailure now cb) (failureTimes w k) cb) = CLOSED) ->
  executeAll clock fn n cb w
  = (fold_left (fun cb now => onFailure now cb) (failureTimes w n) cb,
     worldAfter fn w n).
Proof.
  intros Hfails. induction n as [| n IH]; intros Hclosed; [reflexivity |].
  cbn [executeAll]. rewrite IH by (intros k Hk; apply Hclosed; lia).
  rewrite seq_S, List.map_app, fold_left_app. cbn [map fold_left Nat.add].
  specialize (Hclosed n ltac:(lia)).
  set (cb1 := fold_left (fun cb now => onFailure now cb) (failureTimes w n) cb) in *.
  unfold execute. rewrite Hclosed. unfold attempt.
  assert (Hw : worldAfter fn w (S n) = fst (fn (worldAfter fn w n))).
  { destruct n; reflexivity. }
  rewrite Hw.
  destruct (Hfails (worldAfter fn w n)) as (e & He).
  destruct (fn (worldAfter fn w n)) as [w1 settled]. cbn in He. subst settled.
  reflexivity.
Qed.

(** X5: a closed breaker with an empty window lets every call through
    until [failureThreshold] calls in a row have failed within less than one
    window of each other: [fn] has run [n] times, the window holds the times
    of the [n] failures, fewer failures than the threshold leave the breaker
    closed and the failure that reaches the threshold opens it. *)
Theorem breaker_opens_at_threshold (w : W) (cb : CircuitBreaker) (n : nat) :
  let times := map (fun i => clock (worldAfter fn w (S i))) (seq 0 n) in
  state cb = CLOSED ->
  failureTimestamps cb = [] ->
  (forall w0, exists e, snd (fn w0) = Thrown e) ->
  (0 < n)%nat ->
  Z.of_nat n <= failureThreshold (options cb) ->
  (forall t t', In t times -> In t' times -> t' - t < windowDuration (options cb)) ->
  let '(cb', w') := executeAll clock fn n cb w in
  w' = worldAfter fn w n
  /\ failureTimestamps cb' = times
  /\ state cb' = (if Z.of_nat n =? failureThreshold (options cb) then OPEN else CLOSED).
Proof.
  intros times Hstate Hstamps Hfails Hpos Hle Hwin. subst times.
  assert (Hprefix : forall k, (k <= n)%nat ->
            forall t t', In t (failureTimes w k) -> In t' (failureTimes w k) ->
                         t' - t < windowDuration (options cb)).
  { intros k Hk t t' Ht Ht'. apply Hwin;
      apply in_map_iff; [apply in_map_iff in Ht as (i & <- & Hi)
                        | apply in_map_iff in Ht' as (i & <- & Hi)];
      exists i; (split; [reflexivity |]); apply in_seq; apply in_seq in Hi; lia. }
  rewrite failing_calls; [| exact Hfails |].
  - destruct (failures_within_window (failureTimes w n) cb Hstate Hstamps
                (Hprefix n ltac:(lia))) as (_ & Hts & Hst).
    split_and!; [reflexivity | exact Hts |].
    rewrite Hst. rewrite length_map, length_seq.
    rewrite bool_decide_eq_true_2 by (destruct n; [lia | discriminate]).
    cbn [andb].
    destruct (Z.leb_spec (failureThreshold (options cb)) (Z.of_nat n));
      destruct (Z.eqb_spec (Z.of_nat n) (failureThreshold (options cb)));
      try reflexivity; lia.
  - intros k Hk.
    destruct (failures_within_window (failureTimes w k) cb Hstate Hstamps
                (Hprefix k ltac:(lia))) as (_ & _ & Hst).
    rewrite Hst. rewrite length_map, length_seq.
    destruct (bool_decide _); cbn [andb]; [| reflexivity].
    destruct (Z.leb_spec (failureThreshold (options cb)) (Z.of_nat k));
      [lia | reflexivity].
Qed.

(** X6: failures that come a full window or more after one another never
    open a breaker whose threshold is 2 or more: every call goes through to
    [fn], however many fail, and the window never holds more than the last
    failure. *)
Theorem breaker_ignores_sparse_failures (w : W) (cb : CircuitBreaker) (n : nat) :
  state cb = CLOSED ->
  failureTimestamps cb = [] ->
  2 <= failureThreshold (options cb) ->
  (forall w0, exists e, snd (fn w0) = Thrown e) ->
  (forall i j, (i < j < n)%nat ->
     windowDuration (options cb)
     <= clock (worldAfter fn w (S j)) - clock (worldAfter fn w (S i))) ->
  let '(cb', w') := executeAll clock fn n cb w in
  w' = worldAfter fn w n
  /\ state cb' = CLOSED
  /\ (length (failureTimestamps cb') <= 1)%nat.
Proof.
  intros Hstate Hstamps Hthr Hfails Hgap.
  assert (Hfold : forall k, (k <= n)%nat ->
            let cb' := fold_left (fun cb now => onFailure now cb) (failureTimes w k) cb in
            state cb' = CLOSED /\ (length (failureTimestamps cb') <= 1)%nat).
  { intros k Hk.
    destruct (failures_apart (failureTimes w k) cb Hstate Hstamps Hthr)
      as (_ & _ & Hlen & Hst); [| auto].
    intros i j ti tj Hi Hj Hij.
    apply list_lookup_fmap_Some in Hi as (i' & -> & Hi').
    apply list_lookup_fmap_Some in Hj as (j' & -> & Hj').
    apply lookup_seq in Hi' as (-> & _). apply lookup_seq in Hj' as (-> & Hlt).
    cbn [Nat.add]. apply Hgap. lia. }
  rewrite failing_calls; [| exact Hfails | intros k Hk; apply Hfold; lia].
  split_and!; [reflexivity | apply Hfold; lia | apply Hfold; lia].
Qed.

Lemma succeeding_call (w : W) (cb : CircuitBreaker) :
  (forall w0, exists a, snd (fn w0) = Returned a) ->
  state cb <> OPEN ->
  exists a,
    execute clock fn cb w = (onSuccess cb, fst (fn w), Returned a).
Proof.
  intros Hok Hstate. destruct (Hok w) as (a & Ha). exists a.
  unfold execute, attempt. destruct (fn w) as [w1 settled]. cbn in Ha. subst settled.
  destruct (state cb); try reflexivity. congruence.
Qed.

(** X7: once the timeout has run out, the next call of an open breaker
    goes through to [fn].  When it fails the breaker is open again and the
    cool-down starts over at the time of that failure.  When [fn] succeeds
    from then on, every call goes through and the breaker is closed from the
    call number [successThreshold] on, half-open before. *)
Theorem breaker_probes_after_timeout (w : W) (cb : CircuitBreaker) :
  state cb = OPEN ->
  0 <= timeout (options cb) ->
  timeout (options cb) < clock w - lastFailureTime cb ->
  (forall e, snd (fn w) = Thrown e ->
     let '(cb', w', out) := execute clock fn cb w in
     w' = fst (fn w) /\ out = Thrown e
     /\ state cb' = OPEN /\ lastFailureTime cb' = clock w'
     /\ execute clock fn cb' w' = (cb', w', Thrown (openError cb')))
  /\ ((forall w0, exists a, snd (fn w0) = Returned a) ->
      forall n, (0 < n)%nat ->
      let '(cb', w') := executeAll clock fn n cb w in
      w' = worldAfter fn w n
      /\ state cb' = (if successThreshold (options cb) <=? Z.of_nat n
                      then CLOSED else HALF_OPEN)
      /\ failureTimestamps cb' = []).
Proof.
  intros Hopen Hpos Htimeout. split.
  - intros e He. unfold execute at 1. rewrite Hopen.
    apply Z.ltb_lt in Htimeout. rewrite Htimeout. unfold attempt.
    destruct (fn w) as [w1 settled]. cbn in He. subst settled. cbn [fst].
    split_and!; try reflexivity.
    unfold execute, onFailure. cbn [state options lastFailureTime].
    rewrite Z.sub_diag.
    destruct (Z.ltb_spec (timeout (options cb)) 0); [lia | reflexivity].
  - intros Hok n Hn.
    assert (Hinv : forall k, (0 < k)%nat ->
              exists cb',
                executeAll clock fn k cb w = (cb', worldAfter fn w k)
                /\ options cb' = options cb
                /\ failureTimestamps cb' = []
                /\ ((successThreshold (options cb) <= Z.of_nat k /\ state cb' = CLOSED)
                    \/ (Z.of_nat k < successThreshold (options cb)
                        /\ state cb' = HALF_OPEN /\ successes cb' = Z.of_nat k))).
    { intros k Hk. induction k as [| k IH]; [lia |].
      destruct k as [| k].
      - clear IH. cbn [executeAll]. unfold execute. rewrite Hopen.
        apply Z.ltb_lt in Htimeout. rewrite Htimeout. unfold attempt.
        destruct (Hok w) as (a & Ha). unfold worldAfter, invocation.
        destruct (fn w) as [w1 settled]. cbn in Ha. subst settled.
        eexists. split; [reflexivity |]. unfold onSuccess.
        cbn [state options successes failureTimestamps].
        destruct (Z.leb_spec (successThreshold (options cb)) (0 + 1));
          cbn [state options successes failureTimestamps];
          (split_and!; [reflexivity | reflexivity |]); [left | right];
          split_and!; try reflexivity; lia.
      - destruct (IH ltac:(lia)) as (cb1 & Hrun & Hopt & Hts & Hst).
        change (executeAll clock fn (S (S k)) cb w)
          with (let '(cb1, w1) := executeAll clock fn (S k) cb w in
                let '(cb2, w2, _) := execute clock fn cb1 w1 in (cb2, w2)).
        rewrite Hrun.
        destruct (succeeding_call (worldAfter fn w (S k)) cb1 Hok) as (a & Hcall).
        { destruct Hst as [(_ & ->) | (_ & -> & _)]; discriminate. }
        rewrite Hcall. eexists. split; [reflexivity |].
        clear Hcall Hrun.
        unfold onSuccess. cbn [state options successes failureTimestamps].
        destruct Hst as [(Hthr & Hclosed) | (Hthr & Hhalf & Hsucc)].
        + rewrite Hclosed. cbn [state options successes failureTimestamps].
          split_and!; [exact Hopt | reflexivity |]. left. split; [lia | reflexivity].
        + rewrite Hhalf, Hopt, Hsucc.
          destruct (Z.leb_spec (successThreshold (options cb)) (Z.of_nat (S k) + 1));
            cbn [state options successes failureTimestamps];
            (split_and!; [reflexivity | reflexivity |]); [left | right];
            split_and!; try reflexivity; lia. }
    destruct (Hinv n Hn) as (cb' & -> & _ & Hts & Hst).
    split_and!; [reflexivity | | exact Hts].
    destruct Hst as [(Hthr & ->) | (Hthr & -> & _)];
      destruct (Z.leb_spec (successThreshold (options cb)) (Z.of_nat n));
      try reflexivity; lia.
Qed.

End BreakerWindow.

Lemma breaker_opens_at_threshold_witness :
  let fn : async Z unit := fun t => (t + 1000, Thrown (ThrownError "503")) in
  let '(cb', w') := CircuitBreaker.executeAll (fun t : Z => t) fn 5 closedBreaker 0 in
  w' = 5000
  /\ CircuitBreaker.failureTimestamps cb' = [1000; 2000; 3000; 4000; 5000]
  /\ CircuitBreaker.state cb' = CircuitBreaker.OPEN.
Proof.
  intros fn.
  apply (breaker_opens_at_threshold (fun t : Z => t) fn 0 closedBreaker 5).
  - reflexivity.
  - reflexivity.
  - intros w0. eexists. reflexivity.
  - lia.
  - cbn. lia.
  - cbn. intros t t' Ht Ht'. intuition lia.
Defined.

Lemma breaker_ignores_sparse_failures_witness :
  let fn : async Z unit := fun t => (t + 60000, Thrown (ThrownError "503")) in
  let '(cb', w') := CircuitBreaker.executeAll (fun t : Z => t) fn 3 closedBreaker 0 in
  w' = 180000
  /\ CircuitBreaker.state cb' = CircuitBreaker.CLOSED
  /\ (length (CircuitBreaker.failureTimestamps cb') <= 1)%nat.
Proof.
  intros fn.
  apply (breaker_ignores_sparse_failures (fun t : Z => t) fn 0 closedBreaker 3).
  - reflexivity.
  - reflexivity.
  - cbn. lia.
  - intros w0. eexists. reflexivity.
  - intros i j Hij.
    assert (Hcases : (i = 0 /\ j = 1 \/ i = 0 /\ j = 2 \/ i = 1 /\ j = 2)%nat) by lia.
    destruct Hcases as [[-> ->] | [[-> ->] | [-> ->]]]; cbn; lia.
Defined.

Lemma breaker_probes_after_timeout_witness :
  let fn : async Z unit := fun t => (t + 1, Returned tt) in
  let '(cb', w') :=
    CircuitBreaker.executeAll (fun t : Z => t) fn 2 openedBreaker 301001 in
  w' = 301003
  /\ CircuitBreaker.state cb' = CircuitBreaker.CLOSED
  /\ CircuitBreaker.failureTimestamps cb' = [].
Proof.
  intros fn.
  apply (breaker_probes_after_timeout (fun t : Z => t) fn 301001 openedBreaker).
  - reflexivity.
  - cbn. lia.
  - cbn. lia.
  - intros w0. eexists. reflexivity.
  - lia.
Defined.

Section RetryTime.

Import Retry.

Context {W A : Type}.
Variable fn : async W A.
Variable opts : RetryOptions.
Variable random : nat -> Q.

Lemma sleeps_schedule (first n : nat) :
  sleeps (schedule opts random first n)
  = map (fun k => calculateDelay k opts (random k)) (seq first (n - 1)).
Proof.
  revert first. induction n as [| n IH]; intros first; [reflexivity |].
  cbn [schedule]. destruct n as [| n']; [reflexivity |].
  specialize (IH (S first)). unfold sleeps in *. cbn [omap list_omap] in *.
  cbn. cbn in IH. rewrite IH. rewrite Nat.sub_0_r. reflexivity.
Qed.

Lemma calculateDelay_capped (k : nat) (r : Q) :
  (0 <= maxDelay opts)%Q -> (0 <= r)%Q -> (r < 1)%Q ->
  (calculateDelay k opts r <= (12 # 10) * maxDelay opts)%Q.
Proof.
  intros Hmax Hr0 Hr1. unfold calculateDelay.
  pose proof (Q.le_min_r (baseDelay opts * 2 ^ Z.of_nat k) (maxDelay opts)) as Hmin.
  set (d := Qmin _ _) in *.
  destruct (jitter opts); [| lra].
  destruct (Qlt_le_dec d 0); nra.
Qed.

Lemma total_bounded (l : list Q) (c : Q) :
  (forall x, In x l -> (x <= c)%Q) ->
  (fold_right Qplus 0 l <= c * inject_Z (Z.of_nat (length l)))%Q.
Proof.
  induction l as [| x l IH]; intros H.
  - cbn [fold_right length]. change (inject_Z (Z.of_nat 0)) with 0%Q. lra.
  - cbn [fold_right length]. rewrite Nat2Z.inj_succ. unfold Z.succ.
    rewrite inject_Z_plus.
    specialize (IH ltac:(intros; apply H; right; assumption)).
    specialize (H x ltac:(left; reflexivity)).
    change (inject_Z 1) with 1%Q. lra.
Qed.

(** X8: a run of [retry] sleeps once between two attempts and never after
    the last: it sleeps one time less than it invokes [fn].  With a
    non-negative [maxDelay] and [Math.random()] in [0, 1), each sleep is at
    most [1.2 * maxDelay], and the run sleeps no more than
    [1.2 * maxDelay * (maxAttempts - 1)] milliseconds in all. *)
Theorem retry_sleeps_are_bounded (w : W) :
  (0 <= maxDelay opts)%Q ->
  (forall k, (0 <= random k)%Q /\ (random k < 1)%Q) ->
  let trace := snd (fst (retry fn opts random w)) in
  length (sleeps trace) = (invocations trace - 1)%nat
  /\ (forall ms, In ms (sleeps trace) -> (ms <= (12 # 10) * maxDelay opts)%Q)
  /\ (totalSleep trace
      <= (12 # 10) * maxDelay opts * inject_Z (Z.of_nat (maxAttempts opts - 1)))%Q.
Proof.
  intros Hmax Hrandom. unfold retry.
  pose proof (retryLoop_spec fn opts random (maxAttempts opts) 0 (ThrownValue VUndefined) w
                ltac:(lia)) as Hspec.
  destruct (retryLoop fn opts random (maxAttempts opts) 0 (ThrownValue VUndefined) w [])
    as [[w' trace] result].
  destruct Hspec as (m & Hm & _ & -> & _).
  cbn [fst snd]. rewrite invocations_schedule. unfold totalSleep. rewrite sleeps_schedule.
  assert (Heach : forall ms,
            In ms (map (fun k => calculateDelay k opts (random k)) (seq 0 (m - 1))) ->
            (ms <= (12 # 10) * maxDelay opts)%Q).
  { intros ms Hin. apply in_map_iff in Hin as (k & <- & _).
    destruct (Hrandom k). apply calculateDelay_capped; assumption. }
  split_and!.
  - rewrite length_map, length_seq. reflexivity.
  - exact Heach.
  - eapply Qle_trans; [apply total_bounded, Heach |].
    rewrite length_map, length_seq.
    assert (Hle : (inject_Z (Z.of_nat (m - 1))
                   <= inject_Z (Z.of_nat (maxAttempts opts - 1)))%Q).
    { rewrite <- Zle_Qle. lia. }
    nra.
Qed.

End RetryTime.

Lemma retry_sleeps_are_bounded_witness :
  let trace :=
    snd (fst (Retry.retry alwaysFails threeAttempts (fun _ => 1 # 2) tt)) in
  length (Retry.sleeps trace) = (Retry.invocations trace - 1)%nat
  /\ (forall ms, In ms (Retry.sleeps trace) -> (ms <= (12 # 10) * 60000)%Q)
  /\ (Retry.totalSleep trace <= (12 # 10) * 60000 * inject_Z (Z.of_nat (3 - 1)))%Q.
Proof.
  apply (retry_sleeps_are_bounded alwaysFails threeAttempts (fun _ => 1 # 2) tt).
  - cbn. unfold Qle. cbn. lia.
  - intros k. split; [unfold Qle | unfold Qlt]; cbn; lia.
Defined.

Section Classifier.

Import Orchestrator.

Lemma prefix_app (needle rest : string) : String.prefix needle (needle ++ rest) = true.
Proof.
  induction needle as [| c needle IH].
  - rewrite append_nil. destruct rest; reflexivity.
  - rewrite append_cons. cbn.
    destruct (Ascii.ascii_dec c c) as [_ | Hne]; [exact IH | congruence].
Qed.

Lemma prefix_split (needle s : string) :
  String.prefix needle s = true -> exists post, s = (needle ++ post)%string.
Proof.
  revert s. induction needle as [| c needle IH]; intros s.
  - intros _. exists s. reflexivity.
  - destruct s as [| c' s]; cbn; [discriminate |].
    destruct (Ascii.ascii_dec c c') as [<- | _]; [| discriminate].
    intros Hp. destruct (IH s Hp) as (post & ->). exists post. reflexivity.
Qed.

Lemma includes_here (needle rest : string) : includes (needle ++ rest) needle = true.
Proof.
  pose proof (prefix_app needle rest) as Hp.
  destruct (needle ++ rest)%string; cbn [includes]; rewrite Hp; reflexivity.
Qed.

Lemma includes_self (needle : string) : includes needle needle = true.
Proof.
  pose proof (includes_here needle "") as H. rewrite append_nil_r in H. exact H.
Qed.

Lemma includes_later (pre s needle : string) :
  includes s needle = true -> includes (pre ++ s) needle = true.
Proof.
  intros Hin. induction pre as [| c pre IH]; [exact Hin |].
  rewrite append_cons. cbn [includes].
  destruct (String.prefix needle (String c (pre ++ s))); [reflexivity | exact IH].
Qed.

Lemma includes_split (s needle : string) :
  includes s needle = true -> exists pre post, s = (pre ++ needle ++ post)%string.
Proof.
  induction s as [| c s IH]; cbn [includes].
  - destruct needle; [| discriminate]. intros _. exists "", "". reflexivity.
  - destruct (String.prefix needle (String c s)) eqn:Hp.
    + intros _. apply prefix_split in Hp as (post & ->). exists "", post. reflexivity.
    + intros Hin. destruct (IH Hin) as (pre & post & ->).
      exists (String c pre), post. reflexivity.
Qed.

Lemma includes_iff (s needle : string) :
  includes s needle = true <-> exists pre post, s = (pre ++ needle ++ post)%string.
Proof.
  split; [apply includes_split |].
  intros (pre & post & ->). apply includes_later, includes_here.
Qed.

Lemma includes_within (pre s post needle : string) :
  includes s needle = true -> includes (pre ++ s ++ post) needle = true.
Proof.
  intros Hin. apply includes_iff in Hin as (p & q & ->). apply includes_iff.
  exists (pre ++ p)%string, (q ++ post)%string.
  rewrite !append_assoc. reflexivity.
Qed.

Lemma toLowerCase_app (a b : string) :
  toLowerCase (a ++ b) = (toLowerCase a ++ toLowerCase b)%string.
Proof.
  induction a as [| c a IH]; [reflexivity |].
  rewrite append_cons. cbn [toLowerCase]. rewrite IH. reflexivity.
Qed.

Lemma lowerChar_idem (c : ascii) : lowerChar (lowerChar c) = lowerChar c.
Proof.
  destruct c as [[] [] [] [] [] [] [] []]; reflexivity.
Qed.

Lemma toLowerCase_idem (s : string) : toLowerCase (toLowerCase s) = toLowerCase s.
Proof.
  induction s as [| c s IH]; [reflexivity |].
  cbn [toLowerCase]. rewrite lowerChar_idem, IH. reflexivity.
Qed.

(** X9: [isRetryableError] looks at the message of an [Error] only, and
    without regard to case: a thrown value that is no [Error] is never
    retryable, a message is retryable exactly when its lower-case form is,
    a retryable message stays retryable inside any longer message, and a
    message is retryable exactly when its lower-case form contains one of
    the eight markers. *)
Theorem isRetryableError_reads_the_message (message : string) :
  (forall v, isRetryableError (ThrownValue v) = false)
  /\ isRetryableError (ThrownError (toLowerCase message))
     = isRetryableError (ThrownError message)
  /\ (isRetryableError (ThrownError message) = true ->
      forall before after,
        isRetryableError (ThrownError (before ++ message ++ after)) = true)
  /\ (isRetryableError (ThrownError message) = true <->
      exists before after marker,
        toLowerCase message = (before ++ marker ++ after)%string
        /\ In marker ["econnrefused"; "etimedout"; "enotfound"; "network";
                      "rate limit"; "too many requests"; "503"; "429"]).
Proof.
  split_and!.
  - reflexivity.
  - unfold isRetryableError. rewrite toLowerCase_idem. reflexivity.
  - unfold isRetryableError. intros Hr before after.
    rewrite !toLowerCase_app.
    repeat (apply orb_true_iff in Hr as [Hr | Hr]);
      repeat (apply orb_true_iff; first [right; apply includes_within, Hr | left]);
      apply includes_within, Hr.
  - unfold isRetryableError. split.
    + intros Hr.
      repeat (apply orb_true_iff in Hr as [Hr | Hr]);
        apply includes_iff in Hr as (before & after & Hr);
        eexists before, after, _; (split; [exact Hr |]); cbn; tauto.
    + intros (before & after & marker & Hm & Hin). rewrite Hm.
      cbn [In] in Hin.
      repeat (destruct Hin as [Hin | Hin]); try contradiction; subst marker;
        rewrite (includes_within before _ after _ (includes_self _));
        rewrite ?orb_true_r; reflexivity.
Qed.

End Classifier.

Section Jobs.

Import Metadata Orchestrator.

Variable dateToString : Date -> string.
Variable random : nat -> Q.
Variable sleep : Q -> World -> World.
Variable globals : Worker.Globals.

(** X10: [executeWithRetry] runs the worker under [retry], between one
    and five times, and leaves the world as [retry] leaves it, the sleeps
    between the attempts included.  When [retry] returns, the dead-letter
    queue is as before.  When [retry] throws, the job is added to the
    dead-letter queue and the error is thrown on: the entry carries the
    message of the error, 5 as the number of attempts made whatever their
    number was, and the reason [max_retries] if the error is retryable,
    [non_retryable_error] otherwise.  A retryable last error means that the
    worker ran five times; a first attempt that throws an error that is not
    retryable is the only one. *)
Theorem executeWithRetry_dead_letters (direction : SyncDirection)
    (config : SyncConfig) (worker : async World unit) (s : System) :
  let '(w1, trace, settled) :=
    Retry.retrySleeping sleep worker retryOptions random (fst s) in
  let '(s', out) :=
    executeWithRetry dateToString random sleep direction config worker s in
  fst s' = w1
  /\ (1 <= Retry.invocations trace <= 5)%nat
  /\ match settled with
     | Returned _ => out = Returned tt /\ snd s' = snd s
     | Thrown e =>
         out = Thrown e
         /\ exists entry,
              snd s' = DeadLetterQueue.add entry (snd s)
              /\ DeadLetterQueue.error entry
                 = SheetToDbWorker.errorMessage dateToString e
              /\ DeadLetterQueue.attemptsMade entry = 5
              /\ DeadLetterQueue.failureReason entry
                 = (if isRetryableError e then DeadLetterQueue.max_retries
                    else DeadLetterQueue.non_retryable_error)
              /\ (isRetryableError e = true -> Retry.invocations trace = 5%nat)
              /\ (snd (worker (fst s)) = Thrown e -> isRetryableError e = false ->
                  Retry.invocations trace = 1%nat)
     end.
Proof.
  unfold executeWithRetry, Retry.retrySleeping, Retry.retry.
  pose proof (retryLoop_spec (Retry.afterSleep sleep worker retryOptions random)
                retryOptions random (Retry.maxAttempts retryOptions) 0
                (ThrownValue VUndefined) (fst s, 0%nat) ltac:(lia)) as Hspec.
  unfold bind, onWorld, zoom, read, tryCatch, modify, throw.
  destruct s as [w q]. cbn [fst snd] in *.
  destruct (Retry.retryLoop (Retry.afterSleep sleep worker retryOptions random)
              retryOptions random (Retry.maxAttempts retryOptions) 0
              (ThrownValue VUndefined) (w, 0%nat) []) as [[[w1 attempts] trace] settled].
  destruct Hspec as (m & Hm & Hpos & -> & _ & Hprev & Hres).
  rewrite invocations_schedule. cbn [Retry.maxAttempts retryOptions] in *.
  specialize (Hpos ltac:(lia)).
  destruct settled as [[] | e]; cbn [fst snd].
  - split_and!; try reflexivity; lia.
  - split_and!; try reflexivity; try lia.
    eexists. split; [reflexivity |]. cbn.
    split_and!; try reflexivity.
    + intros Hr. destruct Hres as [(? & ? & _) | (j & -> & Hj & [Hno | Hall])]; try lia.
      unfold Retry.retryable in Hno. cbn in Hno. congruence.
    + intros Hfirst Hno.
      destruct Hres as [(? & ? & _) | (j & -> & Hj & _)]; [lia |].
      destruct j as [| j]; [reflexivity |]. exfalso.
      destruct (Hprev 0%nat ltac:(lia)) as (e' & He' & Hr').
      cbn [invocation Retry.afterSleep] in He'.
      destruct (worker w) as [w0 settled0]. cbn [snd] in *.
      rewrite Hfirst in He'. injection He' as <-.
      unfold Retry.retryable in Hr'. cbn in Hr'. congruence.
Qed.

(** X11: [syncConfigWithRetry] never throws.  When neither direction is
    due it changes nothing.  When the sheet-to-table job is due and ends in
    an error, the cycle stops there: the table-to-sheet job does not run,
    due or not.  When only the table-to-sheet job is due, the cycle leaves
    what that job leaves. *)
Theorem syncConfigWithRetry_never_throws (config : SyncConfig) (s : System) :
  let w := fst s in
  let sheetSyncNeeded :=
    syncNeeded config (now w) (syncState (metadata w) ≫= last_sheet_sync_at) in
  let dbSyncNeeded :=
    syncNeeded config (now w) (syncState (metadata w) ≫= last_db_sync_at) in
  snd (syncConfigWithRetry dateToString random sleep globals config s) = Returned tt
  /\ (sheetSyncNeeded = false -> dbSyncNeeded = false ->
      fst (syncConfigWithRetry dateToString random sleep globals config s) = s)
  /\ (sheetSyncNeeded = true ->
      forall s1 e,
        executeWithRetry dateToString random sleep sheet_to_db config
          (SheetToDbWorker.run dateToString globals config) s = (s1, Thrown e) ->
        fst (syncConfigWithRetry dateToString random sleep globals config s) = s1)
  /\ (sheetSyncNeeded = false -> dbSyncNeeded = true ->
      fst (syncConfigWithRetry dateToString random sleep globals config s)
      = fst (executeWithRetry dateToString random sleep db_to_sheet config
               (DbToSheetWorker.run dateToString globals config) s)).
Proof.
  destruct s as [w q]. cbn [fst].
  unfold syncConfigWithRetry, tryCatch, bind, onWorld, zoom, getSyncState, read, ret.
  cbn [fst snd].
  destruct (syncNeeded config (now w) (syncState (metadata w) ≫= last_sheet_sync_at));
    destruct (syncNeeded config (now w) (syncState (metadata w) ≫= last_db_sync_at));
    cbn [negb andb];
    repeat match goal with
      | |- context [executeWithRetry ?d ?r ?sl ?dir ?c ?wk ?st] =>
          destruct (executeWithRetry d r sl dir c wk st) as [? [[] | ?]]
      end; cbn [fst snd];
    split_and!; try reflexivity; try discriminate; try congruence;
    intros; congruence.
Qed.

End Jobs.

Section WriteMethods.

Import MySQL.
Local Open Scope async_scope.

Lemma quiescent_cases (s : Db) (conns : list Connection) :
  quiescent s -> pool (adapter s) = Some conns ->
  conns = []
  \/ exists rest,
       conns = {| sync_source_tag := None; openTransaction := None; leased := false |}
               :: rest.
Proof.
  intros Hq Hpool. destruct conns as [| [tag tx l] rest]; [left; reflexivity |].
  right. exists rest.
  destruct (Hq _ _ Hpool (or_introl eq_refl)) as (Hl & Ht & Hx). cbn in *.
  subst. reflexivity.
Qed.

Lemma quiescent_fresh (db0 : Database) (table0 : string) (rest : list Connection) :
  quiescent {| database := db0;
               adapter := {| adapterTableName := table0;
                             pool := Some ({| sync_source_tag := None;
                                              openTransaction := None;
                                              leased := false |} :: rest) |} |} ->
  forall db1,
    quiescent {| database := db1;
                 adapter := {| adapterTableName := table0;
                               pool := Some ({| sync_source_tag := None;
                                                openTransaction := None;
                                                leased := false |} :: rest) |} |}.
Proof.
  intros Hq db1 conns c [= <-] Hin. exact (Hq _ c eq_refl Hin).
Qed.

Ltac write_run Hq :=
  unfold bind, tryFinally, getConnection, setSourceTag, onConnection, read, release,
    execute, ret, escapeId, throw;
  cbn -[applyDml];
  repeat match goal with
    | |- context [truthySourceTag ?m] => destruct (truthySourceTag m); cbn -[applyDml]
    | |- context [applyDml ?t ?stmt ?db] =>
        destruct (applyDml t stmt db); cbn -[applyDml]
    end;
  (split_and!; [| eexists; reflexivity | reflexivity | reflexivity]);
  first [ exact (quiescent_fresh _ _ _ Hq _)
        | intros ? ? [= <-] [<- | []]; cbn; auto ].

Lemma update_spec (data whereClause : RowData) (metadata : option WriteMetadata)
    (s : Db) :
  is_Some (pool (adapter s)) -> quiescent s ->
  wrote (truthySourceTag metadata)
    (UpdateWhere (adapterTableName (adapter s)) data whereClause) s
    (update data whereClause metadata s).
Proof.
  intros (conns & Hpool) Hq. unfold wrote.
  destruct s as [db0 [table0 pool0]]. cbn in Hpool. subst pool0.
  destruct (quiescent_cases _ conns Hq eq_refl) as [-> | (rest & ->)];
    unfold update; write_run Hq.
Qed.

Lemma delete_spec (whereClause : RowData) (metadata : option WriteMetadata) (s : Db) :
  is_Some (pool (adapter s)) -> quiescent s ->
  wrote (truthySourceTag metadata)
    (DeleteWhere (adapterTableName (adapter s)) whereClause) s
    (delete whereClause metadata s).
Proof.
  intros (conns & Hpool) Hq. unfold wrote.
  destruct s as [db0 [table0 pool0]]. cbn in Hpool. subst pool0.
  destruct (quiescent_cases _ conns Hq eq_refl) as [-> | (rest & ->)];
    unfold delete; write_run Hq.
Qed.

Lemma insert_spec (table : string) (data : RowData) (metadata : option WriteMetadata)
    (s : Db) :
  is_Some (pool (adapter s)) -> quiescent s ->
  wrote (truthySourceTag metadata) (InsertOnDuplicateKeyUpdate table data) s
    (insert (VStr table) data metadata s).
Proof.
  intros (conns & Hpool) Hq. unfold wrote.
  destruct s as [db0 [table0 pool0]]. cbn in Hpool. subst pool0.
  destruct (quiescent_cases _ conns Hq eq_refl) as [-> | (rest & ->)];
    unfold insert; write_run Hq.
Qed.

Lemma insert_not_a_table (tableName : value) (data : RowData)
    (metadata : option WriteMetadata) (s : Db) :
  is_Some (pool (adapter s)) -> quiescent s ->
  (forall text, tableName <> VStr text) ->
  quiescent (fst (insert tableName data metadata s))
  /\ snd (insert tableName data metadata s)
     = Thrown (ThrownError "identifier.replace is not a function")
  /\ database (fst (insert tableName data metadata s)) = database s.
Proof.
  intros (conns & Hpool) Hq Hnot.
  destruct s as [db0 [table0 pool0]]. cbn in Hpool. subst pool0.
  destruct (quiescent_cases _ conns Hq eq_refl) as [-> | (rest & ->)];
    unfold insert, bind, tryFinally, getConnection, setSourceTag, onConnection, read,
      release, execute, ret, escapeId, throw;
    cbn -[applyDml];
    destruct (truthySourceTag metadata); cbn -[applyDml];
    (destruct tableName; try (exfalso; eapply Hnot; reflexivity));
    cbn -[applyDml];
    (split_and!; [| reflexivity | reflexivity]);
    first [ exact (quiescent_fresh _ _ _ Hq _)
          | intros ? ? [= <-] [<- | []]; cbn; auto ].
Qed.

(** X12: on a connected adapter whose connections are all at rest, each
    write method sends one statement, under the session tag its metadata
    carries if any, and lets it commit at once; the table and the change log
    are then as the server leaves them, or untouched when the server refuses
    the statement and the call throws.  Whatever the outcome the connection
    is given back with its tag reset.  [insert] with a table name that is
    not a string throws before any statement is sent. *)
Theorem write_methods_send_one_statement (s : Db) :
  is_Some (pool (adapter s)) ->
  quiescent s ->
  (forall data whereClause metadata,
      wrote (truthySourceTag metadata)
        (UpdateWhere (adapterTableName (adapter s)) data whereClause) s
        (update data whereClause metadata s))
  /\ (forall whereClause metadata,
        wrote (truthySourceTag metadata)
          (DeleteWhere (adapterTableName (adapter s)) whereClause) s
          (delete whereClause metadata s))
  /\ (forall table data metadata,
        wrote (truthySourceTag metadata) (InsertOnDuplicateKeyUpdate table data) s
          (insert (VStr table) data metadata s))
  /\ (forall tableName data metadata,
        (forall text, tableName <> VStr text) ->
        quiescent (fst (insert tableName data metadata s))
        /\ snd (insert tableName data metadata s)
           = Thrown (ThrownError "identifier.replace is not a function")
        /\ database (fst (insert tableName data metadata s)) = database s).
Proof.
  intros Hpool Hq. split_and!; intros.
  - apply update_spec; assumption.
  - apply delete_spec; assumption.
  - apply insert_spec; assumption.
  - apply insert_not_a_table; assumption.
Qed.

Lemma execute_in_transaction (stmt : Dml) (pending : list (option string * Dml))
    (rest : list Connection) (db : Database) (table : string) :
  let state pending :=
    {| database := db;
       adapter :=
         {| adapterTableName := table;
            pool := Some ({| sync_source_tag := None;
                             openTransaction := Some pending;
                             leased := true |} :: rest) |} |} in
  execute 0 stmt (state pending)
  = match applyDml None stmt db with
    | Some _ => (state (pending ++ [(None, stmt)]), Returned tt)
    | None => (state pending, Thrown (ThrownError "statement refused by the server"))
    end.
Proof.
  unfold execute. cbn -[applyDml]. destruct (applyDml None stmt db); reflexivity.
Qed.

Lemma forEach_in_transaction (stmts : list Dml) (pending : list (option string * Dml))
    (rest : list Connection) (db : Database) (table : string) :
  let state pending :=
    {| database := db;
       adapter :=
         {| adapterTableName := table;
            pool := Some ({| sync_source_tag := None;
                             openTransaction := Some pending;
                             leased := true |} :: rest) |} |} in
  let accepted stmt :=
    match applyDml None stmt db with Some _ => true | None => false end in
  if forallb accepted stmts
  then forEach stmts (execute 0) (state pending)
       = (state (pending ++ map (pair None) stmts), Returned tt)
  else exists pending',
         forEach stmts (execute 0) (state pending)
         = (state pending', Thrown (ThrownError "statement refused by the server")).
Proof.
  cbn zeta. revert pending.
  induction stmts as [| stmt stmts IH]; intros pending; cbn [forallb forEach map].
  - rewrite app_nil_r. reflexivity.
  - unfold bind. rewrite (execute_in_transaction stmt pending rest db table).
    destruct (applyDml None stmt db) as [db' |] eqn:Happly; cbn [andb].
    + specialize (IH (pending ++ [(None, stmt)])).
      destruct (forallb _ stmts).
      * rewrite IH, <- app_assoc. reflexivity.
      * destruct IH as (pending' & ->). exists pending'. reflexivity.
    + exists pending. reflexivity.
Qed.

Lemma transaction_begins {A : Type} (callback : nat -> async Db A) (db : Database)
    (table : string) (conns rest : list Connection) :
  (conns = [] /\ rest = []
   \/ conns = {| sync_source_tag := None; openTransaction := None; leased := false |}
              :: rest) ->
  transaction callback
    {| database := db; adapter := {| adapterTableName := table; pool := Some conns |} |}
  = tryFinally
      (tryCatch
         (result <- callback 0%nat ;; commit 0 ;; ret result)
         (fun error => rollback 0 ;; throw error))
      (release 0)
      {| database := db;
         adapter :=
           {| adapterTableName := table;
              pool := Some ({| sync_source_tag := None;
                               openTransaction := Some [];
                               leased := true |} :: rest) |} |}.
Proof.
  intros [(-> & ->) | ->]; reflexivity.
Qed.

(** X13: a callback that runs its statements on the connection that
    [transaction] hands it gets all or nothing.  When the server accepts
    every statement, [transaction] returns and the table and the change log
    are as after the statements in order, without a session tag; when it
    refuses one, [transaction] throws that refusal and the table and the
    change log are untouched.  Either way the connection is given back with
    no transaction open. *)
Theorem transaction_is_all_or_nothing (stmts : list Dml) (s : Db) :
  is_Some (pool (adapter s)) ->
  quiescent s ->
  let result :=
    transaction (fun connection => forEach stmts (execute connection)) s in
  let accepted stmt :=
    match applyDml None stmt (database s) with Some _ => true | None => false end in
  quiescent (fst result)
  /\ is_Some (pool (adapter (fst result)))
  /\ if forallb accepted stmts
     then snd result = Returned tt
          /\ database (fst result) = applyAll (map (pair None) stmts) (database s)
     else snd result = Thrown (ThrownError "statement refused by the server")
          /\ database (fst result) = database s.
Proof.
  intros (conns & Hpool) Hq. cbn zeta.
  destruct s as [db0 [table0 pool0]]. cbn in Hpool. subst pool0.
  cbn [database adapter].
  assert (Hstart : exists rest,
            (conns = [] /\ rest = []
             \/ conns = {| sync_source_tag := None; openTransaction := None;
                           leased := false |} :: rest)).
  { destruct (quiescent_cases _ conns Hq eq_refl) as [-> | (rest & ->)];
      eexists; [left; split; reflexivity | right; reflexivity]. }
  destruct Hstart as (rest & Hstart).
  rewrite (transaction_begins _ db0 table0 conns rest Hstart).
  pose proof (forEach_in_transaction stmts [] rest db0 table0) as Hloop.
  cbn zeta in Hloop.
  destruct (forallb _ stmts).
  - assert (Hrun :
      tryFinally
        (tryCatch
           (result <- forEach stmts (execute 0) ;; commit 0 ;; ret result)
           (fun error => rollback 0 ;; throw error))
        (release 0)
        {| database := db0;
           adapter :=
             {| adapterTableName := table0;
                pool := Some ({| sync_source_tag := None;
                                 openTransaction := Some [];
                                 leased := true |} :: rest) |} |}
      = ({| database := applyAll (map (pair None) stmts) db0;
            adapter :=
              {| adapterTableName := table0;
                 pool := Some ({| sync_source_tag := None;
                                  openTransaction := None;
                                  leased := false |} :: rest) |} |},
         Returned tt)).
    { unfold tryFinally, tryCatch, bind. rewrite Hloop. reflexivity. }
    rewrite Hrun. cbn [fst snd database adapter pool].
    split_and!; [| eexists; reflexivity | reflexivity | reflexivity].
    destruct Hstart as [(-> & ->) | ->].
    + intros ? ? [= <-] [<- | []]; cbn; auto.
    + exact (quiescent_fresh _ _ _ Hq _).
  - destruct Hloop as (pending' & Hloop).
    assert (Hrun :
      tryFinally
        (tryCatch
           (result <- forEach stmts (execute 0) ;; commit 0 ;; ret result)
           (fun error => rollback 0 ;; throw error))
        (release 0)
        {| database := db0;
           adapter :=
             {| adapterTableName := table0;
                pool := Some ({| sync_source_tag := None;
                                 openTransaction := Some [];
                                 leased := true |} :: rest) |} |}
      = ({| database := db0;
            adapter :=
              {| adapterTableName := table0;
                 pool := Some ({| sync_source_tag := None;
                                  openTransaction := None;
                                  leased := false |} :: rest) |} |},
         Thrown (ThrownError "statement refused by the server"))).
    { unfold tryFinally, tryCatch, bind. rewrite Hloop. reflexivity. }
    rewrite Hrun. cbn [fst snd database adapter pool].
    split_and!; [| eexists; reflexivity | reflexivity | reflexivity].
    destruct Hstart as [(-> & ->) | ->].
    + intros ? ? [= <-] [<- | []]; cbn; auto.
    + exact Hq.
Qed.

End WriteMethods.

Lemma write_methods_send_one_statement_witness :
  let s := usersWithLog [] in
  let renamed := [("name", VStr "B")] in
  let row1 := [("id", VStr "1")] in
  MySQL.wrote None (MySQL.UpdateWhere "users" renamed row1) s
    (MySQL.update renamed row1 None s)
  /\ MySQL.wrote (Some "from_sheet") (MySQL.DeleteWhere "users" row1) s
       (MySQL.delete row1
          (Some {| MySQL.sourceTag := Some "from_sheet"; MySQL.operationId := None |})
          s).
Proof.
  intros s renamed row1.
  assert (Hpool : is_Some (MySQL.pool (MySQL.adapter s))) by (eexists; reflexivity).
  assert (Hrest : MySQL.quiescent s) by (intros conns c [= <-] []).
  pose proof (write_methods_send_one_statement s Hpool Hrest) as (Hupdate & Hdelete & _).
  split.
  - exact (Hupdate renamed row1 None).
  - exact (Hdelete row1
             (Some {| MySQL.sourceTag := Some "from_sheet";
                      MySQL.operationId := None |})).
Defined.

Lemma transaction_is_all_or_nothing_witness :
  let s := usersWithLog [] in
  let stmts :=
    [MySQL.UpdateWhere "users" [("name", VStr "B")] [("id", VStr "1")];
     MySQL.UpdateWhere "users" [("nickname", VStr "b")] [("id", VStr "1")]] in
  let result :=
    MySQL.transaction (fun connection => forEach stmts (MySQL.execute connection)) s in
  snd result = Thrown (ThrownError "statement refused by the server")
  /\ MySQL.database (fst result) = MySQL.database s.
Proof.
  intros s stmts result.
  assert (Hpool : is_Some (MySQL.pool (MySQL.adapter s))) by (eexists; reflexivity).
  assert (Hrest : MySQL.quiescent s) by (intros conns c [= <-] []).
  pose proof (transaction_is_all_or_nothing stmts s Hpool Hrest) as (_ & _ & Hall).
  exact Hall.
Defined.

Section MetadataWalk.

Import Metadata Worker.
Local Open Scope async_scope.

Variable dateToString : Date -> string.
Variable globals : Globals.
Variable config : SyncConfig.
Variable R : World -> World -> Prop.
Variable historyId : nat.

Hypothesis R_refl : forall w, R w w.
Hypothesis R_trans : forall w1 w2 w3, R w1 w2 -> R w2 w3 -> R w1 w3.
Hypothesis R_frame : forall w w', metadata w' = metadata w -> R w w'.
Hypothesis R_finished : forall note w,
  R w (fst (updateSyncHistory historyId (finished success note) w)).
Hypothesis R_succeeded : forall rows conflictCount w,
  R w (fst (updateSyncHistory historyId (succeeded rows conflictCount) w)).
Hypothesis R_conflict : forall c w, R w (fst (createConflict c w)).

Abbreviation Always := (fun _ : World => True).

Lemma Run_frame {A : Type} (m : async World A) :
  (forall w, metadata (fst (m w)) = metadata w) -> Run Always R m.
Proof. intros Hm w _. split; [exact I | apply R_frame, Hm]. Qed.

Lemma Run_step {A : Type} (m : async World A) :
  (forall w, R w (fst (m w))) -> Run Always R m.
Proof. intros Hm w _. split; [exact I | apply Hm]. Qed.

Lemma onDb_metadata {A : Type} (m : async MySQL.Db A) (w : World) :
  metadata (fst (onDb m w)) = metadata w.
Proof. unfold onDb, zoom. destruct (m (db w)). reflexivity. Qed.

Lemma onSheet_metadata {A : Type} (m : async Sheets.Spreadsheet A) (w : World) :
  metadata (fst (onSheet m w)) = metadata w.
Proof. unfold onSheet, zoom. destruct (m (spreadsheet w)). reflexivity. Qed.

Ltac frame :=
  first [ apply Run_referTo; [exact R_refl |]
        | unfold DbToSheetWorker.onAdapter; apply Run_referTo; [exact R_refl |]
        | idtac ];
  apply Run_frame; intros ?;
  first [ apply onDb_metadata | apply onSheet_metadata | reflexivity ].

Ltac walk :=
  repeat first
    [ apply (Run_bind _ _ R_trans); [| intros ?]
    | apply Run_ret, R_refl
    | apply Run_throw, R_refl
    | frame
    | apply Run_step; intros ?;
      first [apply R_finished | apply R_succeeded | apply R_conflict] ].

Lemma Run_sheetToDb_sync_metadata :
  (forall timestamp etag w,
      R w (fst (upsertSyncState
                  {| last_sheet_sync_at := Some timestamp; last_db_sync_at := None;
                     sheet_etag := etag; db_last_change_id := None |} w))) ->
  Run Always R (SheetToDbWorker.sync dateToString globals config historyId).
Proof.
  intros R_upsert.
  unfold SheetToDbWorker.sync.
  apply (Run_bind _ _ R_trans); [frame |]. intros _.
  apply (Run_bind _ _ R_trans); [frame |]. intros syncState.
  apply (Run_bind _ _ R_trans); [frame |]. intros sheetData.
  destruct (Sheets.notModified sheetData); [walk |].
  cbv zeta.
  apply (Run_bind _ _ R_trans); [frame |]. intros dbRows.
  set (changes := detect dateToString _ _ dbRows).
  assert (Hrest :
    Run Always R
      (bind (SheetToDbWorker.detectConflicts changes (syncState ≫= last_db_sync_at))
         (SheetToDbWorker.resolveAndApply dateToString config historyId sheetData
            changes))).
  { apply (Run_bind _ _ R_trans); [frame |]. intros conflicts.
    unfold SheetToDbWorker.resolveAndApply. cbv zeta.
    apply (Run_bind _ _ R_trans).
    { unfold SheetToDbWorker.logConflicts.
      apply (Run_forEach _ _ R_refl R_trans). intros resolved _.
      destruct (List.find _ _); walk. }
    intros _.
    apply (Run_bind _ _ R_trans); [frame |]. intros operationId.
    apply (Run_bind _ _ R_trans); [frame |]. intros alreadyProcessed.
    destruct alreadyProcessed; [walk |].
    apply (Run_bind _ _ R_trans); [frame |]. intros rowsAffected.
    apply (Run_bind _ _ R_trans); [frame |]. intros _.
    apply (Run_bind _ _ R_trans); [frame |]. intros timestamp.
    apply (Run_bind _ _ R_trans); [apply Run_step; intros ?; apply R_upsert |].
    intros _. walk. }
  destruct (inserts changes), (updates changes), (deletes changes);
    first [exact Hrest | walk].
Qed.

Lemma Run_dbToSheet_sync_metadata :
  (forall timestamp changeId w,
      R w (fst (upsertSyncState
                  {| last_sheet_sync_at := None; last_db_sync_at := Some timestamp;
                     sheet_etag := None; db_last_change_id := changeId |} w))) ->
  Run Always R (DbToSheetWorker.sync dateToString globals config historyId).
Proof.
  intros R_upsert.
  unfold DbToSheetWorker.sync.
  apply (Run_bind _ _ R_trans); [frame |]. intros _.
  apply (Run_bind _ _ R_trans); [frame |]. intros changeLogEntries.
  destruct changeLogEntries as [| entry rest]; [walk |].
  apply (Run_bind _ _ R_trans); [frame |]. intros sheetData.
  cbv zeta.
  apply (Run_bind _ _ R_trans); [frame |]. intros operationId.
  apply (Run_bind _ _ R_trans); [frame |]. intros alreadyProcessed.
  destruct alreadyProcessed; [walk |].
  apply (Run_bind _ _ R_trans);
    [destruct (DbToSheetWorker.batchUpdates _); [apply Run_ret, R_refl | frame] |].
  intros _.
  apply (Run_bind _ _ R_trans);
    [destruct (DbToSheetWorker.rowsToAppend _); [apply Run_ret, R_refl | frame] |].
  intros _.
  apply (Run_bind _ _ R_trans); [frame |]. intros _.
  apply (Run_bind _ _ R_trans); [frame |]. intros _.
  apply (Run_bind _ _ R_trans); [frame |]. intros timestamp.
  apply (Run_bind _ _ R_trans); [apply Run_step; intros ?; apply R_upsert |].
  intros _. walk.
Qed.

End MetadataWalk.

Section SyncStateSides.

Import Metadata Worker.
Local Open Scope async_scope.

Variable dateToString : Date -> string.
Variable globals : Globals.
Variable config : SyncConfig.

Lemma run_keeps (R : World -> World -> Prop) (dir : SyncDirection)
    (sync : nat -> async World unit) (message : thrown -> string) :
  (forall w, R w w) ->
  (forall w1 w2 w3, R w1 w2 -> R w2 w3 -> R w1 w3) ->
  (forall w w', syncState (metadata w') = syncState (metadata w) -> R w w') ->
  (forall historyId, Run (fun _ => True) R (sync historyId)) ->
  Run (fun _ => True) R
    ((newAdapter config ;;
      correlationId <- uuidv4 ;;
      referTo (createChildLogger globals) "createChildLogger" (ret correlationId)) ;;
     syncId <- uuidv4 ;;
     historyId <-
       createSyncHistory
         {| direction := dir; rows_affected := 0; conflicts_detected := 0;
            status := running; error_message := None; history_note := None |} ;;
     tryFinally
       (tryCatch
          (sync historyId)
          (fun error =>
             updateSyncHistory historyId (failedWith (message error)) ;;
             throw error))
       (onDb MySQL.close)).
Proof.
  intros R_refl R_trans R_state Hsync.
  assert (Hsame : forall A (m : async World A),
            (forall w, syncState (metadata (fst (m w))) = syncState (metadata w)) ->
            Run (fun _ => True) R m).
  { intros A m Hm w _. split; [exact I | apply R_state, Hm]. }
  apply (Run_bind _ _ R_trans).
  { apply (Run_bind _ _ R_trans); [apply Hsame; reflexivity |]. intros _.
    apply (Run_bind _ _ R_trans); [apply Hsame; reflexivity |]. intros correlationId.
    apply Run_referTo; [exact R_refl | apply Run_ret, R_refl]. }
  intros _.
  apply (Run_bind _ _ R_trans); [apply Hsame; reflexivity |]. intros syncId.
  apply (Run_bind _ _ R_trans); [apply Hsame; reflexivity |]. intros historyId.
  apply (Run_tryFinally _ _ R_trans).
  - apply (Run_tryCatch _ _ R_trans); [apply Hsync |]. intros error.
    apply (Run_bind _ _ R_trans); [apply Hsame; reflexivity |]. intros _.
    apply Run_throw, R_refl.
  - apply Hsame. intros w. rewrite onDb_metadata. reflexivity.
Qed.

(** X15: a run of the sheet-to-table worker leaves the table side of the
    sync state as it is, and a run of the table-to-sheet worker the sheet
    side: neither worker moves the other's time stamp, ETag or last change
    id, whatever the outcome of the run and whatever the global object
    binds. *)
Theorem each_worker_keeps_the_other_side (w : World) :
  tableSideKept w (fst (SheetToDbWorker.run dateToString globals config w))
  /\ sheetSideKept w (fst (DbToSheetWorker.run dateToString globals config w)).
Proof.
  split.
  - refine (proj2 (run_keeps tableSideKept sheet_to_db
                     (SheetToDbWorker.sync dateToString globals config)
                     (SheetToDbWorker.errorMessage dateToString) _ _ _ _ w I)).
    + intros w0. split; reflexivity.
    + intros w1 w2 w3 [H1 H2] [H3 H4]. split; congruence.
    + intros w0 w' Hs. unfold tableSideKept. rewrite Hs. split; reflexivity.
    + intros historyId. apply Run_sheetToDb_sync_metadata.
      * intros w0. split; reflexivity.
      * intros w1 w2 w3 [H1 H2] [H3 H4]. split; congruence.
      * intros w0 w' Hm. unfold tableSideKept. rewrite Hm. split; reflexivity.
      * intros note w0. split; reflexivity.
      * intros rows c w0. split; reflexivity.
      * intros c w0. split; reflexivity.
      * intros timestamp etag w0. unfold tableSideKept. cbn.
        destruct (syncState (metadata w0)); split; reflexivity.
  - refine (proj2 (run_keeps sheetSideKept db_to_sheet
                     (DbToSheetWorker.sync dateToString globals config)
                     (DbToSheetWorker.errorMessage dateToString) _ _ _ _ w I)).
    + intros w0. split; reflexivity.
    + intros w1 w2 w3 [H1 H2] [H3 H4]. split; congruence.
    + intros w0 w' Hs. unfold sheetSideKept. rewrite Hs. split; reflexivity.
    + intros historyId. apply Run_dbToSheet_sync_metadata.
      * intros w0. split; reflexivity.
      * intros w1 w2 w3 [H1 H2] [H3 H4]. split; congruence.
      * intros w0 w' Hm. unfold sheetSideKept. rewrite Hm. split; reflexivity.
      * intros note w0. split; reflexivity.
      * intros rows c w0. split; reflexivity.
      * intros timestamp changeId w0. unfold sheetSideKept. cbn.
        destruct (syncState (metadata w0)); split; reflexivity.
Qed.

End SyncStateSides.

Section NothingToDo.

Import Metadata Worker.

Variable dateToString : Date -> string.
Variable globals : Globals.
Variable config : SyncConfig.

(** The history row of a sheet-to-table run that found nothing to do. *)
Abbreviation quietRow note :=
  {| direction := sheet_to_db; rows_affected := 0; conflicts_detected := 0;
     status := success; error_message := None; history_note := Some note |}.

(** X16: a sheet-to-table run that finds nothing to do writes nothing.
    When the stored ETag is the one the sheet still has, or when the
    detector finds no insert, update or delete between the rows the service
    answers with and the table, the run leaves the table, the change log,
    the sheet, the sync state and the set of processed operations as before,
    whatever the global object binds: the sync state is not even stamped.
    With the two free names bound the run returns, and all that it leaves is
    one history row, successful, with no row affected and a note that tells
    the two cases apart. *)
Theorem sheetToDb_without_changes_writes_nothing (w : World) :
  Sheets.online (spreadsheet w) = true ->
  let stored := syncState (metadata w) ≫= sheet_etag in
  let sheetRows :=
    convertSheetDataToRows config
      (Sheets.valuesOf (sheetRange config) (spreadsheet w)) in
  let changes :=
    detect dateToString (SheetToDbWorker.changeDetectorOptions config) sheetRows
      (MySQL.rows (MySQL.database (db w))) in
  let unchanged note :=
    let '(w', settled) := SheetToDbWorker.run dateToString globals config w in
    MySQL.database (db w') = MySQL.database (db w)
    /\ spreadsheet w' = spreadsheet w
    /\ syncState (metadata w') = syncState (metadata w)
    /\ processedOperations w' = processedOperations w
    /\ (createChildLogger globals = Bound -> googleSheetsAdapter globals = Bound ->
        settled = Returned tt
        /\ history (metadata w') = history (metadata w) ++ [quietRow note]) in
  (stored = Some (Sheets.currentEtag (spreadsheet w)) ->
   Sheets.currentEtag (spreadsheet w) <> "" ->
   unchanged "No changes detected (ETag match)")
  /\ (stored <> Some (Sheets.currentEtag (spreadsheet w)) ->
      db_table_name config = MySQL.tableName (MySQL.database (db w)) ->
      changes = {| inserts := []; updates := []; deletes := [] |} ->
      unchanged "No changes detected").
Proof.
  intros Honline. cbn zeta.
  destruct (createChildLogger globals) eqn:Hlogger.
  { rewrite sheetToDb_run_unbound by exact Hlogger.
    split; intros; split_and!; try reflexivity; discriminate. }
  destruct (googleSheetsAdapter globals) eqn:Hadapter.
  { assert (Hrun : forall w0,
              let '(w', _) := SheetToDbWorker.run dateToString globals config w0 in
              MySQL.database (db w') = MySQL.database (db w0)
              /\ spreadsheet w' = spreadsheet w0
              /\ syncState (metadata w') = syncState (metadata w0)
              /\ processedOperations w' = processedOperations w0).
    { intros w0.
      unfold SheetToDbWorker.run, SheetToDbWorker.new, SheetToDbWorker.execute,
        SheetToDbWorker.sync.
      rewrite Hlogger, Hadapter.
      unfold referTo, bind, tryFinally, tryCatch, newAdapter, uuidv4,
        createSyncHistory, onDb, zoom, modify, MySQL.connect, read, getSyncState,
        updateSyncHistory, throw, ret, MySQL.close, modify.
      cbn. split_and!; reflexivity. }
    specialize (Hrun w).
    destruct (SheetToDbWorker.run dateToString globals config w) as [w' settled].
    destruct Hrun as (H1 & H2 & H3 & H4).
    split; intros; split_and!; try assumption; discriminate. }
  destruct w as [[database0 adapter0] [cells0 ranges0 version0 online0]
                 [state0 history0 conflicts0] operations0 uuids0 now0].
  cbn [db spreadsheet metadata processedOperations uuids now MySQL.database
       Sheets.cells Sheets.online history syncState] in *.
  subst online0.
  split.
  - intros Hstored Hetag.
    unfold SheetToDbWorker.run, SheetToDbWorker.new, SheetToDbWorker.execute,
      SheetToDbWorker.sync.
    rewrite Hlogger, Hadapter.
    unfold referTo, bind, tryFinally, tryCatch, newAdapter, uuidv4, createSyncHistory,
      onDb, onSheet, zoom, modify, MySQL.connect, read, getSyncState, Sheets.getRange,
      withDb, withMetadata, withSpreadsheet, MySQL.withPool, ret.
    cbn -[Sheets.currentEtag pretty Sheets.valuesOf sheetRange].
    rewrite Hstored.
    destruct (String.eqb_spec
                (Sheets.currentEtag
                   {| Sheets.cells := cells0; Sheets.ranges := ranges0;
                      Sheets.version := version0;
                      Sheets.online := true |}) "") as [He | _]; [contradiction |].
    rewrite String.eqb_refl.
    cbn -[Sheets.currentEtag pretty].
    split_and!; try reflexivity. intros _ _.
    split_and!; try reflexivity.
    rewrite alter_app_r_alt by lia. rewrite Nat.sub_diag. reflexivity.
  - intros Hstored Htable Hchanges.
    unfold SheetToDbWorker.run, SheetToDbWorker.new, SheetToDbWorker.execute,
      SheetToDbWorker.sync.
    rewrite Hlogger, Hadapter.
    unfold referTo, bind, tryFinally, tryCatch, newAdapter, uuidv4, createSyncHistory,
      onDb, onSheet, zoom, modify, MySQL.connect, read, getSyncState, Sheets.getRange,
      MySQL.select, MySQL.ensureConnected, bind,
      withDb, withMetadata, withSpreadsheet, MySQL.withPool, ret.
    cbn -[Sheets.currentEtag pretty detect convertSheetDataToRows String.eqb
          Sheets.valuesOf sheetRange].
    assert (Hsel : String.eqb (db_table_name config) (MySQL.tableName database0) = true)
      by (apply String.eqb_eq; exact Htable).
    assert (Hall : List.filter (MySQL.matches []) (MySQL.rows database0)
                   = MySQL.rows database0)
      by (apply forallb_filter_id, forallb_forall; reflexivity).
    destruct (state0 ≫= sheet_etag) as [tag |] eqn:Htag.
    + destruct (String.eqb tag "").
      * cbn -[Sheets.currentEtag pretty detect convertSheetDataToRows String.eqb
              Sheets.valuesOf sheetRange].
        rewrite Hsel.
        cbn -[Sheets.currentEtag pretty detect convertSheetDataToRows String.eqb
              Sheets.valuesOf sheetRange].
        rewrite Hall, Hchanges.
        cbn -[Sheets.currentEtag pretty].
        split_and!; try reflexivity. intros _ _.
        split_and!; try reflexivity.
        rewrite alter_app_r_alt by lia. rewrite Nat.sub_diag. reflexivity.
      * destruct (String.eqb_spec tag
                    (Sheets.currentEtag
                       {| Sheets.cells := cells0; Sheets.ranges := ranges0;
                          Sheets.version := version0;
                          Sheets.online := true |})) as [-> | _];
          [exfalso; apply Hstored; reflexivity |].
        cbn -[Sheets.currentEtag pretty detect convertSheetDataToRows String.eqb
              Sheets.valuesOf sheetRange].
        rewrite Hsel.
        cbn -[Sheets.currentEtag pretty detect convertSheetDataToRows String.eqb
              Sheets.valuesOf sheetRange].
        rewrite Hall, Hchanges.
        cbn -[Sheets.currentEtag pretty].
        split_and!; try reflexivity. intros _ _.
        split_and!; try reflexivity.
        rewrite alter_app_r_alt by lia. rewrite Nat.sub_diag. reflexivity.
    + cbn -[Sheets.currentEtag pretty detect convertSheetDataToRows String.eqb
            Sheets.valuesOf sheetRange].
      rewrite Hsel.
      cbn -[Sheets.currentEtag pretty detect convertSheetDataToRows String.eqb
            Sheets.valuesOf sheetRange].
      rewrite Hall, Hchanges.
      cbn -[Sheets.currentEtag pretty].
      split_and!; try reflexivity. intros _ _.
      split_and!; try reflexivity.
      rewrite alter_app_r_alt by lia. rewrite Nat.sub_diag. reflexivity.
Qed.

End NothingToDo.

(** Sheet and table agree: as the program is, the run stops in the
    constructor and writes nothing; with the two names bound it returns and
    leaves its one history row. *)
Lemma sheetToDb_without_changes_writes_nothing_witness :
  (let '(w', settled) :=
     SheetToDbWorker.run isoDate Worker.programGlobals usersConfig agreeingWorld in
   settled = Thrown (ThrownError "createChildLogger is not defined")
   /\ MySQL.database (Metadata.db w') = MySQL.database (Metadata.db agreeingWorld)
   /\ Metadata.spreadsheet w' = Metadata.spreadsheet agreeingWorld)
  /\ let '(w', settled) :=
       SheetToDbWorker.run isoDate suppliedGlobals usersConfig agreeingWorld in
     settled = Returned tt
     /\ MySQL.database (Metadata.db w') = MySQL.database (Metadata.db agreeingWorld)
     /\ Metadata.spreadsheet w' = Metadata.spreadsheet agreeingWorld
     /\ Metadata.syncState (Metadata.metadata w')
        = Metadata.syncState (Metadata.metadata agreeingWorld)
     /\ Metadata.processedOperations w'
        = Metadata.processedOperations agreeingWorld
     /\ Metadata.history (Metadata.metadata w')
        = Metadata.history (Metadata.metadata agreeingWorld)
          ++ [{| Metadata.direction := Metadata.sheet_to_db;
                 Metadata.rows_affected := 0;
                 Metadata.conflicts_detected := 0;
                 Metadata.status := Metadata.success;
                 Metadata.error_message := None;
                 Metadata.history_note := Some "No changes detected" |}].
Proof.
  assert (Honline : Sheets.online (Metadata.spreadsheet agreeingWorld) = true)
    by reflexivity.
  assert (Hstored : Metadata.syncState (Metadata.metadata agreeingWorld)
                    ≫= Metadata.sheet_etag
                    <> Some (Sheets.currentEtag (Metadata.spreadsheet agreeingWorld)))
    by discriminate.
  assert (Htable : Metadata.db_table_name usersConfig
                   = MySQL.tableName (MySQL.database (Metadata.db agreeingWorld)))
    by reflexivity.
  assert (Hchanges :
            detect isoDate (SheetToDbWorker.changeDetectorOptions usersConfig)
              (Worker.convertSheetDataToRows usersConfig
                 (Sheets.valuesOf (Worker.sheetRange usersConfig)
                    (Metadata.spreadsheet agreeingWorld)))
              (MySQL.rows (MySQL.database (Metadata.db agreeingWorld)))
            = {| inserts := []; updates := []; deletes := [] |})
    by (vm_compute; reflexivity).
  split.
  - pose proof (sheetToDb_without_changes_writes_nothing isoDate Worker.programGlobals
                  usersConfig agreeingWorld Honline) as (_ & Hquiet).
    specialize (Hquiet Hstored Htable Hchanges).
    destruct (SheetToDbWorker.run isoDate Worker.programGlobals usersConfig agreeingWorld)
      as [w' settled] eqn:Hrun.
    destruct Hquiet as (Hdb & Hsheet & _).
    split; [| split; assumption].
    assert (Hs : settled
                 = snd (SheetToDbWorker.run isoDate Worker.programGlobals usersConfig
                          agreeingWorld)) by (rewrite Hrun; reflexivity).
    rewrite Hs. vm_compute. reflexivity.
  - pose proof (sheetToDb_without_changes_writes_nothing isoDate suppliedGlobals
                  usersConfig agreeingWorld Honline) as (_ & Hquiet).
    specialize (Hquiet Hstored Htable Hchanges).
    destruct (SheetToDbWorker.run isoDate suppliedGlobals usersConfig agreeingWorld)
      as [w' settled].
    destruct Hquiet as (Hdb & Hsheet & Hstate & Hops & Hbound).
    destruct (Hbound eq_refl eq_refl) as (Hsettled & Hhistory).
    split_and!; assumption.
Defined.

Section SheetRows.

Import Metadata Worker.

Variable dateToString : Date -> string.
Variable config : SyncConfig.

Lemma buildSheetRowMap_lookup (sheetRows : list RowData) (key : string)
    (index : nat) (row : RowData) :
  DbToSheetWorker.buildSheetRowMap dateToString config sheetRows !! key
  = Some (index, row) ->
  exists i,
    index = S i
    /\ sheetRows !! i = Some row
    /\ is_nullish (prop_get row (getPrimaryKeyColumn config)) = false
    /\ toString dateToString (prop_get row (getPrimaryKeyColumn config)) = key
    /\ forall j other,
         (i < j)%nat -> sheetRows !! j = Some other ->
         is_nullish (prop_get other (getPrimaryKeyColumn config)) = false ->
         toString dateToString (prop_get other (getPrimaryKeyColumn config)) <> key.
Proof.
  unfold DbToSheetWorker.buildSheetRowMap.
  induction sheetRows as [| last sheetRows IH] using rev_ind.
  - cbn. rewrite lookup_empty. discriminate.
  - rewrite imap_snoc, fold_left_app. cbn [fold_left].
    destruct (is_nullish (prop_get last (getPrimaryKeyColumn config))) eqn:Hnull.
    + intros Hlook. destruct (IH Hlook) as (i & -> & Hi & Hn & Hk & Hlater).
      exists i. split_and!; try assumption; try reflexivity.
      * apply lookup_app_l_Some. exact Hi.
      * intros j other Hij Hj Hno.
        destruct (decide (j < length sheetRows)%nat) as [Hlt | Hge].
        -- rewrite lookup_app_l in Hj by exact Hlt. eapply Hlater; eassumption.
        -- rewrite lookup_app_r in Hj by lia.
           destruct (j - length sheetRows)%nat; [| discriminate].
           injection Hj as <-. congruence.
    + destruct (decide (toString dateToString (prop_get last (getPrimaryKeyColumn config))
                        = key)) as [Heq | Hne].
      * rewrite Heq, lookup_insert_eq. intros [= <- <-].
        exists (length sheetRows). split_and!; try assumption.
        -- lia.
        -- rewrite lookup_app_r by lia. rewrite Nat.sub_diag. reflexivity.
        -- intros j other Hij Hj _. apply lookup_lt_Some in Hj.
           rewrite length_app in Hj. cbn in Hj. lia.
      * rewrite lookup_insert_ne by exact Hne.
        intros Hlook. destruct (IH Hlook) as (i & -> & Hi & Hn & Hk & Hlater).
        exists i. split_and!; try assumption; try reflexivity.
        -- apply lookup_app_l_Some. exact Hi.
        -- intros j other Hij Hj Hno.
           destruct (decide (j < length sheetRows)%nat) as [Hlt | Hge].
           ++ rewrite lookup_app_l in Hj by exact Hlt. eapply Hlater; eassumption.
           ++ rewrite lookup_app_r in Hj by lia.
              destruct (j - length sheetRows)%nat; [| discriminate].
              injection Hj as <-. exact Hne.
Qed.

(** X17: in the loop of the table-to-sheet worker, an UPDATE entry whose
    key is among the rows the service answered with is addressed to the row
    of the sheet whose number is the position of the key in the answer:
    never the first row, and the position further down when two rows of the
    answer carry the key.  Writing it puts the cells of the entry over the
    first cells of that row, where the grid holds the row, and changes no
    other row.  That is the row the key was read from only when the answer
    starts at the first row of the sheet: when it starts [offset] rows
    further down, as for a range such as [A5:B100], the key was read
    [offset] rows below the row the entry overwrites.  An UPDATE entry whose
    key is not in the answer is appended like an INSERT. *)
Theorem update_lands_on_its_row (values grid : list (list value))
    (entry : MySQL.MySQLChangeLogEntry) (b : DbToSheetWorker.Batches) :
  let sheetRowMap :=
    DbToSheetWorker.buildSheetRowMap dateToString config
      (convertSheetDataToRows config values) in
  let rowId := prop_get (MySQL.row_data entry) (getPrimaryKeyColumn config) in
  let newCells := convertRowToSheetFormat config (MySQL.row_data entry) in
  MySQL.operation entry = MySQL.UPDATE ->
  truthy rowId = true ->
  match sheetRowMap !! toString dateToString rowId with
  | None =>
      DbToSheetWorker.processEntry dateToString config sheetRowMap b entry
      = DbToSheetWorker.pushAppend newCells b
  | Some (index, row) =>
      let range := DbToSheetWorker.rowRange config index newCells in
      DbToSheetWorker.processEntry dateToString config sheetRowMap b entry
      = DbToSheetWorker.pushUpdate range b
      /\ (1 <= index)%nat
      /\ (exists header cellsOfRow,
            values !! 0%nat = Some header
            /\ values !! index = Some cellsOfRow
            /\ row = convertRow (columnNames config header) cellsOfRow
            /\ toString dateToString (prop_get row (getPrimaryKeyColumn config))
               = toString dateToString rowId
            /\ forall j cellsBelow,
                 (index < j)%nat -> values !! j = Some cellsBelow ->
                 let below := convertRow (columnNames config header) cellsBelow in
                 is_nullish (prop_get below (getPrimaryKeyColumn config)) = false ->
                 toString dateToString (prop_get below (getPrimaryKeyColumn config))
                 <> toString dateToString rowId)
      /\ (forall old,
            grid !! index = Some old ->
            Sheets.writeRange grid range
            = <[index := newCells ++ skipn (length newCells) old]> grid)
      /\ (forall j, j <> index -> Sheets.writeRange grid range !! j = grid !! j)
      /\ (forall offset : nat,
            values = skipn offset grid ->
            values !! index = grid !! (offset + index)%nat)
  end.
Proof.
  intros sheetRowMap rowId newCells Hop Htruthy.
  unfold DbToSheetWorker.processEntry. fold rowId. rewrite Htruthy, Hop. cbn [negb].
  fold sheetRowMap. fold newCells.
  destruct (sheetRowMap !! toString dateToString rowId) as [[index row] |] eqn:Hlook;
    [| reflexivity].
  apply buildSheetRowMap_lookup in Hlook as (i & -> & Hi & Hn & Hk & Hlater).
  assert (Hwrite : Sheets.writeRange grid (DbToSheetWorker.rowRange config (S i) newCells)
                   = alter (fun old => newCells ++ skipn (length newCells) old) (S i) grid).
  { unfold Sheets.writeRange, DbToSheetWorker.rowRange, Sheets.writeRow.
    cbn [Sheets.rangeValues Sheets.rangeRow fold_left fst].
    replace (S i + 1 - 1)%nat with (S i) by lia. reflexivity. }
  cbn zeta. rewrite Hwrite.
  split_and!.
  - reflexivity.
  - lia.
  - unfold convertSheetDataToRows in Hi. destruct values as [| header body];
      [discriminate |].
    apply list_lookup_fmap_Some in Hi as (cellsOfRow & -> & Hcells).
    exists header, cellsOfRow.
    split_and!; [reflexivity | exact Hcells | reflexivity | exact Hk |].
    intros [| j] cellsBelow Hj Hbelow Hno; [lia |]. cbn in Hbelow.
    apply (Hlater j _); [lia | | exact Hno].
    unfold convertSheetDataToRows. apply list_lookup_fmap_Some.
    exists cellsBelow. split; [reflexivity | exact Hbelow].
  - intros old Hold. apply list_eq. intros j.
    destruct (decide (j = S i)) as [-> | Hj].
    + rewrite list_lookup_alter_eq, Hold.
      rewrite list_lookup_insert_eq by (apply lookup_lt_Some in Hold; exact Hold).
      reflexivity.
    + rewrite list_lookup_alter_ne, list_lookup_insert_ne by congruence. reflexivity.
  - intros j Hj. apply list_lookup_alter_ne. congruence.
  - intros offset ->. apply lookup_drop.
Qed.

End SheetRows.

(** Row 2 renamed in the table.  Read from the first row of the sheet, its
    key is on the third row and the entry overwrites that row.  Read from
    the second row, below a title, its key is at the same position of the
    answer and the entry overwrites the third row of the sheet again: the
    row of key 1. *)
Lemma update_lands_on_its_row_witness :
  let entry :=
    {| MySQL.id := 1; MySQL.table_name := "users"; MySQL.operation := MySQL.UPDATE;
       MySQL.row_data := [("id", VStr "2"); ("name", VStr "Bobby")];
       MySQL.changed_at := 1500; MySQL.processed := false;
       MySQL.source_tag := Some "external" |} in
  let newCells := Worker.convertRowToSheetFormat usersConfig (MySQL.row_data entry) in
  let grid :=
    [[VStr "id"; VStr "name"]; [VStr "1"; VStr "Alice"]; [VStr "2"; VStr "Bob"]] in
  let titled := [VStr "Users"] :: grid in
  Sheets.writeRange grid (DbToSheetWorker.rowRange usersConfig 2 newCells)
  = [[VStr "id"; VStr "name"]; [VStr "1"; VStr "Alice"]; [VStr "2"; VStr "Bobby"]]
  /\ Sheets.writeRange titled (DbToSheetWorker.rowRange usersConfig 2 newCells)
     = [[VStr "Users"]; [VStr "id"; VStr "name"]; [VStr "2"; VStr "Bobby"];
        [VStr "2"; VStr "Bob"]].
Proof.
  intros entry newCells grid titled.
  pose proof (update_lands_on_its_row isoDate usersConfig grid grid entry
                {| DbToSheetWorker.batchUpdates := [];
                   DbToSheetWorker.rowsToAppend := [] |}
                eq_refl eq_refl) as Hrow.
  pose proof (update_lands_on_its_row isoDate usersConfig grid titled entry
                {| DbToSheetWorker.batchUpdates := [];
                   DbToSheetWorker.rowsToAppend := [] |}
                eq_refl eq_refl) as Htitled.
  vm_compute in Hrow. destruct Hrow as (_ & _ & _ & Hwrite & _).
  vm_compute in Htitled. destruct Htitled as (_ & _ & _ & Hwrite' & _).
  split; [exact (Hwrite _ eq_refl) | exact (Hwrite' _ eq_refl)].
Defined.

Section Counts.

Import Metadata Worker.

Variable dateToString : Date -> string.
Variable globals : Globals.
Variable config : SyncConfig.

Lemma processEntries_fold (sheetRowMap : gmap string (nat * RowData))
    (entries : list MySQL.MySQLChangeLogEntry) (b : DbToSheetWorker.Batches) :
  let b' := fold_left (DbToSheetWorker.processEntry dateToString config sheetRowMap)
              entries b in
  length (DbToSheetWorker.rowsToAppend b')
  = (length (DbToSheetWorker.rowsToAppend b)
     + length (List.filter (DbToSheetWorker.appends dateToString config sheetRowMap)
                 entries))%nat
  /\ length (DbToSheetWorker.batchUpdates b')
     = (length (DbToSheetWorker.batchUpdates b)
        + length (List.filter (DbToSheetWorker.overwrites dateToString config sheetRowMap)
                    entries))%nat.
Proof.
  revert b. induction entries as [| entry entries IH]; intros b; cbn [fold_left List.filter].
  - cbn. lia.
  - destruct (IH (DbToSheetWorker.processEntry dateToString config sheetRowMap b entry))
      as (Ha & Hu). cbn zeta. rewrite Ha, Hu. clear IH Ha Hu.
    unfold DbToSheetWorker.processEntry, DbToSheetWorker.appends, DbToSheetWorker.overwrites.
    destruct (truthy _); cbn [negb andb]; [| lia].
    destruct (MySQL.operation entry);
      try destruct (sheetRowMap !! _) as [[index row] |] eqn:Hlook; cbn;
      rewrite ?length_app; cbn; lia.
Qed.

Lemma appends_or_overwrites (sheetRowMap : gmap string (nat * RowData))
    (entry : MySQL.MySQLChangeLogEntry) :
  DbToSheetWorker.appends dateToString config sheetRowMap entry
  && DbToSheetWorker.overwrites dateToString config sheetRowMap entry = false.
Proof.
  unfold DbToSheetWorker.appends, DbToSheetWorker.overwrites.
  destruct (truthy _); [| reflexivity].
  destruct (MySQL.operation entry); cbn; try reflexivity.
  destruct (sheetRowMap !! _); reflexivity.
Qed.

Lemma poll_length (table : string) (log : list MySQL.MySQLChangeLogEntry) :
  (length (MySQL.selectChangeLog table DbToSheetWorker.pollOptions log) <= 1000)%nat.
Proof.
  unfold MySQL.selectChangeLog. cbn [MySQL.limit DbToSheetWorker.pollOptions].
  rewrite length_firstn. lia.
Qed.

(** X18: the batches the loop of the table-to-sheet worker fills hold one
    element for each entry it sends to the sheet: an appended row for an
    INSERT or an UPDATE of a row the answer of the service does not hold, an
    update for an UPDATE or a DELETE of a row it holds.  Entries without a
    key and deletes of rows the answer does not hold add nothing, so the two
    batches together hold at most as many elements as entries were fetched,
    themselves at most 1000.  With the two free names bound, that number is
    the row count a run that reaches the sheet records in its history
    row. *)
Theorem dbToSheet_counts_what_it_sends (w : World) :
  let table := db_table_name config in
  let log := MySQL.changeLog (MySQL.database (db w)) in
  let entries := MySQL.selectChangeLog table DbToSheetWorker.pollOptions log in
  let sheetRowMap :=
    DbToSheetWorker.buildSheetRowMap dateToString config
      (convertSheetDataToRows config
         (Sheets.valuesOf (sheetRange config) (spreadsheet w))) in
  let batches :=
    DbToSheetWorker.processEntries dateToString config sheetRowMap entries in
  let appended :=
    List.filter (DbToSheetWorker.appends dateToString config sheetRowMap) entries in
  let overwritten :=
    List.filter (DbToSheetWorker.overwrites dateToString config sheetRowMap) entries in
  length (DbToSheetWorker.rowsToAppend batches) = length appended
  /\ length (DbToSheetWorker.batchUpdates batches) = length overwritten
  /\ (length appended + length overwritten <= length entries)%nat
  /\ (length entries <= 1000)%nat
  /\ (createChildLogger globals = Bound ->
      googleSheetsAdapter globals = Bound ->
      entries <> [] ->
      Sheets.online (spreadsheet w) = true ->
      existsb (String.eqb (DbToSheetWorker.operationIdOf w)) (processedOperations w)
        = false ->
      let w' := fst (DbToSheetWorker.run dateToString globals config w) in
      exists row,
        history (metadata w') = history (metadata w) ++ [row]
        /\ rows_affected row
           = Z.of_nat (length appended) + Z.of_nat (length overwritten)).
Proof.
  intros table log entries sheetRowMap batches appended overwritten.
  destruct (processEntries_fold sheetRowMap entries
              {| DbToSheetWorker.batchUpdates := []; DbToSheetWorker.rowsToAppend := [] |})
    as (Ha & Hu).
  cbn zeta in Ha, Hu. cbn [DbToSheetWorker.batchUpdates DbToSheetWorker.rowsToAppend
                           length Nat.add] in Ha, Hu.
  fold (DbToSheetWorker.processEntries dateToString config sheetRowMap entries) in Ha, Hu.
  fold batches in Ha, Hu. fold appended in Ha. fold overwritten in Hu.
  pose proof (filter_disjoint_length _ _ entries (appends_or_overwrites sheetRowMap)) as Hd.
  fold appended overwritten in Hd.
  pose proof (poll_length table log) as Hp. fold entries in Hp.
  split_and!; [exact Ha | exact Hu | lia | exact Hp |].
  intros Hlogger Hadapter Hentries Honline Hfresh w'.
  pose proof (dbToSheet_run dateToString config globals w Hlogger Hadapter Hentries
                Honline Hfresh) as Hrun.
  subst w'. destruct (DbToSheetWorker.run dateToString globals config w) as [w' settled].
  destruct Hrun as (_ & _ & _ & Hhistory). cbn [fst].
  fold table log entries sheetRowMap batches in Hhistory.
  eexists. split; [exact Hhistory |]. cbn [rows_affected].
  rewrite Ha, Hu. lia.
Qed.

End Counts.

(** The keyless entry and the rename of row 1: one update is sent, the
    keyless entry is not counted; with the two names bound the run records
    one row. *)
Lemma dbToSheet_counts_what_it_sends_witness :
  let w' := fst (DbToSheetWorker.run isoDate suppliedGlobals usersConfig
                   keylessEntryWorld) in
  exists row,
    Metadata.history (Metadata.metadata w') = [row]
    /\ Metadata.rows_affected row = 1.
Proof.
  intros w'.
  assert (H1 : MySQL.selectChangeLog (Metadata.db_table_name usersConfig)
                 DbToSheetWorker.pollOptions
                 (MySQL.changeLog (MySQL.database (Metadata.db keylessEntryWorld)))
               <> [])
    by (vm_compute; discriminate).
  assert (H2 : Sheets.online (Metadata.spreadsheet keylessEntryWorld) = true)
    by reflexivity.
  assert (H3 : existsb (String.eqb (DbToSheetWorker.operationIdOf keylessEntryWorld))
                 (Metadata.processedOperations keylessEntryWorld) = false)
    by reflexivity.
  destruct (dbToSheet_counts_what_it_sends isoDate suppliedGlobals usersConfig
              keylessEntryWorld) as (_ & _ & _ & _ & Hrun).
  destruct (Hrun eq_refl eq_refl H1 H2 H3) as (row & Hhistory & Hcount).
  exists row. split; [exact Hhistory |].
  rewrite Hcount. vm_compute. reflexivity.
Defined.

Section ColumnLetters.

Import Worker.

Lemma loop_accumulates (fuel : nat) (index : Z) (letter : string) :
  indexToColumnLetterLoop fuel index letter
  = (indexToColumnLetterLoop fuel index "" ++ letter)%string.
Proof.
  revert index letter. induction fuel as [| fuel IH]; intros index letter;
    cbn [indexToColumnLetterLoop]; [reflexivity |].
  destruct (0 <=? index); [| reflexivity].
  rewrite IH. rewrite (IH _ (String _ "")). rewrite append_assoc. reflexivity.
Qed.

Lemma loop_fuel (fuel fuel' : nat) (index : Z) (letter : string) :
  index < Z.of_nat fuel -> index < Z.of_nat fuel' ->
  indexToColumnLetterLoop fuel index letter
  = indexToColumnLetterLoop fuel' index letter.
Proof.
  revert fuel' index letter. induction fuel as [| fuel IH]; intros fuel' index letter Hf Hf'.
  - destruct fuel' as [| fuel']; [reflexivity |]. cbn [indexToColumnLetterLoop].
    destruct (Z.leb_spec 0 index); [lia | reflexivity].
  - destruct fuel' as [| fuel']; cbn [indexToColumnLetterLoop].
    + destruct (Z.leb_spec 0 index); [lia | reflexivity].
    + destruct (Z.leb_spec 0 index); [| reflexivity].
      apply IH.
      * assert (index / 26 <= index) by (apply Z.div_le_upper_bound; lia). lia.
      * assert (index / 26 <= index) by (apply Z.div_le_upper_bound; lia). lia.
Qed.

(** The letter of a digit. *)
Abbreviation digit k := (ascii_of_nat (k + 65)).

Lemma indexToColumnLetter_small (n : nat) :
  (n < 26)%nat -> indexToColumnLetter n = String (digit n) "".
Proof.
  intros Hn. unfold indexToColumnLetter. cbn [indexToColumnLetterLoop].
  destruct (Z.leb_spec 0 (Z.of_nat n)); [| lia].
  rewrite Z.div_small, Z.mod_small by lia.
  rewrite Nat2Z.id.
  destruct n; reflexivity.
Qed.

Lemma indexToColumnLetter_step (n : nat) :
  (26 <= n)%nat ->
  indexToColumnLetter n
  = (indexToColumnLetter (n / 26 - 1) ++ String (digit (n mod 26)) "")%string.
Proof.
  intros Hn. unfold indexToColumnLetter at 1. cbn [indexToColumnLetterLoop].
  destruct (Z.leb_spec 0 (Z.of_nat n)); [| lia].
  rewrite loop_accumulates.
  assert (Hq : Z.of_nat n / 26 - 1 = Z.of_nat (n / 26 - 1)).
  { rewrite Nat2Z.inj_sub, Nat2Z.inj_div; [reflexivity |].
    apply Nat.div_le_lower_bound; lia. }
  assert (Hr : Z.to_nat (Z.of_nat n mod 26) = (n mod 26)%nat).
  { rewrite <- (Nat2Z.id (n mod 26)). f_equal. rewrite Nat2Z.inj_mod. reflexivity. }
  rewrite Hq, Hr. f_equal. unfold indexToColumnLetter.
  apply loop_fuel.
  - assert (n / 26 <= n)%nat by (apply Nat.Div0.div_le_upper_bound; lia).
    assert (1 <= n / 26)%nat by (apply Nat.div_le_lower_bound; lia). lia.
  - lia.
Qed.

Lemma indexToColumnLetter_length (n : nat) :
  (1 <= String.length (indexToColumnLetter n))%nat.
Proof.
  destruct (Nat.lt_ge_cases n 26) as [Hn | Hn].
  - rewrite indexToColumnLetter_small by exact Hn. cbn. lia.
  - rewrite indexToColumnLetter_step by exact Hn. rewrite string_app_length.
    cbn [String.length]. lia.
Qed.

Lemma digit_inj (j k : nat) : (j < 26)%nat -> (k < 26)%nat -> digit j = digit k -> j = k.
Proof.
  intros Hj Hk Heq.
  assert (H : nat_of_ascii (digit j) = nat_of_ascii (digit k)) by (rewrite Heq; reflexivity).
  rewrite !nat_ascii_embedding in H by lia. lia.
Qed.

(** X19: [indexToColumnLetter] names the columns as a spreadsheet does: the
    26 letters, then the name of column [n / 26 - 1] followed by the letter
    [n mod 26]; names are made of capital letters and no two columns share
    one. *)
Theorem indexToColumnLetter_names_columns (n : nat) :
  ((n < 26)%nat -> indexToColumnLetter n = String (digit n) "")
  /\ ((26 <= n)%nat ->
      indexToColumnLetter n
      = (indexToColumnLetter (n / 26 - 1) ++ String (digit (n mod 26)) "")%string)
  /\ (1 <= String.length (indexToColumnLetter n))%nat
  /\ (forall c, In c (list_ascii_of_string (indexToColumnLetter n)) ->
        (65 <= nat_of_ascii c <= 90)%nat)
  /\ (forall m, indexToColumnLetter m = indexToColumnLetter n -> m = n).
Proof.
  split_and!.
  - apply indexToColumnLetter_small.
  - apply indexToColumnLetter_step.
  - apply indexToColumnLetter_length.
  - induction n as [n IH] using lt_wf_ind.
    destruct (Nat.lt_ge_cases n 26) as [Hn | Hn].
    + rewrite indexToColumnLetter_small by exact Hn. cbn.
      intros c [<- | []]. rewrite nat_ascii_embedding by lia. lia.
    + rewrite indexToColumnLetter_step by exact Hn.
      assert (Hlt : (n / 26 - 1 < n)%nat).
      { assert (n / 26 <= n)%nat by (apply Nat.Div0.div_le_upper_bound; lia).
        assert (1 <= n / 26)%nat by (apply Nat.div_le_lower_bound; lia). lia. }
      specialize (IH _ Hlt).
      generalize dependent (indexToColumnLetter (n / 26 - 1)). intros s IHs c.
      induction s as [| x s IHx].
      * cbn. intros [<- | []]. rewrite nat_ascii_embedding; [| ].
        -- pose proof (Nat.mod_upper_bound n 26 ltac:(lia)). lia.
        -- pose proof (Nat.mod_upper_bound n 26 ltac:(lia)). lia.
      * rewrite append_cons. cbn [list_ascii_of_string In].
        intros [<- | Hin].
        -- apply IHs. left. reflexivity.
        -- apply IHx; [| exact Hin]. intros c' Hc'. apply IHs. right. exact Hc'.
  - induction n as [n IH] using lt_wf_ind. intros m Heq.
    destruct (Nat.lt_ge_cases n 26) as [Hn | Hn];
      destruct (Nat.lt_ge_cases m 26) as [Hm | Hm].
    + rewrite (indexToColumnLetter_small n), (indexToColumnLetter_small m) in Heq
        by assumption.
      injection Heq as Heq. apply digit_inj; assumption.
    + exfalso. rewrite (indexToColumnLetter_small n) in Heq by exact Hn.
      rewrite (indexToColumnLetter_step m) in Heq by exact Hm.
      apply (f_equal String.length) in Heq. rewrite string_app_length in Heq.
      cbn [String.length] in Heq.
      pose proof (indexToColumnLetter_length (m / 26 - 1)). lia.
    + exfalso. rewrite (indexToColumnLetter_small m) in Heq by exact Hm.
      rewrite (indexToColumnLetter_step n) in Heq by exact Hn.
      apply (f_equal String.length) in Heq. rewrite string_app_length in Heq.
      cbn [String.length] in Heq.
      pose proof (indexToColumnLetter_length (n / 26 - 1)). lia.
    + rewrite (indexToColumnLetter_step n), (indexToColumnLetter_step m) in Heq
        by assumption.
      apply string_snoc_inj in Heq as (Hprefix & Hdigit).
      assert (Hlt : (n / 26 - 1 < n)%nat).
      { assert (n / 26 <= n)%nat by (apply Nat.Div0.div_le_upper_bound; lia).
        assert (1 <= n / 26)%nat by (apply Nat.div_le_lower_bound; lia). lia. }
      apply (IH _ Hlt) in Hprefix.
      apply digit_inj in Hdigit; try (apply Nat.mod_upper_bound; lia).
      assert (1 <= n / 26)%nat by (apply Nat.div_le_lower_bound; lia).
      assert (1 <= m / 26)%nat by (apply Nat.div_le_lower_bound; lia).
      rewrite (Nat.div_mod_eq n 26), (Nat.div_mod_eq m 26). lia.
Qed.

End ColumnLetters.

(* --------------------------------------------------------------------- *)
(** ** Conflict detection *)
(* --------------------------------------------------------------------- *)

Section ConflictDetectionLaws.

Import ConflictDetection.

Lemma lastChangeOf_snoc (key : RowId) (changes : list Change) (change : Change) :
  lastChangeOf key (changes ++ [change])
  = if bool_decide (rowId change = key) then Some change else lastChangeOf key changes.
Proof. unfold lastChangeOf. rewrite fold_left_app. reflexivity. Qed.

Lemma buildDbChangeMap_lookup (changes : list Change) (key : RowId) :
  buildDbChangeMap changes !! key = lastChangeOf key changes.
Proof.
  induction changes as [| change changes IH] using rev_ind; [reflexivity |].
  rewrite lastChangeOf_snoc. unfold buildDbChangeMap in *.
  rewrite fold_left_app. cbn [fold_left].
  case_bool_decide as Hkey.
  - rewrite Hkey. apply lookup_insert_eq.
  - rewrite lookup_insert_ne by exact Hkey. exact IH.
Qed.

Lemma lastChangeOf_Some (key : RowId) (changes : list Change) (change : Change) :
  lastChangeOf key changes = Some change ->
  exists i,
    changes !! i = Some change /\ rowId change = key
    /\ forall j later, (i < j)%nat -> changes !! j = Some later -> rowId later <> key.
Proof.
  induction changes as [| last changes IH] using rev_ind; [discriminate |].
  rewrite lastChangeOf_snoc. case_bool_decide as Hkey.
  - intros [= <-]. exists (length changes). split_and!.
    + rewrite lookup_app_r by lia. rewrite Nat.sub_diag. reflexivity.
    + exact Hkey.
    + intros j later Hj Hlater. apply lookup_lt_Some in Hlater.
      rewrite length_app in Hlater. cbn in Hlater. lia.
  - intros Hlast. destruct (IH Hlast) as (i & Hi & Hk & Hlater).
    exists i. split_and!; [apply lookup_app_l_Some, Hi | exact Hk |].
    intros j later Hj Hlook.
    destruct (decide (j < length changes)%nat) as [Hlt | Hge].
    + rewrite lookup_app_l in Hlook by exact Hlt. eapply Hlater; eassumption.
    + rewrite lookup_app_r in Hlook by lia.
      destruct (j - length changes)%nat; [| discriminate].
      injection Hlook as <-. exact Hkey.
Qed.

Lemma checkSheetChange_conflictOf (changesOfTable : list Change) (lastSync : Date)
    (conflicts : list DetectedConflict) (sheetChange : Change) :
  checkSheetChange (buildDbChangeMap changesOfTable) lastSync conflicts sheetChange
  = conflicts
    ++ match conflictOf lastSync changesOfTable sheetChange with
       | Some conflict => [conflict]
       | None => []
       end.
Proof.
  unfold checkSheetChange, conflictOf. rewrite buildDbChangeMap_lookup.
  destruct (lastChangeOf (rowId sheetChange) changesOfTable) as [dbChange |];
    [| rewrite app_nil_r; reflexivity].
  destruct (date_gt (timestamp sheetChange) lastSync),
    (date_gt (timestamp dbChange) lastSync); cbn [negb orb andb];
    try (rewrite app_nil_r; reflexivity).
  destruct (findOverlappingColumns (columns sheetChange) (columns dbChange));
    cbn; [rewrite app_nil_r |]; reflexivity.
Qed.

Lemma detectConflicts_omap (input : ConflictDetectionInput) :
  detectConflicts input
  = omap (conflictOf (lastSyncTime input) (dbChanges input)) (sheetChanges input).
Proof.
  unfold detectConflicts. cbn zeta.
  assert (Hgen : forall conflicts,
            fold_left
              (checkSheetChange (buildDbChangeMap (dbChanges input)) (lastSyncTime input))
              (sheetChanges input) conflicts
            = conflicts
              ++ omap (conflictOf (lastSyncTime input) (dbChanges input))
                   (sheetChanges input)).
  { induction (sheetChanges input) as [| sheetChange rest IH]; intros conflicts.
    - cbn. rewrite app_nil_r. reflexivity.
    - cbn [fold_left]. rewrite IH, checkSheetChange_conflictOf, <- app_assoc.
      f_equal. cbn. destruct (conflictOf _ _ sheetChange); reflexivity. }
  rewrite Hgen. reflexivity.
Qed.

Lemma omap_length_le {X Y : Type} (f : X -> option Y) (l : list X) :
  (length (omap f l) <= length l)%nat.
Proof.
  induction l as [| x l IH]; [reflexivity |].
  cbn. destruct (f x); cbn in *; lia.
Qed.

Lemma findOverlappingColumns_In (cols1 cols2 : list string) (col : string) :
  In col (findOverlappingColumns cols1 cols2) <-> In col cols1 /\ In col cols2.
Proof.
  unfold findOverlappingColumns. rewrite filter_In, existsb_exists. split.
  - intros (H2 & other & H1 & Heq). apply String.eqb_eq in Heq. subst other. auto.
  - intros (H1 & H2). split; [exact H2 |]. exists col. split; [exact H1 |].
    apply String.eqb_refl.
Qed.

(** X20: [detectConflicts] reports a conflict exactly for each sheet change
    whose row has a table change, the last one of that row in [dbChanges],
    such that both changes are stamped after the last sync and share a
    column; the conflict carries the two values, the two time stamps and the
    shared columns, in the order of the table change.  So no conflict is
    reported that lacks a shared column, and none when the time of the last
    sync is not a valid date. *)
Theorem detectConflicts_reports (input : ConflictDetectionInput)
    (conflict : DetectedConflict) :
  (In conflict (detectConflicts input) <->
   exists sheetChange dbChange,
     In sheetChange (sheetChanges input)
     /\ lastChangeOf (rowId sheetChange) (dbChanges input) = Some dbChange
     /\ date_gt (timestamp sheetChange) (lastSyncTime input) = true
     /\ date_gt (timestamp dbChange) (lastSyncTime input) = true
     /\ findOverlappingColumns (columns sheetChange) (columns dbChange) <> []
     /\ conflict
        = {| ConflictResolver.rowId := rowId sheetChange;
             sheetValue := data sheetChange;
             dbValue := data dbChange;
             sheetTimestamp := timestamp sheetChange;
             dbTimestamp := timestamp dbChange;
             conflictingColumns :=
               findOverlappingColumns (columns sheetChange) (columns dbChange) |})
  /\ (In conflict (detectConflicts input) ->
      conflictingColumns conflict <> []
      /\ exists sheetChange dbChange,
           In sheetChange (sheetChanges input) /\ In dbChange (dbChanges input)
           /\ rowId sheetChange = ConflictResolver.rowId conflict
           /\ rowId dbChange = ConflictResolver.rowId conflict
           /\ forall col, In col (conflictingColumns conflict) <->
                          In col (columns sheetChange) /\ In col (columns dbChange))
  /\ (lastSyncTime input = None -> detectConflicts input = []).
Proof.
  assert (Hiff : In conflict (detectConflicts input) <->
   exists sheetChange dbChange,
     In sheetChange (sheetChanges input)
     /\ lastChangeOf (rowId sheetChange) (dbChanges input) = Some dbChange
     /\ date_gt (timestamp sheetChange) (lastSyncTime input) = true
     /\ date_gt (timestamp dbChange) (lastSyncTime input) = true
     /\ findOverlappingColumns (columns sheetChange) (columns dbChange) <> []
     /\ conflict
        = {| ConflictResolver.rowId := rowId sheetChange;
             sheetValue := data sheetChange;
             dbValue := data dbChange;
             sheetTimestamp := timestamp sheetChange;
             dbTimestamp := timestamp dbChange;
             conflictingColumns :=
               findOverlappingColumns (columns sheetChange) (columns dbChange) |}).
  { rewrite detectConflicts_omap, <- list_elem_of_In, list_elem_of_omap. split.
    - intros (sheetChange & Hin & Hc). apply list_elem_of_In in Hin.
      unfold conflictOf in Hc.
      destruct (lastChangeOf (rowId sheetChange) (dbChanges input)) as [dbChange |]
        eqn:Hlast; [| discriminate].
      destruct (date_gt (timestamp sheetChange) (lastSyncTime input)) eqn:Hs;
        [| discriminate].
      destruct (date_gt (timestamp dbChange) (lastSyncTime input)) eqn:Hd;
        [| discriminate].
      cbn [andb] in Hc. case_bool_decide as Hover; [discriminate |].
      cbn in Hc. injection Hc as <-.
      exists sheetChange, dbChange. split_and!; auto.
    - intros (sheetChange & dbChange & Hin & Hlast & Hs & Hd & Hover & ->).
      exists sheetChange. split; [apply list_elem_of_In, Hin |].
      unfold conflictOf. rewrite Hlast, Hs, Hd.
      rewrite bool_decide_eq_false_2 by exact Hover. reflexivity. }
  split_and!.
  - exact Hiff.
  - intros Hin. apply Hiff in Hin
      as (sheetChange & dbChange & Hin & Hlast & _ & _ & Hover & ->).
    split; [exact Hover |].
    apply lastChangeOf_Some in Hlast as (i & Hi & Hk & _).
    exists sheetChange, dbChange. cbn.
    split_and!; [exact Hin | | reflexivity | exact Hk |].
    + apply list_elem_of_In, list_elem_of_lookup. exists i. exact Hi.
    + intros col. apply findOverlappingColumns_In.
  - intros Hnan. rewrite detectConflicts_omap, Hnan. apply omap_none.
    intros sheetChange _. unfold conflictOf.
    destruct (lastChangeOf _ _); [| reflexivity].
    destruct (timestamp sheetChange); reflexivity.
Qed.

(** X21: [detectConflicts] goes through the sheet changes in order, one
    by one, and looks at one table change per row, the last: the conflicts
    of two lists of sheet changes put end to end are the conflicts of the
    first followed by those of the second, there are no more conflicts than
    sheet changes, and a table change that a later change of the same row
    follows never counts, whatever columns it touched. *)
Theorem detectConflicts_keeps_last_table_change
    (sheet1 sheet2 earlier later : list Change) (superseded : Change)
    (lastSync : Date) :
  let detect sheetSide tableSide :=
    detectConflicts {| sheetChanges := sheetSide; dbChanges := tableSide;
                       lastSyncTime := lastSync |} in
  (forall tableSide,
      detect (sheet1 ++ sheet2) tableSide
      = detect sheet1 tableSide ++ detect sheet2 tableSide)
  /\ (forall tableSide,
        (length (detect sheet1 tableSide) <= length sheet1)%nat)
  /\ ((exists change, In change later /\ rowId change = rowId superseded) ->
      detect sheet1 (earlier ++ superseded :: later) = detect sheet1 (earlier ++ later))
  /\ (forall sheetSide, detect sheetSide [] = [])
  /\ (forall tableSide, detect [] tableSide = []).
Proof.
  cbn zeta. split_and!.
  - intros tableSide. rewrite !detectConflicts_omap. cbn. apply omap_app.
  - intros tableSide. rewrite detectConflicts_omap. cbn. apply omap_length_le.
  - intros (change & Hin & Hsame). rewrite !detectConflicts_omap. cbn.
    apply omap_pointwise. intros sheetChange. unfold conflictOf.
    assert (Hlast : lastChangeOf (rowId sheetChange) (earlier ++ superseded :: later)
                    = lastChangeOf (rowId sheetChange) (earlier ++ later));
      [| rewrite Hlast; reflexivity].
    unfold lastChangeOf. rewrite !fold_left_app. cbn [fold_left].
    case_bool_decide as Hkey; [| reflexivity].
    assert (Hover : forall found found',
              fold_left
                (fun found change0 =>
                   if bool_decide (rowId change0 = rowId sheetChange)
                   then Some change0 else found) later found
              = fold_left
                  (fun found change0 =>
                     if bool_decide (rowId change0 = rowId sheetChange)
                     then Some change0 else found) later found').
    { clear -Hin Hsame Hkey. induction later as [| c later IH]; [destruct Hin |].
      intros found found'. cbn [fold_left].
      destruct Hin as [-> | Hin].
      - rewrite bool_decide_eq_true_2 by congruence. reflexivity.
      - case_bool_decide; [reflexivity | apply IH, Hin]. }
    apply Hover.
  - intros sheetSide. rewrite detectConflicts_omap. cbn. apply omap_none.
    intros sheetChange _. reflexivity.
  - intros tableSide. reflexivity.
Qed.

End ConflictDetectionLaws.

(* --------------------------------------------------------------------- *)
(** ** The token bucket *)
(* --------------------------------------------------------------------- *)

Section TokenBucket.

Import RateLimiter.
Local Open Scope Q_scope.

Lemma refill_fields (now : Z) (rl : RateLimiter) :
  maxTokens (refill now rl) = maxTokens rl
  /\ refillRate (refill now rl) = refillRate rl
  /\ name (refill now rl) = name rl.
Proof. unfold refill. cbn zeta. destruct (Qlt_le_dec _ _); auto. Qed.

Lemma refill_inBounds (now : Z) (rl : RateLimiter) :
  inBounds rl -> inBounds (refill now rl).
Proof.
  intros [H0 Hmax]. unfold refill, inBounds. cbn zeta.
  destruct (Qlt_le_dec _ _) as [Hadd | Hadd]; cbn [tokens maxTokens]; [| auto].
  split; [| apply Q.le_min_l].
  apply Q.min_glb; lra.
Qed.

Lemma tryAcquire_inBounds (now : Z) (tokensNeeded : Q) (rl : RateLimiter) :
  0 <= tokensNeeded -> inBounds rl -> inBounds (fst (tryAcquire now tokensNeeded rl)).
Proof.
  intros Hn Hb. apply (refill_inBounds now) in Hb. unfold tryAcquire. cbn zeta.
  destruct (Qle_bool tokensNeeded (tokens (refill now rl))) eqn:Hle; cbn [fst]; [| exact Hb].
  apply Qle_bool_iff in Hle. destruct Hb as [H0 Hmax].
  unfold inBounds. cbn. split; lra.
Qed.

Lemma inject_Z_sub (x y : Z) : inject_Z (x - y) == inject_Z x - inject_Z y.
Proof.
  unfold Z.sub. rewrite inject_Z_plus, inject_Z_opp. reflexivity.
Qed.

Lemma tryAcquire_step (now : Z) (tokensNeeded : Q) (rl : RateLimiter) :
  (lastRefill rl <= now)%Z -> inBounds rl -> 0 <= refillRate rl -> 0 <= tokensNeeded ->
  let rl1 := fst (tryAcquire now tokensNeeded rl) in
  let granted := if snd (tryAcquire now tokensNeeded rl) then tokensNeeded else 0 in
  (lastRefill rl <= lastRefill rl1 <= now)%Z
  /\ refillRate rl1 = refillRate rl
  /\ maxTokens rl1 = maxTokens rl
  /\ granted + tokens rl1
     <= tokens rl
        + (inject_Z (lastRefill rl1) - inject_Z (lastRefill rl)) / 1000 * refillRate rl.
Proof.
  intros Hnow [H0 Hmax] Hrate Hneeded. cbn zeta. unfold tryAcquire, refill. cbn zeta.
  pose proof (inject_Z_sub now (lastRefill rl)) as Hsub.
  destruct (Qlt_le_dec 0 (inject_Z (now - lastRefill rl) / 1000 * refillRate rl))
    as [Hadd | Hadd]; cbn [tokens maxTokens refillRate lastRefill].
  - pose proof (Q.le_min_r (maxTokens rl)
                  (tokens rl + inject_Z (now - lastRefill rl) / 1000 * refillRate rl))
      as Hmin.
    set (filled := Qmin _ _) in *.
    destruct (Qle_bool tokensNeeded filled) eqn:Hle;
      cbn [fst snd tokens maxTokens refillRate lastRefill withTokens];
      (split_and!; [lia | lia | reflexivity | reflexivity |]);
      rewrite <- Hsub; lra.
  - destruct (Qle_bool tokensNeeded (tokens rl)) eqn:Hle;
      cbn [fst snd tokens maxTokens refillRate lastRefill withTokens];
      (split_and!; [lia | lia | reflexivity | reflexivity |]);
      assert (Hz : (inject_Z (lastRefill rl) - inject_Z (lastRefill rl)) / 1000
                   * refillRate rl == 0) by field;
      rewrite Hz; lra.
Qed.

Lemma last_default {X : Type} (l : list X) (d d' : X) :
  l <> [] -> List.last l d = List.last l d'.
Proof.
  induction l as [| x l IH]; [congruence |]. intros _.
  destruct l as [| y l]; [reflexivity |]. cbn [List.last] in *. apply IH. discriminate.
Qed.

Lemma tryAcquireAll_bound (calls : list (Z * Q)) (rl : RateLimiter) :
  inBounds rl -> 0 <= refillRate rl ->
  (forall call, In call calls -> 0 <= snd call) ->
  Sorted Z.le (lastRefill rl :: map fst calls) ->
  let rl' := fst (tryAcquireAll calls rl) in
  let granted := snd (tryAcquireAll calls rl) in
  inBounds rl'
  /\ refillRate rl' = refillRate rl
  /\ maxTokens rl' = maxTokens rl
  /\ (lastRefill rl <= lastRefill rl' <= List.last (map fst calls) (lastRefill rl))%Z
  /\ 0 <= granted
  /\ granted + tokens rl'
     <= tokens rl
        + (inject_Z (lastRefill rl') - inject_Z (lastRefill rl)) / 1000 * refillRate rl.
Proof.
  revert rl. induction calls as [| [now tokensNeeded] rest IH];
    intros rl Hb Hrate Hneeded Hsorted; cbn zeta.
  - cbn [tryAcquireAll fst snd map List.last].
    split_and!; try reflexivity; try lia; try exact Hb; try lra.
    assert (Hz : (inject_Z (lastRefill rl) - inject_Z (lastRefill rl)) / 1000
                 * refillRate rl == 0) by field.
    rewrite Hz. lra.
  - cbn [tryAcquireAll map]. cbn [map fst] in Hsorted.
    apply Sorted_inv in Hsorted as (Hsorted & Hhd).
    apply HdRel_inv in Hhd.
    assert (Hn : 0 <= tokensNeeded)
      by (apply (Hneeded (now, tokensNeeded)); left; reflexivity).
    pose proof (tryAcquire_step now tokensNeeded rl Hhd Hb Hrate Hn) as Hstep.
    pose proof (tryAcquire_inBounds now tokensNeeded rl Hn Hb) as Hb1.
    cbn zeta in Hstep.
    destruct (tryAcquire now tokensNeeded rl) as [rl1 granted1]. cbn [fst snd] in *.
    destruct Hstep as (Hlr & Hr1 & Hm1 & Hsum1).
    assert (Hsorted1 : Sorted Z.le (lastRefill rl1 :: map fst rest)).
    { apply Sorted_inv in Hsorted as (Hrest & Hhd1). constructor; [exact Hrest |].
      destruct (map fst rest) as [| next times]; constructor.
      apply HdRel_inv in Hhd1. lia. }
    specialize (IH rl1 Hb1 ltac:(rewrite Hr1; exact Hrate)
                  ltac:(intros call Hin; apply Hneeded; right; exact Hin) Hsorted1).
    cbn zeta in IH.
    destruct (tryAcquireAll rest rl1) as [rl2 total]. cbn [fst snd] in *.
    destruct IH as (Hb2 & Hr2 & Hm2 & Hlr2 & Htotal & Hsum2).
    assert (Hg : 0 <= (if granted1 then tokensNeeded else 0)) by (destruct granted1; lra).
    split_and!.
    + exact Hb2.
    + congruence.
    + congruence.
    + lia.
    + destruct (map fst rest) as [| next times] eqn:Htimes.
      * cbn [List.last] in *. lia.
      * change (List.last (now :: next :: times) (lastRefill rl))
          with (List.last (next :: times) (lastRefill rl)).
        rewrite (last_default _ (lastRefill rl) (lastRefill rl1)); [lia | discriminate].
    + lra.
    + rewrite Hr1 in Hsum2.
      assert (Hsplit : (inject_Z (lastRefill rl2) - inject_Z (lastRefill rl)) / 1000
                       * refillRate rl
                       == (inject_Z (lastRefill rl2) - inject_Z (lastRefill rl1)) / 1000
                          * refillRate rl
                          + (inject_Z (lastRefill rl1) - inject_Z (lastRefill rl)) / 1000
                            * refillRate rl) by field.
      rewrite Hsplit. lra.
Qed.

(** X22: the bucket never holds less than no token nor more than
    [maxTokens], whatever the clock does: [refill], [tryAcquire] and
    [acquire] keep the count within these bounds when the tokens asked for
    are not negative.  [tryAcquire] hands out the tokens exactly when the
    bucket, once refilled, holds that many, and then takes that many out;
    a call that is refused takes nothing. *)
Theorem tokens_stay_in_the_bucket (now : Z) (tokensNeeded : Q) (rl : RateLimiter) :
  inBounds rl ->
  0 <= tokensNeeded ->
  inBounds (refill now rl)
  /\ inBounds (fst (tryAcquire now tokensNeeded rl))
  /\ (snd (tryAcquire now tokensNeeded rl) = true
      <-> tokensNeeded <= tokens (refill now rl))
  /\ tokens (fst (tryAcquire now tokensNeeded rl))
     = (if snd (tryAcquire now tokensNeeded rl)
        then tokens (refill now rl) - tokensNeeded
        else tokens (refill now rl))
  /\ (forall (W : Type) (clock : W -> Z) (sleep : Q -> W -> W) (fuel : nat) (w : W),
        inBounds (fst (fst (acquireLoop clock sleep fuel tokensNeeded rl w)))).
Proof.
  intros Hb Hn. split_and!.
  - apply refill_inBounds, Hb.
  - apply tryAcquire_inBounds; assumption.
  - unfold tryAcquire. cbn zeta.
    destruct (Qle_bool tokensNeeded (tokens (refill now rl))) eqn:Hle; cbn [snd].
    + apply Qle_bool_iff in Hle. tauto.
    + split; [discriminate |]. intros Hle'. apply Qle_bool_iff in Hle'. congruence.
  - unfold tryAcquire. cbn zeta.
    destruct (Qle_bool tokensNeeded (tokens (refill now rl))); reflexivity.
  - intros W clock sleep fuel. revert rl Hb.
    induction fuel as [| fuel IH]; intros rl Hb w; cbn [acquireLoop]; [exact Hb |].
    pose proof (refill_inBounds (clock w) rl Hb) as Hb1.
    destruct (Qle_bool tokensNeeded (tokens (refill (clock w) rl))) eqn:Hle.
    + cbn [fst]. apply Qle_bool_iff in Hle. destruct Hb1 as [H0 Hmax].
      unfold inBounds. cbn. split; lra.
    + apply IH, Hb1.
Qed.

(** X23: the limiter hands out no more than what the bucket held plus what
    the refill rate yields over the time that has passed.  For calls of
    [tryAcquire] made at times that do not go back, none before the last
    refill, the tokens handed out in all are at most the tokens held at the
    start plus [refillRate] times the seconds between the last refill and
    the last call; so at most [maxTokens] plus that. *)
Theorem rate_is_bounded (calls : list (Z * Q)) (rl : RateLimiter) :
  inBounds rl ->
  0 <= refillRate rl ->
  (forall call, In call calls -> 0 <= snd call) ->
  Sorted Z.le (lastRefill rl :: map fst calls) ->
  let handedOut := snd (tryAcquireAll calls rl) in
  let elapsedSeconds :=
    (inject_Z (List.last (map fst calls) (lastRefill rl)) - inject_Z (lastRefill rl)) / 1000 in
  handedOut <= tokens rl + elapsedSeconds * refillRate rl
  /\ handedOut <= maxTokens rl + elapsedSeconds * refillRate rl.
Proof.
  intros Hb Hrate Hneeded Hsorted. cbn zeta.
  pose proof (tryAcquireAll_bound calls rl Hb Hrate Hneeded Hsorted) as Hbound.
  cbn zeta in Hbound.
  destruct (tryAcquireAll calls rl) as [rl' granted]. cbn [fst snd] in *.
  destruct Hbound as ([H0 _] & _ & _ & Hlr & _ & Hsum).
  destruct Hb as [_ Hmax].
  assert (Hmono : (inject_Z (lastRefill rl') - inject_Z (lastRefill rl)) / 1000
                  * refillRate rl
                  <= (inject_Z (List.last (map fst calls) (lastRefill rl))
                      - inject_Z (lastRefill rl)) / 1000 * refillRate rl).
  { apply Qmult_le_compat_r; [| exact Hrate].
    assert (Hle : inject_Z (lastRefill rl')
                  <= inject_Z (List.last (map fst calls) (lastRefill rl)))
      by (rewrite <- Zle_Qle; lia).
    unfold Qdiv. apply Qmult_le_compat_r; [lra | unfold Qle; cbn; lia]. }
  split; lra.
Qed.

(** X25: [acquire] asked for more tokens than the bucket can hold never
    returns: whatever the clock and the timers do, the loop is still
    waiting after any number of turns, and no token is taken. *)
Theorem acquire_beyond_the_bucket_never_returns (W : Type) (clock : W -> Z)
    (sleep : Q -> W -> W) (tokensNeeded : Q) (rl : RateLimiter) :
  inBounds rl ->
  maxTokens rl < tokensNeeded ->
  (forall now, snd (tryAcquire now tokensNeeded rl) = false)
  /\ forall (fuel : nat) (w : W),
       snd (acquireLoop clock sleep fuel tokensNeeded rl w) = None.
Proof.
  intros Hb Hbig. split.
  - intros now. unfold tryAcquire. cbn zeta.
    destruct (refill_inBounds now rl Hb) as [_ Hmax].
    destruct (refill_fields now rl) as (Hm & _).
    destruct (Qle_bool tokensNeeded (tokens (refill now rl))) eqn:Hle; [| reflexivity].
    apply Qle_bool_iff in Hle. rewrite Hm in Hmax. lra.
  - intros fuel. revert rl Hb Hbig.
    induction fuel as [| fuel IH]; intros rl Hb Hbig w; [reflexivity |].
    cbn [acquireLoop].
    pose proof (refill_inBounds (clock w) rl Hb) as Hb1.
    destruct (refill_fields (clock w) rl) as (Hm & _).
    destruct (Qle_bool tokensNeeded (tokens (refill (clock w) rl))) eqn:Hle.
    + apply Qle_bool_iff in Hle. destruct Hb1 as [_ Hmax]. rewrite Hm in Hmax. lra.
    + apply IH; [exact Hb1 | rewrite Hm; exact Hbig].
Qed.

End TokenBucket.

Lemma tokens_stay_in_the_bucket_witness :
  RateLimiter.inBounds (fst (RateLimiter.tryAcquire 5000 1 drainedLimiter))
  /\ snd (RateLimiter.tryAcquire 5000 1 drainedLimiter) = true.
Proof.
  assert (Hb : RateLimiter.inBounds drainedLimiter)
    by (split; unfold Qle; cbn; lia).
  assert (Hn : (0 <= 1)%Q) by (unfold Qle; cbn; lia).
  pose proof (tokens_stay_in_the_bucket 5000 1 drainedLimiter Hb Hn)
    as (_ & Hkept & _).
  split; [exact Hkept | reflexivity].
Defined.

Lemma rate_is_bounded_witness :
  (snd (RateLimiter.tryAcquireAll fourCalls smallLimiter)
   <= RateLimiter.maxTokens smallLimiter + (inject_Z 1000 - inject_Z 0) / 1000 * 1)%Q
  /\ (snd (RateLimiter.tryAcquireAll fourCalls smallLimiter) == 3)%Q.
Proof.
  split; [| reflexivity].
  refine (proj2 (rate_is_bounded fourCalls smallLimiter _ _ _ _)).
  - split; unfold Qle; cbn; lia.
  - unfold Qle; cbn; lia.
  - intros call [<- | [<- | [<- | [<- | []]]]]; unfold Qle; cbn; lia.
  - cbn. repeat constructor; lia.
Defined.

Lemma acquire_beyond_the_bucket_never_returns_witness :
  snd (RateLimiter.acquireLoop (fun now : Z => now) timer 50 101 sheetsLimiter 0)
  = None.
Proof.
  refine (proj2 (acquire_beyond_the_bucket_never_returns Z (fun now : Z => now) timer
                   101 sheetsLimiter _ _) 50%nat 0).
  - split; unfold Qle; cbn; lia.
  - reflexivity.
Defined.

(* --------------------------------------------------------------------- *)
(** ** The guards of the sheet adapter *)
(* --------------------------------------------------------------------- *)

Section AdapterGuards.

Import GoogleSheetsAdapter.

Context {W A : Type}.
Variable clock : W -> Z.
Variable sleep : Q -> W -> W.
Variable random : nat -> Q.
Variable maxRetryAttempts : nat.

Lemma retried_failing (request : async W A) (w : W) :
  (0 < maxRetryAttempts)%nat ->
  (forall w0, exists e,
      snd (request w0) = Thrown e /\ Orchestrator.isRetryableError e = true) ->
  exists e,
    retried sleep random maxRetryAttempts request w
    = (fst (worldAfter
              (Retry.afterSleep sleep request (retryOptions maxRetryAttempts) random)
              (w, 0%nat) maxRetryAttempts),
       Thrown e).
Proof.
  intros Hpos Hfails. unfold retried, Retry.retrySleeping, Retry.retry.
  set (attempt := Retry.afterSleep sleep request (retryOptions maxRetryAttempts) random).
  assert (Hthrows : forall s, exists e,
             snd (attempt s) = Thrown e /\ Orchestrator.isRetryableError e = true).
  { intros [w0 k]. unfold attempt, Retry.afterSleep.
    set (w1 := match k with O => w0 | S _ => _ end).
    destruct (Hfails w1) as (e & He & Hr). exists e.
    destruct (request w1) as [w2 settled]. cbn [snd] in *. auto. }
  pose proof (retryLoop_spec attempt (retryOptions maxRetryAttempts) random
                (Retry.maxAttempts (retryOptions maxRetryAttempts)) 0
                (ThrownValue VUndefined) (w, 0%nat) ltac:(lia)) as Hspec.
  destruct (Retry.retryLoop attempt (retryOptions maxRetryAttempts) random
              (Retry.maxAttempts (retryOptions maxRetryAttempts)) 0
              (ThrownValue VUndefined) (w, 0%nat) []) as [[[w1 k1] trace] result].
  destruct Hspec as (m & Hm & Hpos' & _ & Hworld & _ & Hres).
  cbn [Retry.maxAttempts retryOptions] in *.
  destruct result as [a | e].
  - exfalso. destruct Hres as (j & _ & Hret).
    assert (Hw : exists s0, invocation attempt (w, 0%nat) j = attempt s0).
    { destruct j; eexists; reflexivity. }
    destruct Hw as (s0 & Hw). rewrite Hw in Hret.
    destruct (Hthrows s0) as (e & He & _). congruence.
  - exists e. destruct Hres as [(-> & Hzero & _) | (j & -> & Hthrown & [Hno | Hall])].
    + lia.
    + exfalso.
      assert (Hw : exists s0, invocation attempt (w, 0%nat) j = attempt s0).
      { destruct j; eexists; reflexivity. }
      destruct Hw as (s0 & Hw). rewrite Hw in Hthrown.
      destruct (Hthrows s0) as (e' & He' & Hretry).
      unfold Retry.retryable in Hno. cbn in Hno. congruence.
    + rewrite <- Hall, <- Hworld. reflexivity.
Qed.

(** X26: every call of the sheet adapter takes one token, then goes
    through the breaker, then through [retry].  With a token in the bucket:
    a call made while the breaker is open and cooling down is rejected
    without a request to the API, and has taken its token all the same; a
    call whose request succeeds at once takes one token and counts as a
    success for the breaker; a call whose requests all fail with retryable
    errors sends [MAX_RETRY_ATTEMPTS] requests to the API for its one token,
    sleeping between any two of them, and the breaker counts them as one
    failure, at the time of the last request. *)
Theorem adapter_call_costs_one_token (request : async W A)
    (adapter : GoogleSheetsAdapter) (w : W) (fuel : nat) :
  let bucket := RateLimiter.refill (clock w) (rateLimiter adapter) in
  let taken := RateLimiter.withTokens (RateLimiter.tokens bucket - 1) bucket in
  let breaker := circuitBreaker adapter in
  (1 <= RateLimiter.tokens bucket)%Q ->
  (CircuitBreaker.state breaker = CircuitBreaker.OPEN ->
   clock w - CircuitBreaker.lastFailureTime breaker
   <= CircuitBreaker.timeout (CircuitBreaker.options breaker) ->
   guarded clock sleep random maxRetryAttempts (S fuel) request (adapter, w)
   = Some ({| rateLimiter := taken; circuitBreaker := breaker |}, w,
           Thrown (CircuitBreaker.openError breaker)))
  /\ (CircuitBreaker.state breaker = CircuitBreaker.CLOSED ->
      forall w1 result,
        (0 < maxRetryAttempts)%nat ->
        request w = (w1, Returned result) ->
        guarded clock sleep random maxRetryAttempts (S fuel) request (adapter, w)
        = Some ({| rateLimiter := taken;
                   circuitBreaker := CircuitBreaker.onSuccess breaker |},
                w1, Returned result))
  /\ (CircuitBreaker.state breaker = CircuitBreaker.CLOSED ->
      (0 < maxRetryAttempts)%nat ->
      (forall w0, exists e,
          snd (request w0) = Thrown e /\ Orchestrator.isRetryableError e = true) ->
      let '(w', requests) :=
        worldAfter
          (Retry.afterSleep sleep request (retryOptions maxRetryAttempts) random)
          (w, 0%nat) maxRetryAttempts in
      requests = maxRetryAttempts
      /\ exists e,
           guarded clock sleep random maxRetryAttempts (S fuel) request (adapter, w)
           = Some ({| rateLimiter := taken;
                      circuitBreaker := CircuitBreaker.onFailure (clock w') breaker |},
                   w', Thrown e)).
Proof.
  intros bucket taken breaker Htoken.
  assert (Hacquire : RateLimiter.acquireLoop clock sleep (S fuel) 1
                       (rateLimiter adapter) w = (taken, w, Some tt)).
  { cbn [RateLimiter.acquireLoop]. fold bucket.
    apply Qle_bool_iff in Htoken. rewrite Htoken. reflexivity. }
  split_and!.
  - intros Hopen Hcool. unfold guarded. rewrite Hacquire.
    unfold CircuitBreaker.execute. fold breaker. rewrite Hopen.
    apply Z.ltb_ge in Hcool. rewrite Hcool. reflexivity.
  - intros Hclosed w1 result Hpos Hreturns. unfold guarded. rewrite Hacquire.
    unfold CircuitBreaker.execute, CircuitBreaker.attempt. fold breaker.
    rewrite Hclosed.
    assert (Hretried : retried sleep random maxRetryAttempts request w
                       = (w1, Returned result)).
    { unfold retried, Retry.retrySleeping, Retry.retry.
      cbn [Retry.maxAttempts retryOptions].
      destruct maxRetryAttempts as [| n]; [lia |].
      cbn [Retry.retryLoop]. unfold Retry.afterSleep at 1.
      rewrite Hreturns. reflexivity. }
    rewrite Hretried. reflexivity.
  - intros Hclosed Hpos Hfails.
    destruct (retried_failing request w Hpos Hfails) as (e & Hretried).
    assert (Hcount : forall n s,
              snd (worldAfter
                     (Retry.afterSleep sleep request (retryOptions maxRetryAttempts)
                        random) s n)
              = (snd s + n)%nat).
    { induction n as [| n IH]; intros s.
      - cbn. lia.
      - rewrite worldAfter_shift, IH. destruct s as [w0 k].
        unfold Retry.afterSleep.
        match goal with |- context [request ?x] => destruct (request x) end.
        cbn. lia. }
    specialize (Hcount maxRetryAttempts (w, 0%nat)).
    destruct (worldAfter _ (w, 0%nat) maxRetryAttempts) as [w' requests].
    cbn [fst snd] in *.
    split; [exact Hcount |].
    exists e. unfold guarded. rewrite Hacquire.
    unfold CircuitBreaker.execute, CircuitBreaker.attempt. fold breaker.
    rewrite Hclosed, Hretried. reflexivity.
Qed.

End AdapterGuards.

(** Five requests of a millisecond each, every one answered with a 503,
    from time 0: the sleeps between them last 1000, 2000, 4000 and 8000
    milliseconds, and the breaker stamps its one failure at the end. *)
Lemma adapter_call_costs_one_token_witness :
  match GoogleSheetsAdapter.guarded (fun now : Z => now) punctualTimer
          (fun _ => 1 # 2) 5 1 failingRequest (freshAdapter, 0) with
  | Some (adapter', now', _) =>
      now' = 15005
      /\ (RateLimiter.tokens (GoogleSheetsAdapter.rateLimiter adapter') == 99)%Q
      /\ CircuitBreaker.failureTimestamps (GoogleSheetsAdapter.circuitBreaker adapter')
         = [15005]
  | None => False
  end.
Proof.
  assert (Htoken : (1 <= RateLimiter.tokens
                          (RateLimiter.refill 0
                             (GoogleSheetsAdapter.rateLimiter freshAdapter)))%Q)
    by (vm_compute; discriminate).
  destruct (adapter_call_costs_one_token (fun now : Z => now) punctualTimer
              (fun _ => 1 # 2) 5 failingRequest freshAdapter 0 0 Htoken)
    as (_ & _ & Hfails).
  specialize (Hfails eq_refl ltac:(lia)
                ltac:(intros now; eexists; split; reflexivity)).
  destruct (worldAfter _ (0, 0%nat) 5) as [w' requests] eqn:Hworld.
  destruct Hfails as (_ & e & Hrun).
  rewrite Hrun. clear Hrun.
  assert (Hw : w' = 15005) by (vm_compute in Hworld; congruence).
  subst w'. vm_compute. split_and!; reflexivity.
Defined.

(* --------------------------------------------------------------------- *)
(** ** The in-memory job queue *)
(* --------------------------------------------------------------------- *)

Section JobQueue.

Import InMemoryQueue.

Context {W : Type}.
Variable sleep : Z -> W -> W.

(** X27: a job whose handler throws is lost.  The loop takes the job out
    of the queue before it runs the handler, and [moveToDeadLetter] looks
    the job up in the queue: so the failed job is never the one recorded.
    When no job waiting in the queue carries its id, nothing is recorded at
    all and the number of failed jobs that [getHealth] reports stays as it
    was; when one does, that other job is recorded, with the error, and
    stays in the queue. *)
Theorem failed_job_is_lost (handler : Job -> async (InMemoryQueue * W) unit)
    (q : InMemoryQueue) (w : W) (job : Job) (rest : list Job) :
  let taken := withProcessing ({[id job]} ∪ processing q) (withQueue rest q) in
  forall q2 w2 error,
    queue q = job :: rest ->
    handler job (taken, w) = ((q2, w2), Thrown error) ->
    let '(q', w') := turn sleep handler (q, w) in
    w' = w2
    /\ queue q' = queue q2
    /\ (id job ∉ processing q')
    /\ match List.find (fun j => String.eqb (id j) (id job)) (queue q2) with
       | None =>
           deadLetterQueue q' = deadLetterQueue q2
           /\ failed (getHealth q') = failed (getHealth q2)
       | Some other =>
           deadLetterQueue q' = deadLetterQueue q2 ++ [(other, error)]
           /\ In other (queue q') /\ id other = id job
       end.
Proof.
  intros taken q2 w2 error Hqueue Hthrows.
  unfold turn. rewrite Hqueue. fold taken. rewrite Hthrows.
  unfold moveToDeadLetter. cbn [queue withProcessing].
  destruct (List.find (fun j => String.eqb (id j) (id job)) (queue q2))
    as [other |] eqn:Hfind; cbn.
  - split_and!; try reflexivity.
    + apply not_elem_of_difference. right. apply elem_of_singleton. reflexivity.
    + apply find_some in Hfind as [Hin _]. exact Hin.
    + apply find_some in Hfind as [_ Heq]. apply String.eqb_eq, Heq.
  - split_and!; try reflexivity.
    apply not_elem_of_difference. right. apply elem_of_singleton. reflexivity.
Qed.

Lemma find_absent (jobs : list Job) (key : string) :
  key ∉ map id jobs -> List.find (fun j => String.eqb (id j) key) jobs = None.
Proof.
  intros Hnot. destruct (List.find _ jobs) as [job |] eqn:Hfind; [| reflexivity].
  exfalso. apply find_some in Hfind as [Hin Heq]. apply String.eqb_eq in Heq.
  apply Hnot. rewrite <- Heq. apply list_elem_of_In, in_map, Hin.
Qed.

Lemma add_then_delete (key : string) (ids : gset string) :
  key ∉ ids -> ({[key]} ∪ ids) ∖ {[key]} = ids.
Proof.
  intros Hnot. apply set_eq. intros other.
  rewrite elem_of_difference, elem_of_union, elem_of_singleton. split.
  - intros [[-> | Hin] Hne]; [congruence | exact Hin].
  - intros Hin. split; [right; exact Hin |]. intros ->. exact (Hnot Hin).
Qed.

Lemma processLoop_aside (handle : Job -> async W unit) (jobs : list Job) :
  forall (q : InMemoryQueue) (w : W),
    queue q = jobs -> isProcessing q = true -> NoDup (map id jobs) ->
    (forall job, In job jobs -> id job ∉ processing q) ->
    processLoop sleep (aside handle) (length jobs) (q, w)
    = (withQueue [] q, handled handle jobs w).
Proof.
  induction jobs as [| job rest IH]; intros q w Hqueue Hrun Hnodup Hfree.
  - cbn. destruct q. cbn in *. subst. reflexivity.
  - cbn [length processLoop fst]. rewrite Hrun.
    apply NoDup_cons in Hnodup as [Hfresh Hnodup].
    assert (Hin : id job ∉ processing q) by (apply Hfree; left; reflexivity).
    assert (Hback : ({[id job]} ∪ processing q) ∖ {[id job]} = processing q)
      by (apply add_then_delete, Hin).
    assert (Hturn : turn sleep (aside handle) (q, w)
                    = (withQueue rest q, fst (handle job w))).
    { unfold turn. rewrite Hqueue. unfold aside, zoom. cbn [fst snd].
      destruct (handle job w) as [w1 [[] | error]]; cbn [fst].
      - cbn. rewrite Hback. destruct q. reflexivity.
      - unfold moveToDeadLetter. cbn [queue withProcessing withQueue].
        rewrite find_absent by exact Hfresh.
        cbn. rewrite Hback. destruct q. reflexivity. }
    rewrite Hturn. rewrite IH; try assumption; try reflexivity.
    intros other Hother. apply Hfree. right. exact Hother.
Qed.

(** X28: the loop handles the waiting jobs one at a time, oldest first,
    each once.  With a handler that leaves the queue alone and jobs whose
    ids differ, as many turns as there are jobs empty the queue; the world
    is then as after the handler ran on each job in the order of the queue,
    and the jobs whose handler threw have left no trace: the dead-letter
    list and the set of jobs in process are as before.  [enqueue] puts a job
    at the end of the queue whatever the options say. *)
Theorem queue_is_first_in_first_out (clock : W -> Z) (randomSuffix : W -> string)
    (handle : Job -> async W unit) (q : InMemoryQueue) (w : W) :
  isProcessing q = false ->
  NoDup (map id (queue q)) ->
  (forall job, In job (queue q) -> id job ∉ processing q) ->
  process sleep (aside handle) (length (queue q)) (q, w)
  = (withQueue [] (withIsProcessing true q), handled handle (queue q) w)
  /\ (forall payload options,
        let '(q', w', jobId) := enqueue clock randomSuffix payload options (q, w) in
        w' = w
        /\ exists job,
             queue q' = queue q ++ [job] /\ id job = jobId /\ data job = payload
             /\ attemptsMade job = 0
             /\ depth (getHealth q') = S (depth (getHealth q))
             /\ q' = fst (fst (enqueue clock randomSuffix payload None (q, w)))).
Proof.
  intros Hidle Hnodup Hfree. split.
  - unfold process. cbn [fst snd]. rewrite Hidle.
    apply (processLoop_aside handle (queue q)); try assumption; reflexivity.
  - intros payload options. cbn.
    split; [reflexivity |]. eexists. split_and!; try reflexivity.
    rewrite length_app. cbn. lia.
Qed.

End JobQueue.

Lemma failed_job_is_lost_witness :
  let failing : InMemoryQueue.Job -> async (InMemoryQueue.InMemoryQueue * unit) unit :=
    fun _ s => (s, Thrown (ThrownError "503 Service Unavailable")) in
  let q := InMemoryQueue.withIsProcessing true twoJobs in
  let q' := fst (InMemoryQueue.turn (fun _ w => w) failing (q, tt)) in
  InMemoryQueue.queue q' = [sheetJob "job-2"]
  /\ InMemoryQueue.deadLetterQueue q' = []
  /\ InMemoryQueue.failed (InMemoryQueue.getHealth q') = 0%nat.
Proof.
  intros failing q q'.
  pose proof (failed_job_is_lost (fun _ w => w) failing q tt (sheetJob "job-1")
                [sheetJob "job-2"] _ tt (ThrownError "503 Service Unavailable")
                eq_refl eq_refl) as Hlost.
  subst q'. destruct (InMemoryQueue.turn _ failing (q, tt)) as [q' w'].
  destruct Hlost as (_ & Hqueue & _ & Hdead). cbn in Hdead.
  destruct Hdead as [Hdead Hfailed].
  split_and!; [exact Hqueue | exact Hdead | exact Hfailed].
Defined.

Lemma queue_is_first_in_first_out_witness :
  InMemoryQueue.process (fun _ log => log) (InMemoryQueue.aside logAndFailFirst) 2
    (twoJobs, [])
  = (InMemoryQueue.withIsProcessing true InMemoryQueue.empty, ["job-1"; "job-2"]).
Proof.
  refine (proj1 (queue_is_first_in_first_out (fun _ log => log)
                   (fun _ : list string => 0) (fun _ => "")
                   logAndFailFirst twoJobs [] _ _ _)).
  - reflexivity.
  - apply (bool_decide_unpack _). vm_compute. reflexivity.
  - intros job _. apply not_elem_of_empty.
Defined.

(* --------------------------------------------------------------------- *)
(** ** From the table to the sheet and back *)
(* --------------------------------------------------------------------- *)

Section SheetFormat.

Import Metadata Worker.

Lemma insertSorted_perm (s : string) (l : list string) :
  Permutation (s :: l) (insertSorted s l).
Proof.
  induction l as [| t l IH]; cbn; [reflexivity |].
  destruct (String.leb s t); [reflexivity |].
  rewrite perm_swap. constructor. exact IH.
Qed.

Lemma sortStrings_perm (l : list string) : Permutation l (sortStrings l).
Proof.
  induction l as [| s l IH]; cbn; [reflexivity |].
  rewrite <- insertSorted_perm. constructor. exact IH.
Qed.

Lemma mappingGet_In (mapping : list (string * string)) (letter name : string) :
  NoDup (map fst mapping) -> In (letter, name) mapping ->
  mappingGet mapping letter = Some name.
Proof.
  induction mapping as [| [k n] mapping IH]; [intros _ [] |].
  cbn. intros Hnd. apply NoDup_cons in Hnd as (Hnot & Hnd).
  intros [[= -> ->] | Hin].
  - rewrite String.eqb_refl. reflexivity.
  - destruct (String.eqb_spec k letter) as [-> | _]; [| apply IH; assumption].
    exfalso. apply Hnot. apply list_elem_of_In.
    change letter with (fst (letter, name)). apply in_map, Hin.
Qed.

Lemma mappingGet_Some (mapping : list (string * string)) (letter name : string) :
  mappingGet mapping letter = Some name -> In (letter, name) mapping.
Proof.
  induction mapping as [| [k n] mapping IH]; [discriminate |].
  cbn. destruct (String.eqb_spec k letter) as [-> | _].
  - intros [= ->]. left. reflexivity.
  - intros H. right. apply IH, H.
Qed.

Lemma same_name_same_letter (mapping : list (string * string))
    (letter letter' name : string) :
  NoDup (map snd mapping) -> In (letter, name) mapping -> In (letter', name) mapping ->
  letter = letter'.
Proof.
  induction mapping as [| [l0 n0] mapping IH]; [intros _ [] |].
  cbn. intros Hnd. apply NoDup_cons in Hnd as (Hnot & Hnd).
  intros [Heq1 | H1] [Heq2 | H2].
  - congruence.
  - exfalso. apply Hnot, list_elem_of_In. injection Heq1 as _ ->.
    change name with (snd (letter', name)). apply in_map, H2.
  - exfalso. apply Hnot, list_elem_of_In. injection Heq2 as _ ->.
    change name with (snd (letter, name)). apply in_map, H1.
  - apply IH; assumption.
Qed.

Lemma convertRow_fold (names : list string) (cellsOfRow : list value) :
  convertRow names cellsOfRow
  = fold_left (fun row '(name, cell) => prop_set row name cell)
      (imap (fun j cell => (default "undefined" (names !! j), cell)) cellsOfRow) [].
Proof.
  unfold convertRow. generalize (@nil (string * value)).
  assert (Hgen : forall (f : nat -> nat) (acc : RowData),
            fold_left
              (fun row '(j, cell) => prop_set row (default "undefined" (names !! j)) cell)
              (imap (fun j cell => (f j, cell)) cellsOfRow) acc
            = fold_left (fun row '(name, cell) => prop_set row name cell)
                (imap (fun j cell => (default "undefined" (names !! f j), cell))
                   cellsOfRow) acc).
  { induction cellsOfRow as [| cell rest IH]; intros f acc; [reflexivity |].
    cbn [imap fold_left]. exact (IH (f ∘ S) _). }
  intros acc. exact (Hgen (fun j => j) acc).
Qed.

Lemma prop_get_fold_set (pairs : list (string * value)) (acc : RowData)
    (j : nat) (name : string) (v : value) :
  pairs !! j = Some (name, v) ->
  (forall i other w, pairs !! i = Some (other, w) -> i <> j -> other <> name) ->
  prop_get (fold_left (fun row '(n, c) => prop_set row n c) pairs acc) name = v.
Proof.
  revert j acc. induction pairs as [| [n c] pairs IH] using rev_ind;
    intros j acc Hj Hothers; [discriminate |].
  rewrite fold_left_app. cbn [fold_left]. rewrite prop_get_prop_set.
  destruct (decide (j = length pairs)) as [-> | Hne].
  - rewrite lookup_app_r in Hj by lia. rewrite Nat.sub_diag in Hj.
    injection Hj as -> ->. rewrite String.eqb_refl. reflexivity.
  - assert (Hlt : (j < length pairs)%nat).
    { apply lookup_lt_Some in Hj. rewrite length_app in Hj. cbn in Hj. lia. }
    rewrite lookup_app_l in Hj by exact Hlt.
    destruct (String.eqb_spec n name) as [-> | _].
    + exfalso. apply (Hothers (length pairs) name c); [| lia | reflexivity].
      rewrite lookup_app_r by lia. rewrite Nat.sub_diag. reflexivity.
    + apply (IH j); [exact Hj |].
      intros i other w Hi Hij. apply (Hothers i other w); [| exact Hij].
      apply lookup_app_l_Some, Hi.
Qed.

Lemma round_trip_of_sorted_letters (config : SyncConfig) (row : RowData)
    (header : list value) (k : nat) :
  sortStrings (map fst (column_mapping config)) = map indexToColumnLetter (seq 0 k) ->
  NoDup (map fst (column_mapping config)) ->
  NoDup (map snd (column_mapping config)) ->
  (forall letter, ~ In (letter, "") (column_mapping config)) ->
  (k <= length header)%nat ->
  let cells := convertRowToSheetFormat config row in
  length cells = k
  /\ convertSheetDataToRows config [header; cells]
     = [convertRow (columnNames config header) cells]
  /\ forall letter name,
       In (letter, name) (column_mapping config) ->
       prop_get (convertRow (columnNames config header) cells) name
       = (if is_nullish (prop_get row name) then VStr "" else prop_get row name).
Proof.
  intros Hletters Hkeys Hnames Hfilled Hheader cells.
  assert (Hlen : length cells = k).
  { unfold cells, convertRowToSheetFormat.
    rewrite length_map, Hletters, length_map, length_seq. reflexivity. }
  split_and!; [exact Hlen | reflexivity |].
  intros letter name Hin.
  assert (Hsorted : In letter (sortStrings (map fst (column_mapping config)))).
  { apply (Permutation_in _ (sortStrings_perm _)).
    change letter with (fst (letter, name)). apply in_map, Hin. }
  rewrite Hletters in Hsorted. apply in_map_iff in Hsorted as (j & Hj & Hseq).
  apply in_seq in Hseq. cbn in Hseq.
  assert (Hletter : forall i, (i < k)%nat ->
            exists n, In (indexToColumnLetter i, n) (column_mapping config)
                      /\ mappingGet (column_mapping config) (indexToColumnLetter i) = Some n
                      /\ n <> "").
  { intros i Hi.
    assert (Hkey : In (indexToColumnLetter i) (map fst (column_mapping config))).
    { apply (Permutation_in _ (Permutation_sym (sortStrings_perm _))).
      rewrite Hletters. apply in_map, in_seq. lia. }
    apply in_map_iff in Hkey as ([l n] & Hl & Hpair). cbn in Hl. subst l.
    exists n. split_and!; [exact Hpair | apply mappingGet_In; assumption |].
    intros ->. exact (Hfilled _ Hpair). }
  assert (Hname : forall i, (i < k)%nat ->
            forall n, mappingGet (column_mapping config) (indexToColumnLetter i) = Some n ->
            columnNames config header !! i = Some n).
  { intros i Hi n Hn. unfold columnNames.
    destruct (lookup_lt_is_Some_2 header i ltac:(lia)) as (h & Hh).
    rewrite list_lookup_imap, Hh. cbn [fmap option_fmap option_map]. rewrite Hn.
    destruct (Hletter i Hi) as (n' & _ & Hn' & Hne).
    assert (n' = n) as -> by congruence.
    unfold orElse. destruct (String.eqb_spec n ""); [contradiction | reflexivity]. }
  assert (Hcell : forall i, (i < k)%nat ->
            forall n, mappingGet (column_mapping config) (indexToColumnLetter i) = Some n ->
            cells !! i
            = Some (if is_nullish (prop_get row n) then VStr "" else prop_get row n)).
  { intros i Hi n Hn. unfold cells, convertRowToSheetFormat.
    rewrite Hletters. apply list_lookup_fmap_Some.
    exists (indexToColumnLetter i).
    split; [cbn beta; rewrite Hn; reflexivity |].
    apply list_lookup_fmap_Some. exists i. split; [reflexivity |].
    apply lookup_seq. split; [reflexivity | exact Hi]. }
  assert (Hget : mappingGet (column_mapping config) (indexToColumnLetter j) = Some name)
    by (rewrite Hj; apply mappingGet_In; assumption).
  rewrite convertRow_fold.
  apply (prop_get_fold_set _ _ j).
  - rewrite list_lookup_imap, (Hcell j ltac:(lia) name Hget). cbn.
    rewrite (Hname j ltac:(lia) name Hget). reflexivity.
  - intros i other w Hi Hij Hsame. subst other.
    rewrite list_lookup_imap in Hi.
    destruct (cells !! i) as [c |] eqn:Hc; [| discriminate].
    assert (Hik : (i < k)%nat) by (apply lookup_lt_Some in Hc; lia).
    destruct (Hletter i Hik) as (n & Hpair & Hn & _).
    rewrite (Hname i Hik n Hn) in Hi. cbn in Hi. injection Hi as Hn' _. subst n.
    assert (Hsame : indexToColumnLetter i = letter)
      by exact (same_name_same_letter _ _ _ _ Hnames Hpair Hin).
    rewrite <- Hj in Hsame.
    assert (Hnd : NoDup (map indexToColumnLetter (seq 0 k))).
    { rewrite <- Hletters, <- sortStrings_perm. exact Hkeys. }
    apply Hij.
    apply (NoDup_lookup _ i j (indexToColumnLetter i) Hnd);
      apply list_lookup_fmap_Some; [exists i | exists j];
      (split; [congruence | apply lookup_seq; split; [reflexivity | lia]]).
Qed.


Lemma ascii_compare_refl (a : ascii) : Ascii.compare a a = Eq.
Proof. unfold Ascii.compare. apply N.compare_refl. Qed.

Lemma ascii_compare_eq (a b : ascii) : Ascii.compare a b = Eq -> a = b.
Proof.
  unfold Ascii.compare. intros H. apply N.compare_eq in H.
  rewrite <- (ascii_N_embedding a), <- (ascii_N_embedding b), H. reflexivity.
Qed.

Lemma ascii_compare_lt_trans (a b c : ascii) :
  Ascii.compare a b = Lt -> Ascii.compare b c = Lt -> Ascii.compare a c = Lt.
Proof. unfold Ascii.compare. rewrite !N.compare_lt_iff. apply N.lt_trans. Qed.

Lemma precedes_trans (s t u : string) : precedes s t -> precedes t u -> precedes s u.
Proof.
  unfold precedes, String.leb. revert t u.
  induction s as [| a s IH]; intros [| b t] [| c u]; cbn; try congruence.
  destruct (Ascii.compare a b) eqn:Hab; [| | discriminate];
    (destruct (Ascii.compare b c) eqn:Hbc; [| | discriminate]).
  - apply ascii_compare_eq in Hab, Hbc. subst b c.
    rewrite ascii_compare_refl. apply IH.
  - apply ascii_compare_eq in Hab. subst b. rewrite Hbc. reflexivity.
  - apply ascii_compare_eq in Hbc. subst c. rewrite Hab. reflexivity.
  - rewrite (ascii_compare_lt_trans _ _ _ Hab Hbc). reflexivity.
Qed.

Lemma precedes_total (s t : string) : String.leb s t = false -> precedes t s.
Proof.
  intros H. destruct (String.leb_total s t) as [Hst | Hts]; [congruence | exact Hts].
Qed.

Lemma insertSorted_sorted (s : string) (l : list string) :
  StronglySorted precedes l -> StronglySorted precedes (insertSorted s l).
Proof.
  induction 1 as [| t l Hl IH Ht]; cbn.
  - constructor; constructor.
  - destruct (String.leb s t) eqn:Hst.
    + constructor; [constructor; assumption |].
      constructor; [exact Hst |].
      eapply Forall_impl; [exact Ht |]. intros u. apply precedes_trans, Hst.
    + constructor; [exact IH |].
      rewrite <- insertSorted_perm. constructor; [| exact Ht].
      apply precedes_total, Hst.
Qed.

Lemma sortStrings_sorted (l : list string) : StronglySorted precedes (sortStrings l).
Proof.
  induction l as [| s l IH]; cbn; [constructor |]. apply insertSorted_sorted, IH.
Qed.

Lemma single_letters_sorted (k : nat) :
  (k <= 26)%nat -> StronglySorted precedes (map indexToColumnLetter (seq 0 k)).
Proof.
  intros Hk.
  assert (Hall : StronglySorted precedes (map indexToColumnLetter (seq 0 26))).
  { repeat (constructor; [| repeat (constructor; [reflexivity |]); constructor]).
    constructor. }
  replace 26%nat with (k + (26 - k))%nat in Hall by lia.
  rewrite seq_app, map_app in Hall. exact (StronglySorted_app_1_l _ _ _ Hall).
Qed.

(** The sorted letters of a mapping over the first [k] columns are these
    columns in their order, as long as every letter is a single one. *)
Lemma sortStrings_single_letters (letters : list string) (k : nat) :
  (k <= 26)%nat ->
  Permutation letters (map indexToColumnLetter (seq 0 k)) ->
  sortStrings letters = map indexToColumnLetter (seq 0 k).
Proof.
  intros Hk Hperm.
  apply (StronglySorted_unique_strong precedes).
  - intros s t _ _ Hst Hts. apply String.leb_antisym; assumption.
  - apply sortStrings_sorted.
  - apply single_letters_sorted, Hk.
  - rewrite <- sortStrings_perm. exact Hperm.
Qed.

Lemma single_letters_NoDup (k : nat) :
  (k <= 26)%nat -> NoDup (map indexToColumnLetter (seq 0 k)).
Proof.
  intros Hk.
  assert (Hall : NoDup (map indexToColumnLetter (seq 0 26)))
    by (apply (bool_decide_unpack _); vm_compute; reflexivity).
  replace 26%nat with (k + (26 - k))%nat in Hall by lia.
  rewrite seq_app, map_app in Hall. apply NoDup_app in Hall as (Hl & _). exact Hl.
Qed.

(** X29: with 26 columns or fewer, what the table-to-sheet worker writes
    for a row, the sheet-to-table worker reads back as that row; from 27
    columns on it does not.  When the letters of the mapping are the first
    [k] column letters in any order, [k] is 26 at most, the mapped names are
    not empty and differ from one another, and the header has [k] cells or
    more, the cells [convertRowToSheetFormat] builds for a row are [k], and
    [convertSheetDataToRows] gives every mapped column the value the row
    held for it, the empty string standing for null and undefined.  With
    the 27 columns [A] to [AA], [sort] puts [AA] before [B]: the cell of
    column [AA] is written second and read back under the name of column
    [B]. *)
Theorem sheet_format_round_trip :
  (forall (config : SyncConfig) (row : RowData) (header : list value) (k : nat),
     Permutation (map fst (column_mapping config))
       (map indexToColumnLetter (seq 0 k)) ->
     (k <= 26)%nat ->
     NoDup (map snd (column_mapping config)) ->
     (forall letter, ~ In (letter, "") (column_mapping config)) ->
     (k <= length header)%nat ->
     let cells := convertRowToSheetFormat config row in
     length cells = k
     /\ convertSheetDataToRows config [header; cells]
        = [convertRow (columnNames config header) cells]
     /\ forall letter name,
          In (letter, name) (column_mapping config) ->
          prop_get (convertRow (columnNames config header) cells) name
          = (if is_nullish (prop_get row name) then VStr "" else prop_get row name))
  /\ (let row := [("c1", VStr "b"); ("c26", VStr "z")] in
      let header := repeat (VStr "h") 27 in
      let cells := convertRowToSheetFormat wideConfig row in
      map fst (column_mapping wideConfig) = map indexToColumnLetter (seq 0 27)
      /\ mappingGet (column_mapping wideConfig) "B" = Some "c1"
      /\ mappingGet (column_mapping wideConfig) "AA" = Some "c26"
      /\ NoDup (map snd (column_mapping wideConfig))
      /\ length cells = 27%nat
      /\ cells !! 1%nat = Some (VStr "z")
      /\ cells !! 2%nat = Some (VStr "b")
      /\ prop_get row "c1" = VStr "b"
      /\ prop_get (convertRow (columnNames wideConfig header) cells) "c1" = VStr "z").
Proof.
  split.
  - intros config row header k Hperm Hk Hnames Hfilled Hheader.
    apply round_trip_of_sorted_letters; try assumption.
    + apply sortStrings_single_letters; assumption.
    + rewrite Hperm. apply single_letters_NoDup, Hk.
  - cbv zeta. split_and!; try (vm_compute; reflexivity).
    apply (bool_decide_unpack _). vm_compute. reflexivity.
Qed.

End SheetFormat.

Lemma sheet_format_round_trip_witness :
  let row := [("id", VStr "2"); ("name", VStr "Bobby")] in
  let header := [VStr "id"; VStr "name"] in
  Worker.convertRowToSheetFormat usersConfig row = [VStr "2"; VStr "Bobby"]
  /\ Worker.convertSheetDataToRows usersConfig
       [header; Worker.convertRowToSheetFormat usersConfig row]
     = [row].
Proof.
  intros row header.
  assert (Hletters : Permutation (map fst (Metadata.column_mapping usersConfig))
                       (map Worker.indexToColumnLetter (seq 0 2)))
    by (vm_compute; reflexivity).
  assert (Hnames : NoDup (map snd (Metadata.column_mapping usersConfig)))
    by (apply (bool_decide_unpack _); vm_compute; reflexivity).
  assert (Hfilled : forall letter,
             ~ In (letter, "") (Metadata.column_mapping usersConfig))
    by (intros letter [H | [H | []]]; discriminate).
  assert (Hheader : (2 <= length header)%nat) by (cbn; lia).
  destruct (proj1 sheet_format_round_trip usersConfig row header 2%nat Hletters
              ltac:(lia) Hnames Hfilled Hheader) as (_ & Hback & _).
  split; [vm_compute; reflexivity |].
  rewrite Hback. vm_compute. reflexivity.
Defined.

(* --------------------------------------------------------------------- *)
(** ** The sync that creating a configuration runs *)
(* --------------------------------------------------------------------- *)

Section InlineSync.

Import Metadata ConfigRoutes.
Local Open Scope async_scope.

Variable config : SyncConfig.

Lemma wroteAsExternal_refl (w : World) : wroteAsExternal w w.
Proof.
  unfold wroteAsExternal. split_and!; try reflexivity.
  exists []. rewrite app_nil_r. split; [reflexivity | constructor].
Qed.

Lemma wroteAsExternal_trans (w1 w2 w3 : World) :
  wroteAsExternal w1 w2 -> wroteAsExternal w2 w3 -> wroteAsExternal w1 w3.
Proof.
  intros (Hm & Hs & Hp & Ht & a1 & H1 & F1) (Hm' & Hs' & Hp' & Ht' & a2 & H2 & F2).
  unfold wroteAsExternal. split_and!; try congruence.
  exists (a1 ++ a2). rewrite H2, H1, app_assoc. split; [reflexivity |].
  apply Forall_app. split; [exact F1 |]. rewrite <- Ht. exact F2.
Qed.

Lemma logChange_external (op : MySQL.Operation) (snapshot : RowData)
    (db0 : MySQL.Database) :
  MySQL.tableName (MySQL.logChange op snapshot None db0) = MySQL.tableName db0
  /\ exists added,
       MySQL.changeLog (MySQL.logChange op snapshot None db0)
       = MySQL.changeLog db0 ++ added
       /\ Forall (external (MySQL.tableName db0)) added.
Proof.
  split; [reflexivity |]. eexists. split; [reflexivity |].
  repeat constructor.
Qed.

Lemma logUpdates_external (touched : list RowData) (db0 : MySQL.Database) :
  MySQL.tableName (MySQL.logUpdates touched None db0) = MySQL.tableName db0
  /\ exists added,
       MySQL.changeLog (MySQL.logUpdates touched None db0)
       = MySQL.changeLog db0 ++ added
       /\ Forall (external (MySQL.tableName db0)) added.
Proof.
  unfold MySQL.logUpdates. revert db0.
  induction touched as [| row touched IH]; intros db0; cbn [fold_left].
  - split; [reflexivity |]. exists []. rewrite app_nil_r.
    split; [reflexivity | constructor].
  - destruct (IH (MySQL.logChange MySQL.UPDATE row None db0)) as (Ht & added & Hlog & Hall).
    split; [rewrite Ht; reflexivity |].
    eexists. rewrite Hlog. cbn [MySQL.logChange MySQL.changeLog].
    rewrite <- app_assoc. split; [reflexivity |].
    apply Forall_app. split; [repeat constructor | exact Hall].
Qed.

Lemma insert_external (table : string) (data : RowData) (db0 db1 : MySQL.Database) :
  MySQL.applyDml None (MySQL.InsertOnDuplicateKeyUpdate table data) db0 = Some db1 ->
  MySQL.tableName db1 = MySQL.tableName db0
  /\ exists added,
       MySQL.changeLog db1 = MySQL.changeLog db0 ++ added
       /\ Forall (external (MySQL.tableName db0)) added.
Proof.
  cbn [MySQL.applyDml]. destruct (_ && _); [| discriminate].
  destruct (existsb _ _); intros [= <-].
  - apply (logUpdates_external _ (MySQL.withRows _ db0)).
  - apply (logChange_external _ _ (MySQL.withRows _ db0)).
Qed.

Abbreviation AtRest :=
  (fun w : World =>
     is_Some (MySQL.pool (MySQL.adapter (db w))) /\ MySQL.quiescent (db w)).

Lemma Run_insert_external (rowData : RowData) :
  Run AtRest wroteAsExternal
    (onDb (MySQL.insert (VStr (db_table_name config)) rowData None)).
Proof.
  intros w [Hpool Hq]. unfold onDb, zoom.
  pose proof (insert_spec (db_table_name config) rowData None (db w) Hpool Hq)
    as (Hq' & Hpool' & Hdb).
  cbn [MySQL.truthySourceTag] in Hdb.
  destruct (MySQL.insert (VStr (db_table_name config)) rowData None (db w))
    as [s' settled]. cbn [fst snd] in *.
  split; [split; assumption |].
  unfold wroteAsExternal. cbn [fst db metadata spreadsheet processedOperations withDb].
  split_and!; try reflexivity.
  - destruct (MySQL.applyDml None _ (MySQL.database (db w))) as [db1 |] eqn:Happly.
    + destruct Hdb as [_ ->]. apply insert_external in Happly as [Ht _]. exact Ht.
    + destruct Hdb as [_ ->]. reflexivity.
  - destruct (MySQL.applyDml None _ (MySQL.database (db w))) as [db1 |] eqn:Happly.
    + destruct Hdb as [_ ->]. apply insert_external in Happly as [_ Hadded].
      exact Hadded.
    + destruct Hdb as [_ ->]. exists []. rewrite app_nil_r.
      split; [reflexivity | constructor].
Qed.

Lemma mapColumns_world (headers : list value) (index : nat) (row : list value)
    (rowData : RowData) (w : World) :
  fst (mapColumns config headers index row rowData w) = w.
Proof.
  revert index rowData. induction headers as [| header rest IH];
    intros index rowData; [reflexivity |].
  cbn [mapColumns]. unfold bind, dbColumnOf.
  destruct (Worker.mappingGet _ _) as [name |];
    [destruct (String.eqb name "") |];
    try destruct header; cbn; try reflexivity; apply IH.
Qed.

Lemma Run_insertRows (headers : list value) (dataRows : list (list value)) (n : Z) :
  Run AtRest wroteAsExternal
    (forEachCounting dataRows
       (fun row =>
          rowData <- mapColumns config headers 0 row [] ;;
          onDb (MySQL.insert (VStr (db_table_name config)) rowData None))
       n).
Proof.
  apply (Run_forEachCounting _ _ wroteAsExternal_refl wroteAsExternal_trans).
  intros row _. apply (Run_bind _ _ wroteAsExternal_trans).
  - intros w Hw. rewrite mapColumns_world. split; [exact Hw | apply wroteAsExternal_refl].
  - intros rowData. apply Run_insert_external.
Qed.

Lemma forEachCounting_count {V X : Type} (xs : list X) (body : X -> async V unit)
    (n m : Z) (v v' : V) :
  forEachCounting xs body n v = (v', Returned m) -> m = n + Z.of_nat (length xs).
Proof.
  revert n v. induction xs as [| x xs IH]; intros n v; cbn [forEachCounting].
  - intros [= _ <-]. cbn. lia.
  - unfold bind. destruct (body x v) as [v1 [[] | e]]; [| discriminate].
    intros Hrest. apply IH in Hrest. cbn [length]. lia.
Qed.

Lemma external_is_polled (table : string) (entry : MySQL.MySQLChangeLogEntry) :
  external table entry ->
  MySQL.changeLogWhere table DbToSheetWorker.pollOptions entry = true.
Proof.
  intros (Htag & Hprocessed & Htable). unfold MySQL.changeLogWhere.
  cbn [DbToSheetWorker.pollOptions MySQL.optProcessed MySQL.excludeSourceTag].
  rewrite Htag, Hprocessed, Htable, String.eqb_refl. reflexivity.
Qed.

(** X30: the sync that creating a configuration runs writes to the table
    as a writer from outside would.  It inserts every row the service
    answers with for the range of the configuration, below the header,
    through the adapter without a source tag: each change-log row it
    causes is tagged ['external'] and not processed, and so meets the filter
    of the poll of the table-to-sheet worker, as a row to send to the sheet
    it came from.  It records nothing in the metadata store: no sync state,
    no history.  When it returns, the number it returns is the number of
    rows of the answer below the header and the pool is closed; when an
    insert throws, the pool is left open. *)
Theorem inline_sync_looks_external (w : World) :
  let '(w', settled) := inlineSync config w in
  wroteAsExternal w w'
  /\ (forall entry,
        In entry (skipn (length (MySQL.changeLog (MySQL.database (db w))))
                    (MySQL.changeLog (MySQL.database (db w')))) ->
        MySQL.changeLogWhere (MySQL.tableName (MySQL.database (db w)))
          DbToSheetWorker.pollOptions entry = true)
  /\ match settled with
     | Returned inserted =>
         inserted
         = Z.of_nat (length (Sheets.valuesOf (Worker.sheetRange config)
                               (spreadsheet w))) - 1
         /\ MySQL.pool (MySQL.adapter (db w')) = None
     | Thrown error =>
         Sheets.online (spreadsheet w) = true ->
         Sheets.valuesOf (Worker.sheetRange config) (spreadsheet w) <> [] ->
         is_Some (MySQL.pool (MySQL.adapter (db w')))
     end.
Proof.
  assert (Hpolled : forall w',
            wroteAsExternal w w' ->
            forall entry,
              In entry (skipn (length (MySQL.changeLog (MySQL.database (db w))))
                          (MySQL.changeLog (MySQL.database (db w')))) ->
              MySQL.changeLogWhere (MySQL.tableName (MySQL.database (db w)))
                DbToSheetWorker.pollOptions entry = true).
  { intros w' (_ & _ & _ & _ & added & Hlog & Hall) entry Hin.
    rewrite Hlog, skipn_app, skipn_all, Nat.sub_diag in Hin. cbn in Hin.
    apply external_is_polled. rewrite Forall_forall in Hall. apply Hall.
    apply list_elem_of_In. exact Hin. }
  destruct (inlineSync config w) as [w' settled] eqn:Hrun.
  assert (Hgoal : wroteAsExternal w w'
            /\ match settled with
               | Returned inserted =>
                   inserted
         = Z.of_nat (length (Sheets.valuesOf (Worker.sheetRange config)
                               (spreadsheet w))) - 1
                   /\ MySQL.pool (MySQL.adapter (db w')) = None
               | Thrown error =>
                   Sheets.online (spreadsheet w) = true ->
                   Sheets.valuesOf (Worker.sheetRange config) (spreadsheet w) <> [] ->
                   is_Some (MySQL.pool (MySQL.adapter (db w')))
               end);
    [| destruct Hgoal as [Hr Hs]; split_and!; [exact Hr | apply Hpolled, Hr | exact Hs]].
  clear Hpolled.
  destruct (Sheets.online (spreadsheet w)) eqn:Honline.
  2: { assert (Hoff : inlineSync config w
                      = (withSpreadsheet (spreadsheet w) w,
                         Thrown (ThrownError "503 Service Unavailable"))).
       { unfold inlineSync, bind, onSheet, zoom, Sheets.getRange.
         rewrite Honline. reflexivity. }
       rewrite Hoff in Hrun. injection Hrun as <- <-.
       split; [| discriminate].
       unfold wroteAsExternal. cbn. split_and!; try reflexivity.
       exists []. rewrite app_nil_r. split; [reflexivity | constructor]. }
  destruct (Sheets.valuesOf (Worker.sheetRange config) (spreadsheet w))
    as [| headers dataRows] eqn:Hcells.
  { assert (Hempty : inlineSync config w
                     = (withSpreadsheet (spreadsheet w) w,
                        Thrown (ThrownError "Sheet is empty or has no data"))).
    { unfold inlineSync, bind, onSheet, zoom, Sheets.getRange.
      rewrite Honline. cbn. rewrite Hcells. reflexivity. }
    rewrite Hempty in Hrun. injection Hrun as <- <-.
    split; [| intros _ Hne; congruence].
    unfold wroteAsExternal. cbn. split_and!; try reflexivity.
    exists []. rewrite app_nil_r. split; [reflexivity | constructor]. }
  set (w2 := withDb {| MySQL.database := MySQL.database (db w);
                       MySQL.adapter := {| MySQL.adapterTableName := "";
                                           MySQL.pool := Some [] |} |}
               (withSpreadsheet (spreadsheet w) w)).
  set (insertRow := fun row : list value =>
         rowData <- mapColumns config headers 0 row [] ;;
         onDb (MySQL.insert (VStr (db_table_name config)) rowData None)).
  assert (Hshape : inlineSync config w
                   = match forEachCounting dataRows insertRow 0 w2 with
                     | (w3, Returned inserted) =>
                         (withDb (MySQL.withPool None (db w3)) w3, Returned inserted)
                     | (w3, Thrown error) => (w3, Thrown error)
                     end).
  { unfold inlineSync, bind at 1, onSheet, zoom, Sheets.getRange.
    rewrite Honline. cbn [negb fst snd Sheets.values]. rewrite Hcells.
    reflexivity. }
  assert (Hstart : AtRest w2).
  { split; [eexists; reflexivity |]. intros conns c [= <-] []. }
  assert (Hw2 : wroteAsExternal w w2).
  { unfold wroteAsExternal. cbn. split_and!; try reflexivity.
    exists []. rewrite app_nil_r. split; [reflexivity | constructor]. }
  pose proof (Run_insertRows headers dataRows 0 w2 Hstart) as Hloop.
  fold insertRow in Hloop.
  pose proof (forEachCounting_count dataRows insertRow 0) as Hcount.
  rewrite Hshape in Hrun.
  destruct (forEachCounting dataRows insertRow 0 w2) as [w3 [inserted | error]] eqn:Hrows.
  - cbn [fst] in Hloop. destruct Hloop as [_ Hr].
    specialize (Hcount inserted w2 w3 Hrows).
    injection Hrun as <- <-. split.
    + eapply wroteAsExternal_trans; [exact Hw2 |].
      eapply wroteAsExternal_trans; [exact Hr |].
      unfold wroteAsExternal. cbn. split_and!; try reflexivity.
      exists []. rewrite app_nil_r. split; [reflexivity | constructor].
    + split; [cbn [length]; lia | reflexivity].
  - cbn [fst] in Hloop. destruct Hloop as [[Hpool _] Hr].
    injection Hrun as <- <-. split.
    + eapply wroteAsExternal_trans; [exact Hw2 | exact Hr].
    + intros _ _. exact Hpool.
Qed.

End InlineSync.

(** The sheet holds a row that the table does not hold: the inline sync
    records nothing in the metadata store, and the change it logs is tagged
    ['external'], so that the poll of the table-to-sheet worker selects
    it. *)
Lemma inline_sync_looks_external_witness :
  let afterInlineSync := fst (ConfigRoutes.inlineSync usersConfig sheetOnlyWorld) in
  let log := MySQL.changeLog (MySQL.database (Metadata.db afterInlineSync)) in
  Metadata.metadata afterInlineSync = Metadata.metadata sheetOnlyWorld
  /\ map MySQL.source_tag log = [Some "external"]
  /\ MySQL.selectChangeLog "users" DbToSheetWorker.pollOptions log = log.
Proof.
  intros afterInlineSync log.
  pose proof (inline_sync_looks_external usersConfig sheetOnlyWorld) as Hrun.
  subst log afterInlineSync.
  destruct (ConfigRoutes.inlineSync usersConfig sheetOnlyWorld) as [w' settled] eqn:Hsync.
  destruct Hrun as ((Hmetadata & _) & _).
  split; [exact Hmetadata |].
  assert (Hw : w' = fst (ConfigRoutes.inlineSync usersConfig sheetOnlyWorld))
    by (rewrite Hsync; reflexivity).
  rewrite Hw. split; vm_compute; reflexivity.
Defined.
